(* ===== verification/_CoqProject ===== *)
-Q . S2P
Prelude.v
Core.v
Enums.v
Double.v
Rounding.v
Model.v
Scenario.v
Feasibility.v
Ranking.v
Cost.v
Totals.v
Enumerate.v
Assembly.v
PointToPoint.v
Multicast.v
Collective.v
Planner.v
PlanTotals.v
Determinism.v
Lifecycle.v
Revalidation.v
Broker.v
Message.v
Client.v
Codec.v
Framing.v
Transport.v
Protocol.v
Remote.v
Store.v
Persistence.v
Integrity.v
Errors.v
Coordinator.v
Suite.v
CoreTests.v
AdversarialTests.v
PropertyTests.v
LiveTests.v
Examples.v
Benchmark.v
WorkerLog.v
Machine.v
Authority.v
Service.v
Connection.v
Sockets.v
Clients.v
ConcurrencyTests.v
Archive.v
Cuda.v
CudaMemory.v
CudaPlan.v
Decidable.v
Applications.v
CudaSession.v
CudaWorker.v
