(* ===== verification/Prelude.v ===== *)
(** * Communication Planner: a verified model

    Communication Planner (src/) chooses, before any byte moves, the route of a transfer
    between endpoints of a machine (GPUs, host memory, NICs, storage): it enumerates the
    paths over the published links, filters them by hard constraints, ranks what is left
    by a deterministic cost, and hands out a plan that is bound to the generations of the
    evidence it was made from.  A coordinator process keeps the evidence its workers
    publish, plans requests, commits the staging resources of a plan with a broker,
    revalidates a plan before it is executed, fences workers that disappear and recovers
    its history from a store.  This library models that code, one file per component, and
    proves what makes it correct.  Paths below are relative to the repository's src/ and
    include/communication_planner/ directories.

    ** The parts and where they are modelled

    - [Prelude] (this file): 64-bit wrap-around, loops with early returns
      ([first_return]), strict weak orders and the stable sort, maps built from vectors
      ([index_by]), ordered sets as sorted lists, and the shared automation.
    - [Core]: core/units.hpp, identifiers.hpp, generation.hpp.  An identifier or
      generation is a [Z] in [is_u64]; decimal text needs at most 20 digits, which is the
      fuel of [Id_str].
    - [Enums]: core/enums.hpp, enums_impl.hpp, provenance.hpp, with a class [CppEnum] for
      the byte values.
    - [Double]: the IEEE binary64 operations of the cost model, by the Standard Library's
      [SpecFloat]; [Rounding] bounds what they round to.
    - [Model]: the structs of model/, path/hop.hpp, planner/snapshot.hpp and
      planner/limits.hpp, one record per struct in a module of its name; request
      validation; cost summaries.  Exceptions are values of [exn]; [result] is a value or
      an exception.
    - [Scenario]: the builders of tests/testutil.hpp and the snapshot of
      tests/test_core.cpp, on which theorems are instantiated.
    - [Feasibility]: src/feasibility.cpp, the hard filter.
    - [Ranking] and [Cost]: src/ranking.cpp with ranking/weights.hpp, and src/cost.cpp;
      [Totals] and [PlanTotals] show when the totals of paths and plans are finite.
    - [Enumerate]: [enumerateCandidatePaths] of src/planner.cpp.  The fuel of the
      depth-first search is the remaining depth [maxPathDepth - hops.size()], so running
      out of it is the source's own depth test.
    - [Assembly]: the helpers of src/planner.cpp shared through planner_internal.hpp, in
      a state and exception monad [M] over the process-wide counters.
    - [PointToPoint], [Multicast], [Collective], [Planner]: [planCommunication] and the
      plan builders of src/planner.cpp, multicast.cpp and collective.cpp.
    - [Determinism]: the equivalence of snapshots that hold the same evidence in another
      order, with [Proper] instances for every planner function.
    - [Lifecycle]: the transition table of src/lifecycle.cpp.
    - [Revalidation]: src/revalidation.cpp.
    - [Broker]: adapters/broker.hpp, the interface as a class [ResourceBroker] with its
      laws [ResourceBrokerLaws], and [MemoryResourceBroker] as its instance.  The
      coordinator is proved against the class.
    - [Message] and [Client]: the messages of protocol/protocol.hpp, and the calls of
      [CoordinatorClient] as the message they send and the reply they interpret.
    - [Codec]: the little-endian writers, readers and the FNV checksum that
      src/persistence.cpp ([Writer], [Reader], [fnv1a]) and src/protocol.cpp ([W], [R],
      [fnv]) define alike.  Bytes are integers in [is_u8]; a reader consumes a list of
      them or fails with the error its caller names; [double_of_bits] is the bit pattern
      of a binary64.
    - [Framing] and [Protocol]: the frames, and the encoding and decoding of every
      message, of src/protocol.cpp.  [carriedMessage] is the part of a message its
      encoding carries, which [message_roundtrip] makes precise.
    - [Transport]: [readExact], [writeAll], [sendFrame] and [recvFrame] of
      src/transport/tcp.hpp, over a class [Socket] whose laws are what recv() and send()
      promise of a stream; [Pipe] is an instance that cuts the stream arbitrarily.  Each
      loop moves at least a byte per turn, so the number of bytes is enough fuel
      ([transport_loops_end]).
    - [Store]: the data of persistence/persistence.hpp, [validateStore] and
      [conservativeRecovery] of src/persistence.cpp.
    - [Persistence], [Integrity] and [Errors]: [serializeStore] and [parseStore] of
      src/persistence.cpp, with the code and text of each of its errors, what the format
      guarantees against damaged bytes, and which error codes can occur.
    - [Coordinator]: src/coordinator.cpp, the server's state ([Coord.CoordState]) and one
      function per message handler.
    - [Machine]: the server as a state machine.  A step is a critical section of a thread;
      a commit takes three (decide, acquire outside the lock, conclude) and anything may
      happen in between.  [plan_move] gives the rules by which one plan may change.
    - [Authority]: the invariant on workers, boots and evidence, and fencing.
    - [Service]: the end-to-end guarantees of the coordinator; [Archive]: which of the
      checks on reading a store that the server saved can fail.
    - [Remote] and [Connection]: the planner on a request that was sent over the wire; the
      loop of [handleConnection] and the exchange of [CoordinatorClient::Impl::send], that
      is the server and its clients composed with the protocol and the transport.
    - [Sockets]: the socket handles that src/transport/tcp.hpp and the client and server
      of src/coordinator.cpp open and close, over a class [Winsock] with laws
      [WinsockLaws] on which handles are open; with freePort and waitConnect of apps/.
    - [Applications]: the coordinator, the two workers and the controller of apps/, and
      the session of apps/proof_main.cpp; [Decidable] has the decidable equality of the
      server's state that evaluating it needs.
    - [Cuda], [CudaPlan] and [CudaSession]: the kernel and the worker of
      cuda/cuda_worker_main.cu, the program cuda/cuda_plan_gated_proof.cu, and the session
      of apps/cuda_worker_death_proof.cpp, over a class [CudaRuntime] whose laws are those
      of the CUDA documentation.  The kernel's threads run in any order.
    - [CudaMemory] and [CudaWorker]: what the sequence of a worker's orders does to the
      memory of the device and the pending error of the runtime ([order], [orders]), and
      the worker's process over the bytes of its connection, from its greeting to its exit
      code ([workerMain]), against an abstract service of orders ([served]).
    - [WorkerLog]: the text that processes exchange, with the C functions that read it: the
      evidence log of a CUDA worker and the command lines of the processes that the
      programs of apps/ start.
    - [Suite], [CoreTests], [AdversarialTests], [PropertyTests], [LiveTests]: the harness
      and the suites of tests/ as programs over the modelled library; the random engine
      and std::shuffle are a class [RandomEngine].
    - [Clients] and [ConcurrencyTests]: threads of calls against the server's state
      machine, and both programs of tests/test_concurrency.cpp.
    - [Examples] and [Benchmark]: tools/cp_inspect.cpp, examples/basic.cpp,
      downstream/main.cpp and benchmarks/bench.cpp.

    ** What the theorems show

    - Planning: every path of a plan is a simple path of published links that meets every
      hard constraint, and no enumerated feasible path ranks before the primary one
      ([planCommunication_single_sound]); planning succeeds whenever a feasible path
      exists within the bounds ([planCommunication_single_complete]); likewise for
      multicast and collective requests; the outcome does not depend on the order of the
      evidence ([planCommunication_order_independent]); only documented exceptions leave
      the planner ([planCommunication_exceptions]).
    - Its parts against declarative specifications: the hard filter
      ([evaluateCandidateFeasibility_correct]), the enumeration ([enumerate_sound],
      [enumerate_complete]), the ranking ([rankFeasible_correct],
      [keyLess_well_ordered]), the cost ([evaluateCandidateCost_bounded], and with weights
      below 2^840 a finite total, [evaluateCandidateCost_finite]), request validation
      ([validate_correct]), text and integers of the core.
    - Evidence: a plan is bound to exactly the evidence it was made from
      ([planCommunication_binds]); revalidation passes exactly the plans that are still
      current ([revalidatePlan_correct]), a fresh plan among them
      ([planned_then_revalidates]).
    - The coordinator: every interleaving refines the plan state machine
      ([server_refines_plan_machine]); nothing runs on stale evidence
      ([execution_guarded]); fencing is final ([fenced_authority_is_final]); a plan that
      was offered can be executed ([submitted_plan_executes]); commits are all or nothing
      and leave nothing behind when overtaken; a restart recovers conservatively; the
      state is consistent in every reachable world ([server_invariant]); a server that is
      alone in its process closes what it opened ([server_closes_its_sockets]), and so
      does a client that connects once ([client_leaves_nothing_open]).
    - Persistence: [validateStore] accepts exactly the consistent stores, and accepts
      what the planner makes; what is serialised is read back ([store_roundtrip]), and a
      file that was cut short or changed in a byte is refused ([truncated_store_refused],
      [damaged_store_refused]) with one of a known set of codes
      ([parseStore_error_codes]); whatever is accepted is well typed ([parseStore_typed]);
      what a server saves can be read back exactly when no request identity repeats and
      its executable plans record claims ([saved_store_readable]).
    - Communication: frames and messages round trip ([frame_roundtrip],
      [message_roundtrip]), arrive whole and in order however the stream is cut
      ([frames_in_order]), and a call reaches the server and its reply the client
      ([remote_call]).  Arbitrary bytes make the server take a step of a well-typed
      message, answer with an error, or close ([hostile_bytes_harmless]), so the evidence
      it plans from stays well typed ([evidence_well_typed]).
    - The whole: the session that apps/proof_main.cpp runs passes under every
      interleaving of its workers' messages ([multiprocess_proof_passes]), with each
      message encoded, framed, received and decoded, and the store written and read back.
      A CUDA worker reports success exactly when the device did the movement
      ([cuda_worker_correct]), and both CUDA programs pass on every device that works
      ([plan_gated_proof_passes], [cuda_session_passes]).  The worker's process sends
      exactly the reports of the orders it executed, in their order
      ([cuda_worker_process]), ends whatever bytes it receives ([worker_process_ends]), and
      reports a success exactly when no order before it left memory or an error behind
      ([success_needs_clean_history]); what it logs is what the controller reads
      ([worker_log_roundtrip]), and a process that is started reads the arguments it was
      given ([children_receive_arguments]).
    - The programs around the library: the property suite passes with every random
      engine ([property_suite_passes]), the concurrency suite under every interleaving,
      in a bounded number of steps and without a stuck thread
      ([concurrency_suite_passes]), the others as they are ([core_suite_passes],
      [adversarial_suite_passes], [synthetic_tests_pass]); cp_inspect prints what a server
      saved ([cp_inspect_shows_saved]), the examples succeed
      ([shipped_programs_succeed]), and so does the benchmark ([benchmark_succeeds]).
    - Departures from the documentation are stated as theorems too: staged plans never
      pass revalidation on a coordinator, a committed direct plan makes the store
      unreadable and its history lost, finished plans can be revived, recovered plans can
      be overwritten, the end of an old connection fences a new boot, connecting twice
      leaks a socket ([reconnect_leaks_socket]), stopping can close a handle that is not
      the server's ([stop_closes_foreign_socket]), weights can overflow a total
      ([finite_weights_overflow]), one failed allocation of a CUDA worker ends its success
      for good ([failed_allocation_is_final], [leaking_worker_reports_failure]), a failed
      copy drops the order after it ([failed_copy_drops_next_order]), an order beyond the
      range of [int] is truncated ([huge_order_truncated]), and others beside the component
      they concern.

    ** Modelling choices

    Unsigned arithmetic wraps at its width where the source does not check it.  Vectors
    and [std::map]s are lists and [gmap]s; an ordered set that is iterated is a sorted
    list.  [std::sort] is modelled by a stable sort: its comparisons only tie on
    candidates with the same links, which distinct link identities exclude.  The
    difference of two NUMA distances is taken mathematically, since overflow of a signed
    [int] is undefined.  The atomic counters are explicit state.  Reading a vector out of
    range is the outcome [undefined_index], which is proved not to occur.  In the server
    sockets are numbers, and what a step sends is its result; [Connection] adds the bytes.
    The bytes of the store file are an argument of [start], and saving puts the new bytes
    in the state.  An exception that leaves a handler ends the process: there is no step.
    The masks and shifts of the codec are those of the source; a product that wraps at 64
    bits is masked.  [MemoryResourceBroker] is called
    without the lock by concurrent commits; the model takes each of its calls as atomic.

    Threads of a program step one at a time, each step a critical section of the server or
    an increment; a handler is never slower than the receive timeout.  A test that fails a
    [REQUIRE] ends with [Returned], an exception with [Thrown].

    ** Bounds and fuel

    The search of [Enumerate] has the remaining depth as fuel, the loops of [Transport] and
    [LiveTests] the number of bytes still to move ([transport_loops_end],
    [recvLoop_ends], [sendLoop_ends]), the loop of [CudaWorker] the bytes that are still to
    arrive ([worker_process_ends]), [Id_str] twenty digits.  [completes] of [Clients]
    bounds every execution by a number of steps, so nothing about it is conditional on
    returning.  Bounds of concrete scenarios are those of the programs.

    ** Not modelled

    What the operating system does: receive timeouts and the texts of system errors,
    opening and failing writes of the store and log files, spawning and killing processes (a
    killed worker is the end of its connection, a killed coordinator a new one on the same
    file), process identities, how it chooses a port, and sleeping.  The free memory of a
    device is the baseline of its worker less what that worker holds: nothing else uses the
    device.  The text of a printed double is a parameter,
    and so is the CUDA runtime.  Durations that a program measures are texts it prints. *)

From Stdlib Require Export ZArith Lia Ascii.
From stdpp Require Export base tactics option list gmap strings numbers sorting.

#[global] Open Scope Z_scope.

(** ** Automation of the development *)

Create HintDb planner.

(** Splits every boolean connective found in the context. *)
Ltac bsplit :=
  repeat match goal with
  | H : _ && _ = true |- _ => apply andb_true_iff in H; destruct H
  | H : _ || _ = false |- _ => apply orb_false_iff in H; destruct H
  | H : negb _ = true |- _ => apply negb_true_iff in H
  | H : negb _ = false |- _ => apply negb_false_iff in H
  end.

(** Case analysis on the innermost test of an [if] or [match] in the goal. *)
Ltac case_test :=
  match goal with
  | |- context [if ?b then _ else _] =>
      lazymatch b with context [if _ then _ else _] => fail | _ => destruct b eqn:? end
  | |- context [match ?o with _ => _ end] =>
      lazymatch o with context [match _ with _ => _ end] => fail | _ => destruct o eqn:? end
  end.

(** ** Unsigned machine integers *)

Definition u64_max : Z := 2 ^ 64 - 1.
Definition u32_max : Z := 2 ^ 32 - 1.

(** Unsigned arithmetic of the source wraps modulo the width. *)
Definition wrap64 (z : Z) : Z := z mod 2 ^ 64.
Definition wrap32 (z : Z) : Z := z mod 2 ^ 32.

Definition is_u64 (z : Z) : Prop := 0 <= z <= u64_max.
Definition is_u32 (z : Z) : Prop := 0 <= z <= u32_max.

#[export] Instance is_u64_dec z : Decision (is_u64 z) := ltac:(unfold is_u64; solve_decision).
#[export] Instance is_u32_dec z : Decision (is_u32 z) := ltac:(unfold is_u32; solve_decision).

Lemma wrap64_range z : is_u64 (wrap64 z).
Proof.
  unfold is_u64, u64_max, wrap64.
  pose proof (Z.mod_pos_bound z (2 ^ 64) ltac:(lia)). lia.
Qed.

Lemma wrap64_small z : is_u64 z -> wrap64 z = z.
Proof. unfold is_u64, u64_max, wrap64. intros. apply Z.mod_small. lia. Qed.

#[export] Hint Resolve wrap64_range : planner.

(** ** Loops with an early return

    [for (x : l) { if (...) return r; }] is [first_return]: the body answers
    [Some r] where the source returns [r] out of the enclosing function and
    [None] where control falls through to the next iteration. *)

Fixpoint first_return {A R} (body : A -> option R) (l : list A) : option R :=
  match l with
  | [] => None
  | x :: l' => match body x with Some r => Some r | None => first_return body l' end
  end.

Lemma first_return_None {A R} (body : A -> option R) l :
  first_return body l = None <-> Forall (fun x => body x = None) l.
Proof.
  induction l as [|x l IH]; simpl; [by split|].
  rewrite Forall_cons, <- IH. destruct (body x); intuition congruence.
Qed.

Lemma first_return_Some {A R} (body : A -> option R) l r :
  first_return body l = Some r <->
  exists l1 x l2, l = l1 ++ x :: l2 /\ Forall (fun y => body y = None) l1 /\ body x = Some r.
Proof.
  split.
  - induction l as [|x l IH]; simpl; [done|].
    destruct (body x) eqn:E; intros H.
    + simplify_eq. exists [], x, l. auto.
    + destruct (IH H) as (l1 & y & l2 & -> & ? & ?). exists (x :: l1), y, l2. auto.
  - intros (l1 & x & l2 & -> & Hl1 & Hx). induction Hl1 as [|y l1 Hy _ IH]; simpl.
    + by rewrite Hx.
    + by rewrite Hy.
Qed.

(** What every returned value satisfies, the function as a whole satisfies. *)
Lemma first_return_ind {A R} (P : R -> Prop) (body : A -> option R) l r :
  (forall x r', body x = Some r' -> P r') -> first_return body l = Some r -> P r.
Proof. rewrite first_return_Some. intros HP (? & ? & ? & _ & _ & ?). eauto. Qed.

(** A guard that answers [w], or control passing on to [k]. *)
Lemma guard_None {A} (b : bool) (w : A) k : (if b then Some w else k) = None <-> b = false /\ k = None.
Proof. destruct b; naive_solver. Qed.

(** ** Lexicographic comparison, [std::lexicographical_compare] on integers *)

Fixpoint lexb (a b : list Z) : bool :=
  match a, b with
  | _, [] => false
  | [], _ :: _ => true
  | x :: a', y :: b' => if x <? y then true else if y <? x then false else lexb a' b'
  end.

(** Reduces every integer test of the goal to its arithmetic meaning. *)
Ltac ztests :=
  repeat match goal with
  | |- context [?x <? ?y] => destruct (Z.ltb_spec x y)
  | H : context [?x <? ?y] |- _ => destruct (Z.ltb_spec x y)
  end.

Lemma lexb_irrefl a : lexb a a = false.
Proof. induction a; simpl; ztests; auto; lia. Qed.

Lemma lexb_asym a b : lexb a b = true -> lexb b a = false.
Proof.
  revert b; induction a as [|x a IH]; intros [|y b]; simpl; try done.
  ztests; intros; try done; try lia. auto.
Qed.

Lemma lexb_negtrans a b c : lexb a c = true -> lexb a b = true \/ lexb b c = true.
Proof.
  revert b c; induction a as [|x a IH]; intros [|y b] [|z c]; simpl; auto; try done.
  ztests; intros; auto; try done; try lia. 
Qed.

Lemma lexb_total a b : lexb a b = false -> lexb b a = false -> a = b.
Proof.
  revert b; induction a as [|x a IH]; intros [|y b]; simpl; try done.
  ztests; intros; try done. f_equal; [lia|auto].
Qed.

Lemma lexb_app p1 p2 s1 s2 :
  length p1 = length p2 ->
  lexb (p1 ++ s1) (p2 ++ s2) =
  if bool_decide (p1 = p2) then lexb s1 s2 else lexb p1 p2.
Proof.
  revert p2; induction p1 as [|x p1 IH]; intros [|y p2] Hl; simplify_eq/=; [done|].
  rewrite IH by done. repeat case_bool_decide; simplify_eq/=; ztests; try done; try lia.
  assert (x = y) as -> by lia. congruence.
Qed.

(** ** Stable sorting, [std::stable_sort] with a strict comparison

    The comparisons of the source are strict weak orders only on the values
    they are meant for (a NaN breaks them), so the laws are relative to a
    domain [P]. *)

Record strict_weak_on {A} (P : A -> Prop) (lt : A -> A -> bool) : Prop := {
  swo_asym : forall x y, P x -> P y -> lt x y = true -> lt y x = false;
  swo_negtrans : forall x y z, P x -> P y -> P z ->
    lt x z = true -> lt x y = true \/ lt y z = true;
}.

Lemma strict_weak_irrefl {A} (P : A -> Prop) lt x : strict_weak_on P lt -> P x -> lt x x = false.
Proof.
  intros [Ha _] Hx. destruct (lt x x) eqn:E; [|done]. by rewrite (Ha x x) in E.
Qed.

Lemma strict_weak_trans {A} (P : A -> Prop) lt x y z :
  strict_weak_on P lt -> P x -> P y -> P z ->
  lt x y = true -> lt y z = true -> lt x z = true.
Proof.
  intros [Ha Hn] Hx Hy Hz Hxy Hyz.
  destruct (Hn x z y Hx Hz Hy Hxy) as [?|Hzy]; [done|].
  by rewrite (Ha z y Hz Hy Hzy) in Hyz.
Qed.

(** A comparison of extracted keys inherits the laws of the key order. *)
Lemma strict_weak_map {A B} (P : A -> Prop) (Q : B -> Prop) (f : A -> B) lt :
  strict_weak_on Q lt -> (forall x, P x -> Q (f x)) ->
  strict_weak_on P (fun x y => lt (f x) (f y)).
Proof.
  intros [Ha Hn] Hf. split; simpl; [|intros x y z ???; apply Hn]; eauto.
Qed.

Lemma strict_weak_ext {A} (P : A -> Prop) lt1 lt2 :
  (forall x y, P x -> P y -> lt1 x y = lt2 x y) -> strict_weak_on P lt2 -> strict_weak_on P lt1.
Proof.
  intros He [Ha Hn]. split.
  - intros x y Hx Hy. rewrite !He by done. auto.
  - intros x y z Hx Hy Hz. rewrite !He by done. auto.
Qed.

Lemma lexb_strict_weak : strict_weak_on (fun _ => True) lexb.
Proof. split; intros; [by apply lexb_asym|by apply lexb_negtrans]. Qed.

Section stable_sort.
Context {A : Type} (lt : A -> A -> bool).

Fixpoint insert_stable (x : A) (l : list A) : list A :=
  match l with
  | [] => [x]
  | y :: l' => if lt y x then y :: insert_stable x l' else x :: y :: l'
  end.

Definition stable_sort (l : list A) : list A := foldr insert_stable [] l.

(** [x] may stand before [y] in the sorted result. *)
Definition not_after (x y : A) : Prop := lt y x = false.

(** Elements the comparison does not tell apart from [z]. *)
Definition tied (z x : A) : bool := negb (lt z x) && negb (lt x z).

Lemma insert_stable_perm x l : insert_stable x l ≡ₚ x :: l.
Proof.
  induction l as [|y l IH]; simpl; [done|]. destruct (lt y x); [|done].
  rewrite IH. constructor.
Qed.

Lemma stable_sort_perm l : stable_sort l ≡ₚ l.
Proof.
  induction l as [|x l IH]; simpl; [done|]. rewrite insert_stable_perm. by constructor.
Qed.

Lemma elem_of_stable_sort x l : x ∈ stable_sort l <-> x ∈ l.
Proof. by rewrite stable_sort_perm. Qed.

Lemma length_stable_sort l : length (stable_sort l) = length l.
Proof. by rewrite stable_sort_perm. Qed.

Context (P : A -> Prop) (Hswo : strict_weak_on P lt).

Lemma not_after_trans x y z :
  P x -> P y -> P z -> not_after x y -> not_after y z -> not_after x z.
Proof using Hswo.
  unfold not_after. intros Hx Hy Hz Hxy Hyz. destruct (lt z x) eqn:E; [|done].
  destruct (swo_negtrans _ _ Hswo z y x) as [?|?]; congruence.
Qed.

Lemma Forall_insert_stable (Q : A -> Prop) x l :
  Forall Q (insert_stable x l) <-> Q x /\ Forall Q l.
Proof. by rewrite insert_stable_perm, Forall_cons. Qed.

Lemma insert_stable_sorted x l :
  P x -> Forall P l -> StronglySorted not_after l -> StronglySorted not_after (insert_stable x l).
Proof using Hswo.
  intros Hx HP Hs. induction Hs as [|y l Hs IH Hy]; simpl; [by repeat constructor|].
  inversion_clear HP as [|? ? HPy HPl]. destruct (lt y x) eqn:E.
  - constructor; [by apply IH|]. apply Forall_insert_stable. split; [|done].
    apply (swo_asym _ _ Hswo); auto.
  - constructor; [by constructor|]. constructor; [done|].
    rewrite Forall_forall in Hy, HPl |- *. intros z Hz.
    apply not_after_trans with y; auto.
Qed.

Lemma stable_sort_sorted l : Forall P l -> StronglySorted not_after (stable_sort l).
Proof using Hswo.
  induction 1 as [|x l Hx HP IH]; simpl; [constructor|].
  apply insert_stable_sorted; [done| |done]. by rewrite stable_sort_perm.
Qed.

(** Ties keep their relative order. *)
Lemma insert_stable_tied z x l :
  P z -> P x -> Forall P l ->
  filter (tied z) (insert_stable x l) = filter (tied z) (x :: l).
Proof using Hswo.
  intros Hz Hx. induction 1 as [|y l Hy HP IH]; simpl; [done|].
  destruct (lt y x) eqn:E; [|done]. rewrite filter_cons, IH, !filter_cons.
  destruct (decide (tied z y)) as [Ty|], (decide (tied z x)) as [Tx|]; try done.
  exfalso. unfold tied in Ty, Tx. apply Is_true_true in Ty, Tx. bsplit.
  destruct (swo_negtrans _ _ Hswo y z x) as [?|?]; auto; congruence.
Qed.

Lemma stable_sort_tied z l :
  P z -> Forall P l -> filter (tied z) (stable_sort l) = filter (tied z) l.
Proof using Hswo.
  intros Hz. induction 1 as [|x l Hx HP IH]; simpl; [done|].
  rewrite insert_stable_tied; [|done|done|by rewrite stable_sort_perm].
  rewrite !filter_cons, IH. done.
Qed.

(** Where the input is arranged by some [R], ties keep the arrangement. *)
Definition before_by (R : A -> A -> Prop) (x y : A) : Prop :=
  not_after x y /\ (lt x y = false -> R x y).

Lemma insert_stable_arranged R x l :
  P x -> Forall P l -> Forall (R x) l ->
  StronglySorted (before_by R) l -> StronglySorted (before_by R) (insert_stable x l).
Proof using Hswo.
  intros Hx HP HR Hs. induction Hs as [|y l Hs IH Hy]; simpl; [by repeat constructor|].
  inversion_clear HP as [|? ? HPy HPl]. inversion_clear HR as [|? ? HRy HRl]. destruct (lt y x) eqn:E.
  - constructor; [by apply IH|]. apply Forall_insert_stable. split; [|done].
    split; [apply (swo_asym _ _ Hswo); auto|congruence].
  - constructor; [by constructor|]. constructor; [done|].
    rewrite Forall_forall in Hy, HPl, HRl |- *. intros z Hz. destruct (Hy z Hz).
    split; [apply not_after_trans with y|]; auto.
Qed.

Lemma stable_sort_arranged R l :
  Forall P l -> StronglySorted R l -> StronglySorted (before_by R) (stable_sort l).
Proof using Hswo.
  intros HP Hs. induction Hs as [|x l Hs IH Hx]; simpl; [constructor|].
  inversion_clear HP as [|? ? HPx HPl].
  apply insert_stable_arranged; [done|by rewrite stable_sort_perm|by rewrite stable_sort_perm|auto].
Qed.

(** Where no two elements tie, the result does not depend on the input order. *)
Lemma sorted_perm_unique l1 l2 :
  (forall x y, x ∈ l1 -> y ∈ l1 -> not_after x y -> not_after y x -> x = y) ->
  l1 ≡ₚ l2 -> StronglySorted not_after l1 -> StronglySorted not_after l2 -> l1 = l2.
Proof.
  revert l2; induction l1 as [|x l1 IH]; intros [|y l2] Hanti Hp H1 H2; try done.
  - by apply Permutation_nil_l in Hp.
  - by apply Permutation_nil_r in Hp.
  - inversion_clear H1 as [|? ? H1' Hx]. inversion_clear H2 as [|? ? H2' Hy].
    assert (x = y) as ->.
    { assert (Hyl : y ∈ x :: l1) by (rewrite Hp; left).
      assert (Hxl : x ∈ y :: l2) by (rewrite <- Hp; left).
      apply elem_of_cons in Hyl as [->|Hyl]; [done|].
      apply elem_of_cons in Hxl as [->|Hxl]; [done|].
      rewrite Forall_forall in Hx, Hy. apply Hanti; [left|by right|auto|auto]. }
    f_equal. apply Permutation_cons_inv in Hp. apply IH; auto.
    intros a b Ha Hb. apply Hanti; by right.
Qed.

Lemma stable_sort_perm_eq l1 l2 :
  Forall P l1 ->
  (forall x y, x ∈ l1 -> y ∈ l1 -> not_after x y -> not_after y x -> x = y) ->
  l1 ≡ₚ l2 -> stable_sort l1 = stable_sort l2.
Proof using Hswo.
  intros HP Hanti Hp. apply sorted_perm_unique.
  - intros x y. rewrite !elem_of_stable_sort. auto.
  - by rewrite !stable_sort_perm.
  - by apply stable_sort_sorted.
  - apply stable_sort_sorted. by rewrite <- Hp.
Qed.
End stable_sort.

(** Sorting values by a key is sorting the keys. *)
Lemma stable_sort_map {A B} (f : A -> B) lt l :
  stable_sort lt (f <$> l) = f <$> stable_sort (fun x y => lt (f x) (f y)) l.
Proof.
  assert (Hins : forall x k, insert_stable lt (f x) (f <$> k) =
                  f <$> insert_stable (fun x y => lt (f x) (f y)) x k).
  { intros x k. induction k as [|y k IH]; simpl; [done|].
    destruct (lt (f y) (f x)); csimpl; [by f_equal|done]. }
  induction l as [|x l IH]; [done|]. unfold stable_sort in *. csimpl. by rewrite IH, Hins.
Qed.

(** The head of a sorted list is not after any element. *)
Lemma StronglySorted_head {A} (R : A -> A -> Prop) x l y :
  (forall z, R z z) -> StronglySorted R (x :: l) -> y ∈ x :: l -> R x y.
Proof.
  intros Hr. inversion_clear 1 as [|? ? _ Hx]. rewrite elem_of_cons, Forall_forall in *.
  intros [->|?]; auto.
Qed.

(** An injective key on a list: equal keys, equal elements. *)
Lemma NoDup_key_inj {A B} (key : A -> B) l x y :
  NoDup (key <$> l) -> x ∈ l -> y ∈ l -> key x = key y -> x = y.
Proof.
  intros Hnd [i Hi]%list_elem_of_lookup [j Hj]%list_elem_of_lookup Hk.
  assert (i = j); [|congruence].
  apply (NoDup_lookup _ i j (key x) Hnd); rewrite list_lookup_fmap; [by rewrite Hi|by rewrite Hj; simpl; f_equal].
Qed.

(** ** Maps built from a sequence by assignment

    [for (x : l) m[key(x)] = x;] keeps, for each key, the last entry. *)

Definition index_by {A} (key : A -> Z) (l : list A) : gmap Z A :=
  foldl (fun m x => <[key x := x]> m) ∅ l.

Lemma index_by_snoc {A} (key : A -> Z) l x : index_by key (l ++ [x]) = <[key x := x]> (index_by key l).
Proof. unfold index_by. by rewrite foldl_app. Qed.

Lemma index_by_Some {A} (key : A -> Z) l k x : index_by key l !! k = Some x -> x ∈ l /\ key x = k.
Proof.
  induction l as [|y l IH] using rev_ind; [done|]. rewrite index_by_snoc, lookup_insert.
  case_decide; intros; simplify_eq; [set_solver|]. destruct (IH H0). set_solver.
Qed.

Lemma index_by_None {A} (key : A -> Z) l k : index_by key l !! k = None <-> forall x, x ∈ l -> key x <> k.
Proof.
  induction l as [|y l IH] using rev_ind; [set_solver|]. rewrite index_by_snoc, lookup_insert.
  case_decide; [split; [done|]; intros H'; exfalso; apply (H' y); set_solver|].
  rewrite IH. set_solver.
Qed.

Lemma index_by_lookup {A} (key : A -> Z) l x :
  NoDup (key <$> l) -> x ∈ l -> index_by key l !! key x = Some x.
Proof.
  intros Hnd Hx. destruct (index_by key l !! key x) as [y|] eqn:E.
  - apply index_by_Some in E as [Hy Hk]. f_equal. by apply (NoDup_key_inj key l).
  - by apply index_by_None with (x := x) in E.
Qed.

Lemma index_by_perm {A} (key : A -> Z) l1 l2 :
  NoDup (key <$> l1) -> l1 ≡ₚ l2 -> index_by key l1 = index_by key l2.
Proof.
  intros Hnd Hp. apply map_eq. intros k.
  assert (Hnd2 : NoDup (key <$> l2)) by (by rewrite <- Hp).
  destruct (index_by key l2 !! k) as [x|] eqn:E.
  - apply index_by_Some in E as [Hx <-]. apply index_by_lookup; [done|by rewrite Hp].
  - rewrite index_by_None in E |- *. intros x. rewrite Hp. auto.
Qed.

Lemma StronglySorted_fmap {A B} (R : B -> B -> Prop) (f : A -> B) l :
  StronglySorted R (f <$> l) <-> StronglySorted (fun x y => R (f x) (f y)) l.
Proof.
  induction l as [|x l IH]; csimpl; [split; constructor|].
  split; inversion_clear 1; constructor; try (by apply IH); by apply Forall_fmap.
Qed.

Lemma StronglySorted_filter {A} (R : A -> A -> Prop) (Q : A -> Prop) `{forall x, Decision (Q x)} l :
  StronglySorted R l -> StronglySorted R (filter Q l).
Proof.
  induction 1 as [|x l Hs IH Hx]; [constructor|]. rewrite filter_cons. case_decide; [|done].
  constructor; [done|]. rewrite Forall_forall in *. intros y [_ ?]%list_elem_of_filter. auto.
Qed.

Lemma imap_pair_sorted {A} (l : list A) (n : nat) :
  StronglySorted (fun p q : nat * A => (p.1 < q.1)%nat) (imap (fun i x => ((n + i)%nat, x)) l).
Proof.
  revert n; induction l as [|x l IH]; intros n; simpl; [constructor|]. constructor.
  - specialize (IH (S n)). erewrite imap_ext; [exact IH|]. intros. simpl. f_equal. lia.
  - apply Forall_forall. intros [i y] (j & ? & E & _)%elem_of_lookup_imap. simplify_eq/=. lia.
Qed.

Lemma imap_snd {A} (l : list A) : (imap pair l).*2 = l.
Proof.
  rewrite fmap_imap. induction l as [|x l IH]; csimpl; [done|]. by f_equal.
Qed.

Lemma NoDup_flat_map {A B} (f : A -> list B) l :
  NoDup l -> (forall x, x ∈ l -> NoDup (f x)) ->
  (forall x y z, x ∈ l -> y ∈ l -> z ∈ f x -> z ∈ f y -> x = y) ->
  NoDup (flat_map f l).
Proof.
  induction 1 as [|x l Hx Hnd IH]; intros Hf Hd; simpl; [constructor|].
  apply NoDup_app. split_and!; [apply Hf; left| |apply IH; [intros; apply Hf; by right|]].
  - intros z Hz Hz'. rewrite list_elem_of_In, in_flat_map in Hz'. destruct Hz' as (y & Hy & Hzy).
    apply list_elem_of_In in Hy, Hzy. apply Hx. rewrite (Hd x y z); auto; [left|by right].
  - intros a b z Ha Hb. apply Hd; by right.
Qed.

(** ** [std::set] iterated in order: strictly sorted lists with insertion *)

Section ordered_set.
Context {A : Type} (lt : A -> A -> bool).

Fixpoint set_insert (x : A) (s : list A) : list A :=
  match s with
  | [] => [x]
  | y :: s' => if lt x y then x :: y :: s' else if lt y x then y :: set_insert x s' else y :: s'
  end.

Definition set_insert_all (s l : list A) : list A := foldl (fun s x => set_insert x s) s l.

(** A strict total order, as the order of a [std::set] key is. *)
Record strict_total : Prop := {
  st_trans : forall x y z, lt x y = true -> lt y z = true -> lt x z = true;
  st_tie : forall x y, lt x y = false -> lt y x = false -> x = y;
}.

Context (Hst : strict_total).

Lemma elem_of_set_insert x y s : y ∈ set_insert x s <-> y = x \/ y ∈ s.
Proof using Hst.
  induction s as [|z s IH]; simpl; [set_solver|].
  destruct (lt x z) eqn:E1; [set_solver|]. destruct (lt z x) eqn:E2; [set_solver|].
  rewrite (st_tie Hst _ _ E1 E2). set_solver.
Qed.

Lemma set_insert_sorted x s :
  StronglySorted (fun a b => lt a b = true) s -> StronglySorted (fun a b => lt a b = true) (set_insert x s).
Proof using Hst.
  induction 1 as [|y s Hs IH Hy]; simpl; [by repeat constructor|].
  destruct (lt x y) eqn:E1; [|destruct (lt y x) eqn:E2; [|by constructor]].
  - constructor; [by constructor|]. constructor; [done|].
    eapply Forall_impl; [exact Hy|]. intros z. by apply (st_trans Hst).
  - constructor; [done|]. rewrite Forall_forall in *. intros z [->|?]%elem_of_set_insert; auto.
Qed.

Lemma elem_of_set_insert_all y s l : y ∈ set_insert_all s l <-> y ∈ s \/ y ∈ l.
Proof using Hst.
  unfold set_insert_all. revert s; induction l as [|x l IH]; intros s; simpl; [set_solver|].
  rewrite IH, elem_of_set_insert. set_solver.
Qed.

Lemma set_insert_all_sorted s l :
  StronglySorted (fun a b => lt a b = true) s ->
  StronglySorted (fun a b => lt a b = true) (set_insert_all s l).
Proof using Hst.
  unfold set_insert_all. revert s; induction l as [|x l IH]; intros s Hs; simpl; [done|].
  by apply IH, set_insert_sorted.
Qed.
End ordered_set.

(** [operator<] of a [std::pair] of integers. *)
Definition pairLess (a b : Z * Z) : bool := lexb [a.1; a.2] [b.1; b.2].

Lemma pairLess_total : strict_total pairLess.
Proof.
  unfold pairLess. split.
  - intros x y z. apply (strict_weak_trans (fun _ => True) lexb); auto using lexb_strict_weak.
  - intros [x1 x2] [y1 y2] H1 H2. pose proof (lexb_total _ _ H1 H2) as E. by simplify_eq/=.
Qed.

Lemma Zltb_total : strict_total Z.ltb.
Proof. split; intros; rewrite ?Z.ltb_lt, ?Z.ltb_ge in *; lia. Qed.

Lemma filter_all {A} (P : A -> Prop) `{forall x, Decision (P x)} l : Forall P l -> filter P l = l.
Proof. induction 1 as [|x l Hx Hl IH]; [done|]. by rewrite filter_cons_True, IH. Qed.

(** Filtering values paired with their positions. *)
Lemma filter_imap_snd {A} (b : A -> bool) (l : list A) :
  (filter (fun p : nat * A => b p.2) (imap pair l)).*2 = filter b l.
Proof.
  rewrite <- (imap_snd l) at 2. induction (imap pair l) as [|[i x] k IH]; [done|].
  csimpl. rewrite !filter_cons. simpl. case_decide; csimpl; by rewrite IH.
Qed.

(** Accumulating by steps that commute does not depend on the order. *)
Lemma foldl_perm {A B} (f : B -> A -> B) l1 l2 b :
  (forall b x y, f (f b x) y = f (f b y) x) -> l1 ≡ₚ l2 -> foldl f b l1 = foldl f b l2.
Proof.
  intros Hf Hp. revert b; induction Hp as [|x l1 l2 _ IH|x y l|l1 l2 l3 _ IH1 _ IH2]; intros b; simpl; auto.
  - by rewrite Hf.
  - by rewrite IH1.
Qed.

Lemma elem_of_concat {A} (x : A) (ls : list (list A)) : x ∈ concat ls <-> exists l, x ∈ l /\ l ∈ ls.
Proof. rewrite list_elem_of_In, in_concat. setoid_rewrite <- list_elem_of_In. naive_solver. Qed.
