(* ===== verification/Core.v ===== *)
(** * Core integers: units, identifiers and generations

    Models core/units.hpp, core/identifiers.hpp and core/generation.hpp.  Every
    identifier and every generation of the source is a [std::uint64_t] behind a
    phantom tag; here it is a [Z] in the range [is_u64], and the tag lives in the
    abbreviation that names the field's type. *)

From S2P Require Import Prelude.

(** ** Identifiers and generations *)

Abbreviation CommunicationRequestId := Z (only parsing).
Abbreviation CommunicationPlanId := Z (only parsing).
Abbreviation PathId := Z (only parsing).
Abbreviation StageId := Z (only parsing).
Abbreviation EndpointId := Z (only parsing).
Abbreviation ResourceId := Z (only parsing).
Abbreviation DeviceId := Z (only parsing).
Abbreviation NodeId := Z (only parsing).
Abbreviation CpuDomainId := Z (only parsing).
Abbreviation MemoryDomainId := Z (only parsing).
Abbreviation NicId := Z (only parsing).
Abbreviation LinkId := Z (only parsing).
Abbreviation WorkerId := Z (only parsing).
Abbreviation SourceId := Z (only parsing).

Abbreviation CommunicationRequestGeneration := Z (only parsing).
Abbreviation CommunicationPlanGeneration := Z (only parsing).
Abbreviation PathGeneration := Z (only parsing).
Abbreviation StageGeneration := Z (only parsing).
Abbreviation EndpointGeneration := Z (only parsing).
Abbreviation LinkGeneration := Z (only parsing).
Abbreviation TopologyGeneration := Z (only parsing).
Abbreviation CapabilityGeneration := Z (only parsing).
Abbreviation HealthGeneration := Z (only parsing).
Abbreviation CapacityGeneration := Z (only parsing).
Abbreviation ReservationGeneration := Z (only parsing).
Abbreviation CongestionGeneration := Z (only parsing).
Abbreviation PlacementGeneration := Z (only parsing).
Abbreviation PolicyGeneration := Z (only parsing).
Abbreviation WorkerBootId := Z (only parsing).
Abbreviation SourceBootId := Z (only parsing).
Abbreviation CoordinatorEpoch := Z (only parsing).
Abbreviation AuthorityGeneration := Z (only parsing).
Abbreviation RevalidationGeneration := Z (only parsing).

(** Units: [Bytes], [BytesPerSecond], [DurationNs]. *)
Abbreviation Bytes := Z (only parsing).
Abbreviation BytesPerSecond := Z (only parsing).
Abbreviation DurationNs := Z (only parsing).

(** [Id::isNull] and [Generation::isNull]: value zero is the null identity. *)
Definition isNull (v : Z) : bool := v =? 0.

(** [Generation::next], unsigned increment. *)
Definition Generation_next (v : Z) : Z := wrap64 (v + 1).

(** [Id::next]: a process-wide atomic counter; the state is the counter's value,
    the result the identifier it held before the [fetch_add]. *)
Definition Id_next (counter : Z) : Z * Z := (counter, wrap64 (counter + 1)).

(** ** Decimal text of identifiers *)

Definition char_code (c : ascii) : Z := Z.of_nat (nat_of_ascii c).
Definition digit_char (d : Z) : ascii := ascii_of_nat (Z.to_nat (48 + d)).

(** [std::to_string]: the digits of [v], most significant first; twenty digits
    hold every 64-bit value. *)
Fixpoint decimal_digits (fuel : nat) (v : Z) (acc : string) : string :=
  match fuel with
  | O => acc
  | S fuel' =>
      let acc' := String (digit_char (v mod 10)) acc in
      if v / 10 =? 0 then acc' else decimal_digits fuel' (v / 10) acc'
  end.

Definition Id_str (v : Z) : string := decimal_digits 20 v EmptyString.

(** The loop of [Id::fromString] and [Generation::fromString]. *)
Fixpoint fromString_loop (s : string) (v : Z) : option Z :=
  match s with
  | EmptyString => Some v
  | String c s' =>
      if (char_code c <? 48) || (57 <? char_code c) then None
      else
        let d := char_code c - 48 in
        if (u64_max - d) / 10 <? v then None
        else fromString_loop s' (wrap64 (v * 10 + d))
  end.

Definition Id_fromString (s : string) : option Z :=
  match s with
  | EmptyString => None
  | _ => fromString_loop s 0
  end.

(** ** Checked arithmetic of core/units.hpp *)

Definition checkedAdd (a b : Z) : option Z :=
  if u64_max - b <? a then None else Some (wrap64 (a + b)).

Definition checkedMul (a b : Z) : option Z :=
  if negb (a =? 0) && (u64_max / a <? b) then None else Some (wrap64 (a * b)).

Definition checkedDivCeil (a b : Z) : option Z :=
  if b =? 0 then None
  else
    let q := a / b in
    if negb (a mod b =? 0)
    then if q =? u64_max then None else Some (wrap64 (q + 1))
    else Some q.

(** ** Reference reading of decimal text *)

(** The number a non-empty digit string denotes, without any width. *)
Fixpoint decimal_from (s : string) (v : Z) : option Z :=
  match s with
  | EmptyString => Some v
  | String c s' =>
      if (48 <=? char_code c) && (char_code c <=? 57)
      then decimal_from s' (v * 10 + (char_code c - 48)) else None
  end.

Definition decimal_value (s : string) : option Z :=
  match s with EmptyString => None | _ => decimal_from s 0 end.

Lemma decimal_from_ge s v n : 0 <= v -> decimal_from s v = Some n -> v <= n.
Proof.
  revert v; induction s as [|c s IH]; simpl; intros v Hv H; [simplify_eq; lia|].
  destruct (_ && _) eqn:E; [|done]. bsplit. apply IH in H; lia.
Qed.

Lemma fromString_loop_spec s v :
  is_u64 v ->
  fromString_loop s v =
  match decimal_from s v with
  | Some n => if n <=? u64_max then Some n else None
  | None => None
  end.
Proof.
  unfold is_u64. revert v; induction s as [|c s IH]; simpl; intros v Hv.
  { destruct (Z.leb_spec v u64_max); [done|lia]. }
  destruct (Z.ltb_spec (char_code c) 48), (Z.ltb_spec 57 (char_code c));
    destruct (Z.leb_spec 48 (char_code c)), (Z.leb_spec (char_code c) 57); try lia; try done.
  simpl. set (d := char_code c - 48) in *.
  destruct (Z.ltb_spec ((u64_max - d) / 10) v) as [Ho|Ho].
  - destruct (decimal_from s (v * 10 + d)) as [n|] eqn:E; [|done].
    apply decimal_from_ge in E; [|lia].
    assert (u64_max < v * 10 + d) by (pose proof (Z.mul_succ_div_gt (u64_max - d) 10); lia).
    destruct (Z.leb_spec n u64_max); [lia|done].
  - assert (v * 10 + d <= u64_max) by (pose proof (Z.mul_div_le (u64_max - d) 10); lia).
    rewrite wrap64_small by (unfold is_u64; lia). apply IH. lia.
Qed.

Lemma char_code_digit d : 0 <= d <= 9 -> char_code (digit_char d) = 48 + d.
Proof.
  intros. unfold char_code, digit_char. rewrite nat_ascii_embedding by lia. lia.
Qed.

Lemma decimal_digits_value fuel v acc :
  0 <= v < 10 ^ Z.of_nat fuel -> (0 < fuel)%nat ->
  decimal_from (decimal_digits fuel v acc) 0 = decimal_from acc v.
Proof.
  revert v acc; induction fuel as [|fuel IH]; intros v acc Hv Hf; [lia|]. simpl.
  pose proof (Z.div_mod v 10 ltac:(lia)) as Hdm. pose proof (Z.mod_pos_bound v 10 ltac:(lia)).
  assert (Hd : forall w, decimal_from (String (digit_char (v mod 10)) acc) w =
                decimal_from acc (w * 10 + v mod 10)).
  { intros w. simpl. rewrite char_code_digit by lia.
    destruct (Z.leb_spec 48 (48 + v mod 10)), (Z.leb_spec (48 + v mod 10) 57); try lia.
    simpl. f_equal. lia. }
  destruct (Z.eqb_spec (v / 10) 0) as [E|E].
  - rewrite Hd. f_equal. lia.
  - assert (Hq : v / 10 < 10 ^ Z.of_nat fuel).
    { apply Z.div_lt_upper_bound; [lia|]. rewrite Nat2Z.inj_succ, Z.pow_succ_r in Hv; lia. }
    pose proof (Z.div_pos v 10).
    destruct fuel as [|fuel]; [simpl in Hq; lia|].
    rewrite IH by lia. rewrite Hd. f_equal. lia.
Qed.

Lemma decimal_digits_nonempty fuel v acc : (0 < fuel)%nat -> decimal_digits fuel v acc <> EmptyString.
Proof.
  revert v acc; induction fuel as [|fuel IH]; intros v acc Hf; [lia|]. simpl.
  destruct (_ =? 0); [done|]. destruct fuel; [done|]. apply IH. lia.
Qed.

(** ** Properties *)

(** [fromString] accepts exactly the non-empty decimal strings whose value
    fits in 64 bits and returns that value: no overflow is ever wrapped silently,
    and any other character or an empty string is refused. *)
Theorem Id_fromString_correct s :
  Id_fromString s =
  match decimal_value s with
  | Some n => if n <=? u64_max then Some n else None
  | None => None
  end.
Proof.
  destruct s as [|c s]; [done|]. unfold Id_fromString, decimal_value.
  apply fromString_loop_spec. unfold is_u64, u64_max. lia.
Qed.

(** Printing an identifier or generation and reading it back gives the same
    value, for every 64-bit value. *)
Theorem Id_str_roundtrip v : is_u64 v -> Id_fromString (Id_str v) = Some v.
Proof.
  intros Hv. unfold Id_fromString, Id_str.
  destruct (decimal_digits 20 v "") as [|c s] eqn:E; [by apply decimal_digits_nonempty in E; [|lia]|].
  rewrite <- E, fromString_loop_spec by (unfold is_u64, u64_max; lia).
  rewrite decimal_digits_value by (unfold is_u64, u64_max in *; simpl; lia). simpl.
  unfold is_u64 in Hv. destruct (Z.leb_spec v u64_max); [done|lia].
Qed.

Lemma Id_str_roundtrip_witness : Id_fromString (Id_str 18446744073709551615) = Some 18446744073709551615.
Proof. apply (Id_str_roundtrip 18446744073709551615). vm_compute; split; discriminate. Defined.

(** The checked operations of units.hpp return the exact mathematical result
    when it fits in 64 bits and refuse otherwise; division rounds up. *)
Theorem checked_arithmetic_exact a b :
  is_u64 a -> is_u64 b ->
  checkedAdd a b = (if a + b <=? u64_max then Some (a + b) else None) /\
  checkedMul a b = (if a * b <=? u64_max then Some (a * b) else None) /\
  checkedDivCeil a b = (if b =? 0 then None else Some ((a + b - 1) / b)).
Proof.
  unfold is_u64, u64_max. intros Ha Hb. repeat split.
  - unfold checkedAdd, u64_max.
    destruct (Z.ltb_spec (2 ^ 64 - 1 - b) a), (Z.leb_spec (a + b) (2 ^ 64 - 1)); try lia; [done|].
    by rewrite wrap64_small by (unfold is_u64, u64_max; lia).
  - unfold checkedMul, u64_max. destruct (Z.eqb_spec a 0) as [->|Ha0]; [done|]. simpl.
    pose proof (Z.mul_div_le (2 ^ 64 - 1) a ltac:(lia)).
    pose proof (Z.mul_succ_div_gt (2 ^ 64 - 1) a ltac:(lia)).
    destruct (Z.ltb_spec ((2 ^ 64 - 1) / a) b), (Z.leb_spec (a * b) (2 ^ 64 - 1));
      try done; try nia.
    by rewrite wrap64_small by (unfold is_u64, u64_max; nia).
  - unfold checkedDivCeil, u64_max. destruct (Z.eqb_spec b 0) as [|Hb0]; [done|].
    pose proof (Z.div_mod a b Hb0) as Hdm. pose proof (Z.mod_pos_bound a b ltac:(lia)).
    pose proof (Z.div_pos a b ltac:(lia) ltac:(lia)).
    destruct (Z.eqb_spec (a mod b) 0) as [E|E]; simpl.
    + f_equal. apply (Z.div_unique _ _ _ (b - 1)); lia.
    + assert (a / b < a) by (apply Z.div_lt; [|assert (b <> 1) by (intros ->; rewrite Z.mod_1_r in E; lia)]; lia).
      destruct (Z.eqb_spec (a / b) (2 ^ 64 - 1)); [lia|].
      rewrite wrap64_small by (unfold is_u64, u64_max; lia). f_equal.
      apply (Z.div_unique _ _ _ (a mod b - 1)); lia.
Qed.

Lemma checked_arithmetic_exact_witness :
  checkedAdd u64_max 1 = None /\ checkedMul 4294967296 4294967296 = None /\
  checkedDivCeil 7 2 = Some 4.
Proof.
  split; [|split].
  - apply (checked_arithmetic_exact u64_max 1); vm_compute; split; discriminate.
  - apply (checked_arithmetic_exact 4294967296 4294967296); vm_compute; split; discriminate.
  - apply (checked_arithmetic_exact 7 2); vm_compute; split; discriminate.
Defined.
