(* ===== verification/Enums.v ===== *)
(** * Enumerations

    Models core/enums.hpp, core/enums_impl.hpp and core/provenance.hpp: each scoped
    enumeration of the source is an inductive type in a module of its name (the
    enumerators of different enumerations share names such as [UNKNOWN]), with its
    [toString] and [...FromString] functions and its [std::uint8_t] value. *)

From S2P Require Import Prelude.

(** A chain of [if (s == "A") return A; if (s == "B") return B; ... return nullopt]. *)
Fixpoint string_chain {A} (table : list (string * A)) (s : string) : option A :=
  match table with
  | [] => None
  | (n, a) :: table' => if String.eqb s n then Some a else string_chain table' s
  end.

(** What the codecs rely on of an enumeration: the [std::uint8_t] an enumerator is
    cast to, and the checked cast back, which refuses a byte above the last
    enumerator. *)
Class CppEnum (A : Type) := {
  enum_values : list A;
  enum_u8 : A -> Z;
  enum_of_u8 : Z -> option A;
  enum_of_u8_spec : forall b, enum_of_u8 b = if 0 <=? b then enum_values !! Z.to_nat b else None;
  enum_u8_spec : forall a, 0 <= enum_u8 a /\ enum_values !! Z.to_nat (enum_u8 a) = Some a;
  enum_small : (length enum_values <= 255)%nat;
}.

Lemma enum_of_u8_u8 `{CppEnum A} (a : A) : enum_of_u8 (enum_u8 a) = Some a.
Proof.
  rewrite enum_of_u8_spec. destruct (enum_u8_spec a) as [Hn Hl].
  by destruct (Z.leb_spec 0 (enum_u8 a)); [|lia].
Qed.

Lemma enum_u8_range `{CppEnum A} (a : A) : 0 <= enum_u8 a <= 254.
Proof.
  destruct (enum_u8_spec a) as [? Hl]. apply lookup_lt_Some in Hl.
  pose proof enum_small. lia.
Qed.

(** Enumerators are countable, so they can key maps and be members of sets. *)
#[export] Program Instance enum_countable `{EqDecision A, CppEnum A} : Countable A :=
  inj_countable enum_u8 enum_of_u8 enum_of_u8_u8.

(** The members of a [std::set] of enumerators in iteration order. *)
Definition enum_set_elements `{EqDecision A, CppEnum A} (s : gset A) : list A :=
  filter (.∈ s) enum_values.

(** Checked cast of a byte: index into the enumerators in declaration order. *)
Definition enum_index {A} (values : list A) (b : Z) : option A :=
  if 0 <=? b then values !! Z.to_nat b else None.

Ltac solve_cpp_enum_fields :=
  first [ intros ?; reflexivity
        | intros a; destruct a; split; vm_compute; first [discriminate|reflexivity]
        | simpl; lia ].

Module EndpointKind.
Inductive EndpointKind :=
  | GPU_DEVICE
  | CPU_MEMORY
  | PINNED_HOST_MEMORY
  | NUMA_MEMORY
  | NIC
  | STORAGE
  | PROCESS
  | SERVICE
  | CACHE
  | CHECKPOINT
  | MODEL_RESIDENCY
  | STATE_LOCATION
  | UNKNOWN.
End EndpointKind.
Abbreviation EndpointKind := EndpointKind.EndpointKind.

#[export] Instance EndpointKind_eq_dec : EqDecision EndpointKind.
Proof. solve_decision. Defined.

Definition EndpointKind_u8 (k : EndpointKind) : Z :=
  match k with
  | EndpointKind.GPU_DEVICE => 0
  | EndpointKind.CPU_MEMORY => 1
  | EndpointKind.PINNED_HOST_MEMORY => 2
  | EndpointKind.NUMA_MEMORY => 3
  | EndpointKind.NIC => 4
  | EndpointKind.STORAGE => 5
  | EndpointKind.PROCESS => 6
  | EndpointKind.SERVICE => 7
  | EndpointKind.CACHE => 8
  | EndpointKind.CHECKPOINT => 9
  | EndpointKind.MODEL_RESIDENCY => 10
  | EndpointKind.STATE_LOCATION => 11
  | EndpointKind.UNKNOWN => 12
  end.

#[export] Instance EndpointKind_enum : CppEnum EndpointKind.
Proof.
  refine {| enum_values := [EndpointKind.GPU_DEVICE; EndpointKind.CPU_MEMORY; EndpointKind.PINNED_HOST_MEMORY; EndpointKind.NUMA_MEMORY; EndpointKind.NIC; EndpointKind.STORAGE; EndpointKind.PROCESS; EndpointKind.SERVICE; EndpointKind.CACHE; EndpointKind.CHECKPOINT; EndpointKind.MODEL_RESIDENCY; EndpointKind.STATE_LOCATION; EndpointKind.UNKNOWN];
    enum_u8 := EndpointKind_u8; enum_of_u8 := enum_index _ |}; solve_cpp_enum_fields.
Defined.

Definition EndpointKind_toString (k : EndpointKind) : string :=
  match k with
  | EndpointKind.GPU_DEVICE => "GPU_DEVICE"
  | EndpointKind.CPU_MEMORY => "CPU_MEMORY"
  | EndpointKind.PINNED_HOST_MEMORY => "PINNED_HOST_MEMORY"
  | EndpointKind.NUMA_MEMORY => "NUMA_MEMORY"
  | EndpointKind.NIC => "NIC"
  | EndpointKind.STORAGE => "STORAGE"
  | EndpointKind.PROCESS => "PROCESS"
  | EndpointKind.SERVICE => "SERVICE"
  | EndpointKind.CACHE => "CACHE"
  | EndpointKind.CHECKPOINT => "CHECKPOINT"
  | EndpointKind.MODEL_RESIDENCY => "MODEL_RESIDENCY"
  | EndpointKind.STATE_LOCATION => "STATE_LOCATION"
  | EndpointKind.UNKNOWN => "UNKNOWN"
  end.

Definition endpointKindFromString : string -> option EndpointKind :=
  string_chain [
    ("GPU_DEVICE", EndpointKind.GPU_DEVICE);
    ("CPU_MEMORY", EndpointKind.CPU_MEMORY);
    ("PINNED_HOST_MEMORY", EndpointKind.PINNED_HOST_MEMORY);
    ("NUMA_MEMORY", EndpointKind.NUMA_MEMORY);
    ("NIC", EndpointKind.NIC);
    ("STORAGE", EndpointKind.STORAGE);
    ("PROCESS", EndpointKind.PROCESS);
    ("SERVICE", EndpointKind.SERVICE);
    ("CACHE", EndpointKind.CACHE);
    ("CHECKPOINT", EndpointKind.CHECKPOINT);
    ("MODEL_RESIDENCY", EndpointKind.MODEL_RESIDENCY);
    ("STATE_LOCATION", EndpointKind.STATE_LOCATION);
    ("UNKNOWN", EndpointKind.UNKNOWN)].

Module LinkKind.
Inductive LinkKind :=
  | HOST_MEMORY_PATH
  | NUMA_PATH
  | PCIE_PATH
  | GPU_HOST_PATH
  | GPU_PEER_PATH
  | NVLINK_CLASS_PATH
  | NIC_PATH
  | LOOPBACK_TCP
  | NETWORK_PATH
  | STORAGE_PATH
  | SHARED_MEMORY_PATH
  | SOFTWARE_RELAY
  | COMPOSITE
  | UNKNOWN.
End LinkKind.
Abbreviation LinkKind := LinkKind.LinkKind.

#[export] Instance LinkKind_eq_dec : EqDecision LinkKind.
Proof. solve_decision. Defined.

Definition LinkKind_u8 (k : LinkKind) : Z :=
  match k with
  | LinkKind.HOST_MEMORY_PATH => 0
  | LinkKind.NUMA_PATH => 1
  | LinkKind.PCIE_PATH => 2
  | LinkKind.GPU_HOST_PATH => 3
  | LinkKind.GPU_PEER_PATH => 4
  | LinkKind.NVLINK_CLASS_PATH => 5
  | LinkKind.NIC_PATH => 6
  | LinkKind.LOOPBACK_TCP => 7
  | LinkKind.NETWORK_PATH => 8
  | LinkKind.STORAGE_PATH => 9
  | LinkKind.SHARED_MEMORY_PATH => 10
  | LinkKind.SOFTWARE_RELAY => 11
  | LinkKind.COMPOSITE => 12
  | LinkKind.UNKNOWN => 13
  end.

#[export] Instance LinkKind_enum : CppEnum LinkKind.
Proof.
  refine {| enum_values := [LinkKind.HOST_MEMORY_PATH; LinkKind.NUMA_PATH; LinkKind.PCIE_PATH; LinkKind.GPU_HOST_PATH; LinkKind.GPU_PEER_PATH; LinkKind.NVLINK_CLASS_PATH; LinkKind.NIC_PATH; LinkKind.LOOPBACK_TCP; LinkKind.NETWORK_PATH; LinkKind.STORAGE_PATH; LinkKind.SHARED_MEMORY_PATH; LinkKind.SOFTWARE_RELAY; LinkKind.COMPOSITE; LinkKind.UNKNOWN];
    enum_u8 := LinkKind_u8; enum_of_u8 := enum_index _ |}; solve_cpp_enum_fields.
Defined.

Definition LinkKind_toString (k : LinkKind) : string :=
  match k with
  | LinkKind.HOST_MEMORY_PATH => "HOST_MEMORY_PATH"
  | LinkKind.NUMA_PATH => "NUMA_PATH"
  | LinkKind.PCIE_PATH => "PCIE_PATH"
  | LinkKind.GPU_HOST_PATH => "GPU_HOST_PATH"
  | LinkKind.GPU_PEER_PATH => "GPU_PEER_PATH"
  | LinkKind.NVLINK_CLASS_PATH => "NVLINK_CLASS_PATH"
  | LinkKind.NIC_PATH => "NIC_PATH"
  | LinkKind.LOOPBACK_TCP => "LOOPBACK_TCP"
  | LinkKind.NETWORK_PATH => "NETWORK_PATH"
  | LinkKind.STORAGE_PATH => "STORAGE_PATH"
  | LinkKind.SHARED_MEMORY_PATH => "SHARED_MEMORY_PATH"
  | LinkKind.SOFTWARE_RELAY => "SOFTWARE_RELAY"
  | LinkKind.COMPOSITE => "COMPOSITE"
  | LinkKind.UNKNOWN => "UNKNOWN"
  end.

Definition linkKindFromString : string -> option LinkKind :=
  string_chain [
    ("HOST_MEMORY_PATH", LinkKind.HOST_MEMORY_PATH);
    ("NUMA_PATH", LinkKind.NUMA_PATH);
    ("PCIE_PATH", LinkKind.PCIE_PATH);
    ("GPU_HOST_PATH", LinkKind.GPU_HOST_PATH);
    ("GPU_PEER_PATH", LinkKind.GPU_PEER_PATH);
    ("NVLINK_CLASS_PATH", LinkKind.NVLINK_CLASS_PATH);
    ("NIC_PATH", LinkKind.NIC_PATH);
    ("LOOPBACK_TCP", LinkKind.LOOPBACK_TCP);
    ("NETWORK_PATH", LinkKind.NETWORK_PATH);
    ("STORAGE_PATH", LinkKind.STORAGE_PATH);
    ("SHARED_MEMORY_PATH", LinkKind.SHARED_MEMORY_PATH);
    ("SOFTWARE_RELAY", LinkKind.SOFTWARE_RELAY);
    ("COMPOSITE", LinkKind.COMPOSITE);
    ("UNKNOWN", LinkKind.UNKNOWN)].

Module Transport.
Inductive Transport :=
  | LOOPBACK_TCP
  | TCP
  | UNIX_SOCKET
  | SHARED_MEMORY
  | PCIE
  | NVLINK
  | GPU_PEER
  | HOST_MEMORY
  | NETWORK
  | STORAGE
  | CUDA
  | RDMA
  | UNKNOWN.
End Transport.
Abbreviation Transport := Transport.Transport.

#[export] Instance Transport_eq_dec : EqDecision Transport.
Proof. solve_decision. Defined.

Definition Transport_u8 (k : Transport) : Z :=
  match k with
  | Transport.LOOPBACK_TCP => 0
  | Transport.TCP => 1
  | Transport.UNIX_SOCKET => 2
  | Transport.SHARED_MEMORY => 3
  | Transport.PCIE => 4
  | Transport.NVLINK => 5
  | Transport.GPU_PEER => 6
  | Transport.HOST_MEMORY => 7
  | Transport.NETWORK => 8
  | Transport.STORAGE => 9
  | Transport.CUDA => 10
  | Transport.RDMA => 11
  | Transport.UNKNOWN => 12
  end.

#[export] Instance Transport_enum : CppEnum Transport.
Proof.
  refine {| enum_values := [Transport.LOOPBACK_TCP; Transport.TCP; Transport.UNIX_SOCKET; Transport.SHARED_MEMORY; Transport.PCIE; Transport.NVLINK; Transport.GPU_PEER; Transport.HOST_MEMORY; Transport.NETWORK; Transport.STORAGE; Transport.CUDA; Transport.RDMA; Transport.UNKNOWN];
    enum_u8 := Transport_u8; enum_of_u8 := enum_index _ |}; solve_cpp_enum_fields.
Defined.

Definition Transport_toString (k : Transport) : string :=
  match k with
  | Transport.LOOPBACK_TCP => "LOOPBACK_TCP"
  | Transport.TCP => "TCP"
  | Transport.UNIX_SOCKET => "UNIX_SOCKET"
  | Transport.SHARED_MEMORY => "SHARED_MEMORY"
  | Transport.PCIE => "PCIE"
  | Transport.NVLINK => "NVLINK"
  | Transport.GPU_PEER => "GPU_PEER"
  | Transport.HOST_MEMORY => "HOST_MEMORY"
  | Transport.NETWORK => "NETWORK"
  | Transport.STORAGE => "STORAGE"
  | Transport.CUDA => "CUDA"
  | Transport.RDMA => "RDMA"
  | Transport.UNKNOWN => "UNKNOWN"
  end.

Definition transportFromString : string -> option Transport :=
  string_chain [
    ("LOOPBACK_TCP", Transport.LOOPBACK_TCP);
    ("TCP", Transport.TCP);
    ("UNIX_SOCKET", Transport.UNIX_SOCKET);
    ("SHARED_MEMORY", Transport.SHARED_MEMORY);
    ("PCIE", Transport.PCIE);
    ("NVLINK", Transport.NVLINK);
    ("GPU_PEER", Transport.GPU_PEER);
    ("HOST_MEMORY", Transport.HOST_MEMORY);
    ("NETWORK", Transport.NETWORK);
    ("STORAGE", Transport.STORAGE);
    ("CUDA", Transport.CUDA);
    ("RDMA", Transport.RDMA);
    ("UNKNOWN", Transport.UNKNOWN)].

Module RequestShape.
Inductive RequestShape :=
  | POINT_TO_POINT
  | STAGED
  | MULTICAST
  | COLLECTIVE
  | UNKNOWN.
End RequestShape.
Abbreviation RequestShape := RequestShape.RequestShape.

#[export] Instance RequestShape_eq_dec : EqDecision RequestShape.
Proof. solve_decision. Defined.

Definition RequestShape_u8 (k : RequestShape) : Z :=
  match k with
  | RequestShape.POINT_TO_POINT => 0
  | RequestShape.STAGED => 1
  | RequestShape.MULTICAST => 2
  | RequestShape.COLLECTIVE => 3
  | RequestShape.UNKNOWN => 4
  end.

#[export] Instance RequestShape_enum : CppEnum RequestShape.
Proof.
  refine {| enum_values := [RequestShape.POINT_TO_POINT; RequestShape.STAGED; RequestShape.MULTICAST; RequestShape.COLLECTIVE; RequestShape.UNKNOWN];
    enum_u8 := RequestShape_u8; enum_of_u8 := enum_index _ |}; solve_cpp_enum_fields.
Defined.

Definition RequestShape_toString (k : RequestShape) : string :=
  match k with
  | RequestShape.POINT_TO_POINT => "POINT_TO_POINT"
  | RequestShape.STAGED => "STAGED"
  | RequestShape.MULTICAST => "MULTICAST"
  | RequestShape.COLLECTIVE => "COLLECTIVE"
  | RequestShape.UNKNOWN => "UNKNOWN"
  end.

Definition requestShapeFromString : string -> option RequestShape :=
  string_chain [
    ("POINT_TO_POINT", RequestShape.POINT_TO_POINT);
    ("STAGED", RequestShape.STAGED);
    ("MULTICAST", RequestShape.MULTICAST);
    ("COLLECTIVE", RequestShape.COLLECTIVE);
    ("UNKNOWN", RequestShape.UNKNOWN)].

Module Direction.
Inductive Direction :=
  | FORWARD
  | REVERSE
  | BIDIRECTIONAL.
End Direction.
Abbreviation Direction := Direction.Direction.

#[export] Instance Direction_eq_dec : EqDecision Direction.
Proof. solve_decision. Defined.

Definition Direction_u8 (k : Direction) : Z :=
  match k with
  | Direction.FORWARD => 0
  | Direction.REVERSE => 1
  | Direction.BIDIRECTIONAL => 2
  end.

#[export] Instance Direction_enum : CppEnum Direction.
Proof.
  refine {| enum_values := [Direction.FORWARD; Direction.REVERSE; Direction.BIDIRECTIONAL];
    enum_u8 := Direction_u8; enum_of_u8 := enum_index _ |}; solve_cpp_enum_fields.
Defined.

Module CollectiveShape.
Inductive CollectiveShape :=
  | ALL_REDUCE
  | ALL_GATHER
  | REDUCE_SCATTER
  | BROADCAST
  | GATHER
  | SCATTER
  | ALL_TO_ALL
  | HIERARCHICAL
  | UNKNOWN.
End CollectiveShape.
Abbreviation CollectiveShape := CollectiveShape.CollectiveShape.

#[export] Instance CollectiveShape_eq_dec : EqDecision CollectiveShape.
Proof. solve_decision. Defined.

Definition CollectiveShape_u8 (k : CollectiveShape) : Z :=
  match k with
  | CollectiveShape.ALL_REDUCE => 0
  | CollectiveShape.ALL_GATHER => 1
  | CollectiveShape.REDUCE_SCATTER => 2
  | CollectiveShape.BROADCAST => 3
  | CollectiveShape.GATHER => 4
  | CollectiveShape.SCATTER => 5
  | CollectiveShape.ALL_TO_ALL => 6
  | CollectiveShape.HIERARCHICAL => 7
  | CollectiveShape.UNKNOWN => 8
  end.

#[export] Instance CollectiveShape_enum : CppEnum CollectiveShape.
Proof.
  refine {| enum_values := [CollectiveShape.ALL_REDUCE; CollectiveShape.ALL_GATHER; CollectiveShape.REDUCE_SCATTER; CollectiveShape.BROADCAST; CollectiveShape.GATHER; CollectiveShape.SCATTER; CollectiveShape.ALL_TO_ALL; CollectiveShape.HIERARCHICAL; CollectiveShape.UNKNOWN];
    enum_u8 := CollectiveShape_u8; enum_of_u8 := enum_index _ |}; solve_cpp_enum_fields.
Defined.

Definition CollectiveShape_toString (k : CollectiveShape) : string :=
  match k with
  | CollectiveShape.ALL_REDUCE => "ALL_REDUCE"
  | CollectiveShape.ALL_GATHER => "ALL_GATHER"
  | CollectiveShape.REDUCE_SCATTER => "REDUCE_SCATTER"
  | CollectiveShape.BROADCAST => "BROADCAST"
  | CollectiveShape.GATHER => "GATHER"
  | CollectiveShape.SCATTER => "SCATTER"
  | CollectiveShape.ALL_TO_ALL => "ALL_TO_ALL"
  | CollectiveShape.HIERARCHICAL => "HIERARCHICAL"
  | CollectiveShape.UNKNOWN => "UNKNOWN"
  end.

Definition collectiveShapeFromString : string -> option CollectiveShape :=
  string_chain [
    ("ALL_REDUCE", CollectiveShape.ALL_REDUCE);
    ("ALL_GATHER", CollectiveShape.ALL_GATHER);
    ("REDUCE_SCATTER", CollectiveShape.REDUCE_SCATTER);
    ("BROADCAST", CollectiveShape.BROADCAST);
    ("GATHER", CollectiveShape.GATHER);
    ("SCATTER", CollectiveShape.SCATTER);
    ("ALL_TO_ALL", CollectiveShape.ALL_TO_ALL);
    ("HIERARCHICAL", CollectiveShape.HIERARCHICAL);
    ("UNKNOWN", CollectiveShape.UNKNOWN)].

Module PlanState.
Inductive PlanState :=
  | REQUESTED
  | DISCOVERING
  | CONSTRUCTING
  | FILTERING
  | RANKING
  | PLAN_READY
  | AWAITING_RESOURCE_COMMIT
  | COMMITTED
  | AWAITING_EXECUTION
  | ACTIVE
  | REVALIDATION_REQUIRED
  | COMPLETED
  | CANCELLED
  | FAILED
  | SUPERSEDED
  | RETIRED.
End PlanState.
Abbreviation PlanState := PlanState.PlanState.

#[export] Instance PlanState_eq_dec : EqDecision PlanState.
Proof. solve_decision. Defined.

Definition PlanState_u8 (k : PlanState) : Z :=
  match k with
  | PlanState.REQUESTED => 0
  | PlanState.DISCOVERING => 1
  | PlanState.CONSTRUCTING => 2
  | PlanState.FILTERING => 3
  | PlanState.RANKING => 4
  | PlanState.PLAN_READY => 5
  | PlanState.AWAITING_RESOURCE_COMMIT => 6
  | PlanState.COMMITTED => 7
  | PlanState.AWAITING_EXECUTION => 8
  | PlanState.ACTIVE => 9
  | PlanState.REVALIDATION_REQUIRED => 10
  | PlanState.COMPLETED => 11
  | PlanState.CANCELLED => 12
  | PlanState.FAILED => 13
  | PlanState.SUPERSEDED => 14
  | PlanState.RETIRED => 15
  end.

#[export] Instance PlanState_enum : CppEnum PlanState.
Proof.
  refine {| enum_values := [PlanState.REQUESTED; PlanState.DISCOVERING; PlanState.CONSTRUCTING; PlanState.FILTERING; PlanState.RANKING; PlanState.PLAN_READY; PlanState.AWAITING_RESOURCE_COMMIT; PlanState.COMMITTED; PlanState.AWAITING_EXECUTION; PlanState.ACTIVE; PlanState.REVALIDATION_REQUIRED; PlanState.COMPLETED; PlanState.CANCELLED; PlanState.FAILED; PlanState.SUPERSEDED; PlanState.RETIRED];
    enum_u8 := PlanState_u8; enum_of_u8 := enum_index _ |}; solve_cpp_enum_fields.
Defined.

Definition PlanState_toString (k : PlanState) : string :=
  match k with
  | PlanState.REQUESTED => "REQUESTED"
  | PlanState.DISCOVERING => "DISCOVERING"
  | PlanState.CONSTRUCTING => "CONSTRUCTING"
  | PlanState.FILTERING => "FILTERING"
  | PlanState.RANKING => "RANKING"
  | PlanState.PLAN_READY => "PLAN_READY"
  | PlanState.AWAITING_RESOURCE_COMMIT => "AWAITING_RESOURCE_COMMIT"
  | PlanState.COMMITTED => "COMMITTED"
  | PlanState.AWAITING_EXECUTION => "AWAITING_EXECUTION"
  | PlanState.ACTIVE => "ACTIVE"
  | PlanState.REVALIDATION_REQUIRED => "REVALIDATION_REQUIRED"
  | PlanState.COMPLETED => "COMPLETED"
  | PlanState.CANCELLED => "CANCELLED"
  | PlanState.FAILED => "FAILED"
  | PlanState.SUPERSEDED => "SUPERSEDED"
  | PlanState.RETIRED => "RETIRED"
  end.

Definition planStateFromString : string -> option PlanState :=
  string_chain [
    ("REQUESTED", PlanState.REQUESTED);
    ("DISCOVERING", PlanState.DISCOVERING);
    ("CONSTRUCTING", PlanState.CONSTRUCTING);
    ("FILTERING", PlanState.FILTERING);
    ("RANKING", PlanState.RANKING);
    ("PLAN_READY", PlanState.PLAN_READY);
    ("AWAITING_RESOURCE_COMMIT", PlanState.AWAITING_RESOURCE_COMMIT);
    ("COMMITTED", PlanState.COMMITTED);
    ("AWAITING_EXECUTION", PlanState.AWAITING_EXECUTION);
    ("ACTIVE", PlanState.ACTIVE);
    ("REVALIDATION_REQUIRED", PlanState.REVALIDATION_REQUIRED);
    ("COMPLETED", PlanState.COMPLETED);
    ("CANCELLED", PlanState.CANCELLED);
    ("FAILED", PlanState.FAILED);
    ("SUPERSEDED", PlanState.SUPERSEDED);
    ("RETIRED", PlanState.RETIRED)].

Module Feasibility.
Inductive Feasibility :=
  | FEASIBLE
  | REJECT_ENDPOINT
  | REJECT_STALE_ENDPOINT
  | REJECT_CAPABILITY
  | REJECT_TRANSPORT
  | REJECT_TOPOLOGY
  | REJECT_DIRECTION
  | REJECT_CAPACITY
  | REJECT_RESERVATION
  | REJECT_CONGESTION_HARD_LIMIT
  | REJECT_HEALTH
  | REJECT_STAGE_LIMIT
  | REJECT_FAILURE_DOMAIN
  | REJECT_POLICY
  | REVALIDATION_REQUIRED
  | INSUFFICIENT_EVIDENCE
  | UNKNOWN.
End Feasibility.
Abbreviation Feasibility := Feasibility.Feasibility.

#[export] Instance Feasibility_eq_dec : EqDecision Feasibility.
Proof. solve_decision. Defined.

Definition Feasibility_u8 (k : Feasibility) : Z :=
  match k with
  | Feasibility.FEASIBLE => 0
  | Feasibility.REJECT_ENDPOINT => 1
  | Feasibility.REJECT_STALE_ENDPOINT => 2
  | Feasibility.REJECT_CAPABILITY => 3
  | Feasibility.REJECT_TRANSPORT => 4
  | Feasibility.REJECT_TOPOLOGY => 5
  | Feasibility.REJECT_DIRECTION => 6
  | Feasibility.REJECT_CAPACITY => 7
  | Feasibility.REJECT_RESERVATION => 8
  | Feasibility.REJECT_CONGESTION_HARD_LIMIT => 9
  | Feasibility.REJECT_HEALTH => 10
  | Feasibility.REJECT_STAGE_LIMIT => 11
  | Feasibility.REJECT_FAILURE_DOMAIN => 12
  | Feasibility.REJECT_POLICY => 13
  | Feasibility.REVALIDATION_REQUIRED => 14
  | Feasibility.INSUFFICIENT_EVIDENCE => 15
  | Feasibility.UNKNOWN => 16
  end.

#[export] Instance Feasibility_enum : CppEnum Feasibility.
Proof.
  refine {| enum_values := [Feasibility.FEASIBLE; Feasibility.REJECT_ENDPOINT; Feasibility.REJECT_STALE_ENDPOINT; Feasibility.REJECT_CAPABILITY; Feasibility.REJECT_TRANSPORT; Feasibility.REJECT_TOPOLOGY; Feasibility.REJECT_DIRECTION; Feasibility.REJECT_CAPACITY; Feasibility.REJECT_RESERVATION; Feasibility.REJECT_CONGESTION_HARD_LIMIT; Feasibility.REJECT_HEALTH; Feasibility.REJECT_STAGE_LIMIT; Feasibility.REJECT_FAILURE_DOMAIN; Feasibility.REJECT_POLICY; Feasibility.REVALIDATION_REQUIRED; Feasibility.INSUFFICIENT_EVIDENCE; Feasibility.UNKNOWN];
    enum_u8 := Feasibility_u8; enum_of_u8 := enum_index _ |}; solve_cpp_enum_fields.
Defined.

Definition Feasibility_toString (k : Feasibility) : string :=
  match k with
  | Feasibility.FEASIBLE => "FEASIBLE"
  | Feasibility.REJECT_ENDPOINT => "REJECT_ENDPOINT"
  | Feasibility.REJECT_STALE_ENDPOINT => "REJECT_STALE_ENDPOINT"
  | Feasibility.REJECT_CAPABILITY => "REJECT_CAPABILITY"
  | Feasibility.REJECT_TRANSPORT => "REJECT_TRANSPORT"
  | Feasibility.REJECT_TOPOLOGY => "REJECT_TOPOLOGY"
  | Feasibility.REJECT_DIRECTION => "REJECT_DIRECTION"
  | Feasibility.REJECT_CAPACITY => "REJECT_CAPACITY"
  | Feasibility.REJECT_RESERVATION => "REJECT_RESERVATION"
  | Feasibility.REJECT_CONGESTION_HARD_LIMIT => "REJECT_CONGESTION_HARD_LIMIT"
  | Feasibility.REJECT_HEALTH => "REJECT_HEALTH"
  | Feasibility.REJECT_STAGE_LIMIT => "REJECT_STAGE_LIMIT"
  | Feasibility.REJECT_FAILURE_DOMAIN => "REJECT_FAILURE_DOMAIN"
  | Feasibility.REJECT_POLICY => "REJECT_POLICY"
  | Feasibility.REVALIDATION_REQUIRED => "REVALIDATION_REQUIRED"
  | Feasibility.INSUFFICIENT_EVIDENCE => "INSUFFICIENT_EVIDENCE"
  | Feasibility.UNKNOWN => "UNKNOWN"
  end.

Definition feasibilityFromString : string -> option Feasibility :=
  string_chain [
    ("FEASIBLE", Feasibility.FEASIBLE);
    ("REJECT_ENDPOINT", Feasibility.REJECT_ENDPOINT);
    ("REJECT_STALE_ENDPOINT", Feasibility.REJECT_STALE_ENDPOINT);
    ("REJECT_CAPABILITY", Feasibility.REJECT_CAPABILITY);
    ("REJECT_TRANSPORT", Feasibility.REJECT_TRANSPORT);
    ("REJECT_TOPOLOGY", Feasibility.REJECT_TOPOLOGY);
    ("REJECT_DIRECTION", Feasibility.REJECT_DIRECTION);
    ("REJECT_CAPACITY", Feasibility.REJECT_CAPACITY);
    ("REJECT_RESERVATION", Feasibility.REJECT_RESERVATION);
    ("REJECT_CONGESTION_HARD_LIMIT", Feasibility.REJECT_CONGESTION_HARD_LIMIT);
    ("REJECT_HEALTH", Feasibility.REJECT_HEALTH);
    ("REJECT_STAGE_LIMIT", Feasibility.REJECT_STAGE_LIMIT);
    ("REJECT_FAILURE_DOMAIN", Feasibility.REJECT_FAILURE_DOMAIN);
    ("REJECT_POLICY", Feasibility.REJECT_POLICY);
    ("REVALIDATION_REQUIRED", Feasibility.REVALIDATION_REQUIRED);
    ("INSUFFICIENT_EVIDENCE", Feasibility.INSUFFICIENT_EVIDENCE);
    ("UNKNOWN", Feasibility.UNKNOWN)].

Module CostFactor.
Inductive CostFactor :=
  | TOTAL_EXPECTED_COMPLETION_COST
  | PATH_LATENCY
  | EFFECTIVE_BANDWIDTH
  | RESIDUAL_BANDWIDTH
  | CONGESTION_PENALTY
  | QUEUEING_ESTIMATE
  | HOP_COUNT
  | STAGE_COUNT
  | STAGING_OVERHEAD
  | HOST_STAGING_COST
  | NUMA_DISTANCE
  | PCIE_LOCALITY
  | NIC_LOCALITY
  | STORAGE_LOCALITY
  | ENDPOINT_HEALTH
  | RESERVATION_FIT
  | CAPACITY_HEADROOM
  | FAILURE_DOMAIN_RISK
  | RELIABILITY
  | MOVEMENT_COST
  | POLICY_PREFERENCE
  | UNKNOWN.
End CostFactor.
Abbreviation CostFactor := CostFactor.CostFactor.

#[export] Instance CostFactor_eq_dec : EqDecision CostFactor.
Proof. solve_decision. Defined.

Definition CostFactor_u8 (k : CostFactor) : Z :=
  match k with
  | CostFactor.TOTAL_EXPECTED_COMPLETION_COST => 0
  | CostFactor.PATH_LATENCY => 1
  | CostFactor.EFFECTIVE_BANDWIDTH => 2
  | CostFactor.RESIDUAL_BANDWIDTH => 3
  | CostFactor.CONGESTION_PENALTY => 4
  | CostFactor.QUEUEING_ESTIMATE => 5
  | CostFactor.HOP_COUNT => 6
  | CostFactor.STAGE_COUNT => 7
  | CostFactor.STAGING_OVERHEAD => 8
  | CostFactor.HOST_STAGING_COST => 9
  | CostFactor.NUMA_DISTANCE => 10
  | CostFactor.PCIE_LOCALITY => 11
  | CostFactor.NIC_LOCALITY => 12
  | CostFactor.STORAGE_LOCALITY => 13
  | CostFactor.ENDPOINT_HEALTH => 14
  | CostFactor.RESERVATION_FIT => 15
  | CostFactor.CAPACITY_HEADROOM => 16
  | CostFactor.FAILURE_DOMAIN_RISK => 17
  | CostFactor.RELIABILITY => 18
  | CostFactor.MOVEMENT_COST => 19
  | CostFactor.POLICY_PREFERENCE => 20
  | CostFactor.UNKNOWN => 21
  end.

#[export] Instance CostFactor_enum : CppEnum CostFactor.
Proof.
  refine {| enum_values := [CostFactor.TOTAL_EXPECTED_COMPLETION_COST; CostFactor.PATH_LATENCY; CostFactor.EFFECTIVE_BANDWIDTH; CostFactor.RESIDUAL_BANDWIDTH; CostFactor.CONGESTION_PENALTY; CostFactor.QUEUEING_ESTIMATE; CostFactor.HOP_COUNT; CostFactor.STAGE_COUNT; CostFactor.STAGING_OVERHEAD; CostFactor.HOST_STAGING_COST; CostFactor.NUMA_DISTANCE; CostFactor.PCIE_LOCALITY; CostFactor.NIC_LOCALITY; CostFactor.STORAGE_LOCALITY; CostFactor.ENDPOINT_HEALTH; CostFactor.RESERVATION_FIT; CostFactor.CAPACITY_HEADROOM; CostFactor.FAILURE_DOMAIN_RISK; CostFactor.RELIABILITY; CostFactor.MOVEMENT_COST; CostFactor.POLICY_PREFERENCE; CostFactor.UNKNOWN];
    enum_u8 := CostFactor_u8; enum_of_u8 := enum_index _ |}; solve_cpp_enum_fields.
Defined.

Definition CostFactor_toString (k : CostFactor) : string :=
  match k with
  | CostFactor.TOTAL_EXPECTED_COMPLETION_COST => "TOTAL_EXPECTED_COMPLETION_COST"
  | CostFactor.PATH_LATENCY => "PATH_LATENCY"
  | CostFactor.EFFECTIVE_BANDWIDTH => "EFFECTIVE_BANDWIDTH"
  | CostFactor.RESIDUAL_BANDWIDTH => "RESIDUAL_BANDWIDTH"
  | CostFactor.CONGESTION_PENALTY => "CONGESTION_PENALTY"
  | CostFactor.QUEUEING_ESTIMATE => "QUEUEING_ESTIMATE"
  | CostFactor.HOP_COUNT => "HOP_COUNT"
  | CostFactor.STAGE_COUNT => "STAGE_COUNT"
  | CostFactor.STAGING_OVERHEAD => "STAGING_OVERHEAD"
  | CostFactor.HOST_STAGING_COST => "HOST_STAGING_COST"
  | CostFactor.NUMA_DISTANCE => "NUMA_DISTANCE"
  | CostFactor.PCIE_LOCALITY => "PCIE_LOCALITY"
  | CostFactor.NIC_LOCALITY => "NIC_LOCALITY"
  | CostFactor.STORAGE_LOCALITY => "STORAGE_LOCALITY"
  | CostFactor.ENDPOINT_HEALTH => "ENDPOINT_HEALTH"
  | CostFactor.RESERVATION_FIT => "RESERVATION_FIT"
  | CostFactor.CAPACITY_HEADROOM => "CAPACITY_HEADROOM"
  | CostFactor.FAILURE_DOMAIN_RISK => "FAILURE_DOMAIN_RISK"
  | CostFactor.RELIABILITY => "RELIABILITY"
  | CostFactor.MOVEMENT_COST => "MOVEMENT_COST"
  | CostFactor.POLICY_PREFERENCE => "POLICY_PREFERENCE"
  | CostFactor.UNKNOWN => "UNKNOWN"
  end.

Definition costFactorFromString : string -> option CostFactor :=
  string_chain [
    ("TOTAL_EXPECTED_COMPLETION_COST", CostFactor.TOTAL_EXPECTED_COMPLETION_COST);
    ("PATH_LATENCY", CostFactor.PATH_LATENCY);
    ("EFFECTIVE_BANDWIDTH", CostFactor.EFFECTIVE_BANDWIDTH);
    ("RESIDUAL_BANDWIDTH", CostFactor.RESIDUAL_BANDWIDTH);
    ("CONGESTION_PENALTY", CostFactor.CONGESTION_PENALTY);
    ("QUEUEING_ESTIMATE", CostFactor.QUEUEING_ESTIMATE);
    ("HOP_COUNT", CostFactor.HOP_COUNT);
    ("STAGE_COUNT", CostFactor.STAGE_COUNT);
    ("STAGING_OVERHEAD", CostFactor.STAGING_OVERHEAD);
    ("HOST_STAGING_COST", CostFactor.HOST_STAGING_COST);
    ("NUMA_DISTANCE", CostFactor.NUMA_DISTANCE);
    ("PCIE_LOCALITY", CostFactor.PCIE_LOCALITY);
    ("NIC_LOCALITY", CostFactor.NIC_LOCALITY);
    ("STORAGE_LOCALITY", CostFactor.STORAGE_LOCALITY);
    ("ENDPOINT_HEALTH", CostFactor.ENDPOINT_HEALTH);
    ("RESERVATION_FIT", CostFactor.RESERVATION_FIT);
    ("CAPACITY_HEADROOM", CostFactor.CAPACITY_HEADROOM);
    ("FAILURE_DOMAIN_RISK", CostFactor.FAILURE_DOMAIN_RISK);
    ("RELIABILITY", CostFactor.RELIABILITY);
    ("MOVEMENT_COST", CostFactor.MOVEMENT_COST);
    ("POLICY_PREFERENCE", CostFactor.POLICY_PREFERENCE);
    ("UNKNOWN", CostFactor.UNKNOWN)].

Module Provenance.
Inductive Provenance :=
  | MEASURED
  | REPORTED
  | DERIVED
  | ESTIMATED
  | FORECAST
  | SYNTHETIC
  | UNKNOWN.
End Provenance.
Abbreviation Provenance := Provenance.Provenance.

#[export] Instance Provenance_eq_dec : EqDecision Provenance.
Proof. solve_decision. Defined.

Definition Provenance_u8 (k : Provenance) : Z :=
  match k with
  | Provenance.MEASURED => 0
  | Provenance.REPORTED => 1
  | Provenance.DERIVED => 2
  | Provenance.ESTIMATED => 3
  | Provenance.FORECAST => 4
  | Provenance.SYNTHETIC => 5
  | Provenance.UNKNOWN => 6
  end.

#[export] Instance Provenance_enum : CppEnum Provenance.
Proof.
  refine {| enum_values := [Provenance.MEASURED; Provenance.REPORTED; Provenance.DERIVED; Provenance.ESTIMATED; Provenance.FORECAST; Provenance.SYNTHETIC; Provenance.UNKNOWN];
    enum_u8 := Provenance_u8; enum_of_u8 := enum_index _ |}; solve_cpp_enum_fields.
Defined.

Definition Provenance_toString (k : Provenance) : string :=
  match k with
  | Provenance.MEASURED => "MEASURED"
  | Provenance.REPORTED => "REPORTED"
  | Provenance.DERIVED => "DERIVED"
  | Provenance.ESTIMATED => "ESTIMATED"
  | Provenance.FORECAST => "FORECAST"
  | Provenance.SYNTHETIC => "SYNTHETIC"
  | Provenance.UNKNOWN => "UNKNOWN"
  end.

Definition provenanceFromString : string -> option Provenance :=
  string_chain [
    ("MEASURED", Provenance.MEASURED);
    ("REPORTED", Provenance.REPORTED);
    ("DERIVED", Provenance.DERIVED);
    ("ESTIMATED", Provenance.ESTIMATED);
    ("FORECAST", Provenance.FORECAST);
    ("SYNTHETIC", Provenance.SYNTHETIC);
    ("UNKNOWN", Provenance.UNKNOWN)].
(** ** Properties *)

(** A reader that accepts exactly the names a printer emits. *)
Definition names_exact {A} (toS : A -> string) (fromS : string -> option A) : Prop :=
  forall s k, fromS s = Some k <-> s = toS k.

Lemma string_chain_Some {A} (table : list (string * A)) s k :
  string_chain table s = Some k -> (s, k) ∈ table.
Proof.
  induction table as [|[n a] table IH]; simpl; [done|].
  destruct (String.eqb_spec s n) as [->|]; intros; simplify_eq; [left|right; auto].
Qed.

Ltac solve_names_exact :=
  intros s k; split;
  [ intros H%string_chain_Some; repeat (apply elem_of_cons in H as [H|H]; [by simplify_eq|]);
    by apply elem_of_nil in H
  | intros ->; by destruct k ].

(** For every enumeration with a textual form, [...FromString] accepts exactly
    the strings [toString] produces and returns the enumerator they came from, so
    names round trip and are pairwise distinct. *)
Theorem enum_names_exact :
  names_exact EndpointKind_toString endpointKindFromString /\
  names_exact LinkKind_toString linkKindFromString /\
  names_exact Transport_toString transportFromString /\
  names_exact RequestShape_toString requestShapeFromString /\
  names_exact CollectiveShape_toString collectiveShapeFromString /\
  names_exact PlanState_toString planStateFromString /\
  names_exact Feasibility_toString feasibilityFromString /\
  names_exact CostFactor_toString costFactorFromString /\
  names_exact Provenance_toString provenanceFromString.
Proof. split_and!; solve_names_exact. Qed.
