(* ===== verification/Double.v ===== *)
(** * Double precision arithmetic

    The cost model computes with [double].  A double is modelled by the IEEE 754
    specification of the Standard Library ([SpecFloat]) at binary64: every
    operation rounds to nearest even at 53 bits of precision, overflows to an
    infinity and propagates NaN, as the source's arithmetic does. *)

From Stdlib Require Export SpecFloat.
From S2P Require Import Prelude.

Abbreviation double := spec_float (only parsing).

Definition dadd (a b : double) : double := SFadd 53 1024 a b.
Definition dsub (a b : double) : double := SFsub 53 1024 a b.
Definition dmul (a b : double) : double := SFmul 53 1024 a b.
Definition ddiv (a b : double) : double := SFdiv 53 1024 a b.

(** [a < b], [a <= b], [a > b], [a >= b], [a == b], [a != b]; a comparison with a
    NaN is false, except [!=]. *)
Definition dlt (a b : double) : bool := SFltb a b.
Definition dle (a b : double) : bool := SFleb a b.
Definition dgt (a b : double) : bool := SFltb b a.
Definition dge (a b : double) : bool := SFleb b a.
Definition deq (a b : double) : bool := SFeqb a b.
Definition dne (a b : double) : bool := negb (SFeqb a b).

Definition isnan (a : double) : bool := match a with S754_nan => true | _ => false end.
Definition isinf (a : double) : bool := match a with S754_infinity _ => true | _ => false end.

(** [static_cast<double>] of an integer. *)
Definition dofZ (z : Z) : double := binary_normalize 53 1024 z 0 false.

(** The literal [num / den]: the division of two exactly representable integers
    rounds once, to the double nearest the decimal literal. *)
Definition dlit (num den : Z) : double := ddiv (dofZ num) (dofZ den).

Definition dzero : double := S754_zero false.
Definition done_ : double := dofZ 1.
Definition dinf : double := S754_infinity false.

(** [std::min(a, b)] is [b < a ? b : a]. *)
Definition dmin (a b : double) : double := if dlt b a then b else a.

(** ** Order: every number has a rank, compared lexicographically *)

Definition numeric (a : double) : Prop := isnan a = false.

#[export] Instance numeric_dec a : Decision (numeric a) := ltac:(unfold numeric; solve_decision).

Definition drank (a : double) : list Z :=
  match a with
  | S754_infinity true => [-2; 0; 0]
  | S754_finite true m e => [-1; - e; Zneg m]
  | S754_zero _ | S754_nan => [0; 0; 0]
  | S754_finite false m e => [1; e; Zpos m]
  | S754_infinity false => [2; 0; 0]
  end.

Lemma length_drank a : length (drank a) = 3%nat.
Proof. by destruct a as [[]|[]| |[]]. Qed.

Lemma pos_compare_cont_Z m1 m2 : Pos.compare_cont Eq m1 m2 = (Zpos m1 ?= Zpos m2).
Proof. reflexivity. Qed.

(** Rank comparison decides [SFcompare] on numbers. *)
Lemma SFcompare_rank a b :
  numeric a -> numeric b ->
  SFcompare a b = Some (if lexb (drank a) (drank b) then Lt
                        else if lexb (drank b) (drank a) then Gt else Eq).
Proof.
  unfold numeric. destruct a as [[]|[]| |[] m1 e1], b as [[]|[]| |[] m2 e2]; simpl; try done; intros _ _; f_equal;
    rewrite pos_compare_cont_Z.
  - destruct (Z.compare_spec e1 e2); ztests; try lia; try done;
      destruct (Z.compare_spec (Zpos m1) (Zpos m2)); simpl; try lia; done.
  - destruct (Z.compare_spec e1 e2); ztests; try lia; try done;
      destruct (Z.compare_spec (Zpos m1) (Zpos m2)); simpl; try lia; done.
Qed.

Lemma dlt_rank a b : numeric a -> numeric b -> dlt a b = lexb (drank a) (drank b).
Proof.
  intros Ha Hb. unfold dlt, SFltb. rewrite SFcompare_rank by done.
  by repeat case_match.
Qed.

Lemma dne_rank a b : numeric a -> numeric b -> dne a b = negb (bool_decide (drank a = drank b)).
Proof.
  intros Ha Hb. unfold dne, SFeqb. rewrite SFcompare_rank by done.
  case_bool_decide as E.
  - rewrite E, lexb_irrefl. done.
  - destruct (lexb (drank a) (drank b)) eqn:E1; [done|].
    destruct (lexb (drank b) (drank a)) eqn:E2; [done|]. by apply lexb_total in E1.
Qed.

Lemma dle_not_gt a b : numeric a -> numeric b -> dle a b = negb (dlt b a).
Proof.
  intros Ha Hb. unfold dle, dlt, SFleb, SFltb. rewrite !SFcompare_rank by done.
  destruct (lexb (drank a) (drank b)) eqn:E1, (lexb (drank b) (drank a)) eqn:E2; try done.
  by rewrite (lexb_asym _ _ E1) in E2.
Qed.

Lemma dle_numeric a b : dle a b = true -> numeric a /\ numeric b.
Proof. unfold dle, SFleb, numeric. by destruct a as [[]|[]| |[]], b as [[]|[]| |[]]. Qed.

Lemma dle_refl a : numeric a -> dle a a = true.
Proof. intros. rewrite dle_not_gt, dlt_rank, lexb_irrefl by done. done. Qed.

Lemma dle_trans a b c : dle a b = true -> dle b c = true -> dle a c = true.
Proof.
  intros Hab Hbc. destruct (dle_numeric _ _ Hab), (dle_numeric _ _ Hbc).
  rewrite dle_not_gt, dlt_rank in * by done. bsplit. apply negb_true_iff.
  destruct (lexb (drank c) (drank a)) eqn:E; [|done].
  destruct (lexb_negtrans _ (drank b) _ E); congruence.
Qed.

(** The rank order is total: doubles of the same rank compare equal. *)
#[export] Hint Resolve length_drank : planner.

(** ** Signs: rounding a non-negative magnitude never yields NaN *)

Definition nonneg (a : double) : bool := dge a dzero.

Lemma nonneg_numeric a : nonneg a = true -> numeric a.
Proof. unfold nonneg, dge. by intros [_ ?]%dle_numeric. Qed.

Lemma nonneg_cases a :
  nonneg a = true <->
  match a with
  | S754_zero _ | S754_infinity false | S754_finite false _ _ => True
  | _ => False
  end.
Proof. by destruct a as [[]|[]| |[]]. Qed.

Lemma shr_1_nonneg r : 0 <= shr_m r -> 0 <= shr_m (shr_1 r).
Proof. destruct r as [[|[]|[]] ? ?]; simpl; lia. Qed.

Lemma iter_pos_inv {A} (Q : A -> Prop) (f : A -> A) n x :
  (forall y, Q y -> Q (f y)) -> Q x -> Q (SpecFloat.iter_pos f n x).
Proof. intros Hf. revert x. induction n; simpl; auto. Qed.

Lemma shr_fexp_nonneg m e l : 0 <= m -> 0 <= shr_m (fst (shr_fexp 53 1024 m e l)).
Proof.
  intros Hm. unfold shr_fexp, shr.
  assert (0 <= shr_m (shr_record_of_loc m l)) by (destruct l as [|[]]; done).
  case_match; simpl; auto. apply iter_pos_inv; auto using shr_1_nonneg.
Qed.

Lemma round_nearest_even_nonneg m l : 0 <= m -> 0 <= round_nearest_even m l.
Proof. intros. unfold round_nearest_even. destruct l as [|[]]; try lia. case_match; lia. Qed.

(** Rounding a non-negative mantissa keeps the requested sign. *)
Lemma binary_round_aux_sign s m e l :
  0 <= m ->
  match binary_round_aux 53 1024 s m e l with
  | S754_zero s' | S754_infinity s' | S754_finite s' _ _ => s' = s
  | S754_nan => False
  end.
Proof.
  intros Hm. unfold binary_round_aux.
  pose proof (shr_fexp_nonneg m e l Hm) as H1. destruct (shr_fexp 53 1024 m e l) as [r1 e1].
  pose proof (shr_fexp_nonneg (round_nearest_even (shr_m r1) (loc_of_shr_record r1)) e1 loc_Exact
    (round_nearest_even_nonneg _ _ H1)) as H2.
  destruct (shr_fexp 53 1024 _ e1 loc_Exact) as [r2 e2]. simpl in H2.
  destruct (shr_m r2); [done|by destruct (_ <=? _)|lia].
Qed.

Lemma binary_round_sign s m e :
  match binary_round 53 1024 s m e with
  | S754_zero s' | S754_infinity s' | S754_finite s' _ _ => s' = s
  | S754_nan => False
  end.
Proof. unfold binary_round. destruct (shl_align _ _ _). by apply binary_round_aux_sign. Qed.

Lemma binary_round_nonneg m e : nonneg (binary_round 53 1024 false m e) = true.
Proof.
  pose proof (binary_round_sign false m e). apply nonneg_cases.
  by destruct (binary_round _ _ _ _ _) as [[]|[]| |[]].
Qed.

Lemma dofZ_nonneg z : 0 <= z -> nonneg (dofZ z) = true.
Proof.
  unfold dofZ, binary_normalize. destruct z; [done|intros _; apply binary_round_nonneg|lia].
Qed.

(** Sums of non-negative doubles are non-negative: neither NaN nor a sign error. *)
Lemma dadd_nonneg a b : nonneg a = true -> nonneg b = true -> nonneg (dadd a b) = true.
Proof.
  rewrite !nonneg_cases. unfold dadd.
  destruct a as [[]|[]| |[] m1 e1], b as [[]|[]| |[] m2 e2]; simpl; try done; intros _ _.
  apply nonneg_cases, binary_round_nonneg.
Qed.

(** A product of non-negative finite doubles is non-negative. *)
Lemma dmul_nonneg a b :
  nonneg a = true -> nonneg b = true -> isinf a = false -> isinf b = false ->
  nonneg (dmul a b) = true.
Proof.
  rewrite !nonneg_cases. unfold dmul.
  destruct a as [[]|[]| |[] m1 e1], b as [[]|[]| |[] m2 e2]; simpl; try done; intros _ _ _ _.
  pose proof (binary_round_aux_sign false (Z.pos (m1 * m2)) (e1 + e2) loc_Exact ltac:(lia)).
  by destruct (binary_round_aux _ _ _ _ _ _) as [[]|[]| |[]].
Qed.

#[export] Hint Resolve nonneg_numeric dofZ_nonneg dadd_nonneg dmul_nonneg : planner.
