(* ===== verification/Rounding.v ===== *)
(** * Rounding

    What [Double]'s operations do to the size and the form of a number, from the
    definition of IEEE rounding: results are in canonical form, a result is at most one
    binary order of magnitude above the exact value, and rounding down never passes a
    canonical number from below.  The cost theorems use it to exclude overflow. *)

From S2P Require Import Prelude Double.

(** ** Digits and exponents *)

Lemma digits2_pos_bounds m : 2 ^ (Zpos (digits2_pos m) - 1) <= Zpos m < 2 ^ Zpos (digits2_pos m).
Proof.
  assert (Hstep : forall p n, 2 ^ (Zpos (digits2_pos p) - 1) <= Zpos p < 2 ^ Zpos (digits2_pos p) ->
    2 * Zpos p <= n <= 2 * Zpos p + 1 -> 2 ^ (Zpos (Pos.succ (digits2_pos p)) - 1) <= n < 2 ^ Zpos (Pos.succ (digits2_pos p))).
  { intros p n [H1 H2] Hn. rewrite Pos2Z.inj_succ, Z.pow_succ_r by lia.
    replace (Z.succ (Zpos (digits2_pos p)) - 1) with (Z.succ (Zpos (digits2_pos p) - 1)) by lia. rewrite Z.pow_succ_r by lia. lia. }
  induction m as [p IH|p IH|]; cbn [digits2_pos]; [apply (Hstep p); [done|lia]..|]. simpl. lia.
Qed.

Lemma digits2_pos_le m n : 0 <= n -> Zpos m < 2 ^ n -> Zpos (digits2_pos m) <= n.
Proof.
  intros Hn Hm. pose proof (digits2_pos_bounds m) as [Hd _]. assert (Zpos (digits2_pos m) - 1 < n); [|lia].
  apply (Z.pow_lt_mono_r_iff 2); lia.
Qed.

Lemma digits2_pos_ge m n : 2 ^ n <= Zpos m -> n + 1 <= Zpos (digits2_pos m).
Proof.
  intros Hm. pose proof (digits2_pos_bounds m) as [_ Hd]. assert (n < Zpos (digits2_pos m)); [|lia].
  apply (Z.pow_lt_mono_r_iff 2); lia.
Qed.

(** The exponent at which a magnitude of [d] binary digits above the point is rounded. *)
Definition ulp_exp (d : Z) : Z := Z.max (d - 53) (-1074).

Lemma fexp_ulp d : fexp 53 1024 d = ulp_exp d.
Proof. reflexivity. Qed.

Lemma Zdigits2_bounds m : 0 <= m -> m < 2 ^ Zdigits2 m /\ 0 <= Zdigits2 m /\ (m <> 0 -> 2 ^ (Zdigits2 m - 1) <= m).
Proof.
  destruct m as [|p|p]; [|intros _|lia]; cbn [Zdigits2]; [intros _; split; [reflexivity|lia]|].
  pose proof (digits2_pos_bounds p). lia.
Qed.

Lemma Zdigits2_le m n : 0 <= m < 2 ^ n -> 0 <= n -> Zdigits2 m <= n.
Proof. destruct m as [|p|p]; [simpl; lia| |lia]. intros [_ Hm] Hn. by apply digits2_pos_le. Qed.

(** ** Shifting right *)

Lemma shr_1_div r : 0 <= shr_m r -> shr_m (shr_1 r) = shr_m r / 2.
Proof.
  destruct r as [[|[p|p|]|p] b s]; simpl; try lia; intros _; try reflexivity.
  - rewrite Pos2Z.inj_xI. apply Z.div_unique with 1; lia.
  - rewrite Pos2Z.inj_xO. apply Z.div_unique with 0; lia.
Qed.

Lemma iter_shr_1 p r : 0 <= shr_m r -> shr_m (iter_pos shr_1 p r) = shr_m r / 2 ^ Zpos p.
Proof.
  assert (H0 : forall n r, 0 <= shr_m r -> 0 <= shr_m (iter_pos shr_1 n r)).
  { intros n r' Hr. apply (iter_pos_inv (fun r => 0 <= shr_m r)); [apply shr_1_nonneg|done]. }
  revert r; induction p as [p IH|p IH|]; intros r Hr; cbn [iter_pos].
  - rewrite !IH, shr_1_div by auto using shr_1_nonneg. rewrite !Z.div_div by lia.
    by rewrite (Pos2Z.inj_xI p), <- (Z.add_diag (Zpos p)), Z.add_1_r, Z.pow_succ_r, Z.pow_add_r by lia.
  - rewrite !IH by auto. rewrite !Z.div_div by lia.
    by rewrite (Pos2Z.inj_xO p), <- (Z.add_diag (Zpos p)), Z.pow_add_r by lia.
  - by apply shr_1_div.
Qed.

Lemma shr_div r e n : 0 <= shr_m r -> 0 <= n -> exists r', shr r e n = (r', e + n) /\ shr_m r' = shr_m r / 2 ^ n /\ (n = 0 -> r' = r).
Proof.
  intros Hr Hn. destruct n as [|p|p]; [| |lia]; cbn [shr].
  - exists r. rewrite Z.div_1_r, Z.add_0_r. done.
  - exists (iter_pos shr_1 p r). split; [done|]. split; [by apply iter_shr_1|lia].
Qed.

Lemma shr_nothing r e n : n <= 0 -> shr r e n = (r, e).
Proof. by destruct n. Qed.

(** ** Rounding a magnitude *)

(** The double of the sign [s], the mantissa [q] and the exponent [e], normalised. *)
Definition packed (s : bool) (q e : Z) : double :=
  if q =? 0 then S754_zero s
  else if q =? 2 ^ 53 then (if e + 1 <=? 971 then S754_finite s (2 ^ 52) (e + 1) else S754_infinity s)
  else if e <=? 971 then S754_finite s (Z.to_pos q) e else S754_infinity s.

Definition exact_location (l : location) : bool := match l with loc_Exact => true | _ => false end.

(** [q] is [m * 2^e] rounded to a multiple of [2^f]. *)
Definition rounded (m e : Z) (exact : bool) (f q : Z) : Prop :=
  e <= f /\ (q = m / 2 ^ (f - e) \/ q = m / 2 ^ (f - e) + 1) /\ (exact = true -> e = f -> q = m) /\
  0 <= q <= 2 ^ 53 /\ (-1074 < f -> 2 ^ 52 <= q).

Lemma round_nearest_even_cases m l : round_nearest_even m l = m \/ round_nearest_even m l = m + 1.
Proof. unfold round_nearest_even. destruct l as [|[]]; auto. case_match; auto. Qed.

Lemma shr_fexp_packed s q f :
  -1074 <= f -> 0 <= q <= 2 ^ 53 ->
  (let '(r, e) := shr_fexp 53 1024 q f loc_Exact in
   match shr_m r with
   | Z0 => S754_zero s
   | Zpos m => if e <=? 1024 - 53 then S754_finite s m e else S754_infinity s
   | Zneg _ => S754_nan
   end) = packed s q f.
Proof.
  intros Hf Hq. unfold shr_fexp, packed. rewrite fexp_ulp.
  destruct (Z.eqb_spec q (2 ^ 53)) as [->|Hne].
  - replace (ulp_exp (Zdigits2 (2 ^ 53) + f) - f) with 1; [reflexivity|].
    change (Zdigits2 (2 ^ 53)) with 54. unfold ulp_exp. lia.
  - rewrite shr_nothing.
    + cbn [shr_record_of_loc shr_m]. change (1024 - 53) with 971. destruct q as [|p|p]; [done|done|lia].
    + pose proof (Zdigits2_le q 53 ltac:(lia) ltac:(lia)). unfold ulp_exp. lia.
Qed.

Lemma round_aux_packed s m e l :
  0 <= m -> e <= ulp_exp (Zdigits2 m + e) ->
  exists q, rounded m e (exact_location l) (ulp_exp (Zdigits2 m + e)) q /\
    binary_round_aux 53 1024 s m e l = packed s q (ulp_exp (Zdigits2 m + e)).
Proof.
  intros Hm He. set (f := ulp_exp (Zdigits2 m + e)) in *. destruct (Zdigits2_bounds m Hm) as (Hlt & Hd & Hge).
  assert (Hr0 : shr_m (shr_record_of_loc m l) = m) by (destruct l as [|[]]; done).
  destruct (shr_div (shr_record_of_loc m l) e (f - e)) as (r & Hr & Hrm & Hr1); [by rewrite Hr0|lia|].
  replace (e + (f - e)) with f in Hr by lia. rewrite Hr0 in Hrm.
  exists (round_nearest_even (shr_m r) (loc_of_shr_record r)).
  assert (Hq0 : 0 <= m / 2 ^ (f - e) < 2 ^ 53).
  { split; [apply Z.div_pos; lia|]. apply Z.div_lt_upper_bound; [lia|]. rewrite <- Z.pow_add_r by lia.
    eapply Z.lt_le_trans; [exact Hlt|]. apply Z.pow_le_mono_r; [lia|]. unfold f, ulp_exp. lia. }
  assert (Hq : 0 <= round_nearest_even (shr_m r) (loc_of_shr_record r) <= 2 ^ 53).
  { rewrite Hrm. destruct (round_nearest_even_cases (m / 2 ^ (f - e)) (loc_of_shr_record r)) as [->| ->]; lia. }
  split; [split_and!|].
  - done.
  - rewrite Hrm. apply round_nearest_even_cases.
  - intros Hl Ef. destruct l as [|c]; [|done]. by rewrite Hr1 by lia.
  - apply Hq.
  - apply Hq.
  - intros Hf. assert (Hm0 : m <> 0).
    { intros ->. unfold f, ulp_exp in He, Hf. simpl in He, Hf. lia. }
    assert (2 ^ 52 <= m / 2 ^ (f - e)).
    { apply Z.div_le_lower_bound; [lia|]. rewrite <- Z.pow_add_r by lia. etrans; [|apply Hge, Hm0].
      apply Z.pow_le_mono_r; [lia|]. unfold f, ulp_exp in *. lia. }
    rewrite Hrm. destruct (round_nearest_even_cases (m / 2 ^ (f - e)) (loc_of_shr_record r)) as [->| ->]; lia.
  - unfold binary_round_aux. unfold shr_fexp at 1. rewrite fexp_ulp. fold f. rewrite Hr.
    apply shr_fexp_packed; [unfold f, ulp_exp; lia|exact Hq].
Qed.

(** ** Canonical form *)

(** The finite doubles in their canonical form, which all arithmetic yields. *)
Definition double_wf (d : double) : bool := valid_binary 53 1024 d.

(** What the canonical form says of a finite double. *)
Lemma double_wf_finite s m e :
  double_wf (S754_finite s m e) = true <->
  (Zpos m < 2 ^ 52 /\ e = -1074) \/ (2 ^ 52 <= Zpos m < 2 ^ 53 /\ -1074 <= e <= 971).
Proof.
  unfold double_wf, valid_binary, bounded, canonical_mantissa. rewrite fexp_ulp, andb_true_iff, Z.eqb_eq, Z.leb_le.
  pose proof (digits2_pos_bounds m) as Hd. unfold ulp_exp. split.
  - intros [Hc He]. destruct (Z.ltb_spec (Zpos m) (2 ^ 52)) as [Hm|Hm].
    + left. pose proof (digits2_pos_le m 52). lia.
    + right. pose proof (digits2_pos_ge m 52 Hm). assert (Zpos (digits2_pos m) = 53) as E by lia. rewrite E in Hd. lia.
  - intros [[Hm ->]|[Hm He]].
    + pose proof (digits2_pos_le m 52). lia.
    + pose proof (digits2_pos_le m 53). pose proof (digits2_pos_ge m 52). lia.
Qed.

Lemma packed_wf s q f : -1074 <= f -> 0 <= q <= 2 ^ 53 -> (-1074 < f -> 2 ^ 52 <= q) -> double_wf (packed s q f) = true.
Proof.
  intros Hf Hq Hq2. unfold packed. destruct (Z.eqb_spec q 0); [done|].
  destruct (Z.eqb_spec q (2 ^ 53)); [destruct (Z.leb_spec (f + 1) 971); [|done]|destruct (Z.leb_spec f 971); [|done]].
  - apply double_wf_finite. right. lia.
  - apply double_wf_finite. rewrite Z2Pos.id by lia. destruct (Z.ltb_spec q (2 ^ 52)); [left|right]; lia.
Qed.

Lemma ulp_exp_ge d : -1074 <= ulp_exp d.
Proof. unfold ulp_exp. lia. Qed.

Lemma binary_round_aux_wf s m e l : 0 <= m -> e <= ulp_exp (Zdigits2 m + e) -> double_wf (binary_round_aux 53 1024 s m e l) = true.
Proof.
  intros Hm He. destruct (round_aux_packed s m e l Hm He) as (q & (_ & _ & _ & Hq & Hq2) & ->).
  apply packed_wf; auto using ulp_exp_ge.
Qed.

(** Aligning to a lower exponent only writes zeros. *)
Lemma shl_align_spec m e e' : let '(p, x) := shl_align m e e' in x = Z.min e e' /\ Zpos p = Zpos m * 2 ^ (e - Z.min e e').
Proof.
  unfold shl_align. destruct (e' - e) as [|d|d] eqn:E.
  - split; [lia|]. replace (e - Z.min e e') with 0 by lia. lia.
  - split; [lia|]. replace (e - Z.min e e') with 0 by lia. lia.
  - split; [lia|]. replace (e - Z.min e e') with (Zpos d) by lia. clear E.
    induction d as [|d IH] using Pos.peano_ind; [simpl; lia|].
    by rewrite Pos.iter_succ, (Pos2Z.inj_xO (Pos.iter _ _ _)), IH, Pos2Z.inj_succ, Z.pow_succ_r, !Z.mul_assoc, (Z.mul_comm 2) by lia.
Qed.

Lemma digits_shift p m n : 0 <= n -> Zpos p = Zpos m * 2 ^ n -> Zpos (digits2_pos p) = Zpos (digits2_pos m) + n.
Proof.
  intros Hn E. pose proof (digits2_pos_bounds m) as [H1 H2].
  assert (Hle : Zpos (digits2_pos p) <= Zpos (digits2_pos m) + n).
  { apply digits2_pos_le; [lia|]. rewrite E, Z.pow_add_r by lia. nia. }
  assert (Hge : Zpos (digits2_pos m) - 1 + n + 1 <= Zpos (digits2_pos p)).
  { apply digits2_pos_ge. rewrite E, Z.pow_add_r by lia. nia. }
  lia.
Qed.

Lemma binary_round_packed s m e :
  let f := ulp_exp (Zpos (digits2_pos m) + e) in
  exists q, binary_round 53 1024 s m e = packed s q f /\
    0 <= q <= 2 ^ 53 /\ (-1074 < f -> 2 ^ 52 <= q) /\
    (f <= e -> q = Zpos m * 2 ^ (e - f)) /\
    (e <= f -> q = Zpos m / 2 ^ (f - e) \/ q = Zpos m / 2 ^ (f - e) + 1).
Proof.
  intros f. unfold binary_round. rewrite fexp_ulp. fold f. pose proof (shl_align_spec m e f) as Ha.
  destruct (shl_align m e f) as [p x]. destruct Ha as [-> Hp].
  pose proof (digits_shift p m (e - Z.min e f) ltac:(lia) Hp) as Hd.
  assert (Hf : ulp_exp (Zdigits2 (Zpos p) + Z.min e f) = f) by (cbn [Zdigits2]; rewrite Hd, <- Z.add_assoc, Z.sub_add; done).
  destruct (round_aux_packed s (Zpos p) (Z.min e f) loc_Exact) as (q & (H1 & H2 & H3 & H4 & H5) & ->); [lia|rewrite Hf; lia|].
  rewrite Hf in *. exists q. split_and!; try done; try lia.
  - intros Hfe. rewrite H3, Hp by (done || lia). do 2 f_equal. lia.
  - intros Hef. replace (Z.min e f) with e in * by lia. replace (e - e) with 0 in Hp by lia. rewrite Hp, Z.mul_1_r in H2. done.
Qed.

Lemma binary_round_wf s m e : double_wf (binary_round 53 1024 s m e) = true.
Proof.
  destruct (binary_round_packed s m e) as (q & -> & Hq & Hq2 & _). apply packed_wf; auto using ulp_exp_ge.
Qed.

Lemma binary_normalize_wf m e s : double_wf (binary_normalize 53 1024 m e s) = true.
Proof. destruct m; [done|apply binary_round_wf..]. Qed.

Lemma dofZ_wf z : double_wf (dofZ z) = true.
Proof. apply binary_normalize_wf. Qed.

Lemma dadd_wf a b : double_wf a = true -> double_wf b = true -> double_wf (dadd a b) = true.
Proof. intros Ha Hb. destruct a as [[]|[]| |], b as [[]|[]| |]; try done; apply binary_normalize_wf. Qed.

(** The exact product of two canonical numbers is not below its rounding exponent. *)
Lemma product_aligned s1 m1 e1 s2 m2 e2 :
  double_wf (S754_finite s1 m1 e1) = true -> double_wf (S754_finite s2 m2 e2) = true ->
  e1 + e2 <= ulp_exp (Zdigits2 (Zpos (m1 * m2)) + (e1 + e2)).
Proof.
  rewrite !double_wf_finite. intros Ha Hb. cbn [Zdigits2].
  assert (Hd : forall n, 0 <= n -> 2 ^ n <= Zpos (m1 * m2) -> n + 1 <= Zpos (digits2_pos (m1 * m2))) by (intros; by apply digits2_pos_ge).
  pose proof (Hd 0 ltac:(lia) ltac:(lia)). unfold ulp_exp. destruct Ha as [[Ha ->]|[Ha He1]], Hb as [[Hb ->]|[Hb He2]]; try lia.
  - pose proof (Hd 52 ltac:(lia) ltac:(nia)). lia.
  - pose proof (Hd 52 ltac:(lia) ltac:(nia)). lia.
  - pose proof (Hd 104 ltac:(lia) ltac:(nia)). lia.
Qed.

Lemma dmul_wf a b : double_wf a = true -> double_wf b = true -> double_wf (dmul a b) = true.
Proof.
  intros Ha Hb. destruct a as [| | |s1 m1 e1], b as [| | |s2 m2 e2]; try done.
  apply binary_round_aux_wf; [done|]. by eapply product_aligned.
Qed.

Lemma ddiv_wf a b : double_wf a = true -> double_wf b = true -> double_wf (ddiv a b) = true.
Proof.
  intros Ha Hb. destruct a as [| | |s1 m1 e1], b as [| | |s2 m2 e2]; try done.
  unfold ddiv, SFdiv, SFdiv_core_binary. rewrite fexp_ulp. cbn [Zdigits2].
  set (d := Zpos (digits2_pos m1) + e1 - (Zpos (digits2_pos m2) + e2)). set (x := Z.min (ulp_exp d) (e1 - e2)).
  set (m := match _ with 0 => _ | _ => _ end).
  assert (Hm : m = Zpos m1 * 2 ^ (e1 - e2 - x)).
  { unfold m. destruct (e1 - e2 - x) as [|p|p] eqn:E; [lia|by rewrite Z.shiftl_mul_pow2 by lia|lia]. }
  clearbody m. pose proof (Z_div_mod m (Zpos m2) ltac:(lia)) as Hq. destruct (Z.div_eucl m (Zpos m2)) as [q r].
  destruct Hq as [Hq Hr]. pose proof (digits2_pos_bounds m1) as [H1 _]. pose proof (digits2_pos_bounds m2) as [_ H2].
  assert (Hn : 0 <= e1 - e2 - x) by lia. assert (Hmpos : 0 <= m) by (rewrite Hm; nia). assert (Hq0 : 0 <= q) by nia.
  apply binary_round_aux_wf; [done|].
  assert (Hdig : Zpos (digits2_pos m1) - 1 + (e1 - e2 - x) - Zpos (digits2_pos m2) + 1 <= Zdigits2 q).
  { destruct (Zdigits2_bounds q Hq0) as (Hlt & Hd0 & _).
    destruct (Z.leb_spec (Zpos (digits2_pos m1) - 1 + (e1 - e2 - x) - Zpos (digits2_pos m2) + 1) 0) as [|Hpos]; [lia|].
    assert (2 ^ (Zpos (digits2_pos m1) - 1 + (e1 - e2 - x) - Zpos (digits2_pos m2)) <= q) as Hle.
    { assert (2 ^ (Zpos (digits2_pos m1) - 1 + (e1 - e2 - x) - Zpos (digits2_pos m2)) < q + 1); [|lia].
      apply (Z.mul_lt_mono_pos_r (2 ^ Zpos (digits2_pos m2))); [lia|]. rewrite <- Z.pow_add_r by lia.
      replace (_ - Zpos (digits2_pos m2) + Zpos (digits2_pos m2)) with (Zpos (digits2_pos m1) - 1 + (e1 - e2 - x)) by lia.
      rewrite Z.pow_add_r by lia. apply Z.le_lt_trans with m; [rewrite Hm; nia|nia]. }
    assert (Zpos (digits2_pos m1) - 1 + (e1 - e2 - x) - Zpos (digits2_pos m2) < Zdigits2 q); [|lia].
    apply (Z.pow_lt_mono_r_iff 2); lia. }
  unfold ulp_exp, d in *. lia.
Qed.

#[export] Hint Resolve dofZ_wf dadd_wf dmul_wf ddiv_wf : planner.

(** ** Magnitude *)

(** [0 <= a < 2^k]. *)
Definition below (k : Z) (a : double) : Prop :=
  match a with
  | S754_zero _ => True
  | S754_finite false m e => Zpos (digits2_pos m) + e <= k
  | _ => False
  end.

Lemma below_mono k l a : k <= l -> below k a -> below l a.
Proof. destruct a as [| | |[]]; simpl; lia. Qed.

Lemma below_finite k a : below k a -> numeric a /\ isinf a = false.
Proof. by destruct a as [| | |[]]. Qed.

(** Rounding at most doubles a magnitude. *)
Lemma packed_below m e x f q k :
  0 <= m < 2 ^ (k - e) -> -1074 <= k <= 970 -> f = ulp_exp (Zdigits2 m + e) -> rounded m e x f q -> below (k + 1) (packed false q f).
Proof.
  intros Hm Hk Hf (Hef & Hq & _ & Hq0 & Hq2).
  assert (Hfk : f <= Z.max (k - 53) (-1074)).
  { destruct (Z.ltb_spec (k - e) 0) as [Hneg|Hn].
    - assert (m = 0) as -> by (rewrite Z.pow_neg_r in Hm by done; lia). rewrite Hf in *. unfold ulp_exp in *. simpl in *.
      exfalso. lia.
    - pose proof (Zdigits2_le m (k - e) Hm Hn). rewrite Hf. unfold ulp_exp. lia. }
  assert (Hqk : q <= 2 ^ Z.max (k - f) 0).
  { assert (m / 2 ^ (f - e) < 2 ^ Z.max (k - f) 0); [|lia].
    apply Z.div_lt_upper_bound; [lia|]. rewrite <- Z.pow_add_r by lia. destruct Hm as [_ Hm]. eapply Z.lt_le_trans; [exact Hm|].
    apply Z.pow_le_mono_r; lia. }
  unfold packed. destruct (Z.eqb_spec q 0); [done|]. destruct (Z.eqb_spec q (2 ^ 53)) as [->|Hne].
  - assert (53 <= Z.max (k - f) 0) by (apply (Z.pow_le_mono_r_iff 2); lia).
    destruct (Z.leb_spec (f + 1) 971); [|lia]. cbn [below]. change (Zpos (digits2_pos (2 ^ 52))) with 53. lia.
  - destruct (Z.leb_spec f 971); [|lia]. cbn [below].
    assert (Zpos (digits2_pos (Z.to_pos q)) <= Z.max (k - f) 0 + 1); [|lia].
    apply digits2_pos_le; [lia|]. rewrite Z2Pos.id, Z.pow_add_r by lia. lia.
Qed.

Lemma below_digits k m e : below k (S754_finite false m e) -> e < k /\ Zpos m < 2 ^ (k - e).
Proof.
  cbn [below]. intros H. pose proof (digits2_pos_bounds m) as [_ Hm]. split; [lia|].
  eapply Z.lt_le_trans; [exact Hm|]. apply Z.pow_le_mono_r; lia.
Qed.

Lemma dmul_below k l a b :
  double_wf a = true -> double_wf b = true -> below k a -> below l b -> -1074 <= k + l <= 970 -> below (k + l + 1) (dmul a b).
Proof.
  intros Wa Wb Ha Hb Hk. destruct a as [[]| | |[] m1 e1], b as [[]| | |[] m2 e2]; try done.
  apply below_digits in Ha as [He1 Ha]. apply below_digits in Hb as [He2 Hb]. unfold dmul, SFmul. cbn [xorb].
  destruct (round_aux_packed false (Zpos (m1 * m2)) (e1 + e2) loc_Exact) as (q & Hq & ->); [lia|by eapply product_aligned|].
  eapply packed_below; [|exact Hk|reflexivity|exact Hq]. split; [lia|].
  replace (k + l - (e1 + e2)) with ((k - e1) + (l - e2)) by lia. rewrite Z.pow_add_r by lia. nia.
Qed.

(** A number at most a bounded one is bounded. *)
Lemma dle_below k a b : double_wf a = true -> double_wf b = true -> nonneg a = true -> dle a b = true -> below k b -> below k a.
Proof.
  intros Wa Wb Ha Hab Hb. apply nonneg_cases in Ha. unfold dle, SFleb in Hab.
  destruct a as [[]|[]| |[] m1 e1]; try done; destruct b as [[]|[]| |[] m2 e2]; try done.
  apply double_wf_finite in Wa, Wb. cbn [SFcompare] in Hab. rewrite pos_compare_cont_Z in Hab. cbn [below] in *.
  pose proof (digits2_pos_bounds m1) as [H1 _]. pose proof (digits2_pos_bounds m2) as [_ H2].
  destruct (Z.compare_spec e1 e2) as [->|He|He]; [|pose proof (digits2_pos_le m1 53); pose proof (digits2_pos_ge m2 52); lia|done].
  assert (Zpos (digits2_pos m1) <= Zpos (digits2_pos m2)); [|lia].
  destruct (Z.compare_spec (Zpos m1) (Zpos m2)); try done; [by simplify_eq|]. apply digits2_pos_le; lia.
Qed.

(** ** Exact values *)

(** The value of a finite double, in units of 2^-1074: every canonical double is a
    whole number of them. *)
Definition units (a : double) : Z :=
  match a with
  | S754_finite s m e => (if s then -1 else 1) * Zpos m * 2 ^ (e + 1074)
  | _ => 0
  end.

Lemma wf_exponent s m e : double_wf (S754_finite s m e) = true -> -1074 <= e /\ e <= 971 /\ ulp_exp (Zpos (digits2_pos m) + e) = e.
Proof.
  intros Hw. pose proof Hw as Hc. unfold double_wf, valid_binary, bounded, canonical_mantissa in Hc.
  apply andb_true_iff in Hc as [Hc%Z.eqb_eq _]. rewrite fexp_ulp in Hc. apply double_wf_finite in Hw. lia.
Qed.

Lemma pow_split a b c : a + b = c -> 0 <= a -> 0 <= b -> 2 ^ c = 2 ^ a * 2 ^ b.
Proof. intros <- Ha Hb. by apply Z.pow_add_r. Qed.

Lemma packed_le q f m e :
  double_wf (S754_finite false m e) = true -> f <= e -> 0 <= q <= 2 ^ 53 -> q <= Zpos m * 2 ^ (e - f) ->
  dle (packed false q f) (S754_finite false m e) = true.
Proof.
  intros [[Hm He]|[Hm He]]%double_wf_finite Hf Hq Hle.
  all: assert (Hlt : forall p x, x <= e -> (x = e -> Zpos p <= Zpos m) -> dle (S754_finite false p x) (S754_finite false m e) = true)
    by (intros p x Hx Hp; unfold dle, SFleb; cbn [SFcompare]; rewrite pos_compare_cont_Z;
        destruct (Z.compare_spec x e) as [->|?|?]; [|done|lia]; destruct (Z.compare_spec (Zpos p) (Zpos m)); [done|done|lia]).
  all: unfold packed; destruct (Z.eqb_spec q 0); [done|].
  all: assert (He0 : f = e -> q <= Zpos m) by (intros ->; rewrite Z.sub_diag in Hle; lia).
  all: assert (He1 : f + 1 = e -> q <= 2 * Zpos m) by (intros <-; replace (f + 1 - f) with 1 in Hle by lia; lia).
  all: destruct (Z.eqb_spec q (2 ^ 53)) as [->|].
  all: try (destruct (Z.leb_spec (f + 1) 971); [apply Hlt; lia|lia]).
  all: destruct (Z.leb_spec f 971); [apply Hlt; [lia|rewrite Z2Pos.id by lia; lia]|lia].
Qed.

(** Rounding never passes a canonical number. *)
Lemma binary_round_le p z m e :
  double_wf (S754_finite false m e) = true -> -1074 <= z -> Zpos p * 2 ^ (z + 1074) < units (S754_finite false m e) ->
  dle (binary_round 53 1024 false p z) (S754_finite false m e) = true.
Proof.
  intros Wx Hz Hlt. cbn [units] in Hlt. destruct (binary_round_packed false p z) as (q & -> & Hq & _ & Hup & Hdown).
  destruct (wf_exponent _ _ _ Wx) as (He & _ & Hc). set (f := ulp_exp (Zpos (digits2_pos p) + z)) in *.
  pose proof (digits2_pos_bounds p) as [Hp _]. pose proof (digits2_pos_bounds m) as [_ Hm].
  assert (Hf : f <= e).
  { assert (Zpos (digits2_pos p) - 1 + (z + 1074) < Zpos (digits2_pos m) + (e + 1074)); [|rewrite <- Hc; unfold f, ulp_exp; lia].
    apply (Z.pow_lt_mono_r_iff 2); [lia..|].
    rewrite (Z.pow_add_r 2 (_ - 1) (z + 1074)), (Z.pow_add_r 2 _ (e + 1074)) by lia. nia. }
  pose proof (ulp_exp_ge (Zpos (digits2_pos p) + z)) as Hf0. fold f in Hf0.
  apply packed_le; [done..|].
  rewrite (pow_split (e - f) (f + 1074) (e + 1074)) in Hlt by lia.
  destruct (Z.le_ge_cases f z) as [Hfz|Hfz].
  - rewrite (Hup Hfz). rewrite (pow_split (z - f) (f + 1074) (z + 1074)) in Hlt by lia. nia.
  - assert (Zpos p / 2 ^ (f - z) < Zpos m * 2 ^ (e - f)); [|destruct (Hdown Hfz); lia].
    apply Z.div_lt_upper_bound; [lia|]. rewrite (pow_split (f - z) (z + 1074) (f + 1074)) in Hlt by lia. nia.
Qed.

(** Comparison decides the order of exact values. *)
Lemma dle_units a m e :
  double_wf a = true -> double_wf (S754_finite false m e) = true -> nonneg a = true -> dle a (S754_finite false m e) = true ->
  isinf a = false /\ units a <= units (S754_finite false m e).
Proof.
  intros Wa Wb Ha Hab. apply nonneg_cases in Ha. unfold dle, SFleb in Hab.
  destruct a as [[]|[]| |[] n x]; try done; [split; [done|cbn [units]; lia]..|]. split; [done|].
  apply double_wf_finite in Wa, Wb. cbn [SFcompare] in Hab. rewrite pos_compare_cont_Z in Hab. cbn [units].
  destruct (Z.compare_spec x e) as [->|He|He]; [|rewrite (pow_split (e - x) (x + 1074) (e + 1074)) by lia|done].
  - destruct (Z.compare_spec (Zpos n) (Zpos m)); try done; nia.
  - pose proof (Z.pow_le_mono_r 2 1 (e - x)) as Hp. assert (Zpos n <= 2 * Zpos m) by lia.
    assert (Zpos n <= Zpos m * 2 ^ (e - x)) by nia. nia.
Qed.

(** The sum of two non-negative numbers, before rounding. *)
Lemma dadd_exact a b :
  double_wf a = true -> double_wf b = true -> nonneg a = true -> nonneg b = true -> isinf a = false -> isinf b = false ->
  dadd a b = a \/ dadd a b = b \/
  exists p z, -1074 <= z /\ Zpos p * 2 ^ (z + 1074) = units a + units b /\ dadd a b = binary_round 53 1024 false p z.
Proof.
  intros Wa Wb Ha Hb Ia Ib. apply nonneg_cases in Ha, Hb.
  destruct a as [[]|[]| |[] m1 e1], b as [[]|[]| |[] m2 e2]; try done; auto.
  right; right. destruct (wf_exponent _ _ _ Wa) as (H1 & _). destruct (wf_exponent _ _ _ Wb) as (H2 & _).
  unfold dadd, SFadd. cbn [cond_Zopp].
  pose proof (shl_align_spec m1 e1 (Z.min e1 e2)) as Hp1. pose proof (shl_align_spec m2 e2 (Z.min e1 e2)) as Hp2.
  destruct (shl_align m1 e1 _) as [p1 x1], (shl_align m2 e2 _) as [p2 x2]. destruct Hp1 as [_ Hp1], Hp2 as [_ Hp2].
  exists (p1 + p2)%positive, (Z.min e1 e2). split; [lia|]. split; [|done]. cbn [units fst]. rewrite Pos2Z.inj_add, Hp1, Hp2.
  rewrite (pow_split (e1 - Z.min e1 e2) (Z.min e1 e2 + 1074) (e1 + 1074)), (pow_split (e2 - Z.min e1 e2) (Z.min e1 e2 + 1074) (e2 + 1074)) by lia.
  replace (Z.min e1 (Z.min e1 e2)) with (Z.min e1 e2) by lia. replace (Z.min e2 (Z.min e1 e2)) with (Z.min e1 e2) by lia. lia.
Qed.

(** ** Sums of bounded numbers *)

(** [a] is a canonical number with [0 <= a <= n * 2^k]. *)
Definition upto (n k : Z) (a : double) : Prop :=
  double_wf a = true /\ nonneg a = true /\ isinf a = false /\ units a <= n * 2 ^ (k + 1074).

Lemma below_units k a : double_wf a = true -> below k a -> -1074 <= k -> nonneg a = true /\ isinf a = false /\ units a < 2 ^ (k + 1074).
Proof.
  intros Wa Hb Hk. destruct a as [[]|[]| |[] m e]; try done; [split_and!; try done; cbn [units]; lia..|].
  split_and!; [done..|]. cbn [below units] in *. destruct (wf_exponent _ _ _ Wa) as (He & _).
  pose proof (digits2_pos_bounds m) as [_ Hm]. apply Z.lt_le_trans with (2 ^ (Zpos (digits2_pos m) + (e + 1074))).
  - rewrite (pow_split (Zpos (digits2_pos m)) (e + 1074) _ eq_refl) by lia. nia.
  - apply Z.pow_le_mono_r; lia.
Qed.

(** A small multiple of a power of two is a double. *)
Lemma multiple_canonical n k : 0 < n < 2 ^ 53 -> -1021 <= k <= 917 ->
  exists m e, double_wf (S754_finite false m e) = true /\ units (S754_finite false m e) = n * 2 ^ (k + 1074).
Proof.
  intros Hn Hk. destruct n as [|n|n]; [lia| |lia]. pose proof (digits2_pos_bounds n) as [H1 H2]. pose proof (digits2_pos_le n 53).
  set (d := Zpos (digits2_pos n)) in *. exists (Z.to_pos (Zpos n * 2 ^ (53 - d))), (k - 53 + d).
  assert (Hm : Zpos (Z.to_pos (Zpos n * 2 ^ (53 - d))) = Zpos n * 2 ^ (53 - d)) by (apply Z2Pos.id; lia).
  assert (2 ^ 52 <= Zpos n * 2 ^ (53 - d) < 2 ^ 53).
  { rewrite (pow_split (d - 1) (53 - d) 52), (pow_split d (53 - d) 53) by lia. nia. }
  split; [apply double_wf_finite; right; lia|]. cbn [units]. rewrite Hm.
  rewrite (pow_split (53 - d) (k - 53 + d + 1074) (k + 1074)) by lia. lia.
Qed.

(** Adding a number below [2^k] moves a sum to the next multiple of [2^k] at most. *)
Lemma dadd_upto n k a b :
  0 <= n -> n + 1 < 2 ^ 53 -> -1021 <= k <= 917 -> upto n k a -> double_wf b = true -> below k b -> upto (n + 1) k (dadd a b).
Proof.
  intros Hn Hn' Hk (Wa & Na & Ia & Ua) Wb Hb. destruct (below_units k b Wb Hb) as (Nb & Ib & Ub); [lia|].
  assert (Hpow : 0 < 2 ^ (k + 1074)) by lia.
  split; [by apply dadd_wf|]. split; [by apply dadd_nonneg|].
  destruct (dadd_exact a b) as [->|[->|(p & z & Hz & Hs & Hr)]]; [done..|split; [done|nia]|split; [done|nia]|].
  destruct (multiple_canonical (n + 1) k) as (m & e & Wm & Um); [lia|lia|]. rewrite <- Um.
  apply dle_units; [by apply dadd_wf|done|by apply dadd_nonneg|]. rewrite Hr. apply binary_round_le; [done|done|]. rewrite Um, Hs. nia.
Qed.

(** ** Subtraction *)

Lemma dle_refl_finite m e : dle (S754_finite false m e) (S754_finite false m e) = true.
Proof. by apply dle_refl. Qed.

(** Taking a non-negative number away does not make a number larger. *)
Lemma dsub_le x y :
  double_wf x = true -> double_wf y = true -> nonneg x = true -> isinf x = false -> nonneg y = true -> isinf y = false -> dle (dsub x y) x = true.
Proof.
  intros Wx Wy Hx Ix Hy Iy. apply nonneg_cases in Hx, Hy.
  destruct x as [[]|[]| |[] m1 e1], y as [[]|[]| |[] m2 e2]; try done; try apply dle_refl_finite.
  unfold dsub, SFsub. cbn [cond_Zopp]. set (z := Z.min e1 e2).
  pose proof (shl_align_spec m1 e1 z) as H1. destruct (shl_align m1 e1 z) as [p1 x1]. destruct H1 as [_ H1]. cbn [fst].
  replace (Z.min e1 z) with z in H1 by lia.
  destruct (Zpos p1 - Zpos (fst (shl_align m2 e2 z))) as [|d|d] eqn:E; cbn [binary_normalize]; [done| |].
  - destruct (wf_exponent _ _ _ Wx) as (He1 & _). destruct (wf_exponent _ _ _ Wy) as (He2 & _). apply binary_round_le; [done|lia|].
    cbn [units]. rewrite (pow_split (e1 - z) (z + 1074) (e1 + 1074)), Z.mul_1_l, Z.mul_assoc, <- H1 by lia. nia.
  - pose proof (binary_round_sign true d z). by destruct (binary_round _ _ _ _ _) as [[]|[]| |[]].
Qed.
