(* ===== verification/Model.v ===== *)
(** * The data model

    Models include/communication_planner/model/*.hpp, path/hop.hpp,
    planner/snapshot.hpp and planner/limits.hpp: one record per struct, in a module of the
    struct's name so that [e.(Endpoint.id)] reads as [e.id], the request
    validation, the cost summary and the snapshot's lookup maps. *)

From S2P Require Import Prelude Core Enums Double.

(** ** Evidence (model/evidence.hpp) *)

Module Capability.
Record Capability := {
  generation : CapabilityGeneration;
  transports : gset Transport;
  features : gset string;
  provenance : Provenance;
  computeArch : list Z;          (* char[8], as bytes *)
}.
End Capability.
Abbreviation Capability := Capability.Capability.

Definition supports (c : Capability) (t : Transport) : bool :=
  bool_decide (t ∈ c.(Capability.transports)).

Module Health.
Record Health := { generation : HealthGeneration; healthy : bool; message : string }.
End Health.
Abbreviation Health := Health.Health.

Module Capacity.
Record Capacity := {
  generation : CapacityGeneration;
  usable : BytesPerSecond;
  headroom : BytesPerSecond;
  provenance : Provenance;
}.
End Capacity.
Abbreviation Capacity := Capacity.Capacity.

Module Congestion.
Record Congestion := {
  generation : CongestionGeneration;
  load : double;
  penalty : double;
  hardLimitExceeded : bool;
  provenance : Provenance;
}.
End Congestion.
Abbreviation Congestion := Congestion.Congestion.

Module Reservation.
Record Reservation := {
  resource : ResourceId;
  reserved : BytesPerSecond;
  provenance : Provenance;
}.
End Reservation.
Abbreviation Reservation := Reservation.Reservation.

(** ** Location, endpoint and link *)

Module TopologyLocation.
Record TopologyLocation := {
  node : NodeId;
  cpuDomain : CpuDomainId;
  memoryDomain : MemoryDomainId;
  nic : NicId;
  device : DeviceId;
  pcieRoot : string;
  numaDistance : Z;              (* int *)
  provenance : Provenance;
}.
End TopologyLocation.
Abbreviation TopologyLocation := TopologyLocation.TopologyLocation.

Module Endpoint.
Record Endpoint := {
  id : EndpointId;
  generation : EndpointGeneration;
  kind : EndpointKind;
  node : NodeId;
  device : DeviceId;
  location : TopologyLocation;
  address : string;
  protocol : string;
  version : string;
  name : string;
  capability : Capability;
  health : Health;
  reachable : bool;
  ready : bool;
  worker : WorkerId;
  workerBoot : WorkerBootId;
  source : SourceId;
  sourceBoot : SourceBootId;
  failureDomain : string;
  provenance : Provenance;
}.
End Endpoint.
Abbreviation Endpoint := Endpoint.Endpoint.

Module Link.
Record Link := {
  id : LinkId;
  generation : LinkGeneration;
  source : EndpointId;
  destination : EndpointId;
  kind : LinkKind;
  transport : Transport;
  directed : bool;
  capacity : BytesPerSecond;
  effectiveBandwidth : BytesPerSecond;
  latency : DurationNs;
  health : Health;
  congestion : Congestion;
  capacityEvidence : Capacity;
  topologyGeneration : TopologyGeneration;
  capabilityGeneration : CapabilityGeneration;
  failureDomain : string;
  workerBoot : WorkerBootId;
  provenance : Provenance;
}.
End Link.
Abbreviation Link := Link.Link.

(** ** Requests (model/request.hpp) *)

Module Request.
Record CommunicationRequest := {
  id : CommunicationRequestId;
  generation : CommunicationRequestGeneration;
  shape : RequestShape;
  source : EndpointId;
  destinations : list EndpointId;
  payloadSize : Bytes;
  direction : Direction;
  latencySensitive : bool;
  throughputTarget : BytesPerSecond;
  requireOrdering : bool;
  requireReliability : bool;
  allowRetry : bool;
  allowStaging : bool;
  allowHostStaging : bool;
  allowStorageStaging : bool;
  allowRelay : bool;
  allowMulticast : bool;
  allowed : gset Transport;
  forbidden : gset Transport;
  requiredFailureDomain : string;
  preferredLocality : string;
  maxHops : Z;                   (* unsigned *)
  maxStages : Z;                 (* unsigned *)
  maxMovementCost : option Bytes;
  reservationBinding : option ResourceId;
  externalPriority : Z;          (* unsigned *)
  policyGeneration : PolicyGeneration;
  collectiveShape : CollectiveShape;
  participants : list EndpointId;
  collectiveCount : Z;           (* unsigned *)
  provenance : string;
}.
End Request.
Abbreviation CommunicationRequest := Request.CommunicationRequest.

Definition effectiveShape (r : CommunicationRequest) : RequestShape :=
  if bool_decide (r.(Request.shape) = RequestShape.MULTICAST) || r.(Request.allowMulticast)
  then RequestShape.MULTICAST else r.(Request.shape).

Notation "'refuse_if' b 'because' w ;; k" := (if b then Some w else k)
  (at level 10, b at level 99, w at level 0, k at level 200).

(** The collective part of [CommunicationRequest::validate]: [Some why] where the
    source stores the reason and returns false, [None] where it falls through. *)
Definition validate_collective (r : CommunicationRequest) : option string :=
  if bool_decide (r.(Request.shape) = RequestShape.COLLECTIVE) then
    refuse_if r.(Request.collectiveCount) =? 0 because "collective zero participant count";;
    refuse_if 2 ^ 20 <? r.(Request.collectiveCount) because "collective participant count overflow";;
    refuse_if bool_decide (r.(Request.collectiveShape) = CollectiveShape.UNKNOWN) because "collective shape unknown";;
    refuse_if bool_decide (r.(Request.participants) = []) because "collective empty participants";;
    None
  else None.

(** The destination part: multicast fan-out, or a single destination. *)
Definition validate_destinations (r : CommunicationRequest) : option string :=
  if bool_decide (r.(Request.shape) = RequestShape.MULTICAST) || r.(Request.allowMulticast) then
    refuse_if (length r.(Request.destinations) <? 2)%nat because "multicast needs >=2 destinations";;
    refuse_if 2 ^ 16 <? Z.of_nat (length r.(Request.destinations)) because "multicast fan-out overflow";;
    None
  else if bool_decide (r.(Request.shape) = RequestShape.POINT_TO_POINT)
       || bool_decide (r.(Request.shape) = RequestShape.STAGED) then
    refuse_if isNull r.(Request.source) because "point-to-point missing source";;
    refuse_if negb (length r.(Request.destinations) =? 1)%nat because "point-to-point needs exactly one destination";;
    refuse_if bool_decide (r.(Request.destinations) = []) because "point-to-point missing destination";;
    None
  else None.

(** The transport part: a conflict between the allowed and the forbidden set. *)
Definition validate_transports (r : CommunicationRequest) : option string :=
  refuse_if existsb (fun t => bool_decide (t ∈ r.(Request.forbidden))) (enum_set_elements r.(Request.allowed))
    because "transport in both allowed and forbidden";;
  refuse_if bool_decide (Transport.UNKNOWN ∈ r.(Request.forbidden)) because "cannot forbid UNKNOWN transport";;
  None.

(** [CommunicationRequest::validate]; the three parts run in the source's order. *)
Definition validate (r : CommunicationRequest) : option string :=
  refuse_if isNull r.(Request.id) because "null request id";;
  refuse_if isNull r.(Request.generation) because "null request generation";;
  refuse_if r.(Request.payloadSize) =? 0 because "zero payload size";;
  refuse_if (r.(Request.maxHops) =? 0) || (255 <? r.(Request.maxHops)) because "invalid maxHops";;
  refuse_if (r.(Request.maxStages) =? 0) || (255 <? r.(Request.maxStages)) because "invalid maxStages";;
  match validate_collective r with
  | Some w => Some w
  | None =>
      match validate_destinations r with
      | Some w => Some w
      | None => validate_transports r
      end
  end.

(** ** Exceptions *)

Inductive exn :=
  | ComError (what : string)     (* core/error.hpp *)
  | out_of_range                 (* std::out_of_range of a checked [at] *)
  | undefined_index.             (* an unchecked [v[i]] beyond the end: undefined behaviour *)

Inductive result (A : Type) :=
  | Ok (a : A)
  | Throw (e : exn).
Arguments Ok {A} _.
Arguments Throw {A} _.

(** [CommunicationRequest::requireValid]. *)
Definition requireValid (r : CommunicationRequest) : result unit :=
  match validate r with
  | None => Ok tt
  | Some why => Throw (ComError ("malformed communication request: " +:+ why))
  end.

(** ** Cost components (model/component.hpp) *)

Module CostComponent.
Record CostComponent := {
  factor : CostFactor;
  weight : double;
  value : double;
  provenance : Provenance;
}.
End CostComponent.
Abbreviation CostComponent := CostComponent.CostComponent.

(** [CostComponent::isValid]. *)
Definition isValid (c : CostComponent) : bool :=
  dge c.(CostComponent.weight) dzero && negb (isnan c.(CostComponent.weight)) && negb (isinf c.(CostComponent.weight)) &&
  dge c.(CostComponent.value) dzero && negb (isnan c.(CostComponent.value)) && negb (isinf c.(CostComponent.value)).

Module CostSummary.
Record CostSummary := { components : list CostComponent; total : double }.
End CostSummary.
Abbreviation CostSummary := CostSummary.CostSummary.

Definition totalValid (s : CostSummary) : bool :=
  negb (isnan s.(CostSummary.total)) && negb (isinf s.(CostSummary.total)).

(** The accumulation loop of [CostSummary::of], with its two early exits. *)
Fixpoint cost_total (comps : list CostComponent) (t : double) : double :=
  match comps with
  | [] => t
  | c :: comps' =>
      if negb (isValid c) then dinf
      else
        let t' := dadd t (dmul c.(CostComponent.weight) c.(CostComponent.value)) in
        if isinf t' || isnan t' then dinf else cost_total comps' t'
  end.

Definition CostSummary_of (comps : list CostComponent) : CostSummary :=
  {| CostSummary.components := comps; CostSummary.total := cost_total comps dzero |}.

(** [CostSummary::uncertaintyCount] counts in double. *)
Definition uncertaintyCount (s : CostSummary) : double :=
  foldl (fun u c => if bool_decide (c.(CostComponent.provenance) = Provenance.UNKNOWN)
                    then dadd u done_ else u) dzero s.(CostSummary.components).

(** A default-constructed summary. *)
Definition CostSummary_default : CostSummary :=
  {| CostSummary.components := []; CostSummary.total := dzero |}.

(** ** Paths, stages and plans *)

Module Hop.
Record Hop := { link : LinkId; from : EndpointId; to : EndpointId }.
End Hop.
Abbreviation Hop := Hop.Hop.

#[export] Instance Hop_eq_dec : EqDecision Hop.
Proof. solve_decision. Defined.

Module CandidatePath.
Record CandidatePath := { source : EndpointId; destination : EndpointId; hops : list Hop }.
End CandidatePath.
Abbreviation CandidatePath := CandidatePath.CandidatePath.

#[export] Instance CandidatePath_eq_dec : EqDecision CandidatePath.
Proof. solve_decision. Defined.

Module Stage.
Record Stage := {
  id : StageId;
  generation : StageGeneration;
  source : EndpointId;
  destination : EndpointId;
  link : LinkId;
  transport : Transport;
  payload : Bytes;
  expectedBandwidth : BytesPerSecond;
  expectedLatency : DurationNs;
  stagingResource : ResourceId;
  requiresAuthority : bool;
  provenance : Provenance;
  description : string;
}.
End Stage.
Abbreviation Stage := Stage.Stage.

Module Path.
Record Path := {
  id : PathId;
  generation : PathGeneration;
  source : EndpointId;
  destination : EndpointId;
  stages : list Stage;
  totalPayload : Bytes;
  cost : CostSummary;
  provenance : Provenance;
  failureDomain : string;
  reason : string;
}.
End Path.
Abbreviation Path := Path.Path.

Module Plan.
Record CommunicationPlan := {
  id : CommunicationPlanId;
  generation : CommunicationPlanGeneration;
  requestId : CommunicationRequestId;
  requestGeneration : CommunicationRequestGeneration;
  shape : RequestShape;
  primaryPath : PathId;
  fallbackPaths : list PathId;
  candidatePaths : list Path;
  orderedStages : list Stage;
  feasibility : Feasibility;
  topologyGeneration : TopologyGeneration;
  capacityGeneration : CapacityGeneration;
  reservationGeneration : ReservationGeneration;
  congestionGeneration : CongestionGeneration;
  capabilityGeneration : CapabilityGeneration;
  healthGeneration : HealthGeneration;
  placementGeneration : PlacementGeneration;
  authorityGeneration : AuthorityGeneration;
  endpointGenerations : list (EndpointId * EndpointGeneration);
  linkGenerations : list (LinkId * LinkGeneration);
  requiredStagingResources : list ResourceId;
  requiredResourceClaims : list ResourceId;
  cost : CostSummary;
  explanations : list string;
  provenance : string;
  revalidationGeneration : RevalidationGeneration;
  revalidateBeforeExecute : bool;
  handoffRequirement : string;
  createdProvenance : string;
  multicastDestinations : list EndpointId;
  collectiveShape : CollectiveShape;
  collectiveParticipants : list EndpointId;
  description : string;
}.
End Plan.
Abbreviation CommunicationPlan := Plan.CommunicationPlan.

(** ** Snapshot and bounds *)

Module Snapshot.
Record EvidenceSnapshot := {
  topologyGeneration : TopologyGeneration;
  capacityGeneration : CapacityGeneration;
  reservationGeneration : ReservationGeneration;
  congestionGeneration : CongestionGeneration;
  capabilityGeneration : CapabilityGeneration;
  healthGeneration : HealthGeneration;
  placementGeneration : PlacementGeneration;
  policyGeneration : PolicyGeneration;
  endpoints : list Endpoint;
  links : list Link;
  reservations : list Reservation;
  resourceCapacities : list (ResourceId * Capacity);
  workerBoots : gmap Z WorkerBootId;
  sourceBoots : gmap Z SourceBootId;
  epoch : CoordinatorEpoch;
  authorityGeneration : AuthorityGeneration;
}.
End Snapshot.
Abbreviation EvidenceSnapshot := Snapshot.EvidenceSnapshot.

(** [EvidenceSnapshot::endpointMap] and [linkMap]: a later entry with the same
    identity replaces an earlier one. *)
Definition endpointMap (snap : EvidenceSnapshot) : gmap Z Endpoint :=
  index_by Endpoint.id snap.(Snapshot.endpoints).
Definition linkMap (snap : EvidenceSnapshot) : gmap Z Link :=
  index_by Link.id snap.(Snapshot.links).

Module Bounds.
Record Bounds := {
  maxEndpoints : Z;
  maxLinks : Z;
  maxCandidates : Z;
  maxPathDepth : Z;
  maxRelayCount : Z;
  maxMulticastFanout : Z;
  maxCollectiveParticipants : Z;
  maxFallbacks : Z;
  maxHistory : Z;
  maxStagingPerPlan : Z;
  maxExplanationSize : Z;
  maxPayloadBytes : Z;
}.
End Bounds.
Abbreviation Bounds := Bounds.Bounds.

(** The defaults of planner/limits.hpp. *)
Definition defaultBounds : Bounds := {|
  Bounds.maxEndpoints := 100000; Bounds.maxLinks := 100000; Bounds.maxCandidates := 4096;
  Bounds.maxPathDepth := 16; Bounds.maxRelayCount := 16; Bounds.maxMulticastFanout := 1024;
  Bounds.maxCollectiveParticipants := 65536; Bounds.maxFallbacks := 16; Bounds.maxHistory := 4096;
  Bounds.maxStagingPerPlan := 64; Bounds.maxExplanationSize := 64; Bounds.maxPayloadBytes := 2 ^ 34;
|}.

(** ** Meaning of request validation *)

Record valid_request (r : CommunicationRequest) : Prop := {
  vr_id : r.(Request.id) <> 0;
  vr_generation : r.(Request.generation) <> 0;
  vr_payload : r.(Request.payloadSize) <> 0;
  vr_maxHops : r.(Request.maxHops) <> 0 /\ r.(Request.maxHops) <= 255;
  vr_maxStages : r.(Request.maxStages) <> 0 /\ r.(Request.maxStages) <= 255;
  vr_collective : r.(Request.shape) = RequestShape.COLLECTIVE ->
    r.(Request.collectiveCount) <> 0 /\ r.(Request.collectiveCount) <= 2 ^ 20 /\
    r.(Request.collectiveShape) <> CollectiveShape.UNKNOWN /\ r.(Request.participants) <> [];
  vr_multicast : effectiveShape r = RequestShape.MULTICAST ->
    2 <= Z.of_nat (length r.(Request.destinations)) <= 2 ^ 16;
  vr_single : effectiveShape r = RequestShape.POINT_TO_POINT \/ effectiveShape r = RequestShape.STAGED ->
    r.(Request.source) <> 0 /\ exists d, r.(Request.destinations) = [d];
  vr_disjoint : r.(Request.allowed) ## r.(Request.forbidden);
  vr_unknown : Transport.UNKNOWN ∉ r.(Request.forbidden);
}.

Lemma elem_of_enum_set_elements `{EqDecision A, CppEnum A} (s : gset A) x :
  x ∈ enum_set_elements s <-> x ∈ s.
Proof.
  unfold enum_set_elements. rewrite list_elem_of_filter. split; [by intros []|].
  intros Hx. split; [done|]. destruct (enum_u8_spec x) as [_ Hl].
  by apply list_elem_of_lookup_2 in Hl.
Qed.

Lemma validate_collective_None r :
  validate_collective r = None <->
  (r.(Request.shape) = RequestShape.COLLECTIVE ->
    r.(Request.collectiveCount) <> 0 /\ r.(Request.collectiveCount) <= 2 ^ 20 /\
    r.(Request.collectiveShape) <> CollectiveShape.UNKNOWN /\ r.(Request.participants) <> []).
Proof.
  unfold validate_collective. case_bool_decide as E; [|naive_solver].
  rewrite !guard_None, !bool_decide_eq_false, Z.eqb_neq, Z.ltb_ge. naive_solver.
Qed.

Lemma effectiveShape_multicast r :
  effectiveShape r = RequestShape.MULTICAST <->
  bool_decide (r.(Request.shape) = RequestShape.MULTICAST) || r.(Request.allowMulticast) = true.
Proof. unfold effectiveShape. case_bool_decide; destruct (Request.allowMulticast r); naive_solver. Qed.

Lemma validate_destinations_None r :
  validate_destinations r = None <->
  (effectiveShape r = RequestShape.MULTICAST ->
    2 <= Z.of_nat (length r.(Request.destinations)) <= 2 ^ 16) /\
  (effectiveShape r = RequestShape.POINT_TO_POINT \/ effectiveShape r = RequestShape.STAGED ->
    r.(Request.source) <> 0 /\ exists d, r.(Request.destinations) = [d]).
Proof.
  unfold validate_destinations, effectiveShape.
  destruct (bool_decide (Request.shape r = _) || Request.allowMulticast r) eqn:Em.
  { rewrite !guard_None, Nat.ltb_ge, Z.ltb_ge. split.
    - intros (? & ? & _). split; [lia|]. by intros [?|?].
    - intros [H _]. specialize (H eq_refl). repeat split; lia. }
  destruct (bool_decide (_ = RequestShape.POINT_TO_POINT) || _) eqn:Es.
  - rewrite !guard_None, negb_false_iff, Nat.eqb_eq, bool_decide_eq_false. unfold isNull. rewrite Z.eqb_neq.
    split.
    + intros (? & Hl & ? & _). split; [intros H'; by rewrite H' in Em|]. intros _. split; [done|].
      destruct (Request.destinations r) as [|d [|]]; naive_solver.
    + intros [_ H]. destruct H as [? [d ->]]; [|done].
      apply orb_true_iff in Es as [?%bool_decide_eq_true|?%bool_decide_eq_true]; auto.
  - apply orb_false_iff in Es as [?%bool_decide_eq_false ?%bool_decide_eq_false].
    split; [|done]. intros _. split; [intros H'; by rewrite H' in Em|]. intros [|]; naive_solver.
Qed.

Lemma validate_transports_None r :
  validate_transports r = None <->
  r.(Request.allowed) ## r.(Request.forbidden) /\ Transport.UNKNOWN ∉ r.(Request.forbidden).
Proof.
  unfold validate_transports. rewrite !guard_None, bool_decide_eq_false.
  rewrite <- not_true_iff_false, existsb_exists. split.
  - intros (Hc & ? & _). split; [|done]. intros t Ha Hf. apply Hc. exists t.
    rewrite <- list_elem_of_In, elem_of_enum_set_elements, bool_decide_eq_true. done.
  - intros [Hd ?]. split; [|done]. intros (t & Ht & Hf).
    rewrite <- list_elem_of_In, elem_of_enum_set_elements in Ht. apply bool_decide_eq_true in Hf. set_solver.
Qed.

Lemma validate_iff r : validate r = None <-> valid_request r.
Proof.
  unfold validate, isNull. rewrite !guard_None, !orb_false_iff, !Z.eqb_neq, !Z.ltb_ge.
  assert (Hm : forall (a b : option string), match a with Some w => Some w | None => b end = None
                 <-> a = None /\ b = None) by (intros [] ?; naive_solver).
  rewrite !Hm, validate_collective_None, validate_destinations_None, validate_transports_None.
  split; [intros; destruct_and!; split; auto|intros []; tauto].
Qed.

(** [requireValid] returns on well-formed requests and throws the reason otherwise. *)
Lemma requireValid_cases r :
  match requireValid r with
  | Ok _ => valid_request r
  | Throw e => ~ valid_request r /\ exists why, validate r = Some why /\ e = ComError ("malformed communication request: " +:+ why)
  end.
Proof.
  pose proof (validate_iff r) as H. unfold requireValid. destruct (validate r) as [why|]; [|tauto].
  split; [intros ?%H; done|eauto].
Qed.

(** [validate] accepts a request exactly when it is well formed: non-null
    identity, positive payload, hop and stage limits within 1..255, a complete
    collective or a legal destination list for its effective shape, and disjoint
    transport sets; [requireValid] throws in every other case. *)
Theorem validate_correct r :
  (validate r = None <-> valid_request r) /\ (requireValid r = Ok tt <-> valid_request r).
Proof.
  split; [apply validate_iff|]. pose proof (requireValid_cases r) as H.
  destruct (requireValid r) as [[]|e]; [tauto|]. destruct H as [H _]. split; [done|tauto].
Qed.

(** ** Meaning of the cost total *)

Lemma isValid_nonneg c :
  isValid c = true ->
  nonneg c.(CostComponent.weight) = true /\ nonneg c.(CostComponent.value) = true /\
  isinf c.(CostComponent.weight) = false /\ isinf c.(CostComponent.value) = false.
Proof. unfold isValid, nonneg. intros. bsplit. auto. Qed.

Lemma cost_total_cases comps t :
  nonneg t = true -> isinf t = false ->
  (cost_total comps t = dinf) \/
  (Forall (fun c => isValid c = true) comps /\
   nonneg (cost_total comps t) = true /\ isinf (cost_total comps t) = false).
Proof.
  revert t; induction comps as [|c comps IH]; simpl; intros t Ht Hi; [by right|].
  destruct (isValid c) eqn:Ev; simpl; [|by left].
  destruct (isValid_nonneg _ Ev) as (? & ? & ? & ?).
  destruct (_ || _) eqn:Eo; [by left|]. bsplit.
  destruct (IH (dadd t (dmul c.(CostComponent.weight) c.(CostComponent.value)))) as [|(? & ? & ?)];
    auto with planner.
Qed.

(** A valid total has only valid components. *)
Lemma CostSummary_valid_components comps :
  totalValid (CostSummary_of comps) = true -> Forall (fun c => isValid c = true) comps.
Proof.
  unfold totalValid. simpl. destruct (cost_total_cases comps dzero eq_refl eq_refl) as [->|(Hf & _)]; [done|]. auto.
Qed.

(** The total of a cost summary is never NaN and never negative: it is either
    a finite non-negative double, and then every component was valid, or positive
    infinity, which [totalValid] refuses. *)
Theorem CostSummary_total_sound comps :
  nonneg (CostSummary.total (CostSummary_of comps)) = true /\
  (totalValid (CostSummary_of comps) = true -> Forall (fun c => isValid c = true) comps) /\
  (totalValid (CostSummary_of comps) = false -> CostSummary.total (CostSummary_of comps) = dinf).
Proof.
  unfold totalValid. simpl.
  destruct (cost_total_cases comps dzero eq_refl eq_refl) as [->|(Hf & Hn & Hi)]; [done|].
  split; [done|]. split; [done|]. rewrite Hi.
  apply nonneg_numeric in Hn. unfold numeric in Hn. by rewrite Hn.
Qed.
