(* ===== verification/Scenario.v ===== *)
(** * Concrete scenarios

    The builders of tests/testutil.hpp and the two-GPU snapshot of
    tests/test_core.cpp (a direct link and a staged route through pinned host
    memory), on which the theorems of the development are instantiated. *)

From S2P Require Import Prelude Core Enums Double Model.

Definition mkLocation (prov : Provenance) : TopologyLocation := {|
  TopologyLocation.node := 0; TopologyLocation.cpuDomain := 0; TopologyLocation.memoryDomain := 0;
  TopologyLocation.nic := 0; TopologyLocation.device := 0; TopologyLocation.pcieRoot := "";
  TopologyLocation.numaDistance := 0; TopologyLocation.provenance := prov |}.

Definition mkHealth (healthy : bool) : Health :=
  {| Health.generation := 1; Health.healthy := healthy; Health.message := "" |}.

Definition mkEndpoint (id gen : Z) (kind : EndpointKind) (node : Z) (ready reachable : bool)
    (ts : list Transport) (prov : Provenance) (boot : WorkerBootId) : Endpoint := {|
  Endpoint.id := id; Endpoint.generation := gen; Endpoint.kind := kind; Endpoint.node := node;
  Endpoint.device := 0; Endpoint.location := mkLocation prov;
  Endpoint.address := ""; Endpoint.protocol := ""; Endpoint.version := ""; Endpoint.name := "";
  Endpoint.capability := {|
    Capability.generation := 1; Capability.transports := list_to_set ts; Capability.features := ∅;
    Capability.provenance := prov; Capability.computeArch := replicate 8 0 |};
  Endpoint.health := mkHealth true; Endpoint.reachable := reachable; Endpoint.ready := ready;
  Endpoint.worker := if isNull boot then 0 else id; Endpoint.workerBoot := boot;
  Endpoint.source := 0; Endpoint.sourceBoot := 0; Endpoint.failureDomain := "";
  Endpoint.provenance := Provenance.MEASURED |}.

Definition mkLink (id gen src dst : Z) (t : Transport) (capacity : Z) (healthy : bool)
    (penalty : double) (prov : Provenance) : Link := {|
  Link.id := id; Link.generation := gen; Link.source := src; Link.destination := dst;
  Link.kind := LinkKind.COMPOSITE; Link.transport := t; Link.directed := true;
  Link.capacity := capacity; Link.effectiveBandwidth := capacity; Link.latency := 1000;
  Link.health := mkHealth healthy;
  Link.congestion := {|
    Congestion.generation := 1; Congestion.load := dzero; Congestion.penalty := penalty;
    Congestion.hardLimitExceeded := false; Congestion.provenance := Provenance.REPORTED |};
  Link.capacityEvidence := {|
    Capacity.generation := 1; Capacity.usable := capacity; Capacity.headroom := capacity;
    Capacity.provenance := Provenance.REPORTED |};
  Link.topologyGeneration := 1; Link.capabilityGeneration := 1; Link.failureDomain := "";
  Link.workerBoot := 0; Link.provenance := prov |}.

Definition mkRequest (id src dst payload : Z) (shape : RequestShape) (forbidden : gset Transport)
    : CommunicationRequest := {|
  Request.id := id; Request.generation := 1; Request.shape := shape; Request.source := src;
  Request.destinations := [dst]; Request.payloadSize := payload; Request.direction := Direction.FORWARD;
  Request.latencySensitive := false; Request.throughputTarget := 0; Request.requireOrdering := false;
  Request.requireReliability := false; Request.allowRetry := false; Request.allowStaging := true;
  Request.allowHostStaging := true; Request.allowStorageStaging := false; Request.allowRelay := true;
  Request.allowMulticast := false; Request.allowed := ∅; Request.forbidden := forbidden;
  Request.requiredFailureDomain := ""; Request.preferredLocality := ""; Request.maxHops := 16;
  Request.maxStages := 16; Request.maxMovementCost := None; Request.reservationBinding := None;
  Request.externalPriority := 0; Request.policyGeneration := 0;
  Request.collectiveShape := CollectiveShape.UNKNOWN; Request.participants := [];
  Request.collectiveCount := 0; Request.provenance := "" |}.

Definition mkSnapshot (es : list Endpoint) (ls : list Link) (rs : list Reservation)
    (rcs : list (Z * Capacity)) (boots : gmap Z Z) : EvidenceSnapshot := {|
  Snapshot.topologyGeneration := 1; Snapshot.capacityGeneration := 1;
  Snapshot.reservationGeneration := 1; Snapshot.congestionGeneration := 1;
  Snapshot.capabilityGeneration := 1; Snapshot.healthGeneration := 1;
  Snapshot.placementGeneration := 1; Snapshot.policyGeneration := 1;
  Snapshot.endpoints := es; Snapshot.links := ls; Snapshot.reservations := rs;
  Snapshot.resourceCapacities := rcs; Snapshot.workerBoots := boots; Snapshot.sourceBoots := ∅;
  Snapshot.epoch := 0; Snapshot.authorityGeneration := 1 |}.

Definition gpuA : Endpoint :=
  mkEndpoint 10 1 EndpointKind.GPU_DEVICE 1 true true [Transport.CUDA; Transport.HOST_MEMORY; Transport.PCIE] Provenance.MEASURED 0.
Definition gpuB : Endpoint :=
  mkEndpoint 11 1 EndpointKind.GPU_DEVICE 2 true true [Transport.CUDA; Transport.HOST_MEMORY; Transport.PCIE] Provenance.MEASURED 0.
Definition hostMem : Endpoint :=
  mkEndpoint 12 1 EndpointKind.PINNED_HOST_MEMORY 1 true true [Transport.HOST_MEMORY; Transport.PCIE] Provenance.MEASURED 0.

Definition directLink : Link := mkLink 1 1 10 11 Transport.HOST_MEMORY 1000000 true dzero Provenance.MEASURED.
Definition upLink : Link := mkLink 2 1 10 12 Transport.PCIE 2000000 true dzero Provenance.MEASURED.
Definition downLink : Link := mkLink 3 1 12 11 Transport.PCIE 2000000 true dzero Provenance.MEASURED.

(** [buildBasic]. *)
Definition basicSnapshot : EvidenceSnapshot :=
  mkSnapshot [gpuA; gpuB; hostMem] [directLink; upLink; downLink] [] [] {[10 := 7]}.

Definition basicRequest : CommunicationRequest := mkRequest 5 10 11 4096 RequestShape.POINT_TO_POINT ∅.

Definition basicBounds : Bounds := {|
  Bounds.maxEndpoints := 100000; Bounds.maxLinks := 100000; Bounds.maxCandidates := 256;
  Bounds.maxPathDepth := 6; Bounds.maxRelayCount := 16; Bounds.maxMulticastFanout := 1024;
  Bounds.maxCollectiveParticipants := 65536; Bounds.maxFallbacks := 4; Bounds.maxHistory := 4096;
  Bounds.maxStagingPerPlan := 64; Bounds.maxExplanationSize := 64; Bounds.maxPayloadBytes := 2 ^ 34;
|}.

Definition directPath : CandidatePath := {|
  CandidatePath.source := 10; CandidatePath.destination := 11;
  CandidatePath.hops := [{| Hop.link := 1; Hop.from := 10; Hop.to := 11 |}] |}.

Definition stagedPath : CandidatePath := {|
  CandidatePath.source := 10; CandidatePath.destination := 11;
  CandidatePath.hops := [{| Hop.link := 2; Hop.from := 10; Hop.to := 12 |};
                         {| Hop.link := 3; Hop.from := 12; Hop.to := 11 |}] |}.
