(* ===== verification/Feasibility.v ===== *)
(** * Hard feasibility

    Models src/feasibility.cpp and feasibility/feasibility.hpp: the hard filter
    every candidate path passes through before it can be ranked.  The filter is a
    sequence of early returns; [None] below is control reaching the next check. *)

From S2P Require Import Prelude Core Enums Double Model Scenario.

Module FeasibilityResult.
Record FeasibilityResult := { outcome : Feasibility; detail : string }.
End FeasibilityResult.
Abbreviation FeasibilityResult := FeasibilityResult.FeasibilityResult.

Definition feasible (r : FeasibilityResult) : bool :=
  bool_decide (r.(FeasibilityResult.outcome) = Feasibility.FEASIBLE).

Definition FeasibilityResult_ok : FeasibilityResult :=
  {| FeasibilityResult.outcome := Feasibility.FEASIBLE; FeasibilityResult.detail := "" |}.

Definition FeasibilityResult_reject (f : Feasibility) (d : string) : FeasibilityResult :=
  {| FeasibilityResult.outcome := f; FeasibilityResult.detail := d |}.

Notation "'reject_if' b 'as_' f 'saying' d ;; k" :=
  (if b then Some (FeasibilityResult_reject f d) else k)
  (at level 10, b at level 99, f at level 0, d at level 0, k at level 200).

(** [endpointFresh]: an endpoint bound to an incarnation is fresh only while that
    worker (source) is still registered with that very boot. *)
Definition boot_current (owner boot : Z) (boots : gmap Z Z) : bool :=
  if isNull boot then true
  else if isNull owner then false
  else match boots !! owner with
       | None => false
       | Some b => b =? boot
       end.

Definition endpointFresh (e : Endpoint) (snap : EvidenceSnapshot) : bool :=
  boot_current e.(Endpoint.worker) e.(Endpoint.workerBoot) snap.(Snapshot.workerBoots) &&
  boot_current e.(Endpoint.source) e.(Endpoint.sourceBoot) snap.(Snapshot.sourceBoots).

Definition transportAllowed (req : CommunicationRequest) (t : Transport) : FeasibilityResult :=
  if bool_decide (t ∈ req.(Request.forbidden)) then
    FeasibilityResult_reject Feasibility.REJECT_TRANSPORT "transport is forbidden by request"
  else if negb (bool_decide (req.(Request.allowed) = ∅)) && negb (bool_decide (t ∈ req.(Request.allowed))) then
    FeasibilityResult_reject Feasibility.REJECT_TRANSPORT "transport is not in allowed set"
  else FeasibilityResult_ok.

Definition linkResource (id : LinkId) : ResourceId := id.

(** Interior endpoints that hold the payload, as opposed to pass it on. *)
Definition staging_kind (k : EndpointKind) : bool :=
  match k with
  | EndpointKind.CPU_MEMORY | EndpointKind.PINNED_HOST_MEMORY | EndpointKind.NUMA_MEMORY
  | EndpointKind.STORAGE | EndpointKind.PROCESS | EndpointKind.SERVICE | EndpointKind.CACHE
  | EndpointKind.CHECKPOINT | EndpointKind.MODEL_RESIDENCY | EndpointKind.STATE_LOCATION => true
  | _ => false
  end.

(** The hops whose target is an interior relay: all but the last. *)
Definition relay_hops (hops : list Hop) : list Hop := take (length hops - 1) hops.

Definition check_relay (req : CommunicationRequest) (emap : gmap Z Endpoint) (h : Hop)
    : option FeasibilityResult :=
  match emap !! h.(Hop.to) with
  | None => Some (FeasibilityResult_reject Feasibility.REJECT_ENDPOINT "missing relay endpoint")
  | Some e =>
      let kind := e.(Endpoint.kind) in
      if staging_kind kind then
        if bool_decide (kind = EndpointKind.STORAGE) then
          reject_if negb req.(Request.allowStorageStaging) as_ Feasibility.REJECT_ENDPOINT
            saying "storage staging not permitted by request";; None
        else
          reject_if negb req.(Request.allowHostStaging) as_ Feasibility.REJECT_ENDPOINT
            saying "host staging not permitted by request";; None
      else None
  end.

Definition check_staging (req : CommunicationRequest) (emap : gmap Z Endpoint) (hops : list Hop)
    : option FeasibilityResult :=
  if (1 <? length hops)%nat then
    reject_if negb req.(Request.allowStaging) && negb req.(Request.allowHostStaging) as_ Feasibility.REJECT_ENDPOINT
      saying "multi-hop path requires staging but request forbids it";;
    reject_if negb req.(Request.allowRelay) as_ Feasibility.REJECT_ENDPOINT saying "relay not allowed";;
    first_return (check_relay req emap) (relay_hops hops)
  else None.

(** Bandwidth reserved on a link, summed in [std::uint64_t]. *)
Definition reserved_on (snap : EvidenceSnapshot) (id : LinkId) : Z :=
  foldl (fun acc r => if r.(Reservation.resource) =? linkResource id
                      then wrap64 (acc + r.(Reservation.reserved)) else acc)
    0 snap.(Snapshot.reservations).

(** The checks on each of the two endpoints of a hop. *)
Definition check_endpoint (snap : EvidenceSnapshot) (t : Transport) (e : Endpoint)
    : option FeasibilityResult :=
  reject_if negb (endpointFresh e snap) as_ Feasibility.REJECT_STALE_ENDPOINT
    saying "endpoint published by stale worker/source incarnation";;
  reject_if negb e.(Endpoint.reachable) || negb e.(Endpoint.ready) as_ Feasibility.REJECT_ENDPOINT
    saying "endpoint not reachable/ready";;
  reject_if bool_decide (e.(Endpoint.kind) = EndpointKind.UNKNOWN) as_ Feasibility.REJECT_ENDPOINT
    saying "UNKNOWN endpoint kind cannot satisfy hard readiness";;
  reject_if negb (supports e.(Endpoint.capability) t) as_ Feasibility.REJECT_CAPABILITY
    saying "endpoint does not support link transport";;
  None.

(** The checks on the link of a hop, up to the endpoint lookup. *)
Definition check_link (req : CommunicationRequest) (snap : EvidenceSnapshot) (h : Hop) (link : Link)
    : option FeasibilityResult :=
  reject_if negb (h.(Hop.from) =? link.(Link.source)) || negb (h.(Hop.to) =? link.(Link.destination))
    as_ Feasibility.REJECT_DIRECTION saying "hop direction mismatch";;
  reject_if negb link.(Link.directed) as_ Feasibility.REJECT_DIRECTION saying "link not directed";;
  if negb (feasible (transportAllowed req link.(Link.transport)))
  then Some (transportAllowed req link.(Link.transport)) else
  reject_if link.(Link.capacity) =? 0 as_ Feasibility.REJECT_CAPACITY saying "link has zero capacity";;
  reject_if bool_decide (link.(Link.transport) = Transport.UNKNOWN) as_ Feasibility.REJECT_TRANSPORT
    saying "link transport UNKNOWN";;
  reject_if negb link.(Link.health).(Health.healthy) as_ Feasibility.REJECT_HEALTH saying "link not healthy";;
  reject_if link.(Link.congestion).(Congestion.hardLimitExceeded) as_ Feasibility.REJECT_CONGESTION_HARD_LIMIT
    saying "link congestion hard limit exceeded";;
  reject_if negb (bool_decide (req.(Request.requiredFailureDomain) = "")) &&
            negb (bool_decide (link.(Link.failureDomain) = req.(Request.requiredFailureDomain)))
    as_ Feasibility.REJECT_FAILURE_DOMAIN saying "link failure domain does not match required";;
  reject_if link.(Link.capacity) <=? reserved_on snap link.(Link.id) as_ Feasibility.REJECT_RESERVATION
    saying "reservation consumes available link capacity";;
  None.

(** One iteration of the per-hop loop. *)
Definition check_hop (req : CommunicationRequest) (snap : EvidenceSnapshot)
    (emap : gmap Z Endpoint) (lmap : gmap Z Link) (h : Hop) : option FeasibilityResult :=
  match lmap !! h.(Hop.link) with
  | None => Some (FeasibilityResult_reject Feasibility.REJECT_TOPOLOGY "link not present")
  | Some link =>
      match check_link req snap h link with
      | Some r => Some r
      | None =>
          match emap !! h.(Hop.from), emap !! h.(Hop.to) with
          | Some se, Some de => first_return (check_endpoint snap link.(Link.transport)) [se; de]
          | _, _ => Some (FeasibilityResult_reject Feasibility.REJECT_ENDPOINT "endpoint not present")
          end
      end
  end.

(** The size checks before the relay checks. *)
Definition check_limits (req : CommunicationRequest) (hops : list Hop) (bounds : Bounds)
    : option FeasibilityResult :=
  let size := Z.of_nat (length hops) in
  reject_if bool_decide (hops = []) as_ Feasibility.INSUFFICIENT_EVIDENCE saying "empty candidate path";;
  reject_if bounds.(Bounds.maxPathDepth) <? size as_ Feasibility.REJECT_STAGE_LIMIT saying "depth exceeds bound";;
  reject_if req.(Request.maxStages) <? size as_ Feasibility.REJECT_STAGE_LIMIT saying "exceeds request stage limit";;
  reject_if req.(Request.maxHops) <? size as_ Feasibility.REJECT_STAGE_LIMIT saying "exceeds request hop limit";;
  None.

Definition evaluateCandidateFeasibility (req : CommunicationRequest) (snap : EvidenceSnapshot)
    (cand : CandidatePath) (bounds : Bounds) : FeasibilityResult :=
  let emap := endpointMap snap in
  let lmap := linkMap snap in
  let hops := cand.(CandidatePath.hops) in
  match check_limits req hops bounds with
  | Some r => r
  | None =>
  match check_staging req emap hops with
  | Some r => r
  | None =>
  match first_return (check_hop req snap emap lmap) hops with
  | Some r => r
  | None =>
      if negb (isNull req.(Request.policyGeneration)) &&
         (snap.(Snapshot.policyGeneration) <? req.(Request.policyGeneration))
      then FeasibilityResult_reject Feasibility.REJECT_POLICY "policy generation is not current"
      else FeasibilityResult_ok
  end end end.

(** ** Specification: the hard constraints, independent of the checking order *)

(** The boot an endpoint was published under is the current one of its owner. *)
Definition current_incarnation (owner boot : Z) (boots : gmap Z Z) : Prop :=
  boot <> 0 -> owner <> 0 /\ boots !! owner = Some boot.

Definition fresh_endpoint (e : Endpoint) (snap : EvidenceSnapshot) : Prop :=
  current_incarnation e.(Endpoint.worker) e.(Endpoint.workerBoot) snap.(Snapshot.workerBoots) /\
  current_incarnation e.(Endpoint.source) e.(Endpoint.sourceBoot) snap.(Snapshot.sourceBoots).

Record usable_endpoint (snap : EvidenceSnapshot) (t : Transport) (e : Endpoint) : Prop := {
  ue_fresh : fresh_endpoint e snap;
  ue_reachable : e.(Endpoint.reachable) = true;
  ue_ready : e.(Endpoint.ready) = true;
  ue_kind : e.(Endpoint.kind) <> EndpointKind.UNKNOWN;
  ue_transport : t ∈ e.(Endpoint.capability).(Capability.transports);
}.

Definition permitted_transport (req : CommunicationRequest) (t : Transport) : Prop :=
  t ∉ req.(Request.forbidden) /\ (req.(Request.allowed) = ∅ \/ t ∈ req.(Request.allowed)).

Record usable_link (req : CommunicationRequest) (snap : EvidenceSnapshot) (h : Hop) (l : Link) : Prop := {
  ul_source : h.(Hop.from) = l.(Link.source);
  ul_destination : h.(Hop.to) = l.(Link.destination);
  ul_directed : l.(Link.directed) = true;
  ul_permitted : permitted_transport req l.(Link.transport);
  ul_capacity : l.(Link.capacity) <> 0;
  ul_transport : l.(Link.transport) <> Transport.UNKNOWN;
  ul_healthy : l.(Link.health).(Health.healthy) = true;
  ul_congestion : l.(Link.congestion).(Congestion.hardLimitExceeded) = false;
  ul_domain : req.(Request.requiredFailureDomain) = "" \/
              l.(Link.failureDomain) = req.(Request.requiredFailureDomain);
  ul_reservation : reserved_on snap l.(Link.id) < l.(Link.capacity);
}.

Definition feasible_hop (req : CommunicationRequest) (snap : EvidenceSnapshot) (h : Hop) : Prop :=
  exists l se de,
    linkMap snap !! h.(Hop.link) = Some l /\ usable_link req snap h l /\
    endpointMap snap !! h.(Hop.from) = Some se /\ usable_endpoint snap l.(Link.transport) se /\
    endpointMap snap !! h.(Hop.to) = Some de /\ usable_endpoint snap l.(Link.transport) de.

(** A relay may hold the payload only where the request permits it. *)
Definition permitted_relay (req : CommunicationRequest) (e : Endpoint) : Prop :=
  staging_kind e.(Endpoint.kind) = true ->
  if bool_decide (e.(Endpoint.kind) = EndpointKind.STORAGE)
  then req.(Request.allowStorageStaging) = true
  else req.(Request.allowHostStaging) = true.

Record feasible_path (req : CommunicationRequest) (snap : EvidenceSnapshot)
    (cand : CandidatePath) (bounds : Bounds) : Prop := {
  fp_nonempty : cand.(CandidatePath.hops) <> [];
  fp_depth : Z.of_nat (length cand.(CandidatePath.hops)) <= bounds.(Bounds.maxPathDepth);
  fp_stages : Z.of_nat (length cand.(CandidatePath.hops)) <= req.(Request.maxStages);
  fp_hops : Z.of_nat (length cand.(CandidatePath.hops)) <= req.(Request.maxHops);
  fp_staging : (1 < length cand.(CandidatePath.hops))%nat ->
    (req.(Request.allowStaging) = true \/ req.(Request.allowHostStaging) = true) /\
    req.(Request.allowRelay) = true /\
    Forall (fun h => exists e, endpointMap snap !! h.(Hop.to) = Some e /\ permitted_relay req e)
      (relay_hops cand.(CandidatePath.hops));
  fp_links : Forall (feasible_hop req snap) cand.(CandidatePath.hops);
  fp_policy : req.(Request.policyGeneration) <> 0 ->
    req.(Request.policyGeneration) <= snap.(Snapshot.policyGeneration);
}.

(** ** Each check decides its part of the specification *)

Lemma boot_current_iff owner boot boots :
  boot_current owner boot boots = true <-> current_incarnation owner boot boots.
Proof.
  unfold boot_current, current_incarnation, isNull.
  destruct (Z.eqb_spec boot 0); [naive_solver|]. destruct (Z.eqb_spec owner 0); [naive_solver|].
  destruct (boots !! owner) as [b|]; [|naive_solver]. rewrite Z.eqb_eq. naive_solver.
Qed.

Lemma endpointFresh_iff e snap : endpointFresh e snap = true <-> fresh_endpoint e snap.
Proof. unfold endpointFresh, fresh_endpoint. by rewrite andb_true_iff, !boot_current_iff. Qed.

Lemma transportAllowed_iff req t : feasible (transportAllowed req t) = true <-> permitted_transport req t.
Proof.
  unfold transportAllowed, permitted_transport.
  repeat case_bool_decide; simpl; naive_solver.
Qed.

Lemma check_endpoint_None snap t e : check_endpoint snap t e = None <-> usable_endpoint snap t e.
Proof.
  unfold check_endpoint, supports.
  rewrite !guard_None, orb_false_iff, !negb_false_iff, bool_decide_eq_false, bool_decide_eq_true, endpointFresh_iff.
  split; [intros; destruct_and!; by split|intros []; auto 10].
Qed.

Lemma check_link_None req snap h l : check_link req snap h l = None <-> usable_link req snap h l.
Proof.
  unfold check_link.
  rewrite !guard_None, orb_false_iff, andb_false_iff, !negb_false_iff, !bool_decide_eq_false,
    !bool_decide_eq_true, !Z.eqb_eq, Z.eqb_neq, transportAllowed_iff, Z.leb_gt.
  split; [intros; destruct_and!; by split|intros []; auto 12].
Qed.

Lemma check_relay_None req snap h :
  check_relay req (endpointMap snap) h = None <->
  exists e, endpointMap snap !! h.(Hop.to) = Some e /\ permitted_relay req e.
Proof.
  unfold check_relay. destruct (endpointMap snap !! _) as [e|]; [|naive_solver].
  transitivity (permitted_relay req e); [|naive_solver]. unfold permitted_relay.
  destruct (staging_kind (Endpoint.kind e)); [|done].
  case_bool_decide; rewrite guard_None, negb_false_iff; intuition auto.
Qed.

Lemma check_hop_None req snap h :
  check_hop req snap (endpointMap snap) (linkMap snap) h = None <-> feasible_hop req snap h.
Proof.
  unfold check_hop, feasible_hop. destruct (linkMap snap !! _) as [l|]; [|naive_solver].
  destruct (check_link req snap h l) eqn:El.
  { split; [done|]. intros (l' & ? & ? & ? & Hl & _). simplify_eq.
    apply check_link_None in Hl. congruence. }
  apply check_link_None in El.
  destruct (endpointMap snap !! Hop.from h) as [se|]; [|naive_solver].
  destruct (endpointMap snap !! Hop.to h) as [de|]; [|naive_solver].
  rewrite first_return_None, !Forall_cons, !check_endpoint_None. naive_solver.
Qed.

Lemma check_limits_None req cand bounds :
  check_limits req cand.(CandidatePath.hops) bounds = None <->
  cand.(CandidatePath.hops) <> [] /\
  Z.of_nat (length cand.(CandidatePath.hops)) <= bounds.(Bounds.maxPathDepth) /\
  Z.of_nat (length cand.(CandidatePath.hops)) <= req.(Request.maxStages) /\
  Z.of_nat (length cand.(CandidatePath.hops)) <= req.(Request.maxHops).
Proof. unfold check_limits. rewrite !guard_None, bool_decide_eq_false, !Z.ltb_ge. naive_solver. Qed.

Lemma check_staging_None req snap hops :
  check_staging req (endpointMap snap) hops = None <->
  ((1 < length hops)%nat ->
    (req.(Request.allowStaging) = true \/ req.(Request.allowHostStaging) = true) /\
    req.(Request.allowRelay) = true /\
    Forall (fun h => exists e, endpointMap snap !! h.(Hop.to) = Some e /\ permitted_relay req e) (relay_hops hops)).
Proof.
  unfold check_staging. destruct (Nat.ltb_spec 1 (length hops)); [|intuition lia].
  rewrite !guard_None, andb_false_iff, !negb_false_iff, first_return_None.
  setoid_rewrite check_relay_None. naive_solver.
Qed.

(** What a rejecting check can answer. *)
Definition hard_reject (f : Feasibility) : Prop :=
  match f with
  | Feasibility.FEASIBLE | Feasibility.UNKNOWN | Feasibility.REVALIDATION_REQUIRED => False
  | _ => True
  end.

Definition rejects (o : option FeasibilityResult) : Prop :=
  forall r, o = Some r -> hard_reject r.(FeasibilityResult.outcome).

Lemma rejects_None : rejects None.
Proof. done. Qed.
Lemma rejects_Some f d : hard_reject f -> rejects (Some (FeasibilityResult_reject f d)).
Proof. by intros ? ? [= <-]. Qed.
Lemma rejects_if (b : bool) x y : rejects x -> rejects y -> rejects (if b then x else y).
Proof. by destruct b. Qed.
Lemma rejects_first {A} (f : A -> option FeasibilityResult) l :
  (forall x, rejects (f x)) -> rejects (first_return f l).
Proof. intros Hf r. apply (first_return_ind (fun r => hard_reject r.(FeasibilityResult.outcome))). intros x. apply Hf. Qed.
Lemma rejects_transport req t k :
  rejects k -> rejects (if negb (feasible (transportAllowed req t)) then Some (transportAllowed req t) else k).
Proof.
  intros Hk. destruct (feasible (transportAllowed req t)) eqn:E; simpl; [done|].
  intros r [= <-]. unfold transportAllowed in *. by repeat case_match.
Qed.

Create HintDb rejects.
#[export] Hint Resolve rejects_None rejects_Some rejects_if rejects_first rejects_transport : rejects.
#[export] Hint Extern 1 (hard_reject _) => exact I : rejects.

Lemma check_limits_rejects req hops bounds : rejects (check_limits req hops bounds).
Proof. unfold check_limits. auto 8 with rejects. Qed.

Lemma check_staging_rejects req emap hops : rejects (check_staging req emap hops).
Proof.
  unfold check_staging. apply rejects_if; [|auto with rejects]. repeat (apply rejects_if; [auto with rejects|]).
  apply rejects_first. intros h. unfold check_relay. case_match; auto 6 with rejects.
Qed.

Lemma check_link_rejects req snap h l : rejects (check_link req snap h l).
Proof.
  unfold check_link. do 2 (apply rejects_if; [auto with rejects|]).
  apply rejects_transport. auto 12 with rejects.
Qed.

Lemma check_hop_rejects req snap emap lmap h : rejects (check_hop req snap emap lmap h).
Proof.
  unfold check_hop. case_match; [|auto with rejects].
  pose proof (check_link_rejects req snap h l) as Hl.
  destruct (check_link req snap h l); [done|].
  repeat case_match; auto with rejects. apply rejects_first. intros ep.
  unfold check_endpoint. auto 10 with rejects.
Qed.

Lemma evaluateCandidateFeasibility_iff req snap cand bounds :
  feasible (evaluateCandidateFeasibility req snap cand bounds) = true <->
  feasible_path req snap cand bounds.
Proof.
  unfold evaluateCandidateFeasibility.
  assert (Hr : forall o, rejects o -> forall r, o = Some r -> feasible r = true -> False).
  { intros o Ho r E Hf. apply Ho in E. unfold feasible in Hf. apply bool_decide_eq_true in Hf.
    by rewrite Hf in E. }
  destruct (check_limits _ _ _) as [r|] eqn:E1.
  { split; [intros ?; exfalso; eapply Hr; eauto; apply check_limits_rejects|].
    intros []. assert (check_limits req (CandidatePath.hops cand) bounds = None) by (by apply check_limits_None).
    congruence. }
  destruct (check_staging _ _ _) as [r|] eqn:E2.
  { split; [intros ?; exfalso; eapply Hr; eauto; apply check_staging_rejects|].
    intros []. apply check_staging_None in fp_staging0. congruence. }
  destruct (first_return _ _) as [r|] eqn:E3.
  { split; [intros ?; exfalso; eapply Hr; eauto; apply rejects_first, check_hop_rejects|].
    intros []. assert (first_return (check_hop req snap (endpointMap snap) (linkMap snap)) (CandidatePath.hops cand) = None);
      [|congruence]. apply first_return_None. setoid_rewrite check_hop_None. done. }
  rewrite check_limits_None in E1. rewrite check_staging_None in E2. rewrite first_return_None in E3.
  setoid_rewrite check_hop_None in E3. unfold isNull.
  destruct (Z.eqb_spec (Request.policyGeneration req) 0), (Z.ltb_spec (Snapshot.policyGeneration snap) (Request.policyGeneration req));
    simpl; (split; [intros ?|intros []; try done]); try done; try (destruct_and!; by split); lia.
Qed.

(** ** Properties *)

(** C3: the hard filter answers FEASIBLE exactly for the paths that satisfy every
    hard constraint, whatever the order of its checks: a path that violates one
    constraint is refused however good its cost, and a path that satisfies all of
    them is never refused. *)
Theorem evaluateCandidateFeasibility_correct req snap cand bounds :
  feasible (evaluateCandidateFeasibility req snap cand bounds) = true <->
  feasible_path req snap cand bounds.
Proof. apply evaluateCandidateFeasibility_iff. Qed.

(** An unproven path never passes: the filter's answer is FEASIBLE with an
    empty detail or one of the hard rejections, never UNKNOWN and never a
    request for revalidation. *)
Theorem evaluateCandidateFeasibility_outcomes req snap cand bounds :
  evaluateCandidateFeasibility req snap cand bounds = FeasibilityResult_ok \/
  hard_reject (FeasibilityResult.outcome (evaluateCandidateFeasibility req snap cand bounds)).
Proof.
  unfold evaluateCandidateFeasibility.
  pose proof (check_limits_rejects req (CandidatePath.hops cand) bounds) as H1.
  destruct (check_limits _ _ _); [right; by apply H1|].
  pose proof (check_staging_rejects req (endpointMap snap) (CandidatePath.hops cand)) as H2.
  destruct (check_staging _ _ _); [right; by apply H2|].
  pose proof (rejects_first _ (CandidatePath.hops cand) (check_hop_rejects req snap (endpointMap snap) (linkMap snap))) as H3.
  destruct (first_return _ _); [right; by apply H3|].
  destruct (_ && _); [by right|by left].
Qed.

(** Bandwidth reserved on a link in exact arithmetic. *)
Definition reserved_sum (rs : list Reservation) (id : LinkId) : Z :=
  foldr (fun r acc => (if r.(Reservation.resource) =? linkResource id then r.(Reservation.reserved) else 0) + acc) 0 rs.

Lemma reserved_fold_exact rs id acc :
  Forall (fun r => 0 <= r.(Reservation.reserved)) rs -> 0 <= acc -> acc + reserved_sum rs id <= u64_max ->
  foldl (fun acc r => if r.(Reservation.resource) =? linkResource id
                      then wrap64 (acc + r.(Reservation.reserved)) else acc) acc rs
  = acc + reserved_sum rs id.
Proof.
  intros Hn. revert acc. induction Hn as [|r rs Hr Hn IH]; simpl; intros acc Ha Hs; [lia|].
  assert (0 <= reserved_sum rs id) by (clear -Hn; induction Hn; simpl; [lia|case_match; lia]).
  destruct (_ =? _) eqn:E; [|rewrite IH by lia; lia].
  rewrite wrap64_small by (unfold is_u64; lia). rewrite IH by lia. lia.
Qed.

(** As long as the reservations of a link add up to at most 64 bits, a path over
    a link whose capacity they consume is refused. *)
Theorem reserved_capacity_never_overcommitted req snap cand bounds h l :
  Forall (fun r => 0 <= r.(Reservation.reserved)) snap.(Snapshot.reservations) ->
  reserved_sum snap.(Snapshot.reservations) l.(Link.id) <= u64_max ->
  h ∈ cand.(CandidatePath.hops) -> linkMap snap !! h.(Hop.link) = Some l ->
  l.(Link.capacity) <= reserved_sum snap.(Snapshot.reservations) l.(Link.id) ->
  feasible (evaluateCandidateFeasibility req snap cand bounds) = false.
Proof.
  intros Hn Hs Hh Hl Hc. apply not_true_iff_false. rewrite evaluateCandidateFeasibility_iff.
  intros []. rewrite Forall_forall in fp_links0. destruct (fp_links0 h Hh) as (l' & ? & ? & Hl' & [] & _).
  simplify_eq. unfold reserved_on in *. rewrite reserved_fold_exact in ul_reservation0; [lia|done|lia|lia].
Qed.

Definition reserve (id amount : Z) : Reservation :=
  {| Reservation.resource := id; Reservation.reserved := amount; Reservation.provenance := Provenance.REPORTED |}.

Definition reservedSnapshot (rs : list Reservation) : EvidenceSnapshot :=
  mkSnapshot [gpuA; gpuB; hostMem] [directLink; upLink; downLink] rs [] {[10 := 7]}.

Lemma reserved_capacity_never_overcommitted_witness :
  feasible (evaluateCandidateFeasibility basicRequest (reservedSnapshot [reserve 1 600000; reserve 1 400000])
    directPath basicBounds) = false.
Proof.
  apply (reserved_capacity_never_overcommitted _ _ _ _ {| Hop.link := 1; Hop.from := 10; Hop.to := 11 |} directLink).
  - repeat constructor; discriminate.
  - vm_compute. discriminate.
  - left.
  - reflexivity.
  - vm_compute. discriminate.
Defined.

(** Beyond that bound the reservation check is unsound: the sum of the
    reservations of a link is kept in an unchecked 64-bit accumulator, so two
    reservations of 2^63 bytes per second on a link of 10^6 wrap to zero and the
    path is still declared feasible. *)
Theorem reservation_sum_wraps :
  let snap := reservedSnapshot [reserve 1 (2 ^ 63); reserve 1 (2 ^ 63)] in
  Link.capacity directLink < reserved_sum snap.(Snapshot.reservations) (Link.id directLink) /\
  evaluateCandidateFeasibility basicRequest snap directPath basicBounds = FeasibilityResult_ok.
Proof. vm_compute. split; reflexivity. Qed.
