(* ===== verification/Ranking.v ===== *)
(** * Deterministic ranking

    Models src/ranking.cpp, ranking/ranking.hpp and ranking/weights.hpp: the key a
    feasible path is ranked by, the comparison of keys, and the stable sort of the
    feasible indices.  The comparison is shown to be a strict weak order on keys
    without NaN by translating it to the lexicographic order on integer codes. *)

From S2P Require Import Prelude Core Enums Double Model Scenario Feasibility.

(** ** Provenance (worst evidence of a summary) *)

Definition provenanceRank (p : Provenance) : Z :=
  match p with
  | Provenance.MEASURED => 0
  | Provenance.REPORTED => 1
  | Provenance.DERIVED => 2
  | Provenance.ESTIMATED => 3
  | Provenance.FORECAST => 4
  | Provenance.SYNTHETIC => 5
  | Provenance.UNKNOWN => 6
  end.

Definition worstProvenance (c : CostSummary) : Provenance :=
  foldl (fun worst comp =>
    if provenanceRank worst <? provenanceRank comp.(CostComponent.provenance)
    then comp.(CostComponent.provenance) else worst)
    Provenance.MEASURED c.(CostSummary.components).

(** First component of a factor, or the default. *)
Definition componentValue (c : CostSummary) (f : CostFactor) (def : double) : double :=
  match first_return (fun comp => if bool_decide (comp.(CostComponent.factor) = f)
                                  then Some comp.(CostComponent.value) else None)
          c.(CostSummary.components) with
  | Some v => v
  | None => def
  end.

(** [constexpr double kMaxCost = 1e18], of ranking/cost.hpp. *)
Definition kMaxCost : double := dofZ (10 ^ 18).

Lemma kMaxCost_numeric : numeric kMaxCost.
Proof. reflexivity. Qed.

(** Unfolding the rounded constant is left to [vm_compute]. *)
#[global] Opaque kMaxCost.

(** ** Weights *)

Definition defaultWeight (f : CostFactor) : double :=
  match f with
  | CostFactor.HOP_COUNT => dlit 1 2
  | CostFactor.UNKNOWN => dzero
  | _ => done_
  end.

Definition weightOf (weights : gmap CostFactor double) (f : CostFactor) : double :=
  match weights !! f with
  | Some w => w
  | None => defaultWeight f
  end.

(** [RankingWeights::set]. *)
Definition set_weight (f : CostFactor) (w : double) (weights : gmap CostFactor double) : gmap CostFactor double := <[f := w]> weights.

(** [RankingWeights::allWeightsFinite]; nothing calls it. *)
Definition allWeightsFinite (weights : gmap CostFactor double) : bool :=
  forallb (fun fw : CostFactor * double => negb (dlt fw.2 dzero || dne fw.2 fw.2 || dgt fw.2 (dofZ (10 ^ 308)))) (map_to_list weights).

(** ** Keys *)

Module Rankable.
Record Rankable := {
  path : CandidatePath;
  feasibility : FeasibilityResult;
  cost : CostSummary;
}.
End Rankable.
Abbreviation Rankable := Rankable.Rankable.

Module Key.
Record Key := {
  total : double;
  uncertainty : double;
  prov : Z;
  hops : double;
  congestion : double;
  residual : double;
  idseq : list Z;
}.
End Key.
Abbreviation Key := Key.Key.

Definition keyLess (a b : Key) : bool :=
  if dne a.(Key.total) b.(Key.total) then dlt a.(Key.total) b.(Key.total) else
  if dne a.(Key.uncertainty) b.(Key.uncertainty) then dlt a.(Key.uncertainty) b.(Key.uncertainty) else
  if negb (a.(Key.prov) =? b.(Key.prov)) then a.(Key.prov) <? b.(Key.prov) else
  if dne a.(Key.hops) b.(Key.hops) then dlt a.(Key.hops) b.(Key.hops) else
  if dne a.(Key.congestion) b.(Key.congestion) then dlt a.(Key.congestion) b.(Key.congestion) else
  if dne a.(Key.residual) b.(Key.residual) then dgt a.(Key.residual) b.(Key.residual) else
  if negb (length a.(Key.idseq) =? length b.(Key.idseq))%nat
  then (length a.(Key.idseq) <? length b.(Key.idseq))%nat
  else lexb a.(Key.idseq) b.(Key.idseq).

(** The key [rankFeasible] computes for one input. *)
Definition rankKey (r : Rankable) : Key :=
  let hops := r.(Rankable.path).(CandidatePath.hops) in
  {| Key.total := if totalValid r.(Rankable.cost) then r.(Rankable.cost).(CostSummary.total) else kMaxCost;
     Key.uncertainty := uncertaintyCount r.(Rankable.cost);
     Key.prov := provenanceRank (worstProvenance r.(Rankable.cost));
     Key.hops := componentValue r.(Rankable.cost) CostFactor.HOP_COUNT (dofZ (Z.of_nat (length hops)));
     Key.congestion := componentValue r.(Rankable.cost) CostFactor.CONGESTION_PENALTY dzero;
     Key.residual := componentValue r.(Rankable.cost) CostFactor.RESIDUAL_BANDWIDTH dzero;
     Key.idseq := Hop.link <$> hops |}.

Definition feasible_rankable (p : nat * Rankable) : bool := feasible p.2.(Rankable.feasibility).

(** [rankFeasible]: the items in input order, stably sorted, projected to indices. *)
Definition rankFeasible (input : list Rankable) : list nat :=
  let items := (fun p => (p.1, rankKey p.2)) <$> filter feasible_rankable (imap pair input) in
  fst <$> stable_sort (fun a b : nat * Key => keyLess a.2 b.2) items.

(** ** The comparison as a lexicographic order *)

Record numeric_key (k : Key) : Prop := {
  nk_total : numeric k.(Key.total);
  nk_uncertainty : numeric k.(Key.uncertainty);
  nk_hops : numeric k.(Key.hops);
  nk_congestion : numeric k.(Key.congestion);
  nk_residual : numeric k.(Key.residual);
}.

Definition key_code (k : Key) : list Z :=
  drank k.(Key.total) ++ drank k.(Key.uncertainty) ++ [k.(Key.prov)] ++ drank k.(Key.hops) ++
  drank k.(Key.congestion) ++ (Z.opp <$> drank k.(Key.residual)) ++
  [Z.of_nat (length k.(Key.idseq))] ++ k.(Key.idseq).

Lemma lexb_opp a b : length a = length b -> lexb (Z.opp <$> a) (Z.opp <$> b) = lexb b a.
Proof.
  revert b; induction a as [|x a IH]; intros [|y b] Hl; simplify_eq/=; [done|].
  rewrite IH by done. ztests; try lia; done.
Qed.

Lemma bool_decide_single (x y : Z) : bool_decide ([x] = [y]) = (x =? y).
Proof. case_bool_decide; destruct (Z.eqb_spec x y); naive_solver. Qed.

Lemma bool_decide_opp (a b : list Z) : bool_decide (Z.opp <$> a = Z.opp <$> b) = bool_decide (a = b).
Proof.
  apply bool_decide_ext. split; [|congruence].
  apply list_fmap_eq_inj. intros x y. lia.
Qed.

Lemma if_negb {A} (b : bool) (x y : A) : (if negb b then x else y) = if b then y else x.
Proof. by destruct b. Qed.

Lemma lexb_single x y : lexb [x] [y] = (x <? y).
Proof. simpl. ztests; done. Qed.

Lemma nat_tests_Z x y :
  (x =? y)%nat = (Z.of_nat x =? Z.of_nat y) /\ (x <? y)%nat = (Z.of_nat x <? Z.of_nat y).
Proof.
  destruct (Nat.eqb_spec x y), (Nat.ltb_spec x y),
    (Z.eqb_spec (Z.of_nat x) (Z.of_nat y)), (Z.ltb_spec (Z.of_nat x) (Z.of_nat y)); split; lia || done.
Qed.

Lemma keyLess_code a b :
  numeric_key a -> numeric_key b -> keyLess a b = lexb (key_code a) (key_code b).
Proof.
  intros [] []. unfold keyLess, key_code, dgt.
  rewrite !lexb_app by (rewrite ?length_fmap, ?length_drank; done).
  destruct (nat_tests_Z (length (Key.idseq a)) (length (Key.idseq b))) as [-> ->].
  fold (dlt (Key.residual b) (Key.residual a)).
  rewrite !dne_rank, !bool_decide_single, bool_decide_opp, lexb_opp, !lexb_single, !dlt_rank, !if_negb
    by (rewrite ?length_drank; done).
  done.
Qed.

Lemma keyLess_strict_weak : strict_weak_on numeric_key keyLess.
Proof.
  eapply strict_weak_ext; [apply keyLess_code|].
  apply (strict_weak_map _ (fun _ => True)); [apply lexb_strict_weak|done].
Qed.

(** Two keys that tie come from the same sequence of links. *)
Lemma keyLess_tie_idseq a b :
  numeric_key a -> numeric_key b -> keyLess a b = false -> keyLess b a = false ->
  a.(Key.idseq) = b.(Key.idseq).
Proof.
  intros Ha Hb. rewrite !keyLess_code by done. intros H1 H2.
  pose proof (lexb_total _ _ H1 H2) as E. unfold key_code in E.
  repeat (apply app_inj_1 in E as [_ E]; [|by rewrite ?length_fmap, ?length_drank]). done.
Qed.

(** ** Keys of costs whose components are numbers are free of NaN *)

Definition numeric_cost (c : CostSummary) : Prop :=
  Forall (fun comp => numeric comp.(CostComponent.value)) c.(CostSummary.components).

Lemma uncertaintyCount_nonneg c : nonneg (uncertaintyCount c) = true.
Proof.
  unfold uncertaintyCount. assert (nonneg dzero = true) as H by done. revert H.
  generalize dzero. induction (CostSummary.components c) as [|comp l IH]; simpl; [done|].
  intros d Hd. apply IH. case_match; auto with planner.
Qed.

Lemma componentValue_numeric c f def :
  numeric_cost c -> numeric def -> numeric (componentValue c f def).
Proof.
  unfold numeric_cost, componentValue. intros Hc Hd.
  destruct (first_return _ _) as [v|] eqn:E; [|done].
  apply first_return_Some in E as (l1 & comp & l2 & E & _ & H). rewrite E in Hc.
  apply Forall_app in Hc as [_ Hc]. apply Forall_cons in Hc as [Hc _]. by case_match; simplify_eq.
Qed.

Lemma rankKey_numeric r : numeric_cost r.(Rankable.cost) -> numeric_key (rankKey r).
Proof.
  intros Hc. split; simpl.
  - unfold totalValid. destruct (isnan _) eqn:E; simpl; [apply kMaxCost_numeric|].
    destruct (isinf _); [apply kMaxCost_numeric|done].
  - apply nonneg_numeric, uncertaintyCount_nonneg.
  - apply componentValue_numeric; [done|]. apply nonneg_numeric, dofZ_nonneg. lia.
  - by apply componentValue_numeric.
  - by apply componentValue_numeric.
Qed.

#[export] Hint Resolve rankKey_numeric : planner.

(** ** The ranking as a sort of the feasible inputs *)

Definition rankLess (a b : Rankable) : bool := keyLess (rankKey a) (rankKey b).

Definition ranked_inputs (input : list Rankable) : list Rankable :=
  stable_sort rankLess (filter (fun r => feasible r.(Rankable.feasibility)) input).

Lemma rankLess_strict_weak :
  strict_weak_on (fun r => numeric_cost r.(Rankable.cost)) rankLess.
Proof. apply (strict_weak_map _ numeric_key); auto using keyLess_strict_weak with planner. Qed.

(** The feasible inputs paired with their positions. *)
Definition feasible_items (input : list Rankable) : list (nat * Rankable) :=
  filter feasible_rankable (imap pair input).

Definition itemLess (a b : nat * Rankable) : bool := rankLess a.2 b.2.

Lemma rankFeasible_items input : rankFeasible input = (stable_sort itemLess (feasible_items input)).*1.
Proof.
  unfold rankFeasible. rewrite stable_sort_map, <- list_fmap_compose. done.
Qed.

Lemma elem_of_feasible_items input i r :
  (i, r) ∈ feasible_items input <-> input !! i = Some r /\ feasible r.(Rankable.feasibility) = true.
Proof.
  unfold feasible_items. rewrite list_elem_of_filter. unfold feasible_rankable. simpl.
  rewrite Is_true_true. rewrite elem_of_lookup_imap. naive_solver.
Qed.

Lemma feasible_items_snd input :
  (feasible_items input).*2 = filter (fun r => feasible r.(Rankable.feasibility)) input.
Proof. apply (filter_imap_snd (fun r => feasible r.(Rankable.feasibility))). Qed.

Lemma feasible_items_sorted input :
  StronglySorted (fun p q : nat * Rankable => (p.1 < q.1)%nat) (feasible_items input).
Proof. apply StronglySorted_filter, (imap_pair_sorted input 0). Qed.

Lemma feasible_items_numeric input :
  Forall (fun r => numeric_cost r.(Rankable.cost)) input ->
  Forall (fun p : nat * Rankable => numeric_cost p.2.(Rankable.cost)) (feasible_items input).
Proof.
  intros Hn. apply Forall_forall. intros [i r] [Hl _]%elem_of_feasible_items. simpl.
  rewrite Forall_forall in Hn. apply Hn. by eapply list_elem_of_lookup_2.
Qed.

Lemma itemLess_strict_weak :
  strict_weak_on (fun p : nat * Rankable => numeric_cost p.2.(Rankable.cost)) itemLess.
Proof. by apply (strict_weak_map _ (fun r => numeric_cost r.(Rankable.cost))); [apply rankLess_strict_weak|]. Qed.

Lemma rankFeasible_elem input i :
  i ∈ rankFeasible input <-> exists r, input !! i = Some r /\ feasible r.(Rankable.feasibility) = true.
Proof.
  rewrite rankFeasible_items, list_elem_of_fmap. split.
  - intros ([j r] & -> & Hj). rewrite elem_of_stable_sort, elem_of_feasible_items in Hj. eauto.
  - intros (r & Hr). exists (i, r). split; [done|]. by rewrite elem_of_stable_sort, elem_of_feasible_items.
Qed.

Lemma rankFeasible_NoDup input : NoDup (rankFeasible input).
Proof.
  rewrite rankFeasible_items, stable_sort_perm.
  pose proof (feasible_items_sorted input) as Hs.
  induction Hs as [|[i r] l Hs IH Hf]; csimpl; constructor; [|done].
  rewrite list_elem_of_fmap. intros ([j r'] & -> & Hj). rewrite Forall_forall in Hf.
  specialize (Hf _ Hj). simpl in Hf. lia.
Qed.

(** Reading the ranked indices back gives the ranked inputs. *)
Lemma rankFeasible_lookup input :
  (fun i => input !! i) <$> rankFeasible input = Some <$> ranked_inputs input.
Proof.
  unfold ranked_inputs. rewrite <- feasible_items_snd, stable_sort_map, rankFeasible_items.
  change (fun x y : nat * Rankable => rankLess x.2 y.2) with itemLess.
  rewrite <- !list_fmap_compose. apply list_fmap_ext. intros k [i r] Hk.
  apply list_elem_of_lookup_2 in Hk. rewrite elem_of_stable_sort in Hk.
  by apply elem_of_feasible_items in Hk as [? _].
Qed.

(** ** Properties *)

(** The key comparison, seven criteria deep and partly in floating point, is a
    strict weak order on keys without NaN, so [std::stable_sort] is well defined on
    them, and keys that tie on every criterion come from the same link sequence. *)
Theorem keyLess_well_ordered :
  strict_weak_on numeric_key keyLess /\
  (forall a b, numeric_key a -> numeric_key b -> keyLess a b = false -> keyLess b a = false ->
    a.(Key.idseq) = b.(Key.idseq)).
Proof. split; [apply keyLess_strict_weak|apply keyLess_tie_idseq]. Qed.


Definition rankableOf (feas : FeasibilityResult) (p : CandidatePath) (comps : list CostComponent) : Rankable :=
  {| Rankable.path := p; Rankable.feasibility := feas; Rankable.cost := CostSummary_of comps |}.

Definition latencyComponent (ns : Z) : CostComponent := {|
  CostComponent.factor := CostFactor.PATH_LATENCY; CostComponent.weight := done_;
  CostComponent.value := dofZ ns; CostComponent.provenance := Provenance.MEASURED |}.

Definition rankingInput : list Rankable :=
  [rankableOf FeasibilityResult_ok stagedPath [latencyComponent 900];
   rankableOf (FeasibilityResult_reject Feasibility.REJECT_HEALTH "") directPath [latencyComponent 1];
   rankableOf FeasibilityResult_ok directPath [latencyComponent 300]].


(** The ranking does not depend on the order in which the candidates are given:
    if different candidates use different link sequences, two permuted inputs are
    ranked into the same sequence of candidates. *)
Theorem rankFeasible_order_independent input1 input2 :
  Forall (fun r => numeric_cost r.(Rankable.cost)) input1 ->
  (forall a b, a ∈ input1 -> b ∈ input1 ->
    Hop.link <$> a.(Rankable.path).(CandidatePath.hops) = Hop.link <$> b.(Rankable.path).(CandidatePath.hops) -> a = b) ->
  input1 ≡ₚ input2 ->
  (fun i => input1 !! i) <$> rankFeasible input1 = (fun i => input2 !! i) <$> rankFeasible input2.
Proof.
  intros Hn Hd Hp. rewrite !rankFeasible_lookup. f_equal. unfold ranked_inputs.
  apply (stable_sort_perm_eq _ _ rankLess_strict_weak).
  - rewrite Forall_forall in *. intros r [_ Hr]%list_elem_of_filter. auto.
  - intros a b [_ Ha]%list_elem_of_filter [_ Hb]%list_elem_of_filter H1 H2. apply Hd; [done|done|].
    rewrite Forall_forall in Hn. apply (keyLess_tie_idseq (rankKey a) (rankKey b)); auto with planner.
  - by rewrite Hp.
Qed.

Definition twoRoutes : list Rankable :=
  [rankableOf FeasibilityResult_ok stagedPath [latencyComponent 900];
   rankableOf FeasibilityResult_ok directPath [latencyComponent 300]].

Lemma rankFeasible_order_independent_witness :
  (fun i => twoRoutes !! i) <$> rankFeasible twoRoutes =
  (fun i => rev twoRoutes !! i) <$> rankFeasible (rev twoRoutes).
Proof.
  apply (rankFeasible_order_independent twoRoutes (rev twoRoutes)).
  - repeat constructor.
  - intros a b Ha Hb. repeat (apply elem_of_cons in Ha as [->|Ha]; [|]); try (by apply elem_of_nil in Ha);
      repeat (apply elem_of_cons in Hb as [->|Hb]; [|]); try (by apply elem_of_nil in Hb); done.
  - apply Permutation_rev.
Defined.
