(* ===== verification/Cost.v ===== *)
(** * Path cost

    Models src/cost.cpp: the nineteen named cost components of a candidate path,
    accumulated over its hops in double precision and clamped to [0, kMaxCost]. *)

From S2P Require Import Prelude Core Enums Double Model Scenario Feasibility Ranking.

Definition clampCost (v : double) : double :=
  if isnan v then kMaxCost
  else if dlt v dzero then dzero
  else if isinf v || dgt v kMaxCost then kMaxCost
  else v.

Definition toTransferNs (payload bwPerSec : Z) : double :=
  if payload =? 0 then dzero
  else if bwPerSec =? 0 then kMaxCost
  else clampCost (ddiv (dmul (dofZ payload) (dofZ (10 ^ 9))) (dofZ bwPerSec)).

(** Interior endpoint kinds the cost model counts as host staging. *)
Definition host_staging_kind (k : EndpointKind) : bool :=
  match k with
  | EndpointKind.CPU_MEMORY | EndpointKind.PINNED_HOST_MEMORY | EndpointKind.NUMA_MEMORY
  | EndpointKind.CACHE | EndpointKind.CHECKPOINT | EndpointKind.MODEL_RESIDENCY
  | EndpointKind.STATE_LOCATION | EndpointKind.PROCESS | EndpointKind.SERVICE => true
  | _ => false
  end.

(** Some interior endpoint of the path is known and of a kind satisfying [p]. *)
Definition relay_of_kind (emap : gmap Z Endpoint) (p : EndpointKind -> bool) (hops : list Hop) : bool :=
  existsb (fun h => match emap !! h.(Hop.to) with
                    | Some e => p e.(Endpoint.kind)
                    | None => false
                    end) (relay_hops hops).

(** The accumulators of the hop loop. *)
Module CostAcc.
Record CostAcc := {
  latNs : double;
  transferNs : double;
  queueNs : double;
  congPenNs : double;
  numaLowNs : double;
  pcieNs : double;
  nicNs : double;
  storageNs : double;
  healthRiskNs : double;
  headroomNs : double;
  worstProv : Provenance;
}.
End CostAcc.
Abbreviation CostAcc := CostAcc.CostAcc.

Definition CostAcc_init : CostAcc := {|
  CostAcc.latNs := dzero; CostAcc.transferNs := dzero; CostAcc.queueNs := dzero;
  CostAcc.congPenNs := dzero; CostAcc.numaLowNs := dzero; CostAcc.pcieNs := dzero;
  CostAcc.nicNs := dzero; CostAcc.storageNs := dzero; CostAcc.healthRiskNs := dzero;
  CostAcc.headroomNs := dzero; CostAcc.worstProv := Provenance.MEASURED |}.

(** The contention term of a link: less headroom, more cost. *)
Definition headroomCost (link : Link) (bw : Z) (t acc : double) : double :=
  let headroom := link.(Link.capacityEvidence).(Capacity.headroom) in
  if 0 <? headroom then
    let ratio := ddiv (dofZ bw) (dofZ (wrap64 (headroom + 1))) in
    dadd acc (clampCost (dmul t (dmin ratio (dofZ 100))))
  else if negb (bool_decide (link.(Link.capacityEvidence).(Capacity.provenance) = Provenance.UNKNOWN)) then
    dadd acc (clampCost (dmul t (dofZ 2)))
  else acc.

(** Evidence the model trusts less than measured, reported or derived facts. *)
Definition weak_evidence (p : Provenance) : bool :=
  match p with
  | Provenance.UNKNOWN | Provenance.ESTIMATED | Provenance.FORECAST | Provenance.SYNTHETIC => true
  | _ => false
  end.

(** One iteration of the hop loop; a hop whose link is unknown is skipped. *)
Definition cost_hop (payload : Z) (emap : gmap Z Endpoint) (lmap : gmap Z Link)
    (acc : CostAcc) (hop : Hop) : CostAcc :=
  match lmap !! hop.(Hop.link) with
  | None => acc
  | Some link =>
      let bw := if link.(Link.effectiveBandwidth) =? 0 then link.(Link.capacity) else link.(Link.effectiveBandwidth) in
      let t := toTransferNs payload bw in
      let transferNs := dadd acc.(CostAcc.transferNs) (clampCost t) in
      let pay := dofZ payload in
      let ends := match emap !! hop.(Hop.from), emap !! hop.(Hop.to) with
                  | Some s, Some d => Some (s, d)
                  | _, _ => None
                  end in
      let loc e := e.(Endpoint.location) in
      let add_if (b : bool) (v x : double) := if b then dadd v (clampCost x) else v in
      let at_ends (f : Endpoint -> Endpoint -> bool) :=
        match ends with Some (s, d) => f s d | None => false end in
      {| CostAcc.latNs := dadd acc.(CostAcc.latNs) (clampCost (dofZ link.(Link.latency)));
         CostAcc.transferNs := transferNs;
         CostAcc.queueNs := dadd acc.(CostAcc.queueNs) (clampCost link.(Link.congestion).(Congestion.penalty));
         CostAcc.congPenNs := dadd acc.(CostAcc.congPenNs) (clampCost link.(Link.congestion).(Congestion.penalty));
         CostAcc.headroomNs := headroomCost link bw t acc.(CostAcc.headroomNs);
         CostAcc.numaLowNs :=
           match ends with
           | Some (s, d) =>
               let nd := Z.abs ((loc d).(TopologyLocation.numaDistance) - (loc s).(TopologyLocation.numaDistance)) in
               dadd acc.(CostAcc.numaLowNs) (clampCost (dmul (dofZ nd) (dofZ 200)))
           | None => acc.(CostAcc.numaLowNs)
           end;
         CostAcc.pcieNs :=
           add_if (at_ends (fun s d => negb (String.eqb (loc s).(TopologyLocation.pcieRoot) (loc d).(TopologyLocation.pcieRoot))))
             acc.(CostAcc.pcieNs) (dmul pay (dlit 1 (10 ^ 6)));
         CostAcc.nicNs :=
           add_if (at_ends (fun s d => negb ((loc s).(TopologyLocation.nic) =? (loc d).(TopologyLocation.nic))))
             acc.(CostAcc.nicNs) (dmul pay (dlit 2 (10 ^ 6)));
         CostAcc.storageNs :=
           add_if (at_ends (fun s d => bool_decide (s.(Endpoint.kind) = EndpointKind.STORAGE) ||
                                       bool_decide (d.(Endpoint.kind) = EndpointKind.STORAGE)))
             acc.(CostAcc.storageNs) (dmul pay (dlit 1 (10 ^ 6)));
         CostAcc.healthRiskNs :=
           add_if (weak_evidence link.(Link.provenance)) acc.(CostAcc.healthRiskNs) (dmul transferNs (dlit 1 10));
         CostAcc.worstProv :=
           if bool_decide (link.(Link.provenance) = Provenance.UNKNOWN) then Provenance.UNKNOWN
           else if bool_decide (link.(Link.provenance) = Provenance.SYNTHETIC) then Provenance.SYNTHETIC
           else acc.(CostAcc.worstProv) |}
  end.

(** The lambda [comp] of [evaluateCandidateCost]. *)
Definition mkComponent (weights : gmap CostFactor double) (f : CostFactor) (value : double) (prov : Provenance)
    : CostComponent := {|
  CostComponent.factor := f; CostComponent.weight := weightOf weights f;
  CostComponent.value := clampCost value; CostComponent.provenance := prov |}.

Definition evaluateCandidateCost (req : CommunicationRequest) (snap : EvidenceSnapshot) (cand : CandidatePath)
    (weights : gmap CostFactor double) (bounds : Bounds) : CostSummary :=
  let lmap := linkMap snap in
  let emap := endpointMap snap in
  let payload := req.(Request.payloadSize) in
  let hops := cand.(CandidatePath.hops) in
  let hasStaging := (1 <? length hops)%nat in
  let hasHostStaging := relay_of_kind emap host_staging_kind hops in
  let hasStorageStaging := relay_of_kind emap (fun k => bool_decide (k = EndpointKind.STORAGE)) hops in
  let acc := foldl (cost_hop payload emap lmap) CostAcc_init hops in
  let pay := dofZ payload in
  let size := dofZ (Z.of_nat (length hops)) in
  let stageNs := if hasStaging then dadd dzero (clampCost (dmul pay (dlit 4 (10 ^ 6)))) else dzero in
  let hostStageNs := if hasHostStaging then dadd dzero (clampCost (dmul pay (dlit 3 (10 ^ 6)))) else dzero in
  let storageNs := if hasStorageStaging then dadd acc.(CostAcc.storageNs) (clampCost (dmul pay (dlit 6 (10 ^ 6))))
                   else acc.(CostAcc.storageNs) in
  let reservationNs := dzero in
  let fdRiskNs := dzero in
  let reliabilityNs := clampCost (dmul size (dlit 1 (10 ^ 3))) in
  let movementNs := clampCost (dadd (dadd acc.(CostAcc.transferNs) stageNs) hostStageNs) in
  let worstProv := acc.(CostAcc.worstProv) in
  let comp := mkComponent weights in
  CostSummary_of [
    comp CostFactor.PATH_LATENCY acc.(CostAcc.latNs) worstProv;
    comp CostFactor.EFFECTIVE_BANDWIDTH acc.(CostAcc.transferNs) worstProv;
    comp CostFactor.RESIDUAL_BANDWIDTH acc.(CostAcc.headroomNs) worstProv;
    comp CostFactor.CONGESTION_PENALTY acc.(CostAcc.congPenNs) worstProv;
    comp CostFactor.QUEUEING_ESTIMATE acc.(CostAcc.queueNs) worstProv;
    comp CostFactor.HOP_COUNT size Provenance.DERIVED;
    comp CostFactor.STAGE_COUNT size Provenance.DERIVED;
    comp CostFactor.STAGING_OVERHEAD stageNs (if hasStaging then worstProv else Provenance.DERIVED);
    comp CostFactor.HOST_STAGING_COST hostStageNs (if hasHostStaging then worstProv else Provenance.DERIVED);
    comp CostFactor.NUMA_DISTANCE acc.(CostAcc.numaLowNs) Provenance.DERIVED;
    comp CostFactor.PCIE_LOCALITY acc.(CostAcc.pcieNs) Provenance.DERIVED;
    comp CostFactor.NIC_LOCALITY acc.(CostAcc.nicNs) Provenance.DERIVED;
    comp CostFactor.STORAGE_LOCALITY storageNs Provenance.DERIVED;
    comp CostFactor.ENDPOINT_HEALTH acc.(CostAcc.healthRiskNs) worstProv;
    comp CostFactor.RESERVATION_FIT reservationNs Provenance.DERIVED;
    comp CostFactor.CAPACITY_HEADROOM acc.(CostAcc.headroomNs) worstProv;
    comp CostFactor.FAILURE_DOMAIN_RISK fdRiskNs Provenance.DERIVED;
    comp CostFactor.RELIABILITY reliabilityNs Provenance.DERIVED;
    comp CostFactor.MOVEMENT_COST movementNs worstProv].

(** ** Every component is a number in [0, kMaxCost] *)

Definition in_cost_range (v : double) : Prop := nonneg v = true /\ dle v kMaxCost = true.

Lemma kMaxCost_range : in_cost_range kMaxCost.
Proof. vm_compute. auto. Qed.

Lemma dzero_range : in_cost_range dzero.
Proof. vm_compute. auto. Qed.

Lemma clampCost_range v : in_cost_range (clampCost v).
Proof.
  unfold clampCost.
  destruct (isnan v) eqn:En; [apply kMaxCost_range|].
  destruct (dlt v dzero) eqn:El; [apply dzero_range|].
  destruct (isinf v || dgt v kMaxCost) eqn:Ei; [apply kMaxCost_range|].
  apply orb_false_iff in Ei as [_ Ei]. destruct kMaxCost_range as [Hk%nonneg_numeric _]. split.
  - unfold nonneg, dge. fold (dle dzero v). rewrite dle_not_gt by done. by rewrite El.
  - rewrite dle_not_gt by assumption. unfold dgt in Ei. unfold dlt. by rewrite Ei.
Qed.

Lemma in_cost_range_finite v : in_cost_range v -> numeric v /\ isinf v = false.
Proof.
  intros [Hn Hm]. split; [by apply nonneg_numeric|].
  destruct v as [[]|[]| |[]]; try reflexivity; [discriminate Hn|].
  exfalso. revert Hm. vm_compute. discriminate.
Qed.

(** A value already in range is left as it is. *)
Lemma clampCost_id v : in_cost_range v -> clampCost v = v.
Proof.
  intros Hr. destruct (in_cost_range_finite v Hr) as [Hn Hi]. destruct Hr as [H0 H1].
  destruct kMaxCost_range as [Hk%nonneg_numeric _].
  unfold clampCost. pose proof Hn as Hn'. unfold numeric in Hn'. rewrite Hn', Hi.
  unfold nonneg, dge in H0. fold (dle dzero v) in H0.
  rewrite dle_not_gt in H0, H1 by done. bsplit. unfold dgt. fold (dlt kMaxCost v). by rewrite H0, H1.
Qed.

Lemma evaluateCandidateCost_components req snap cand weights bounds :
  Forall (fun c => in_cost_range c.(CostComponent.value))
    (CostSummary.components (evaluateCandidateCost req snap cand weights bounds)).
Proof.
  unfold evaluateCandidateCost, CostSummary_of. cbn [CostSummary.components].
  repeat (apply Forall_cons_2; [apply clampCost_range|]). apply Forall_nil_2.
Qed.

Lemma evaluateCandidateCost_numeric req snap cand weights bounds :
  numeric_cost (evaluateCandidateCost req snap cand weights bounds).
Proof.
  eapply Forall_impl; [apply evaluateCandidateCost_components|].
  intros c Hc. by apply in_cost_range_finite.
Qed.

#[export] Hint Resolve evaluateCandidateCost_numeric : planner.

(** ** Properties *)

(** Whatever the evidence and the weights, every cost component of a path is a
    finite number between 0 and kMaxCost, under a distinct named factor, and the
    total is a non-negative number or positive infinity, never NaN. *)
Theorem evaluateCandidateCost_bounded req snap cand weights bounds :
  let c := evaluateCandidateCost req snap cand weights bounds in
  Forall (fun comp => nonneg comp.(CostComponent.value) = true /\
                      dle comp.(CostComponent.value) kMaxCost = true /\
                      isinf comp.(CostComponent.value) = false) c.(CostSummary.components) /\
  NoDup (CostComponent.factor <$> c.(CostSummary.components)) /\
  length c.(CostSummary.components) = 19%nat /\
  nonneg c.(CostSummary.total) = true.
Proof.
  split_and!.
  - eapply Forall_impl; [apply evaluateCandidateCost_components|].
    intros comp Hc. split; [apply Hc|]. split; [apply Hc|by apply in_cost_range_finite].
  - unfold evaluateCandidateCost, CostSummary_of. cbn [CostSummary.components fmap list_fmap mkComponent CostComponent.factor].
    apply (bool_decide_unpack _). vm_compute. exact I.
  - unfold evaluateCandidateCost, CostSummary_of. cbn [CostSummary.components]. reflexivity.
  - unfold evaluateCandidateCost, CostSummary_of. cbn [CostSummary.total].
    match goal with |- nonneg (cost_total ?l _) = true =>
      destruct (cost_total_cases l dzero eq_refl eq_refl) as [->|(_ & ? & _)]; [reflexivity|assumption] end.
Qed.

(** Two parallel links, one a million times slower. *)
Definition slowLink : Link := {|
  Link.id := 1; Link.generation := 1; Link.source := 10; Link.destination := 11;
  Link.kind := LinkKind.COMPOSITE; Link.transport := Transport.HOST_MEMORY; Link.directed := true;
  Link.capacity := 1000000; Link.effectiveBandwidth := 1000000; Link.latency := 10 ^ 9;
  Link.health := Link.health directLink; Link.congestion := Link.congestion directLink;
  Link.capacityEvidence := Link.capacityEvidence directLink;
  Link.topologyGeneration := 1; Link.capabilityGeneration := 1; Link.failureDomain := "";
  Link.workerBoot := 0; Link.provenance := Provenance.MEASURED |}.

Definition fastLink : Link := mkLink 4 1 10 11 Transport.HOST_MEMORY 1000000 true dzero Provenance.MEASURED.

Definition slowFastSnapshot : EvidenceSnapshot := mkSnapshot [gpuA; gpuB] [slowLink; fastLink] [] [] ∅.

Definition fastPath : CandidatePath := {|
  CandidatePath.source := 10; CandidatePath.destination := 11;
  CandidatePath.hops := [{| Hop.link := 4; Hop.from := 10; Hop.to := 11 |}] |}.

Definition hugeLatencyWeight : gmap CostFactor double := {[CostFactor.PATH_LATENCY := dofZ (10 ^ 300)]}.

Definition costed (snap : EvidenceSnapshot) (weights : gmap CostFactor double) (cand : CandidatePath) : Rankable := {|
  Rankable.path := cand;
  Rankable.feasibility := evaluateCandidateFeasibility basicRequest snap cand basicBounds;
  Rankable.cost := evaluateCandidateCost basicRequest snap cand weights basicBounds |}.

(** An infeasible total does not rank last.  A path whose weighted total overflows
    gets the key kMaxCost (1e18), but a valid total may exceed kMaxCost; here, with
    one finite weight of 1e300, the slow route (latency 1e9 ns) overflows to infinity
    and still ranks before the fast route (1000 ns) with a valid total of 1e303. *)
Theorem overflowed_total_can_win :
  let slow := costed slowFastSnapshot hugeLatencyWeight directPath in
  let fast := costed slowFastSnapshot hugeLatencyWeight fastPath in
  totalValid slow.(Rankable.cost) = false /\
  totalValid fast.(Rankable.cost) = true /\
  rankFeasible [fast; slow] = [1%nat; 0%nat].
Proof. vm_compute. split_and!; reflexivity. Qed.

(** A route whose link reports a given headroom. *)
Definition withHeadroom (id headroom : Z) : Link := {|
  Link.id := id; Link.generation := 1; Link.source := 10; Link.destination := 11;
  Link.kind := LinkKind.COMPOSITE; Link.transport := Transport.HOST_MEMORY; Link.directed := true;
  Link.capacity := 1000000; Link.effectiveBandwidth := 1000000; Link.latency := 1000;
  Link.health := Link.health directLink; Link.congestion := Link.congestion directLink;
  Link.capacityEvidence := {|
    Capacity.generation := 1; Capacity.usable := 1000000; Capacity.headroom := headroom;
    Capacity.provenance := Provenance.REPORTED |};
  Link.topologyGeneration := 1; Link.capabilityGeneration := 1; Link.failureDomain := "";
  Link.workerBoot := 0; Link.provenance := Provenance.MEASURED |}.

Definition headroomSnapshot : EvidenceSnapshot :=
  mkSnapshot [gpuA; gpuB] [withHeadroom 1 900000; withHeadroom 4 100000] [] [] ∅.

Definition noHeadroomWeights : gmap CostFactor double :=
  {[CostFactor.RESIDUAL_BANDWIDTH := dzero; CostFactor.CAPACITY_HEADROOM := dzero]}.

(** The residual-bandwidth tie-break is inverted: the component it compares is the
    contention cost of missing headroom, and the comparison prefers the larger one, so
    of two routes that tie on every earlier criterion the one with less headroom wins. *)
Theorem residual_tie_break_inverted :
  let ample := costed headroomSnapshot noHeadroomWeights directPath in
  let scarce := costed headroomSnapshot noHeadroomWeights fastPath in
  ample.(Rankable.cost).(CostSummary.total) = scarce.(Rankable.cost).(CostSummary.total) /\
  rankFeasible [ample; scarce] = [1%nat; 0%nat].
Proof. vm_compute. split; reflexivity. Qed.
