(* ===== verification/Totals.v ===== *)
(** * Finite totals

    A path's total is a weighted sum in double precision, and a total that is not finite
    ranks wrongly ([overflowed_total_can_win]) and makes a saved store unreadable.  With
    the rounding bounds of [Rounding] this file shows when it cannot happen: the total is
    finite as long as no weight is astronomically large. *)

From S2P Require Import Prelude Core Enums Double Rounding Model Scenario Feasibility Ranking Cost.

(** ** Every component is a canonical double *)

Definition penalties_wf (snap : EvidenceSnapshot) : Prop :=
  Forall (fun l => double_wf l.(Link.congestion).(Congestion.penalty) = true) snap.(Snapshot.links).

Definition acc_wf (acc : CostAcc) : Prop := Forall (fun v => double_wf v = true)
  [acc.(CostAcc.latNs); acc.(CostAcc.transferNs); acc.(CostAcc.queueNs); acc.(CostAcc.congPenNs); acc.(CostAcc.numaLowNs);
   acc.(CostAcc.pcieNs); acc.(CostAcc.nicNs); acc.(CostAcc.storageNs); acc.(CostAcc.healthRiskNs); acc.(CostAcc.headroomNs)].

Lemma if_wf (b : bool) x y : double_wf x = true -> double_wf y = true -> double_wf (if b then x else y) = true.
Proof. by destruct b. Qed.

Lemma kMaxCost_wf : double_wf kMaxCost = true.
Proof. vm_compute. reflexivity. Qed.
Lemma dzero_wf : double_wf dzero = true.
Proof. reflexivity. Qed.

Lemma clampCost_wf v : double_wf v = true -> double_wf (clampCost v) = true.
Proof. intros H. unfold clampCost. auto 10 using if_wf, kMaxCost_wf, dzero_wf. Qed.

Lemma dmin_wf a b : double_wf a = true -> double_wf b = true -> double_wf (dmin a b) = true.
Proof. intros. unfold dmin. by apply if_wf. Qed.

Lemma dlit_wf n d : double_wf (dlit n d) = true.
Proof. apply ddiv_wf; apply dofZ_wf. Qed.

Create HintDb wf.
#[export] Hint Resolve kMaxCost_wf dzero_wf if_wf clampCost_wf dmin_wf dlit_wf dofZ_wf dadd_wf dmul_wf ddiv_wf : wf.

Lemma toTransferNs_wf payload bw : double_wf (toTransferNs payload bw) = true.
Proof. unfold toTransferNs. auto 10 with wf. Qed.

Lemma headroomCost_wf link bw t acc : double_wf t = true -> double_wf acc = true -> double_wf (headroomCost link bw t acc) = true.
Proof. intros. unfold headroomCost. cbv zeta. auto 10 with wf. Qed.

#[export] Hint Resolve toTransferNs_wf headroomCost_wf : wf.

Lemma cost_hop_wf snap payload emap acc hop :
  penalties_wf snap -> acc_wf acc -> acc_wf (cost_hop payload emap (linkMap snap) acc hop).
Proof.
  intros Hp Ha. unfold cost_hop. destruct (linkMap snap !! Hop.link hop) as [link|] eqn:El; [|done].
  assert (Hpen : double_wf link.(Link.congestion).(Congestion.penalty) = true).
  { apply index_by_Some in El as [Hl _]. unfold penalties_wf in Hp. rewrite Forall_forall in Hp. by apply Hp. }
  unfold acc_wf in *. rewrite !Forall_cons in Ha. destruct Ha as (? & ? & ? & ? & ? & ? & ? & ? & ? & ? & _).
  cbn [CostAcc.latNs CostAcc.transferNs CostAcc.queueNs CostAcc.congPenNs CostAcc.numaLowNs CostAcc.pcieNs CostAcc.nicNs
    CostAcc.storageNs CostAcc.healthRiskNs CostAcc.headroomNs].
  repeat apply Forall_cons_2; try apply Forall_nil_2; repeat case_match; auto 10 with wf.
Qed.

Lemma cost_hops_wf snap payload emap hops acc :
  penalties_wf snap -> acc_wf acc -> acc_wf (foldl (cost_hop payload emap (linkMap snap)) acc hops).
Proof. intros Hp. revert acc; induction hops as [|h hops IH]; intros acc Ha; cbn [foldl]; auto using cost_hop_wf. Qed.

Lemma evaluateCandidateCost_wf req snap cand weights bounds :
  penalties_wf snap ->
  Forall (fun c => double_wf c.(CostComponent.value) = true) (evaluateCandidateCost req snap cand weights bounds).(CostSummary.components).
Proof.
  intros Hp. unfold evaluateCandidateCost, CostSummary_of. cbv zeta. cbn [CostSummary.components].
  assert (Ha : acc_wf CostAcc_init) by (repeat apply Forall_cons_2; try apply Forall_nil_2; exact dzero_wf).
  apply (cost_hops_wf snap req.(Request.payloadSize) (endpointMap snap) cand.(CandidatePath.hops)) in Ha; [|done].
  set (acc := foldl _ _ _) in *. clearbody acc. unfold acc_wf in Ha. rewrite !Forall_cons in Ha.
  destruct Ha as (? & ? & ? & ? & ? & ? & ? & ? & ? & ? & _).
  repeat (apply Forall_cons_2; [cbn [mkComponent CostComponent.value]; auto 15 with wf|]). apply Forall_nil_2.
Qed.

(** ** Totals do not overflow *)

(** Weights below 2^840, as the defaults and all but absurd ones are. *)
Definition moderate (weights : gmap CostFactor double) : Prop :=
  map_Forall (fun _ w => double_wf w = true /\ below 840 w) weights.

Lemma moderate_default : moderate ∅.
Proof. apply map_Forall_empty. Qed.

Lemma defaultWeight_moderate f : double_wf (defaultWeight f) = true /\ below 840 (defaultWeight f).
Proof. destruct f; split; vm_compute; first [reflexivity|discriminate|exact I]. Qed.

Lemma weightOf_moderate weights f : moderate weights -> double_wf (weightOf weights f) = true /\ below 840 (weightOf weights f).
Proof.
  intros Hm. unfold weightOf. destruct (weights !! f) as [w|] eqn:E; [by apply (Hm f)|apply defaultWeight_moderate].
Qed.

(** A component of canonical doubles, its weight below 2^840 and its value below 2^60. *)
Record moderate_component (c : CostComponent) : Prop := {
  mc_weight_wf : double_wf c.(CostComponent.weight) = true;
  mc_weight : below 840 c.(CostComponent.weight);
  mc_value_wf : double_wf c.(CostComponent.value) = true;
  mc_value : below 60 c.(CostComponent.value);
}.

Lemma in_cost_range_below v : double_wf v = true -> in_cost_range v -> below 60 v.
Proof.
  intros Wv [Hn Hm]. eapply dle_below; [exact Wv|exact kMaxCost_wf|exact Hn|exact Hm|]. vm_compute. discriminate.
Qed.

Lemma evaluateCandidateCost_moderate req snap cand weights bounds :
  penalties_wf snap -> moderate weights ->
  Forall moderate_component (evaluateCandidateCost req snap cand weights bounds).(CostSummary.components).
Proof.
  intros Hp Hm. apply Forall_forall. intros c Hc.
  assert (Hw : Forall (fun c => double_wf c.(CostComponent.weight) = true /\ below 840 c.(CostComponent.weight))
    (evaluateCandidateCost req snap cand weights bounds).(CostSummary.components)).
  { unfold evaluateCandidateCost, CostSummary_of. cbn [CostSummary.components].
    repeat (apply Forall_cons_2; [by apply weightOf_moderate|]). apply Forall_nil_2. }
  pose proof (evaluateCandidateCost_wf req snap cand weights bounds Hp) as Hv.
  pose proof (evaluateCandidateCost_components req snap cand weights bounds) as Hr.
  rewrite Forall_forall in Hw, Hv, Hr. destruct (Hw c Hc). split; [done|done|by apply Hv|]. apply in_cost_range_below; auto.
Qed.

Lemma moderate_isValid c : moderate_component c -> isValid c = true.
Proof.
  intros [Ww Hw Wv Hv]. destruct (below_units _ _ Ww Hw) as (Nw & Iw & _); [lia|].
  destruct (below_units _ _ Wv Hv) as (Nv & Iv & _); [lia|]. unfold isValid.
  pose proof (nonneg_numeric _ Nw) as Aw. pose proof (nonneg_numeric _ Nv) as Av. unfold nonneg, numeric in *.
  by rewrite Nw, Nv, Iw, Iv, Aw, Av.
Qed.

(** Each component adds at most 2^901. *)
Lemma cost_total_upto comps t n :
  Forall moderate_component comps -> 0 <= n -> n + Z.of_nat (length comps) < 2 ^ 53 -> upto n 901 t ->
  upto (n + Z.of_nat (length comps)) 901 (cost_total comps t).
Proof.
  intros Hc. revert t n. induction Hc as [|c comps Hc Hcs IH]; intros t n Hn Hl Ht; [by rewrite Z.add_0_r|].
  cbn [cost_total length] in *. rewrite moderate_isValid by done. destruct Hc as [Ww Hw Wv Hv].
  assert (Hs : upto (n + 1) 901 (dadd t (dmul c.(CostComponent.weight) c.(CostComponent.value)))).
  { apply dadd_upto; [lia..|exact Ht|by apply dmul_wf|]. apply (dmul_below 840 60); (done || lia). }
  pose proof Hs as (_ & Ns & Is & _). apply nonneg_numeric in Ns. unfold numeric in Ns. rewrite Is, Ns. cbn [negb orb].
  replace (n + Z.of_nat (S (length comps))) with (n + 1 + Z.of_nat (length comps)) by lia. apply IH; [lia..|exact Hs].
Qed.

Lemma summary_total_valid comps :
  Forall moderate_component comps -> Z.of_nat (length comps) < 2 ^ 53 -> totalValid (CostSummary_of comps) = true.
Proof.
  intros Hc Hl. destruct (cost_total_upto comps dzero 0 Hc) as (_ & Nt & It & _); [lia|lia| |].
  - split; [exact dzero_wf|]. split; [reflexivity|]. split; [reflexivity|]. cbn. lia.
  - unfold totalValid. cbn [CostSummary_of CostSummary.total]. apply nonneg_numeric in Nt. unfold numeric in Nt. by rewrite It, Nt.
Qed.

(** The total of a candidate path is at most 19 * 2^901. *)
Lemma evaluateCandidateCost_upto req snap cand weights bounds :
  penalties_wf snap -> moderate weights -> upto 19 901 (evaluateCandidateCost req snap cand weights bounds).(CostSummary.total).
Proof.
  intros Hp Hm. pose proof (evaluateCandidateCost_moderate req snap cand weights bounds Hp Hm) as Hc.
  apply (cost_total_upto _ dzero 0 Hc); [lia|done|]. split; [exact dzero_wf|]. split; [reflexivity|]. split; [reflexivity|]. cbn. lia.
Qed.

(** C40: with weights below 2^840, and the defaults are, no total overflows: whatever the
    evidence, the payload and the length of the path, the total of every candidate path
    is a canonical non-negative double of at most 19 * 2^901. *)
Theorem evaluateCandidateCost_finite req snap cand weights bounds :
  penalties_wf snap -> moderate weights ->
  let c := evaluateCandidateCost req snap cand weights bounds in
  totalValid c = true /\ double_wf c.(CostSummary.total) = true /\ nonneg c.(CostSummary.total) = true /\
  units c.(CostSummary.total) <= 19 * 2 ^ (901 + 1074).
Proof.
  intros Hp Hm c. destruct (evaluateCandidateCost_upto req snap cand weights bounds Hp Hm) as (Wt & Nt & It & Ut).
  split_and!; [|exact Wt|exact Nt|exact Ut]. unfold totalValid. fold c in Nt, It. apply nonneg_numeric in Nt. unfold numeric in Nt.
  by rewrite It, Nt.
Qed.

Lemma evaluateCandidateCost_finite_witness :
  penalties_wf basicSnapshot /\
  totalValid (evaluateCandidateCost basicRequest basicSnapshot stagedPath {[CostFactor.PATH_LATENCY := dofZ (10 ^ 200)]} basicBounds) = true.
Proof.
  assert (Hp : penalties_wf basicSnapshot) by (apply (bool_decide_unpack _); vm_compute; exact I).
  split; [exact Hp|].
  assert (Hm : moderate {[CostFactor.PATH_LATENCY := dofZ (10 ^ 200)]}).
  { apply map_Forall_singleton. split; [apply dofZ_wf|vm_compute; discriminate]. }
  exact (proj1 (evaluateCandidateCost_finite basicRequest basicSnapshot stagedPath _ basicBounds Hp Hm)).
Defined.

(** The check that the code has for its weights and never makes would not suffice: a
    weight of 1e300 passes it, and the total of a path of 1 s latency overflows. *)
Theorem finite_weights_overflow :
  allWeightsFinite hugeLatencyWeight = true /\
  totalValid (evaluateCandidateCost basicRequest slowFastSnapshot directPath hugeLatencyWeight basicBounds) = false.
Proof. vm_compute. auto. Qed.
