(* ===== verification/Enumerate.v ===== *)
(** * Candidate path enumeration

    Models [enumerateCandidatePaths] of src/planner.cpp: a bounded depth-first search
    over the adjacency of the snapshot's links.  The search is shown to produce a
    prefix of an unbounded reference enumeration, which is in turn exactly the set of
    simple link paths from source to destination. *)

From S2P Require Import Prelude Core Enums Double Model Scenario.

Module Adj.
Record Adj := { to : EndpointId; link : LinkId }.
End Adj.
Abbreviation Adj := Adj.Adj.

(** The comparison the adjacency vectors are sorted with. *)
Definition adjLess (a b : Adj) : bool :=
  if negb (a.(Adj.to) =? b.(Adj.to)) then a.(Adj.to) <? b.(Adj.to)
  else a.(Adj.link) <? b.(Adj.link).

(** [adj[l.source].push_back(...)] for every link, then each vector sorted. *)
Definition buildAdjacency (links : list Link) : gmap Z (list Adj) :=
  let push m l :=
    <[l.(Link.source) := default [] (m !! l.(Link.source)) ++
        [{| Adj.to := l.(Link.destination); Adj.link := l.(Link.id) |}]]> m in
  stable_sort adjLess <$> foldl push ∅ links.

Section dfs.
Context (adj : gmap Z (list Adj)) (src dst : EndpointId) (bounds : Bounds).

Definition mkCandidate (hops : list Hop) : CandidatePath :=
  {| CandidatePath.source := src; CandidatePath.destination := dst; CandidatePath.hops := hops |}.

(** [out.size() >= bounds.maxCandidates]. *)
Definition full (out : list CandidatePath) : bool := bounds.(Bounds.maxCandidates) <=? Z.of_nat (length out).

(** The loop over the neighbours of [cur]; [go] is the recursive call.  [visited]
    and [hops] are restored after each iteration in the source, so they are
    passed down and not threaded. *)
Fixpoint dfs_loop (go : EndpointId -> list Hop -> gset Z -> list CandidatePath -> list CandidatePath)
    (cur : EndpointId) (hops : list Hop) (visited : gset Z) (neighbours : list Adj)
    (out : list CandidatePath) : list CandidatePath :=
  match neighbours with
  | [] => out
  | a :: neighbours' =>
      if full out then out
      else if bool_decide (a.(Adj.to) ∈ visited) then dfs_loop go cur hops visited neighbours' out
      else
        let hops' := hops ++ [{| Hop.link := a.(Adj.link); Hop.from := cur; Hop.to := a.(Adj.to) |}] in
        let out' :=
          if a.(Adj.to) =? dst then
            if Z.of_nat (length hops') - 1 <=? bounds.(Bounds.maxRelayCount)
            then out ++ [mkCandidate hops'] else out
          else go a.(Adj.to) hops' ({[a.(Adj.to)]} ∪ visited) out in
        dfs_loop go cur hops visited neighbours' out'
  end.

(** [dfs]; the fuel is the remaining depth [maxPathDepth - hops.size()], so running
    out of it is the source's own depth test. *)
Fixpoint dfs (depth : nat) (cur : EndpointId) (hops : list Hop) (visited : gset Z)
    (out : list CandidatePath) : list CandidatePath :=
  if full out then out
  else match depth with
       | O => out
       | S depth' =>
           match adj !! cur with
           | None => out
           | Some neighbours => dfs_loop (dfs depth') cur hops visited neighbours out
           end
       end.
End dfs.

(** The comparison of the final sort: hop count, then link identities. *)
Fixpoint linksLess (a b : list Hop) : bool :=
  match a, b with
  | x :: a', y :: b' =>
      if negb (x.(Hop.link) =? y.(Hop.link)) then x.(Hop.link) <? y.(Hop.link) else linksLess a' b'
  | _, _ => false
  end.

Definition candidateLess (a b : CandidatePath) : bool :=
  let ha := a.(CandidatePath.hops) in
  let hb := b.(CandidatePath.hops) in
  if negb (length ha =? length hb)%nat then (length ha <? length hb)%nat else linksLess ha hb.

Definition enumerateCandidatePaths (snap : EvidenceSnapshot) (src dst : EndpointId) (bounds : Bounds)
    : list CandidatePath :=
  let adj := buildAdjacency snap.(Snapshot.links) in
  stable_sort candidateLess
    (dfs adj src dst bounds (Z.to_nat bounds.(Bounds.maxPathDepth)) src [] {[src]} []).

(** ** The reference enumeration: the same search without the candidate bound *)

Section reference.
Context (adj : gmap Z (list Adj)) (src dst : EndpointId) (bounds : Bounds).

Definition expand (go : EndpointId -> list Hop -> gset Z -> list CandidatePath)
    (cur : EndpointId) (hops : list Hop) (visited : gset Z) (a : Adj) : list CandidatePath :=
  if bool_decide (a.(Adj.to) ∈ visited) then []
  else
    let hops' := hops ++ [{| Hop.link := a.(Adj.link); Hop.from := cur; Hop.to := a.(Adj.to) |}] in
    if a.(Adj.to) =? dst then
      if Z.of_nat (length hops') - 1 <=? bounds.(Bounds.maxRelayCount) then [mkCandidate src dst hops'] else []
    else go a.(Adj.to) hops' ({[a.(Adj.to)]} ∪ visited).

Fixpoint all_paths (depth : nat) (cur : EndpointId) (hops : list Hop) (visited : gset Z)
    : list CandidatePath :=
  match depth with
  | O => []
  | S depth' => flat_map (expand (all_paths depth') cur hops visited) (default [] (adj !! cur))
  end.

Definition cap : nat := Z.to_nat bounds.(Bounds.maxCandidates).

(** Appending candidates stops at the bound. *)
Definition capped (out more : list CandidatePath) : list CandidatePath :=
  out ++ take (cap - length out) more.

Lemma full_iff out : full bounds out = true <-> (cap <= length out)%nat.
Proof. unfold full, cap. rewrite Z.leb_le. lia. Qed.

Lemma capped_full out more : full bounds out = true -> capped out more = out.
Proof.
  intros H%full_iff. unfold capped. replace (cap - length out)%nat with 0%nat by lia.
  apply app_nil_r.
Qed.

Lemma capped_app out more1 more2 : capped (capped out more1) more2 = capped out (more1 ++ more2).
Proof.
  unfold capped. rewrite take_app, <- app_assoc, length_app, length_take. do 2 f_equal. f_equal. lia.
Qed.

Lemma dfs_loop_capped go go_ref cur hops visited neighbours out :
  (forall c h v o, go c h v o = capped o (go_ref c h v)) ->
  dfs_loop src dst bounds go cur hops visited neighbours out =
  capped out (flat_map (expand go_ref cur hops visited) neighbours).
Proof.
  intros Hgo. revert out; induction neighbours as [|a l IH]; intros out; simpl.
  { unfold capped. by rewrite take_nil, app_nil_r. }
  destruct (full bounds out) eqn:Ef; [by rewrite capped_full|].
  rewrite <- capped_app. unfold expand at 1.
  case_bool_decide; [by rewrite IH; unfold capped at 3; rewrite take_nil, app_nil_r|].
  rewrite IH. f_equal. destruct (_ =? dst); [|by rewrite Hgo].
  assert (~ (cap <= length out)%nat) by (rewrite <- full_iff; congruence).
  destruct (_ <=? _); unfold capped; [|by rewrite take_nil, app_nil_r].
  replace (cap - length out)%nat with (S (cap - length out - 1)) by lia. simpl. by rewrite take_nil.
Qed.

(** The bounded search yields the first [maxCandidates] reference paths. *)
Lemma dfs_capped depth cur hops visited out :
  dfs adj src dst bounds depth cur hops visited out = capped out (all_paths depth cur hops visited).
Proof.
  revert cur hops visited out; induction depth as [|d IH]; intros cur hops visited out; simpl.
  { unfold capped. rewrite take_nil, app_nil_r. by destruct (full bounds out). }
  destruct (full bounds out) eqn:Ef; [by rewrite capped_full|].
  destruct (adj !! cur) as [l|]; simpl; [by apply dfs_loop_capped|].
  unfold capped. by rewrite take_nil, app_nil_r.
Qed.
End reference.

(** ** The adjacency of a link list *)

Definition adj_of_link (l : Link) : Adj := {| Adj.to := l.(Link.destination); Adj.link := l.(Link.id) |}.

Definition out_adj (s : EndpointId) (links : list Link) : list Adj :=
  adj_of_link <$> filter (fun l => l.(Link.source) = s) links.

Definition pushLink (m : gmap Z (list Adj)) (l : Link) : gmap Z (list Adj) :=
  <[l.(Link.source) := default [] (m !! l.(Link.source)) ++ [adj_of_link l]]> m.

Lemma pushLink_lookup links s :
  foldl pushLink ∅ links !! s = match out_adj s links with [] => None | l => Some l end.
Proof.
  induction links as [|l links IH] using rev_ind; [done|].
  rewrite foldl_app. simpl. unfold pushLink at 1, out_adj. rewrite filter_app, fmap_app, filter_cons, filter_nil.
  fold (out_adj s links). rewrite lookup_insert. destruct (decide (Link.source l = s)) as [<-|Hne]; csimpl.
  - rewrite IH. by destruct (out_adj (Link.source l) links).
  - by rewrite app_nil_r.
Qed.

Lemma buildAdjacency_lookup links s :
  buildAdjacency links !! s =
  match out_adj s links with [] => None | l => Some (stable_sort adjLess l) end.
Proof.
  unfold buildAdjacency. rewrite lookup_fmap.
  change (foldl _ ∅ links) with (foldl pushLink ∅ links). rewrite pushLink_lookup.
  by destruct (out_adj s links).
Qed.

Lemma adjLess_code a b :
  adjLess a b = lexb [a.(Adj.to); a.(Adj.link)] [b.(Adj.to); b.(Adj.link)].
Proof.
  unfold adjLess. simpl. destruct (Z.eqb_spec (Adj.to a) (Adj.to b)); simpl; ztests; try lia; done.
Qed.

Lemma adjLess_strict_weak : strict_weak_on (fun _ => True) adjLess.
Proof.
  eapply strict_weak_ext; [intros; apply adjLess_code|].
  by apply (strict_weak_map _ (fun _ => True)); [apply lexb_strict_weak|].
Qed.

Lemma adjLess_tie a b : not_after adjLess a b -> not_after adjLess b a -> a = b.
Proof.
  unfold not_after. rewrite !adjLess_code. intros H1 H2.
  pose proof (lexb_total _ _ H2 H1). destruct a, b; naive_solver.
Qed.

(** The order in which links were published does not matter. *)
Lemma buildAdjacency_perm links1 links2 : links1 ≡ₚ links2 -> buildAdjacency links1 = buildAdjacency links2.
Proof.
  intros Hp. apply map_eq. intros s. rewrite !buildAdjacency_lookup.
  assert (Ho : out_adj s links1 ≡ₚ out_adj s links2) by (unfold out_adj; by rewrite Hp).
  destruct (out_adj s links1) as [|a l1] eqn:E1, (out_adj s links2) as [|b l2] eqn:E2; [done| | |].
  - by apply Permutation_nil_l in Ho.
  - by apply Permutation_nil_r in Ho.
  - f_equal. apply (stable_sort_perm_eq adjLess _ adjLess_strict_weak); [by apply Forall_true|eauto using adjLess_tie|done].
Qed.

Lemma elem_of_adjacency links s a :
  a ∈ default [] (buildAdjacency links !! s) <->
  exists l, l ∈ links /\ l.(Link.source) = s /\ a = adj_of_link l.
Proof.
  rewrite buildAdjacency_lookup.
  transitivity (a ∈ out_adj s links).
  { destruct (out_adj s links) as [|b l]; [done|]. apply elem_of_stable_sort. }
  unfold out_adj. rewrite list_elem_of_fmap. setoid_rewrite list_elem_of_filter. naive_solver.
Qed.

(** ** Specification: simple paths of directed links *)

Definition hop_of_link (l : Link) : Hop :=
  {| Hop.link := l.(Link.id); Hop.from := l.(Link.source); Hop.to := l.(Link.destination) |}.

(** [walk links x hs y]: the hops follow links head to tail from [x] to [y]. *)
Inductive walk (links : list Link) : EndpointId -> list Hop -> EndpointId -> Prop :=
  | walk_nil x : walk links x [] x
  | walk_cons l hs y : l ∈ links -> walk links l.(Link.destination) hs y ->
      walk links l.(Link.source) (hop_of_link l :: hs) y.

(** A simple path: at least one hop, and no endpoint twice. *)
Record simple_path (links : list Link) (src dst : EndpointId) (hops : list Hop) : Prop := {
  sp_nonempty : hops <> [];
  sp_walk : walk links src hops dst;
  sp_simple : NoDup (src :: (Hop.to <$> hops));
}.

(** The length limits of the bounds: depth, and interior relays. *)
Definition within_bounds (bounds : Bounds) (hops : list Hop) : Prop :=
  Z.of_nat (length hops) <= bounds.(Bounds.maxPathDepth) /\
  Z.of_nat (length hops) - 1 <= bounds.(Bounds.maxRelayCount).

Lemma walk_end_visited links x hs y : walk links x hs y -> hs <> [] -> y ∈ Hop.to <$> hs.
Proof.
  induction 1 as [|l hs y Hl Hw IH]; [done|]. intros _. csimpl.
  destruct hs as [|h hs]; [inversion Hw; subst; left|right; auto].
Qed.

Section reference_correct.
Context (links : list Link) (src dst : EndpointId) (bounds : Bounds).
Let adj := buildAdjacency links.

(** A continuation of the current search position to the destination. *)
Definition continues (cur : EndpointId) (visited : gset Z) (depth : nat) (hs : list Hop) : Prop :=
  hs <> [] /\ walk links cur hs dst /\ NoDup (Hop.to <$> hs) /\
  (forall x, x ∈ Hop.to <$> hs -> x ∉ visited) /\ (length hs <= depth)%nat.

Lemma continues_cons cur visited depth h hs :
  continues cur visited (S depth) (h :: hs) <->
  exists l, l ∈ links /\ l.(Link.source) = cur /\ h = hop_of_link l /\ h.(Hop.to) ∉ visited /\
    ((h.(Hop.to) = dst /\ hs = []) \/
     (h.(Hop.to) <> dst /\ continues h.(Hop.to) ({[h.(Hop.to)]} ∪ visited) depth hs)).
Proof.
  unfold continues. split.
  - intros (_ & Hw & Hnd & Hv & Hlen). inversion Hw as [|l hs' y Hl Hw']; subst.
    exists l. csimpl in *. apply NoDup_cons in Hnd as [Hni Hnd].
    split_and!; auto; [apply Hv; left|].
    destruct (decide (Link.destination l = dst)) as [E|E]; [left; split; [done|]|right; split; [done|]].
    + destruct hs as [|h hs]; [done|]. exfalso. apply Hni. rewrite E. by eapply walk_end_visited.
    + split_and!; [intros ->; by inversion Hw'|done|done| |lia].
      intros x Hx. assert (x <> Link.destination l) by (intros ->; done).
      assert (x ∉ visited) by (apply Hv; by right). set_solver.
  - intros (l & Hl & <- & -> & Hv & Hc). csimpl in *. destruct Hc as [[<- ->]|[Hne (Hne' & Hw & Hnd & Hv' & Hlen)]].
    + split_and!; [done|by constructor; [|constructor]|apply NoDup_singleton|set_solver|simpl; lia].
    + split_and!; [done|by constructor| | |lia].
      * constructor; [|done]. intros Hin. apply (Hv' _ Hin). set_solver.
      * intros x [->|Hx]%elem_of_cons; [done|]. specialize (Hv' _ Hx). set_solver.
Qed.

Lemma all_paths_iff depth cur hops visited p :
  p ∈ all_paths adj src dst bounds depth cur hops visited <->
  exists hs, p = mkCandidate src dst (hops ++ hs) /\ continues cur visited depth hs /\
    Z.of_nat (length (hops ++ hs)) - 1 <= bounds.(Bounds.maxRelayCount).
Proof.
  revert cur hops visited; induction depth as [|d IH]; intros cur hops visited; simpl.
  { split; [by intros ?%elem_of_nil|]. intros ([|h hs] & _ & (? & _ & _ & _ & Hl) & _); simpl in *; [done|lia]. }
  rewrite list_elem_of_In, in_flat_map. setoid_rewrite <- list_elem_of_In. split.
  - intros (a & (l & Hl & <- & ->)%elem_of_adjacency & Hp). unfold expand in Hp.
    case_bool_decide as Hv; [by apply elem_of_nil in Hp|]. simpl in *.
    set (h := hop_of_link l). change {| Hop.link := _; Hop.from := _; Hop.to := _ |} with h in Hp.
    destruct (Z.eqb_spec (Link.destination l) dst) as [Ed|Ed].
    + destruct (Z.leb_spec (Z.of_nat (length (hops ++ [h])) - 1) (Bounds.maxRelayCount bounds)); [|by apply elem_of_nil in Hp].
      apply list_elem_of_singleton in Hp as ->. exists [h]. split_and!; [done| |done].
      apply continues_cons. exists l. split_and!; auto.
    + apply IH in Hp as (hs & -> & Hc & Hr). exists (h :: hs). rewrite <- app_assoc in *. split_and!; [done| |done].
      apply continues_cons. exists l. split_and!; auto.
  - intros ([|h hs] & -> & Hc & Hr); [by destruct Hc|].
    apply continues_cons in Hc as (l & Hl & <- & -> & Hv & Hc). exists (adj_of_link l).
    split; [by apply elem_of_adjacency; eauto|]. unfold expand. simpl in *.
    rewrite bool_decide_eq_false_2 by done.
    change {| Hop.link := _; Hop.from := _; Hop.to := _ |} with (hop_of_link l).
    destruct Hc as [[Ed ->]|[Ed Hc]].
    + rewrite Ed, Z.eqb_refl. destruct (Z.leb_spec (Z.of_nat (length (hops ++ [hop_of_link l])) - 1) (Bounds.maxRelayCount bounds)); [|lia].
      left.
    + destruct (Z.eqb_spec (Link.destination l) dst); [done|]. apply IH. exists hs.
      rewrite <- app_assoc. split_and!; auto.
Qed.

Lemma all_paths_simple p :
  0 <= bounds.(Bounds.maxPathDepth) ->
  p ∈ all_paths adj src dst bounds (Z.to_nat bounds.(Bounds.maxPathDepth)) src [] {[src]} <->
  p.(CandidatePath.source) = src /\ p.(CandidatePath.destination) = dst /\
  simple_path links src dst p.(CandidatePath.hops) /\ within_bounds bounds p.(CandidatePath.hops).
Proof.
  intros Hd. rewrite all_paths_iff. unfold within_bounds. split.
  - intros (hs & -> & (Hne & Hw & Hnd & Hv & Hl) & Hr). simpl in *. split_and!; [done|done| |lia|lia].
    split; [done|done|]. constructor; [|done]. intros Hin. apply (Hv _ Hin). set_solver.
  - intros (Es & Ed & [Hne Hw Hnd] & Hl & Hr). exists p.(CandidatePath.hops).
    split; [destruct p; simpl in *; unfold mkCandidate; by f_equal|]. split; [|done]. apply NoDup_cons in Hnd as [Hni Hnd].
    split_and!; [done|done|done| |lia]. set_solver.
Qed.
End reference_correct.

(** ** The final sort *)

Lemma linksLess_lexb a b :
  length a = length b -> linksLess a b = lexb (Hop.link <$> a) (Hop.link <$> b).
Proof.
  revert b; induction a as [|x a IH]; intros [|y b] Hl; simplify_eq/=; [done|].
  rewrite IH by done. destruct (Z.eqb_spec (Hop.link x) (Hop.link y)); simpl; ztests; try lia; done.
Qed.

Definition candidate_code (c : CandidatePath) : list Z :=
  Z.of_nat (length c.(CandidatePath.hops)) :: (Hop.link <$> c.(CandidatePath.hops)).

Lemma candidateLess_code a b : candidateLess a b = lexb (candidate_code a) (candidate_code b).
Proof.
  unfold candidateLess, candidate_code. simpl.
  destruct (Nat.eqb_spec (length a.(CandidatePath.hops)) (length b.(CandidatePath.hops))) as [E|E]; simpl.
  - rewrite E, Z.ltb_irrefl. by apply linksLess_lexb.
  - destruct (Nat.ltb_spec (length a.(CandidatePath.hops)) (length b.(CandidatePath.hops))); ztests; try lia; done.
Qed.

Lemma candidateLess_strict_weak : strict_weak_on (fun _ => True) candidateLess.
Proof.
  eapply strict_weak_ext; [intros; apply candidateLess_code|].
  by apply (strict_weak_map _ (fun _ => True)); [apply lexb_strict_weak|].
Qed.

(** The enumeration is the sorted prefix of the reference enumeration. *)
Definition reference_paths (snap : EvidenceSnapshot) (src dst : EndpointId) (bounds : Bounds) : list CandidatePath :=
  all_paths (buildAdjacency snap.(Snapshot.links)) src dst bounds (Z.to_nat bounds.(Bounds.maxPathDepth)) src [] {[src]}.

Lemma enumerate_reference snap src dst bounds :
  enumerateCandidatePaths snap src dst bounds =
  stable_sort candidateLess (take (cap bounds) (reference_paths snap src dst bounds)).
Proof.
  unfold enumerateCandidatePaths. rewrite dfs_capped. unfold capped. simpl. by rewrite Nat.sub_0_r.
Qed.

Lemma elem_of_enumerate snap src dst bounds p :
  p ∈ enumerateCandidatePaths snap src dst bounds ->
  p.(CandidatePath.source) = src /\ p.(CandidatePath.destination) = dst /\
  simple_path snap.(Snapshot.links) src dst p.(CandidatePath.hops) /\ within_bounds bounds p.(CandidatePath.hops).
Proof.
  rewrite enumerate_reference, elem_of_stable_sort. intros Hp%elem_of_take.
  destruct Hp as (i & Hi & _). apply list_elem_of_lookup_2 in Hi.
  destruct (Z.leb_spec 0 bounds.(Bounds.maxPathDepth)); [by apply all_paths_simple|].
  unfold reference_paths in Hi. replace (Z.to_nat (Bounds.maxPathDepth bounds)) with 0%nat in Hi by lia.
  by apply elem_of_nil in Hi.
Qed.

(** ** Distinctness under distinct link identities *)

Lemma walk_hops links x hs y : walk links x hs y -> forall h, h ∈ hs -> exists l, l ∈ links /\ h = hop_of_link l.
Proof.
  induction 1 as [|l hs y Hl Hw IH]; [by intros h ?%elem_of_nil|].
  intros h [->|Hh]%elem_of_cons; eauto.
Qed.

Lemma walk_links_inj links x1 x2 hs1 hs2 y1 y2 :
  NoDup (Link.id <$> links) -> walk links x1 hs1 y1 -> walk links x2 hs2 y2 ->
  Hop.link <$> hs1 = Hop.link <$> hs2 -> hs1 = hs2.
Proof.
  intros Hnd Hw. revert x2 hs2; induction Hw as [|l hs y Hl Hw IH]; intros x2 hs2 Hw2 E.
  - by destruct hs2.
  - destruct Hw2 as [|l2 hs2 y2' Hl2 Hw2]; [done|]. injection E as E1 E2.
    assert (l = l2) as -> by (by apply (NoDup_key_inj Link.id links)). f_equal. eauto.
Qed.

Lemma adjacency_NoDup links s : NoDup (Link.id <$> links) -> NoDup (default [] (buildAdjacency links !! s)).
Proof.
  intros Hnd. assert (Ho : NoDup (out_adj s links)).
  { unfold out_adj. apply (NoDup_fmap_1 Adj.link). rewrite <- list_fmap_compose.
    change (Adj.link ∘ adj_of_link) with Link.id. eapply sublist_NoDup; [exact Hnd|].
    apply fmap_sublist, sublist_filter. }
  rewrite buildAdjacency_lookup. destruct (out_adj s links) as [|a l] eqn:E; [constructor|].
  change (NoDup (stable_sort adjLess (a :: l))). by rewrite stable_sort_perm.
Qed.

Lemma all_paths_NoDup links src dst bounds depth cur hops visited :
  NoDup (Link.id <$> links) ->
  NoDup (all_paths (buildAdjacency links) src dst bounds depth cur hops visited).
Proof.
  intros Hnd. revert cur hops visited; induction depth as [|d IH]; intros cur hops visited; [constructor|].
  simpl. apply NoDup_flat_map; [by apply adjacency_NoDup| |].
  - intros a _. unfold expand. repeat case_match; auto using NoDup_nil_2, NoDup_singleton.
  - assert (Hat : forall a p, p ∈ expand src dst bounds (all_paths (buildAdjacency links) src dst bounds d) cur hops visited a ->
      p.(CandidatePath.hops) !! length hops = Some {| Hop.link := a.(Adj.link); Hop.from := cur; Hop.to := a.(Adj.to) |}).
    { intros a p. unfold expand. case_bool_decide; [by intros ?%elem_of_nil|].
      destruct (_ =? dst).
      - destruct (_ <=? _); [|by intros ?%elem_of_nil]. intros ->%list_elem_of_singleton. simpl.
        by apply list_lookup_middle.
      - intros (hs & -> & _)%all_paths_iff. simpl. rewrite <- app_assoc. by apply list_lookup_middle. }
    intros a b p _ _ Ha%Hat Hb%Hat. rewrite Ha in Hb. destruct a, b; naive_solver.
Qed.

(** Below the candidate bound the enumeration holds every reference path. *)
Lemma enumerate_unbounded snap src dst bounds :
  Z.of_nat (length (enumerateCandidatePaths snap src dst bounds)) < bounds.(Bounds.maxCandidates) ->
  enumerateCandidatePaths snap src dst bounds ≡ₚ reference_paths snap src dst bounds.
Proof.
  rewrite enumerate_reference, length_stable_sort, length_take. unfold cap. intros Hc.
  assert (Hl : (length (reference_paths snap src dst bounds) <= Z.to_nat (Bounds.maxCandidates bounds))%nat) by lia.
  rewrite take_ge by done. apply stable_sort_perm.
Qed.

Lemma elem_of_enumerate_unbounded snap src dst bounds hops :
  0 <= bounds.(Bounds.maxPathDepth) ->
  Z.of_nat (length (enumerateCandidatePaths snap src dst bounds)) < bounds.(Bounds.maxCandidates) ->
  simple_path snap.(Snapshot.links) src dst hops -> within_bounds bounds hops ->
  mkCandidate src dst hops ∈ enumerateCandidatePaths snap src dst bounds.
Proof. intros Hd Hc Hs Hb. rewrite enumerate_unbounded by done. by apply all_paths_simple. Qed.

(** ** Properties *)

(** Every enumerated candidate is a simple path of published links, directed head
    to tail from the requested source to the requested destination, no longer than
    the depth and relay bounds; at most [maxCandidates] of them are returned, in the
    order of hop count and link identities. *)
Theorem enumerate_sound snap src dst bounds :
  (forall p, p ∈ enumerateCandidatePaths snap src dst bounds ->
    p.(CandidatePath.source) = src /\ p.(CandidatePath.destination) = dst /\
    simple_path snap.(Snapshot.links) src dst p.(CandidatePath.hops) /\
    within_bounds bounds p.(CandidatePath.hops)) /\
  (length (enumerateCandidatePaths snap src dst bounds) <= Z.to_nat bounds.(Bounds.maxCandidates))%nat /\
  StronglySorted (fun p q => candidateLess q p = false) (enumerateCandidatePaths snap src dst bounds).
Proof.
  split_and!.
  - apply elem_of_enumerate.
  - rewrite enumerate_reference, length_stable_sort, length_take. unfold cap. lia.
  - rewrite enumerate_reference.
    apply (stable_sort_sorted _ _ candidateLess_strict_weak). by apply Forall_true.
Qed.

(** The bounded search loses no path unless it hits the candidate bound: when it
    returns fewer than [maxCandidates] candidates, every simple path from source to
    destination within the depth and relay bounds is among them, and, with distinct
    link identities, exactly once. *)
Theorem enumerate_complete snap src dst bounds :
  0 <= bounds.(Bounds.maxPathDepth) ->
  Z.of_nat (length (enumerateCandidatePaths snap src dst bounds)) < bounds.(Bounds.maxCandidates) ->
  (forall hops, simple_path snap.(Snapshot.links) src dst hops -> within_bounds bounds hops ->
    mkCandidate src dst hops ∈ enumerateCandidatePaths snap src dst bounds) /\
  (NoDup (Link.id <$> snap.(Snapshot.links)) -> NoDup (enumerateCandidatePaths snap src dst bounds)).
Proof.
  intros Hd Hc. split.
  - intros hops. by apply elem_of_enumerate_unbounded.
  - intros Hnd. rewrite enumerate_unbounded by done. by apply all_paths_NoDup.
Qed.

Lemma enumerate_complete_witness :
  mkCandidate 10 11 [hop_of_link upLink; hop_of_link downLink] ∈ enumerateCandidatePaths basicSnapshot 10 11 basicBounds /\
  NoDup (enumerateCandidatePaths basicSnapshot 10 11 basicBounds).
Proof.
  split.
  - apply (enumerate_complete basicSnapshot 10 11 basicBounds); [discriminate|reflexivity| |split; discriminate].
    split; [discriminate| |apply (bool_decide_unpack _); reflexivity].
    apply (walk_cons _ upLink); [set_solver|]. apply (walk_cons _ downLink); [set_solver|]. apply walk_nil.
  - apply (enumerate_complete basicSnapshot 10 11 basicBounds); [discriminate|reflexivity|].
    apply (bool_decide_unpack _). reflexivity.
Defined.

(** The enumeration does not depend on the order in which links were published. *)
Theorem enumerate_order_independent snap1 snap2 src dst bounds :
  snap1.(Snapshot.links) ≡ₚ snap2.(Snapshot.links) ->
  enumerateCandidatePaths snap1 src dst bounds = enumerateCandidatePaths snap2 src dst bounds.
Proof.
  intros Hp. unfold enumerateCandidatePaths. by rewrite (buildAdjacency_perm _ _ Hp).
Qed.

Lemma enumerate_order_independent_witness :
  enumerateCandidatePaths basicSnapshot 10 11 basicBounds =
  enumerateCandidatePaths (mkSnapshot [gpuA; gpuB; hostMem] [downLink; upLink; directLink] [] [] {[10 := 7]}) 10 11 basicBounds.
Proof.
  apply (enumerate_order_independent basicSnapshot). apply (Permutation_rev [directLink; upLink; downLink]).
Defined.
