(* ===== verification/Assembly.v ===== *)
(** * Plan assembly

    Models the helpers src/planner.cpp shares with multicast.cpp and collective.cpp
    (src/planner_internal.hpp): the process-wide counters, the costing and ranking of
    the candidates of one source and destination, the stages and paths of a plan, and
    the evidence generations a plan is bound to. *)

From S2P Require Import Prelude Core Enums Double Model Scenario Feasibility Ranking Cost Enumerate.

(** ** Effects: the atomic counters, and exceptions *)

Module Counters.
Record Counters := {
  stage : Z;             (* StageId::next *)
  plan : Z;              (* CommunicationPlanId::next *)
  planGeneration : Z;    (* nextPlanGeneration *)
}.
End Counters.
Abbreviation Counters := Counters.Counters.

(** The counters' static initial values. *)
Definition initialCounters : Counters := {|
  Counters.stage := 1; Counters.plan := 1; Counters.planGeneration := 1 |}.

Definition M (A : Type) : Type := Counters -> result A * Counters.

#[export] Instance M_ret : MRet M := fun A a cs => (Ok a, cs).
#[export] Instance M_bind : MBind M := fun A B f m cs =>
  match m cs with
  | (Ok a, cs') => f a cs'
  | (Throw e, cs') => (Throw e, cs')
  end.

(** A computation without effects on the counters that may throw. *)
Definition lift {A} (r : result A) : M A := fun cs => (r, cs).

Definition StageId_next : M StageId := fun cs =>
  let '(id, c) := Id_next cs.(Counters.stage) in
  (Ok id, {| Counters.stage := c; Counters.plan := cs.(Counters.plan); Counters.planGeneration := cs.(Counters.planGeneration) |}).

Definition CommunicationPlanId_next : M CommunicationPlanId := fun cs =>
  let '(id, c) := Id_next cs.(Counters.plan) in
  (Ok id, {| Counters.stage := cs.(Counters.stage); Counters.plan := c; Counters.planGeneration := cs.(Counters.planGeneration) |}).

Definition nextPlanGeneration : M CommunicationPlanGeneration := fun cs =>
  (Ok cs.(Counters.planGeneration),
   {| Counters.stage := cs.(Counters.stage); Counters.plan := cs.(Counters.plan);
      Counters.planGeneration := wrap64 (cs.(Counters.planGeneration) + 1) |}).

(** [v[i]] on a vector, unchecked, and [m.at(k)] on a map, checked. *)
Definition index {A} (v : list A) (i : nat) : result A :=
  match v !! i with Some a => Ok a | None => Throw undefined_index end.
Definition at_ {A} (m : gmap Z A) (k : Z) : result A :=
  match m !! k with Some a => Ok a | None => Throw out_of_range end.

(** ** Stages and paths *)

Definition stagingResourceFor (relay : EndpointId) : ResourceId := wrap64 (relay * 2 + 1).

(** The stage of one hop; [last] is the negation of [i + 1 < cand.hops.size()]. *)
Definition makeStage (req : CommunicationRequest) (link : Link) (h : Hop) (last : bool) (id : StageId) : Stage := {|
  Stage.id := id; Stage.generation := 1;
  Stage.source := h.(Hop.from); Stage.destination := h.(Hop.to); Stage.link := h.(Hop.link);
  Stage.transport := link.(Link.transport); Stage.payload := req.(Request.payloadSize);
  Stage.expectedBandwidth := if negb (link.(Link.effectiveBandwidth) =? 0)
                             then link.(Link.effectiveBandwidth) else link.(Link.capacity);
  Stage.expectedLatency := link.(Link.latency);
  Stage.stagingResource := if last then 0 else stagingResourceFor h.(Hop.to);
  Stage.requiresAuthority := true; Stage.provenance := link.(Link.provenance);
  Stage.description := Transport_toString link.(Link.transport) +:+ " " +:+
    Id_str h.(Hop.from) +:+ "->" +:+ Id_str h.(Hop.to) |}.

Fixpoint buildStages_loop (lmap : gmap Z Link) (req : CommunicationRequest) (hops : list Hop) : M (list Stage) :=
  match hops with
  | [] => mret []
  | h :: rest =>
      link ← lift (at_ lmap h.(Hop.link));
      id ← StageId_next;
      stages ← buildStages_loop lmap req rest;
      mret (makeStage req link h (bool_decide (rest = [])) id :: stages)
  end.

Definition buildStages (cand : CandidatePath) (snap : EvidenceSnapshot) (req : CommunicationRequest) : M (list Stage) :=
  buildStages_loop (linkMap snap) req cand.(CandidatePath.hops).

Definition makePath (id : PathId) (cand : CandidatePath) (snap : EvidenceSnapshot) (req : CommunicationRequest)
    (cost : CostSummary) : M Path :=
  stages ← buildStages cand snap req;
  mret {| Path.id := id; Path.generation := 1;
          Path.source := cand.(CandidatePath.source); Path.destination := cand.(CandidatePath.destination);
          Path.stages := stages; Path.totalPayload := req.(Request.payloadSize); Path.cost := cost;
          Path.provenance := worstProvenance cost; Path.failureDomain := ""; Path.reason := "" |}.

Definition provName (p : Provenance) : string := Provenance_toString p.

(** ** Reports and outcomes (planner/planner.hpp) *)

Module CandidateReport.
Record CandidateReport := {
  path : CandidatePath;
  feasibility : FeasibilityResult;
  cost : CostSummary;
  detail : string;
  provenance : Provenance;
}.
End CandidateReport.
Abbreviation CandidateReport := CandidateReport.CandidateReport.

Module PlanOutcome.
Record PlanOutcome := {
  success : bool;
  plan : option CommunicationPlan;
  candidates : list CandidateReport;
  rankedIndices : list nat;
  explanations : list string;
}.
End PlanOutcome.
Abbreviation PlanOutcome := PlanOutcome.PlanOutcome.

Section candidates.
Context (req : CommunicationRequest) (snap : EvidenceSnapshot) (weights : gmap CostFactor double) (bounds : Bounds).

(** The body of the loop over the candidates. *)
Definition reportOf (c : CandidatePath) : CandidateReport :=
  let f := evaluateCandidateFeasibility req snap c bounds in
  let cost := if feasible f then evaluateCandidateCost req snap c weights bounds else CostSummary_default in
  {| CandidateReport.path := c; CandidateReport.feasibility := f; CandidateReport.cost := cost;
     CandidateReport.detail := f.(FeasibilityResult.detail);
     CandidateReport.provenance := if feasible f then worstProvenance cost else Provenance.UNKNOWN |}.

(** The vectors [rankables] and [feasibleOrig] (or [foe]) it fills. *)
Definition feasible_report (rep : CandidateReport) : bool := feasible rep.(CandidateReport.feasibility).

Definition reportRankable (rep : CandidateReport) : Rankable := {|
  Rankable.path := rep.(CandidateReport.path); Rankable.feasibility := rep.(CandidateReport.feasibility);
  Rankable.cost := rep.(CandidateReport.cost) |}.

Definition rankablesOf (reports : list CandidateReport) : list Rankable :=
  reportRankable <$> filter feasible_report reports.

Definition feasibleOrig (reports : list CandidateReport) : list nat :=
  fst <$> filter (fun p : nat * CandidateReport => feasible_report p.2) (imap pair reports).
End candidates.

(** ** The generations a plan is bound to *)

Module Binding.
Record Binding := {
  endpoints : list (Z * Z);    (* std::set<std::pair<EndpointId, EndpointGeneration>> *)
  links : list (Z * Z);        (* std::set<std::pair<LinkId, LinkGeneration>> *)
}.
End Binding.
Abbreviation Binding := Binding.Binding.

(** The entries one hop (or stage) adds. *)
Definition link_entry (snap : EvidenceSnapshot) (link : LinkId) : list (Z * Z) :=
  match linkMap snap !! link with Some l => [(l.(Link.id), l.(Link.generation))] | None => [] end.
Definition endpoint_entry (snap : EvidenceSnapshot) (e : EndpointId) : list (Z * Z) :=
  match endpointMap snap !! e with Some e => [(e.(Endpoint.id), e.(Endpoint.generation))] | None => [] end.

Definition bind_hop (snap : EvidenceSnapshot) (b : Binding) (h : Hop) : Binding := {|
  Binding.links := set_insert_all pairLess b.(Binding.links) (link_entry snap h.(Hop.link));
  Binding.endpoints := set_insert_all pairLess b.(Binding.endpoints)
    (endpoint_entry snap h.(Hop.from) ++ endpoint_entry snap h.(Hop.to)) |}.

Definition emptyBinding : Binding := {| Binding.endpoints := []; Binding.links := [] |}.

Definition hop_of_stage (st : Stage) : Hop :=
  {| Hop.link := st.(Stage.link); Hop.from := st.(Stage.source); Hop.to := st.(Stage.destination) |}.

(** ** Running effectful code *)

(** The counters' type invariant: each is a [std::uint64_t]. *)
Definition counters_wf (cs : Counters) : Prop :=
  is_u64 cs.(Counters.stage) /\ is_u64 cs.(Counters.plan) /\ is_u64 cs.(Counters.planGeneration).

(** [m] returns [a] from [cs], leaving [cs']. *)
Definition returns {A} (m : M A) (cs : Counters) (a : A) (cs' : Counters) : Prop := m cs = (Ok a, cs').

Lemma returns_ret {A} (a : A) cs : returns (mret a) cs a cs.
Proof. done. Qed.

Lemma returns_bind {A B} (m : M A) (f : A -> M B) cs a cs' b cs'' :
  returns m cs a cs' -> returns (f a) cs' b cs'' -> returns (m ≫= f) cs b cs''.
Proof. unfold returns. intros H1 H2. unfold mbind, M_bind. by rewrite H1. Qed.

Lemma returns_bind_inv {A B} (m : M A) (f : A -> M B) cs b cs'' :
  returns (m ≫= f) cs b cs'' -> exists a cs', returns m cs a cs' /\ returns (f a) cs' b cs''.
Proof. unfold returns, mbind, M_bind. destruct (m cs) as [[a|e] cs']; naive_solver. Qed.

Lemma bind_ok {A B} (m : M A) (f : A -> M B) cs a cs' :
  m cs = (Ok a, cs') -> (m ≫= f) cs = f a cs'.
Proof. intros H. unfold mbind, M_bind. by rewrite H. Qed.

(** A loop that threads its own state beside the counters. *)
Fixpoint foldM {S X} (f : S -> X -> M S) (st : S) (l : list X) : M S :=
  match l with
  | [] => mret st
  | x :: l' => st' ← f st x; foldM f st' l'
  end.

(** Reading a vector at indices that are all in range. *)
Lemma mapM_index {A} (v : list A) ix xs cs :
  (fun i => v !! i) <$> ix = Some <$> xs -> mapM (fun i => lift (index v i)) ix cs = (Ok xs, cs).
Proof.
  revert xs; induction ix as [|i ix IH]; intros [|x xs] E; simplify_eq/=; [done|].
  assert (Hi : lift (index v i) cs = (Ok x, cs)) by (unfold lift, index; by rewrite H).
  rewrite (bind_ok _ _ _ _ _ Hi), (bind_ok _ _ _ _ _ (IH _ H0)). done.
Qed.

(** ** Stages *)

(** [stages] carry the request's payload along [hops]: one stage per hop, over the
    hop's link, with a staging resource at every interior relay and none at the end. *)
Fixpoint stages_for (snap : EvidenceSnapshot) (req : CommunicationRequest) (hops : list Hop) (stages : list Stage) : Prop :=
  match hops, stages with
  | [], [] => True
  | h :: hops', st :: stages' =>
      (exists link id, linkMap snap !! h.(Hop.link) = Some link /\
                       st = makeStage req link h (bool_decide (hops' = [])) id) /\
      stages_for snap req hops' stages'
  | _, _ => False
  end.

Definition known_links (snap : EvidenceSnapshot) (hops : list Hop) : Prop :=
  Forall (fun h => is_Some (linkMap snap !! h.(Hop.link))) hops.

(** The counters after [n] stages were numbered. *)
Definition after_stages (cs : Counters) (n : nat) : Counters := {|
  Counters.stage := wrap64 (cs.(Counters.stage) + Z.of_nat n);
  Counters.plan := cs.(Counters.plan); Counters.planGeneration := cs.(Counters.planGeneration) |}.

Lemma wrap64_add a b : wrap64 (wrap64 a + b) = wrap64 (a + b).
Proof. unfold wrap64. by rewrite Zplus_mod_idemp_l. Qed.

Lemma after_stages_add cs n m : after_stages (after_stages cs n) m = after_stages cs (n + m).
Proof. unfold after_stages. simpl. f_equal. rewrite wrap64_add. f_equal. lia. Qed.

Lemma after_stages_0 cs : counters_wf cs -> after_stages cs 0 = cs.
Proof. intros (H & _ & _). destruct cs; unfold after_stages; simpl in *. f_equal. rewrite Z.add_0_r. by apply wrap64_small. Qed.

Lemma after_stages_wf cs n : counters_wf cs -> counters_wf (after_stages cs n).
Proof. intros (_ & ? & ?). split_and!; simpl; auto with planner. Qed.

#[export] Hint Resolve after_stages_wf : planner.

Lemma buildStages_returns snap req cand cs :
  counters_wf cs -> known_links snap cand.(CandidatePath.hops) ->
  exists stages, returns (buildStages cand snap req) cs stages (after_stages cs (length cand.(CandidatePath.hops))) /\
    stages_for snap req cand.(CandidatePath.hops) stages /\
    Stage.id <$> stages = (fun i : nat => wrap64 (cs.(Counters.stage) + Z.of_nat i)) <$> seq 0 (length cand.(CandidatePath.hops)).
Proof.
  unfold buildStages. generalize cand.(CandidatePath.hops) as hops. intros hops Hwf Hk. revert cs Hwf.
  induction Hk as [|h hops [l Hl] Hk IH]; intros cs Hwf.
  { exists []. rewrite after_stages_0 by done. done. }
  destruct (IH (after_stages cs 1)) as (stages & Hr & Hs & Hi); [auto with planner|].
  exists (makeStage req l h (bool_decide (hops = [])) cs.(Counters.stage) :: stages). split_and!.
  - simpl. eapply returns_bind; [unfold returns, lift, at_; by rewrite Hl|].
    eapply returns_bind; [done|].
    change {| Counters.stage := wrap64 (Counters.stage cs + 1); Counters.plan := _; Counters.planGeneration := _ |}
      with (after_stages cs 1).
    eapply returns_bind; [exact Hr|]. by rewrite after_stages_add.
  - simpl. eauto.
  - csimpl. rewrite Hi. f_equal.
    + rewrite Z.add_0_r. symmetry. by apply wrap64_small, Hwf.
    + rewrite <- fmap_S_seq, <- list_fmap_compose. apply list_fmap_ext. intros _ i _. simpl.
      rewrite wrap64_add. f_equal. lia.
Qed.

(** ** Paths *)

(** [p] is the path of identity [id] built from a costed candidate. *)
Record path_for (snap : EvidenceSnapshot) (req : CommunicationRequest) (id : PathId) (cand : CandidatePath)
    (cost : CostSummary) (p : Path) : Prop := {
  pf_id : p.(Path.id) = id;
  pf_source : p.(Path.source) = cand.(CandidatePath.source);
  pf_destination : p.(Path.destination) = cand.(CandidatePath.destination);
  pf_stages : stages_for snap req cand.(CandidatePath.hops) p.(Path.stages);
  pf_payload : p.(Path.totalPayload) = req.(Request.payloadSize);
  pf_cost : p.(Path.cost) = cost;
  pf_provenance : p.(Path.provenance) = worstProvenance cost;
}.

Lemma makePath_returns snap req id cand cost cs :
  counters_wf cs -> known_links snap cand.(CandidatePath.hops) ->
  exists p, returns (makePath id cand snap req cost) cs p (after_stages cs (length cand.(CandidatePath.hops))) /\
    path_for snap req id cand cost p.
Proof.
  intros Hwf Hk. destruct (buildStages_returns snap req cand cs Hwf Hk) as (stages & Hr & Hs & _).
  eexists. split; [eapply returns_bind; [exact Hr|apply returns_ret]|]. by split.
Qed.

Lemma feasible_known_links req snap cand bounds :
  feasible (evaluateCandidateFeasibility req snap cand bounds) = true ->
  known_links snap cand.(CandidatePath.hops).
Proof.
  intros [_ _ _ _ _ Hl _]%evaluateCandidateFeasibility_iff. eapply Forall_impl; [exact Hl|].
  intros h (l & _ & _ & ? & _). eauto.
Qed.

(** The paths of a list of reports, numbered from [k], built one after the other. *)
Fixpoint makePaths (snap : EvidenceSnapshot) (req : CommunicationRequest) (k : Z) (reps : list CandidateReport) : M (list Path) :=
  match reps with
  | [] => mret []
  | rep :: reps' =>
      p ← makePath k rep.(CandidateReport.path) snap req rep.(CandidateReport.cost);
      ps ← makePaths snap req (k + 1) reps';
      mret (p :: ps)
  end.

Fixpoint paths_for (snap : EvidenceSnapshot) (req : CommunicationRequest) (k : Z) (reps : list CandidateReport)
    (paths : list Path) : Prop :=
  match reps, paths with
  | [], [] => True
  | rep :: reps', p :: paths' =>
      path_for snap req k rep.(CandidateReport.path) rep.(CandidateReport.cost) p /\
      paths_for snap req (k + 1) reps' paths'
  | _, _ => False
  end.

Definition report_hops (rep : CandidateReport) : list Hop := rep.(CandidateReport.path).(CandidatePath.hops).

Lemma makePaths_returns snap req k reps cs :
  counters_wf cs -> Forall (fun rep => known_links snap (report_hops rep)) reps ->
  exists paths, returns (makePaths snap req k reps) cs paths
      (after_stages cs (length (concat (report_hops <$> reps)))) /\
    paths_for snap req k reps paths.
Proof.
  intros Hwf Hk. revert k cs Hwf. induction Hk as [|rep reps Hr Hk IH]; intros k cs Hwf.
  { exists []. csimpl. by rewrite after_stages_0. }
  destruct (makePath_returns snap req k (CandidateReport.path rep) (CandidateReport.cost rep) cs Hwf Hr) as (p & Hp & Hpf).
  destruct (IH (k + 1) (after_stages cs (length (report_hops rep)))) as (ps & Hps & Hpsf); [auto with planner|].
  exists (p :: ps). split; [|done]. csimpl. rewrite length_app, <- after_stages_add.
  eapply returns_bind; [exact Hp|]. eapply returns_bind; [exact Hps|]. apply returns_ret.
Qed.

Lemma paths_for_lookup snap req k reps paths i p :
  paths_for snap req k reps paths -> paths !! i = Some p ->
  exists rep, reps !! i = Some rep /\
    path_for snap req (k + Z.of_nat i) rep.(CandidateReport.path) rep.(CandidateReport.cost) p.
Proof.
  revert k paths i; induction reps as [|rep reps IH]; intros k [|q paths] [|i] H E; simplify_eq/=; try done.
  - exists rep. rewrite Z.add_0_r. by destruct H.
  - destruct H as [_ H]. destruct (IH _ _ _ H E) as (r & ? & ?). exists r. split; [done|].
    by replace (k + Z.of_nat (S i)) with (k + 1 + Z.of_nat i) by lia.
Qed.

Lemma paths_for_length snap req k reps paths : paths_for snap req k reps paths -> length paths = length reps.
Proof.
  revert k paths; induction reps as [|rep reps IH]; intros k [|p paths]; simpl; try done.
  intros [_ ?]. f_equal. eauto.
Qed.

Lemma paths_for_ids snap req k reps paths :
  paths_for snap req k reps paths -> Path.id <$> paths = seqZ k (Z.of_nat (length reps)).
Proof.
  revert k paths; induction reps as [|rep reps IH]; intros k [|p paths]; simpl; try done.
  intros [[] ?]. rewrite seqZ_cons by lia. csimpl. f_equal; [done|].
  replace (Z.pred (Z.of_nat (S (length reps)))) with (Z.of_nat (length reps)) by lia. rewrite <- Z.add_1_r. eauto.
Qed.

(** Building the paths through a loop over positions. *)
Lemma mapM_makePaths snap req (body : nat -> M (CandidatePath * Path)) reps n cs paths cs' :
  (forall k rep, reps !! k = Some rep -> forall cs,
    body (n + k)%nat cs =
      (p ← makePath (Z.of_nat (n + k) + 1) rep.(CandidateReport.path) snap req rep.(CandidateReport.cost);
       mret (rep.(CandidateReport.path), p)) cs) ->
  returns (makePaths snap req (Z.of_nat n + 1) reps) cs paths cs' ->
  returns (mapM body (seq n (length reps))) cs (zip (CandidateReport.path <$> reps) paths) cs'.
Proof.
  revert n cs paths; induction reps as [|rep reps IH]; intros n cs paths Hb Hr.
  { injection Hr as <- <-. apply returns_ret. }
  simpl in Hr. apply returns_bind_inv in Hr as (p & cs1 & Hp & Hr).
  apply returns_bind_inv in Hr as (ps & cs2 & Hps & Hr). injection Hr as <- <-.
  simpl. eapply returns_bind; [unfold returns; rewrite <- (Nat.add_0_r n) at 1; rewrite (Hb 0%nat rep eq_refl);
    rewrite Nat.add_0_r; eapply returns_bind; [exact Hp|apply returns_ret]|].
  eapply returns_bind; [|apply returns_ret]. apply IH.
  - intros k rep' Hk cs3. specialize (Hb (S k) rep' Hk cs3). by replace (S n + k)%nat with (n + S k)%nat by lia.
  - by replace (Z.of_nat (S n) + 1) with (Z.of_nat n + 1 + 1) by lia.
Qed.

(** ** Ranking the reports *)

Section ranked.
Context {A : Type} (f : A -> Rankable).

(** Ranking values that are all feasible is a stable sort of them. *)
Lemma rank_indices (items : list A) :
  Forall (fun x => feasible (f x).(Rankable.feasibility) = true) items ->
  (fun i => items !! i) <$> rankFeasible (f <$> items) =
  Some <$> stable_sort (fun a b => rankLess (f a) (f b)) items.
Proof.
  intros Hf. rewrite rankFeasible_items. unfold feasible_items.
  rewrite filter_all.
  - assert (E : imap pair (f <$> items) = (fun p : nat * A => (p.1, f p.2)) <$> imap pair items)
      by (rewrite imap_fmap, fmap_imap; done).
    rewrite E, stable_sort_map, <- list_fmap_compose.
    transitivity (Some <$> stable_sort (fun a b => rankLess (f a) (f b)) (imap pair items).*2); [|by rewrite imap_snd].
    rewrite stable_sort_map, <- !list_fmap_compose. apply list_fmap_ext. intros k [i x] Hk.
    apply list_elem_of_lookup_2 in Hk. rewrite elem_of_stable_sort, elem_of_lookup_imap in Hk.
    naive_solver.
  - apply Forall_forall. intros [j r] (j' & r' & E & Hj)%elem_of_lookup_imap. unfold feasible_rankable.
    simplify_eq/=. rewrite list_lookup_fmap in Hj.
    destruct (items !! j') as [x|] eqn:Ex; simplify_eq/=. rewrite Forall_lookup in Hf. by rewrite (Hf _ _ Ex).
Qed.
End ranked.

Definition reportLess (a b : CandidateReport) : bool := rankLess (reportRankable a) (reportRankable b).

(** The feasible reports with their positions, best first. *)
Definition ranked_items (reports : list CandidateReport) : list (nat * CandidateReport) :=
  stable_sort (fun a b => reportLess a.2 b.2)
    (filter (fun p : nat * CandidateReport => feasible_report p.2) (imap pair reports)).

Lemma reportRankable_feasible reports :
  Forall (fun p : nat * CandidateReport => feasible (reportRankable p.2).(Rankable.feasibility) = true)
    (filter (fun p : nat * CandidateReport => feasible_report p.2) (imap pair reports)).
Proof. apply Forall_forall. intros [i rep] [H _]%list_elem_of_filter. by apply Is_true_true in H. Qed.

Lemma rankablesOf_items reports :
  rankablesOf reports = (fun p : nat * CandidateReport => reportRankable p.2) <$>
    filter (fun p : nat * CandidateReport => feasible_report p.2) (imap pair reports).
Proof.
  unfold rankablesOf. rewrite <- filter_imap_snd. by rewrite <- list_fmap_compose.
Qed.

(** What the planners read through the two index vectors: the ranked reports. *)
Lemma ranked_reads reports :
  (fun i => rankablesOf reports !! i) <$> rankFeasible (rankablesOf reports) =
    Some <$> ((fun p : nat * CandidateReport => reportRankable p.2) <$> ranked_items reports) /\
  (fun i => feasibleOrig reports !! i) <$> rankFeasible (rankablesOf reports) =
    Some <$> (ranked_items reports).*1.
Proof.
  rewrite rankablesOf_items. unfold feasibleOrig.
  pose proof (rank_indices _ _ (reportRankable_feasible reports)) as E.
  change (stable_sort _ _) with (ranked_items reports) in E. set (items := filter _ (imap pair reports)) in *.
  split; rewrite <- list_fmap_compose.
  - transitivity (fmap (M:=option) (fun p : nat * CandidateReport => reportRankable p.2) <$> (Some <$> ranked_items reports)).
    + rewrite <- E, <- list_fmap_compose. apply list_fmap_ext. intros _ i _. apply list_lookup_fmap.
    + by rewrite <- list_fmap_compose.
  - transitivity (fmap (M:=option) fst <$> (Some <$> ranked_items reports)).
    + rewrite <- E, <- list_fmap_compose. apply list_fmap_ext. intros _ i _. apply list_lookup_fmap.
    + by rewrite <- list_fmap_compose.
Qed.

(** The front of the ranking, as the fan-out planners read it. *)
Lemma ranked_front reports :
  match rankFeasible (rankablesOf reports), ranked_items reports with
  | [], [] => True
  | o :: _, (j, rep) :: _ =>
      feasibleOrig reports !! o = Some j /\ rankablesOf reports !! o = Some (reportRankable rep)
  | _, _ => False
  end.
Proof.
  destruct (ranked_reads reports) as [E1 E2].
  destruct (rankFeasible _) as [|o order], (ranked_items reports) as [|[j rep] items]; simplify_eq/=; auto.
Qed.

Lemma elem_of_ranked_items reports i rep :
  (i, rep) ∈ ranked_items reports <-> reports !! i = Some rep /\ feasible_report rep = true.
Proof.
  unfold ranked_items. rewrite elem_of_stable_sort, list_elem_of_filter, elem_of_lookup_imap. simpl.
  rewrite Is_true_true. naive_solver.
Qed.

(** The ranked reports themselves. *)
Definition ranked_reports (reports : list CandidateReport) : list CandidateReport := (ranked_items reports).*2.

Lemma elem_of_ranked_reports reports rep :
  rep ∈ ranked_reports reports <-> rep ∈ reports /\ feasible_report rep = true.
Proof.
  unfold ranked_reports. rewrite list_elem_of_fmap, list_elem_of_lookup. split.
  - intros ([i r] & -> & ?%elem_of_ranked_items). naive_solver.
  - intros [[i Hi] Hf]. exists (i, rep). split; [done|]. by apply elem_of_ranked_items.
Qed.

Lemma ranked_reports_sort reports : ranked_reports reports = stable_sort reportLess (filter feasible_report reports).
Proof.
  unfold ranked_reports, ranked_items. rewrite <- (stable_sort_map snd reportLess). by rewrite filter_imap_snd.
Qed.

Section reports.
Context (req : CommunicationRequest) (snap : EvidenceSnapshot) (weights : gmap CostFactor double) (bounds : Bounds).

Definition reports_of (cands : list CandidatePath) : list CandidateReport := reportOf req snap weights bounds <$> cands.

Lemma reportOf_feasible c : feasible_report (reportOf req snap weights bounds c) = true <-> feasible_path req snap c bounds.
Proof. apply evaluateCandidateFeasibility_iff. Qed.

Lemma reportOf_numeric c : numeric_cost (reportOf req snap weights bounds c).(CandidateReport.cost).
Proof. simpl. case_match; [apply evaluateCandidateCost_numeric|apply Forall_nil_2]. Qed.

(** The feasible reports of the candidates of one pair of endpoints. *)
Lemma elem_of_ranked_reports_of cands rep :
  rep ∈ ranked_reports (reports_of cands) <->
  exists c, c ∈ cands /\ feasible_path req snap c bounds /\ rep = reportOf req snap weights bounds c.
Proof.
  rewrite elem_of_ranked_reports. unfold reports_of. rewrite list_elem_of_fmap. split.
  - intros [(c & -> & Hc) Hf%reportOf_feasible]. eauto.
  - intros (c & Hc & Hf & ->). split; [eauto|]. by apply reportOf_feasible.
Qed.

Lemma ranked_reports_known cands :
  Forall (fun rep => known_links snap (report_hops rep)) (ranked_reports (reports_of cands)).
Proof.
  apply Forall_forall. intros rep (c & _ & Hf & ->)%elem_of_ranked_reports_of.
  by eapply feasible_known_links, evaluateCandidateFeasibility_iff.
Qed.

(** Best first. *)
Lemma ranked_reports_sorted cands :
  StronglySorted (fun a b => reportLess b a = false) (ranked_reports (reports_of cands)).
Proof.
  rewrite ranked_reports_sort. apply (stable_sort_sorted _ (fun r => numeric_cost r.(CandidateReport.cost))).
  - by apply (strict_weak_map _ (fun r => numeric_cost r.(Rankable.cost))); [apply rankLess_strict_weak|].
  - apply Forall_forall. intros r [_ Hr]%list_elem_of_filter. unfold reports_of in Hr.
    apply list_elem_of_fmap in Hr as (c & -> & _). apply reportOf_numeric.
Qed.

Lemma ranked_reports_nil cands :
  ranked_reports (reports_of cands) = [] <-> forall c, c ∈ cands -> ~ feasible_path req snap c bounds.
Proof.
  split.
  - intros E c Hc Hf. apply (not_elem_of_nil (reportOf req snap weights bounds c)). rewrite <- E.
    apply elem_of_ranked_reports_of. eauto.
  - intros H. destruct (ranked_reports _) as [|rep l] eqn:E; [done|]. exfalso.
    assert (Hr : rep ∈ ranked_reports (reports_of cands)) by (rewrite E; left).
    apply elem_of_ranked_reports_of in Hr as (c & ? & ? & _). naive_solver.
Qed.
End reports.

(** ** Bound generations *)

Definition bind_hops (snap : EvidenceSnapshot) (hops : list Hop) : Binding := foldl (bind_hop snap) emptyBinding hops.

(** The endpoint [x.1] lies on one of the hops and its current generation is [x.2]. *)
Definition bound_endpoint (snap : EvidenceSnapshot) (hops : list Hop) (x : Z * Z) : Prop :=
  exists h e, h ∈ hops /\ (endpointMap snap !! h.(Hop.from) = Some e \/ endpointMap snap !! h.(Hop.to) = Some e) /\
    x = (e.(Endpoint.id), e.(Endpoint.generation)).
Definition bound_link (snap : EvidenceSnapshot) (hops : list Hop) (x : Z * Z) : Prop :=
  exists h l, h ∈ hops /\ linkMap snap !! h.(Hop.link) = Some l /\ x = (l.(Link.id), l.(Link.generation)).

Lemma elem_of_endpoint_entry snap id x :
  x ∈ endpoint_entry snap id <-> exists e, endpointMap snap !! id = Some e /\ x = (e.(Endpoint.id), e.(Endpoint.generation)).
Proof. unfold endpoint_entry. destruct (endpointMap snap !! id); set_solver. Qed.

Lemma elem_of_link_entry snap id x :
  x ∈ link_entry snap id <-> exists l, linkMap snap !! id = Some l /\ x = (l.(Link.id), l.(Link.generation)).
Proof. unfold link_entry. destruct (linkMap snap !! id); set_solver. Qed.

Lemma bound_endpoint_snoc snap hops h x :
  bound_endpoint snap hops x \/
    ((exists e, endpointMap snap !! h.(Hop.from) = Some e /\ x = (e.(Endpoint.id), e.(Endpoint.generation))) \/
     (exists e, endpointMap snap !! h.(Hop.to) = Some e /\ x = (e.(Endpoint.id), e.(Endpoint.generation)))) <->
  bound_endpoint snap (hops ++ [h]) x.
Proof.
  unfold bound_endpoint. split.
  - intros [(h' & e & Hh & He & ->)|[(e & He & ->)|(e & He & ->)]].
    + exists h', e. set_solver.
    + exists h, e. set_solver.
    + exists h, e. set_solver.
  - intros (h' & e & [Hh| ->%list_elem_of_singleton]%elem_of_app & He & ->); [left; eauto|right]. naive_solver.
Qed.

Lemma bound_link_snoc snap hops h x :
  bound_link snap hops x \/ (exists l, linkMap snap !! h.(Hop.link) = Some l /\ x = (l.(Link.id), l.(Link.generation))) <->
  bound_link snap (hops ++ [h]) x.
Proof.
  unfold bound_link. split.
  - intros [(h' & l & Hh & Hl & ->)|(l & Hl & ->)]; [exists h', l|exists h, l]; set_solver.
  - intros (h' & l & [Hh| ->%list_elem_of_singleton]%elem_of_app & Hl & ->); [left|right]; eauto.
Qed.

Lemma bind_hops_correct snap hops :
  (forall x, x ∈ (bind_hops snap hops).(Binding.endpoints) <-> bound_endpoint snap hops x) /\
  (forall x, x ∈ (bind_hops snap hops).(Binding.links) <-> bound_link snap hops x) /\
  StronglySorted (fun a b => pairLess a b = true) (bind_hops snap hops).(Binding.endpoints) /\
  StronglySorted (fun a b => pairLess a b = true) (bind_hops snap hops).(Binding.links).
Proof.
  unfold bind_hops. induction hops as [|h hops IH] using rev_ind.
  { split_and!; [| |constructor|constructor]; intros x; (split; [by intros ?%elem_of_nil|]);
      intros (? & ? & ?%elem_of_nil & _); done. }
  rewrite foldl_app. simpl. destruct IH as (He & Hl & Hse & Hsl). split_and!.
  - intros x. rewrite (elem_of_set_insert_all _ pairLess_total), He, elem_of_app, !elem_of_endpoint_entry.
    apply bound_endpoint_snoc.
  - intros x. rewrite (elem_of_set_insert_all _ pairLess_total), Hl, elem_of_link_entry.
    apply bound_link_snoc.
  - by apply set_insert_all_sorted; [apply pairLess_total|].
  - by apply set_insert_all_sorted; [apply pairLess_total|].
Qed.

(** The stages of a path lie on its hops. *)
Lemma stages_for_hops snap req hops stages : stages_for snap req hops stages -> hop_of_stage <$> stages = hops.
Proof.
  revert stages; induction hops as [|h hops IH]; intros [|st stages]; simpl; try done.
  intros [(link & id & _ & ->) Hs]. csimpl. f_equal; [by destruct h|auto].
Qed.

(** The resources the stages of a path are staged on. *)
Definition staging_resources (hops : list Hop) : list ResourceId :=
  (fun h => stagingResourceFor h.(Hop.to)) <$> relay_hops hops.

Lemma stagingResourceFor_odd e : stagingResourceFor e <> 0.
Proof.
  unfold stagingResourceFor, wrap64. intros H. apply Z.mod_divide in H as [k Hk]; [|lia].
  replace (k * 2 ^ 64) with (2 * (k * 2 ^ 63)) in Hk by lia. lia.
Qed.

Lemma stages_for_staging snap req hops stages :
  stages_for snap req hops stages ->
  filter (fun r => r <> 0) (Stage.stagingResource <$> stages) = staging_resources hops.
Proof.
  unfold staging_resources, relay_hops.
  revert stages; induction hops as [|h hops IH]; intros [|st stages]; simpl; try done.
  intros [(link & id & _ & ->) Hs]. csimpl. rewrite filter_cons, (IH _ Hs). simpl.
  destruct hops as [|h' hops]; [done|]. rewrite bool_decide_eq_false_2 by done.
  rewrite decide_True by apply stagingResourceFor_odd. simpl. by rewrite Nat.sub_0_r.
Qed.

(** The best feasible candidate from [src] to [dst], if there is one. *)
Definition best_report (req : CommunicationRequest) (snap : EvidenceSnapshot) (weights : gmap CostFactor double)
    (bounds : Bounds) (src dst : EndpointId) : option CandidateReport :=
  head (ranked_reports (reports_of req snap weights bounds (enumerateCandidatePaths snap src dst bounds))).

(** [rep] reports a feasible path that no other enumerated feasible path beats. *)
Record best_path (req : CommunicationRequest) (snap : EvidenceSnapshot) (weights : gmap CostFactor double)
    (bounds : Bounds) (src dst : EndpointId) (rep : CandidateReport) : Prop := {
  bp_enumerated : rep.(CandidateReport.path) ∈ enumerateCandidatePaths snap src dst bounds;
  bp_feasible : feasible_path req snap rep.(CandidateReport.path) bounds;
  bp_report : rep = reportOf req snap weights bounds rep.(CandidateReport.path);
  bp_best : forall c, c ∈ enumerateCandidatePaths snap src dst bounds -> feasible_path req snap c bounds ->
    reportLess (reportOf req snap weights bounds c) rep = false;
}.

Lemma best_report_Some req snap weights bounds src dst rep :
  best_report req snap weights bounds src dst = Some rep -> best_path req snap weights bounds src dst rep.
Proof.
  unfold best_report. set (cands := enumerateCandidatePaths snap src dst bounds).
  pose proof (ranked_reports_sorted req snap weights bounds cands) as Hs.
  destruct (ranked_reports _) as [|r l] eqn:E; [done|]. intros [= ->].
  assert (Hin : rep ∈ ranked_reports (reports_of req snap weights bounds cands)) by (rewrite E; left).
  apply elem_of_ranked_reports_of in Hin as (c & Hc & Hf & ->). split; [done|done|done|].
  intros c' Hc' Hf'.
  assert (Hin : reportOf req snap weights bounds c' ∈ ranked_reports (reports_of req snap weights bounds cands))
    by (apply elem_of_ranked_reports_of; eauto).
  rewrite E in Hin. apply elem_of_cons in Hin as [->|Hin].
  - apply (strict_weak_irrefl (fun r => numeric_cost r.(Rankable.cost))); [apply rankLess_strict_weak|apply reportOf_numeric].
  - inversion_clear Hs as [|? ? _ Hall]. rewrite Forall_forall in Hall. by apply Hall.
Qed.

Lemma best_report_None req snap weights bounds src dst :
  best_report req snap weights bounds src dst = None <->
  forall c, c ∈ enumerateCandidatePaths snap src dst bounds -> ~ feasible_path req snap c bounds.
Proof.
  unfold best_report. rewrite <- (ranked_reports_nil _ _ weights). destruct (ranked_reports _); naive_solver.
Qed.

Lemma best_report_known req snap weights bounds src dst rep :
  best_report req snap weights bounds src dst = Some rep -> known_links snap (report_hops rep).
Proof. intros [_ Hf _ _]%best_report_Some. by eapply feasible_known_links, evaluateCandidateFeasibility_iff. Qed.

Lemma paths_for_app snap req k reps1 reps2 ps1 ps2 :
  paths_for snap req k reps1 ps1 -> paths_for snap req (k + Z.of_nat (length ps1)) reps2 ps2 ->
  paths_for snap req k (reps1 ++ reps2) (ps1 ++ ps2).
Proof.
  revert k ps1; induction reps1 as [|r reps1 IH]; intros k [|p ps1]; simpl; try done.
  - by rewrite Z.add_0_r.
  - intros [? ?] ?. split; [done|]. apply IH; [done|].
    by replace (k + 1 + Z.of_nat (length ps1)) with (k + Z.of_nat (S (length ps1))) by lia.
Qed.

(** The front of the ranking of the candidates of one pair of endpoints. *)
Lemma best_report_reads req snap weights bounds src dst :
  let cands := enumerateCandidatePaths snap src dst bounds in
  let reports := reports_of req snap weights bounds cands in
  match rankFeasible (rankablesOf reports), best_report req snap weights bounds src dst with
  | [], None => True
  | o :: _, Some rep => exists j, feasibleOrig reports !! o = Some j /\ reports !! j = Some rep /\
      cands !! j = Some rep.(CandidateReport.path) /\ rankablesOf reports !! o = Some (reportRankable rep)
  | _, _ => False
  end.
Proof.
  intros cands reports. unfold best_report, ranked_reports. fold cands. fold reports.
  pose proof (ranked_front reports) as Hf. pose proof (elem_of_ranked_items reports) as Hi.
  destruct (rankFeasible _) as [|o order], (ranked_items reports) as [|[j rep] items]; try done.
  destruct Hf as [Hf1 Hf2]. destruct (Hi j rep) as [Hi' _]. destruct Hi' as [Hj _]; [left|].
  exists j. split_and!; [done|done| |done].
  unfold reports, reports_of in Hj. rewrite list_lookup_fmap in Hj.
  destruct (cands !! j) as [c|]; by simplify_eq/=.
Qed.
