(* ===== verification/PointToPoint.v ===== *)
(** * Point-to-point and staged plans

    Models the body of [planCommunication] in src/planner.cpp for the shapes it plans
    itself: enumerate, filter, cost and rank the candidate paths of one destination,
    then assemble the best of them and its fallbacks into a plan. *)

From S2P Require Import Prelude Core Enums Double Model Scenario Feasibility Ranking Cost Enumerate Assembly.

(** The plan of the retained candidates [orderedCands] and the paths built from
    them, best first; [nCands] is [cands.size()]. *)
Definition pointToPointPlan (request : CommunicationRequest) (snapshot : EvidenceSnapshot)
    (id : CommunicationPlanId) (generation : CommunicationPlanGeneration)
    (orderedCands : list CandidatePath) (paths : list Path) (nCands : nat) : CommunicationPlan :=
  let total := length orderedCands in
  let primaryStages := match paths with p :: _ => p.(Path.stages) | [] => [] end in
  let cost := match paths with p :: _ => p.(Path.cost) | [] => CostSummary_default end in
  let binding := foldl (bind_hop snapshot) emptyBinding (concat (CandidatePath.hops <$> orderedCands)) in
  let claims := match orderedCands with
                | c :: _ => set_insert_all Z.ltb [] (staging_resources c.(CandidatePath.hops))
                | [] => []
                end in
  let provenance := if totalValid cost then provName (worstProvenance cost) else "UNKNOWN" in
  {| Plan.id := id; Plan.generation := generation;
     Plan.requestId := request.(Request.id); Plan.requestGeneration := request.(Request.generation);
     Plan.shape := RequestShape.POINT_TO_POINT;
     Plan.primaryPath := match paths with p :: _ => p.(Path.id) | [] => 0 end;
     Plan.fallbackPaths := Path.id <$> tail paths;
     Plan.candidatePaths := paths; Plan.orderedStages := primaryStages;
     Plan.feasibility := Feasibility.FEASIBLE;
     Plan.topologyGeneration := snapshot.(Snapshot.topologyGeneration);
     Plan.capacityGeneration := snapshot.(Snapshot.capacityGeneration);
     Plan.reservationGeneration := snapshot.(Snapshot.reservationGeneration);
     Plan.congestionGeneration := snapshot.(Snapshot.congestionGeneration);
     Plan.capabilityGeneration := snapshot.(Snapshot.capabilityGeneration);
     Plan.healthGeneration := snapshot.(Snapshot.healthGeneration);
     Plan.placementGeneration := snapshot.(Snapshot.placementGeneration);
     Plan.authorityGeneration := snapshot.(Snapshot.authorityGeneration);
     Plan.endpointGenerations := binding.(Binding.endpoints);
     Plan.linkGenerations := binding.(Binding.links);
     Plan.requiredStagingResources := claims; Plan.requiredResourceClaims := claims;
     Plan.cost := cost;
     Plan.explanations := [
       "Selected the feasible path with the lowest expected cost.";
       "Primary path stages: " +:+ Id_str (Z.of_nat (length primaryStages));
       "Feasible candidate paths retained: " +:+ Id_str (Z.of_nat total);
       "Total candidates rejected by hard filters: " +:+ Id_str (wrap64 (Z.of_nat nCands - Z.of_nat total));
       "Cost provenance: " +:+ provenance];
     Plan.provenance := provenance; Plan.revalidationGeneration := 1;
     Plan.revalidateBeforeExecute := true;
     Plan.handoffRequirement := "revalidate all bound generations before execution handoff";
     Plan.createdProvenance := ""; Plan.multicastDestinations := [];
     Plan.collectiveShape := CollectiveShape.UNKNOWN; Plan.collectiveParticipants := [];
     Plan.description := "" |}.

(** [request.destinations.at(0)]. *)
Definition firstDestination (request : CommunicationRequest) : result EndpointId :=
  match request.(Request.destinations) with d :: _ => Ok d | [] => Throw out_of_range end.

Definition planPointToPoint (request : CommunicationRequest) (snapshot : EvidenceSnapshot)
    (weights : gmap CostFactor double) (bounds : Bounds) : M PlanOutcome :=
  dst ← lift (firstDestination request);
  let cands := enumerateCandidatePaths snapshot request.(Request.source) dst bounds in
  let reports := reportOf request snapshot weights bounds <$> cands in
  let rankables := rankablesOf reports in
  let rankOrder := rankFeasible rankables in
  orderOrig ← mapM (fun idx => lift (index (feasibleOrig reports) idx)) rankOrder;
  if bool_decide (orderOrig = []) then
    mret {| PlanOutcome.success := false; PlanOutcome.plan := None; PlanOutcome.candidates := reports;
            PlanOutcome.rankedIndices := orderOrig;
            PlanOutcome.explanations := ["No feasible path meets all hard constraints."] |}
  else
    let nFallback := Nat.min (Z.to_nat bounds.(Bounds.maxFallbacks)) (length orderOrig - 1) in
    let total := (1 + nFallback)%nat in
    id ← CommunicationPlanId_next;
    generation ← nextPlanGeneration;
    built ← mapM (fun k =>
        orig ← lift (index orderOrig k);
        cand ← lift (index cands orig);
        rank ← lift (index rankOrder k);
        rankable ← lift (index rankables rank);
        path ← makePath (Z.of_nat k + 1) cand snapshot request rankable.(Rankable.cost);
        mret (cand, path)) (seq 0 total);
    mret {| PlanOutcome.success := true;
            PlanOutcome.plan := Some (pointToPointPlan request snapshot id generation built.*1 built.*2 (length cands));
            PlanOutcome.candidates := reports; PlanOutcome.rankedIndices := orderOrig;
            PlanOutcome.explanations := [] |}.

(** ** What planning computes *)

Section plan.
Context (request : CommunicationRequest) (snapshot : EvidenceSnapshot).
Context (weights : gmap CostFactor double) (bounds : Bounds) (dst : EndpointId).

Let cands := enumerateCandidatePaths snapshot request.(Request.source) dst bounds.
Let reports := reports_of request snapshot weights bounds cands.

(** The primary and its fallbacks: the best [1 + maxFallbacks] feasible candidates. *)
Definition retained : list CandidateReport :=
  take (1 + Z.to_nat bounds.(Bounds.maxFallbacks)) (ranked_reports reports).

Lemma retained_eq :
  ranked_items reports <> [] ->
  retained = (take (1 + Nat.min (Z.to_nat bounds.(Bounds.maxFallbacks)) (length (ranked_items reports).*1 - 1)) (ranked_items reports)).*2.
Proof.
  intros Hne. unfold retained, ranked_reports. rewrite fmap_take, length_fmap.
  assert (length (ranked_items reports) <> 0%nat) by (by intros ?%nil_length_inv).
  destruct (Nat.le_gt_cases (Z.to_nat (Bounds.maxFallbacks bounds)) (length (ranked_items reports) - 1)).
  - by rewrite Nat.min_l.
  - rewrite Nat.min_r by lia. rewrite !take_ge; rewrite ?length_fmap; lia || done.
Qed.

Lemma head_retained : head retained = best_report request snapshot weights bounds request.(Request.source) dst.
Proof. unfold retained, best_report. fold cands. fold reports. by destruct (ranked_reports reports). Qed.

Lemma retained_nil : retained = [] <-> ranked_reports reports = [].
Proof. unfold retained. by destruct (ranked_reports reports). Qed.

(** One iteration of the building loop is a read of the ranked reports. *)
Lemma build_step k j rep cs :
  ranked_items reports !! k = Some (j, rep) ->
  (orig ← lift (index (ranked_items reports).*1 k);
   cand ← lift (index cands orig);
   rank ← lift (index (rankFeasible (rankablesOf reports)) k);
   rankable ← lift (index (rankablesOf reports) rank);
   path ← makePath (Z.of_nat k + 1) cand snapshot request rankable.(Rankable.cost);
   mret (cand, path)) cs =
  (path ← makePath (Z.of_nat k + 1) rep.(CandidateReport.path) snapshot request rep.(CandidateReport.cost);
   mret (rep.(CandidateReport.path), path)) cs.
Proof.
  intros Hk.
  assert (Hj : reports !! j = Some rep /\ feasible_report rep = true)
    by (apply elem_of_ranked_items; by eapply list_elem_of_lookup_2).
  destruct Hj as [Hj _]. unfold reports, reports_of in Hj. rewrite list_lookup_fmap in Hj.
  destruct (cands !! j) as [c|] eqn:Ec; simplify_eq/=.
  assert (Hr : exists r, rankFeasible (rankablesOf reports) !! k = Some r /\
                         rankablesOf reports !! r = Some (reportRankable (reportOf request snapshot weights bounds c))).
  { destruct (ranked_reads reports) as [E _]. apply (f_equal (lookup k)) in E.
    rewrite !list_lookup_fmap, Hk in E. simpl in E.
    destruct (rankFeasible (rankablesOf reports) !! k) as [r|] eqn:Er; simplify_eq/=. eauto. }
  destruct Hr as (r & Hr1 & Hr2).
  assert (E1 : (ranked_items reports).*1 !! k = Some j) by (by rewrite list_lookup_fmap, Hk).
  unfold index. rewrite E1. unfold mbind at 1, M_bind, lift. rewrite Ec. unfold mbind at 1. rewrite Hr1.
  unfold mbind at 1. rewrite Hr2. done.
Qed.

Definition after_plan_id (cs : Counters) : Counters := {|
  Counters.stage := cs.(Counters.stage); Counters.plan := wrap64 (cs.(Counters.plan) + 1);
  Counters.planGeneration := wrap64 (cs.(Counters.planGeneration) + 1) |}.

Lemma after_plan_id_wf cs : counters_wf cs -> counters_wf (after_plan_id cs).
Proof. intros (? & _ & _). split_and!; simpl; auto with planner. Qed.

Lemma retained_known : Forall (fun rep => known_links snapshot (report_hops rep)) retained.
Proof. apply Forall_take, ranked_reports_known. Qed.

Hypothesis Hdst : firstDestination request = Ok dst.

(** Without a feasible candidate the outcome is a failure and no identity is used. *)
Lemma planPointToPoint_fails cs :
  ranked_reports reports = [] ->
  returns (planPointToPoint request snapshot weights bounds) cs
    {| PlanOutcome.success := false; PlanOutcome.plan := None; PlanOutcome.candidates := reports;
       PlanOutcome.rankedIndices := []; PlanOutcome.explanations := ["No feasible path meets all hard constraints."] |} cs.
Proof using Hdst.
  intros E. unfold planPointToPoint. eapply returns_bind; [unfold returns, lift; by rewrite Hdst|].
  eapply returns_bind; [apply mapM_index, (proj2 (ranked_reads reports))|].
  unfold ranked_reports in E. apply fmap_nil_inv in E. by rewrite E.
Qed.

(** Otherwise the retained candidates become the plan's paths, in rank order. *)
Lemma planPointToPoint_succeeds cs :
  counters_wf cs -> ranked_reports reports <> [] ->
  exists paths, paths_for snapshot request 1 retained paths /\
    returns (planPointToPoint request snapshot weights bounds) cs
      {| PlanOutcome.success := true;
         PlanOutcome.plan := Some (pointToPointPlan request snapshot cs.(Counters.plan) cs.(Counters.planGeneration)
           (CandidateReport.path <$> retained) paths (length cands));
         PlanOutcome.candidates := reports; PlanOutcome.rankedIndices := (ranked_items reports).*1;
         PlanOutcome.explanations := [] |}
      (after_stages (after_plan_id cs) (length (concat (report_hops <$> retained)))).
Proof using Hdst.
  intros Hwf Hne. assert (Hi : ranked_items reports <> []) by (intros E; apply Hne; unfold ranked_reports; by rewrite E).
  destruct (makePaths_returns snapshot request 1 retained (after_plan_id cs)) as (paths & Hr & Hp);
    [by apply after_plan_id_wf|apply retained_known|].
  exists paths. split; [done|]. unfold planPointToPoint. eapply returns_bind; [unfold returns, lift; by rewrite Hdst|].
  eapply returns_bind; [apply mapM_index, (proj2 (ranked_reads reports))|].
  rewrite bool_decide_eq_false_2 by (by intros ?%fmap_nil_inv).
  eapply returns_bind; [done|]. eapply (returns_bind _ _ _ _ (after_plan_id cs)); [done|].
  pose proof (retained_eq Hi) as Er. set (total := (1 + _)%nat) in *.
  assert (Ht : total = length retained).
  { rewrite Er, length_fmap, length_take. unfold total. rewrite length_fmap.
    assert (length (ranked_items reports) <> 0%nat) by (by intros ?%nil_length_inv). lia. }
  eapply returns_bind.
  - rewrite Ht. apply (mapM_makePaths snapshot request _ retained 0); [|exact Hr].
    intros k rep Hk cs'. rewrite Er, list_lookup_fmap in Hk.
    destruct (take total (ranked_items reports) !! k) as [[j rep']|] eqn:Ek; simplify_eq/=.
    apply lookup_take_Some in Ek as [Ek _]. by apply build_step with j.
  - apply paths_for_length in Hp. rewrite fst_zip, snd_zip by (rewrite length_fmap; lia). apply returns_ret.
Qed.
End plan.
