(* ===== verification/Multicast.v ===== *)
(** * Multicast plans

    Models src/multicast.cpp: one best path per destination, the generations all of
    them are bound to, and a rejection as soon as one destination is unreachable. *)

From S2P Require Import Prelude Core Enums Double Model Scenario Feasibility Ranking Cost Enumerate Assembly PointToPoint.

(** [bindGenerations]: the generations and staging claims of the stages of the paths. *)
Definition stageClaims (stages : list Stage) : list ResourceId :=
  filter (fun r => negb (isNull r)) (Stage.stagingResource <$> stages).

Definition bindGenerations (paths : list Path) (snap : EvidenceSnapshot) : Binding * list ResourceId :=
  let stages := concat (Path.stages <$> paths) in
  (foldl (bind_hop snap) emptyBinding (hop_of_stage <$> stages),
   set_insert_all Z.ltb [] (stageClaims stages)).

(** The variables the loop over the destinations updates. *)
Module MulticastState.
Record MulticastState := {
  reports : list CandidateReport;
  ranked : list nat;
  anyFail : bool;
  comps : list CostComponent;
  candidatePaths : list Path;
  primaryPath : PathId;
  explanations : list string;
}.
End MulticastState.
Abbreviation MulticastState := MulticastState.MulticastState.

Definition MulticastState_init : MulticastState := {|
  MulticastState.reports := []; MulticastState.ranked := []; MulticastState.anyFail := false;
  MulticastState.comps := []; MulticastState.candidatePaths := []; MulticastState.primaryPath := 0;
  MulticastState.explanations := [] |}.

Section multicast.
Context (req : CommunicationRequest) (snap : EvidenceSnapshot) (weights : gmap CostFactor double) (bounds : Bounds).

(** One destination. *)
Definition multicast_step (st : MulticastState) (dest : EndpointId) : M MulticastState :=
  let cands := enumerateCandidatePaths snap req.(Request.source) dest bounds in
  let local := reportOf req snap weights bounds <$> cands in
  let rankables := rankablesOf local in
  let foe := feasibleOrig local in
  let localReports := seq (length st.(MulticastState.reports)) (length local) in
  let reports := st.(MulticastState.reports) ++ local in
  match rankFeasible rankables with
  | [] =>
      mret {| MulticastState.reports := reports; MulticastState.ranked := st.(MulticastState.ranked);
              MulticastState.anyFail := true; MulticastState.comps := st.(MulticastState.comps);
              MulticastState.candidatePaths := st.(MulticastState.candidatePaths);
              MulticastState.primaryPath := st.(MulticastState.primaryPath);
              MulticastState.explanations := st.(MulticastState.explanations) ++
                ["Destination " +:+ Id_str dest +:+ " has no feasible path; multicast cannot be satisfied."] |}
  | first :: _ =>
      bestLocal ← lift (index foe first);
      bestReportIdx ← lift (index localReports bestLocal);
      best ← lift (index cands bestLocal);
      bestReport ← lift (index reports bestReportIdx);
      pt ← makePath (Z.of_nat (length st.(MulticastState.candidatePaths)) + 1) best snap req
             bestReport.(CandidateReport.cost);
      mret {| MulticastState.reports := reports;
              MulticastState.ranked := st.(MulticastState.ranked) ++ [bestReportIdx];
              MulticastState.anyFail := st.(MulticastState.anyFail);
              MulticastState.comps := st.(MulticastState.comps) ++ bestReport.(CandidateReport.cost).(CostSummary.components);
              MulticastState.candidatePaths := st.(MulticastState.candidatePaths) ++ [pt];
              MulticastState.primaryPath := if isNull st.(MulticastState.primaryPath) then pt.(Path.id)
                                            else st.(MulticastState.primaryPath);
              MulticastState.explanations := st.(MulticastState.explanations) |}
  end.

(** The plan assembled after the loop. *)
Definition multicastPlan (id : CommunicationPlanId) (generation : CommunicationPlanGeneration)
    (st : MulticastState) : CommunicationPlan :=
  let paths := st.(MulticastState.candidatePaths) in
  let combined := CostSummary_of st.(MulticastState.comps) in
  let '(binding, claims) := bindGenerations paths snap in
  {| Plan.id := id; Plan.generation := generation;
     Plan.requestId := req.(Request.id); Plan.requestGeneration := req.(Request.generation);
     Plan.shape := RequestShape.MULTICAST; Plan.primaryPath := st.(MulticastState.primaryPath);
     Plan.fallbackPaths := []; Plan.candidatePaths := paths;
     Plan.orderedStages := match paths with p :: _ => p.(Path.stages) | [] => [] end;
     Plan.feasibility := if st.(MulticastState.anyFail) then Feasibility.REJECT_ENDPOINT else Feasibility.FEASIBLE;
     Plan.topologyGeneration := snap.(Snapshot.topologyGeneration);
     Plan.capacityGeneration := snap.(Snapshot.capacityGeneration);
     Plan.reservationGeneration := snap.(Snapshot.reservationGeneration);
     Plan.congestionGeneration := snap.(Snapshot.congestionGeneration);
     Plan.capabilityGeneration := snap.(Snapshot.capabilityGeneration);
     Plan.healthGeneration := snap.(Snapshot.healthGeneration);
     Plan.placementGeneration := snap.(Snapshot.placementGeneration);
     Plan.authorityGeneration := snap.(Snapshot.authorityGeneration);
     Plan.endpointGenerations := binding.(Binding.endpoints);
     Plan.linkGenerations := binding.(Binding.links);
     Plan.requiredStagingResources := claims; Plan.requiredResourceClaims := claims;
     Plan.cost := combined; Plan.explanations := st.(MulticastState.explanations);
     Plan.provenance := if totalValid combined then provName (worstProvenance combined) else "UNKNOWN";
     Plan.revalidationGeneration := 1; Plan.revalidateBeforeExecute := true;
     Plan.handoffRequirement := ""; Plan.createdProvenance := "";
     Plan.multicastDestinations := req.(Request.destinations);
     Plan.collectiveShape := CollectiveShape.UNKNOWN; Plan.collectiveParticipants := [];
     Plan.description := "" |}.

Definition buildMulticastPlan : M PlanOutcome :=
  id ← CommunicationPlanId_next;
  generation ← nextPlanGeneration;
  st ← foldM multicast_step MulticastState_init req.(Request.destinations);
  let success := negb st.(MulticastState.anyFail) in
  mret {| PlanOutcome.success := success;
          PlanOutcome.plan := Some (multicastPlan id generation st);
          PlanOutcome.candidates := st.(MulticastState.reports);
          PlanOutcome.rankedIndices := st.(MulticastState.ranked);
          PlanOutcome.explanations :=
            if success then [] else ["Multicast plan rejected: one or more destinations infeasible."] |}.

Definition planMulticast : M PlanOutcome := buildMulticastPlan.
End multicast.

(** ** What the fan-out computes *)

Section correct.
Context (req : CommunicationRequest) (snap : EvidenceSnapshot) (weights : gmap CostFactor double) (bounds : Bounds).

Let best (dest : EndpointId) : option CandidateReport :=
  best_report req snap weights bounds req.(Request.source) dest.

Definition path_components (reps : list CandidateReport) : list CostComponent :=
  concat ((fun rep => rep.(CandidateReport.cost).(CostSummary.components)) <$> reps).

(** [st'] extends [st] by the best paths [reps] of some destinations, [failed] telling
    whether one of them had none. *)
Record multicast_extends (st : MulticastState) (reps : list CandidateReport) (failed : bool) (st' : MulticastState) : Prop := {
  me_paths : exists paths, st'.(MulticastState.candidatePaths) = st.(MulticastState.candidatePaths) ++ paths /\
    paths_for snap req (Z.of_nat (length st.(MulticastState.candidatePaths)) + 1) reps paths;
  me_comps : st'.(MulticastState.comps) = st.(MulticastState.comps) ++ path_components reps;
  me_fail : st'.(MulticastState.anyFail) = st.(MulticastState.anyFail) || failed;
  me_primary : st'.(MulticastState.primaryPath) =
    if isNull st.(MulticastState.primaryPath) then
      (if bool_decide (reps = []) then 0 else Z.of_nat (length st.(MulticastState.candidatePaths)) + 1)
    else st.(MulticastState.primaryPath);
}.

Lemma multicast_extends_trans st1 reps1 f1 st2 reps2 f2 st3 :
  multicast_extends st1 reps1 f1 st2 -> multicast_extends st2 reps2 f2 st3 ->
  multicast_extends st1 (reps1 ++ reps2) (f1 || f2) st3.
Proof.
  intros [(ps1 & Hp1 & Hf1) Hc1 Ha1 Hm1] [(ps2 & Hp2 & Hf2) Hc2 Ha2 Hm2]. split.
  - exists (ps1 ++ ps2). rewrite Hp2, Hp1. split; [by rewrite app_assoc|].
    apply paths_for_app; [done|]. rewrite Hp1, length_app in Hf2.
    by replace (Z.of_nat (length (MulticastState.candidatePaths st1)) + 1 + Z.of_nat (length ps1)) with
      (Z.of_nat (length (MulticastState.candidatePaths st1) + length ps1) + 1) by lia.
  - unfold path_components in *. rewrite fmap_app, concat_app. by rewrite Hc2, Hc1, app_assoc.
  - by rewrite Ha2, Ha1, orb_assoc.
  - rewrite Hm2, Hm1. destruct (isNull (MulticastState.primaryPath st1)) eqn:E; [|by rewrite E].
    destruct reps1 as [|r reps1]; simpl.
    + assert (ps1 = []) as -> by (by destruct ps1). by rewrite Hp1, app_nil_r.
    + unfold isNull. destruct (Z.eqb_spec (Z.of_nat (length (MulticastState.candidatePaths st1)) + 1) 0); [lia|done].
Qed.

Lemma multicast_step_returns st dest cs :
  counters_wf cs ->
  exists st' n, returns (multicast_step req snap weights bounds st dest) cs st' (after_stages cs n) /\
    multicast_extends st (option_list (best dest)) (bool_decide (best dest = None)) st'.
Proof.
  intros Hwf. unfold multicast_step.
  set (cands := enumerateCandidatePaths snap (Request.source req) dest bounds).
  set (local := reportOf req snap weights bounds <$> cands).
  pose proof (best_report_reads req snap weights bounds (Request.source req) dest) as Hf.
  cbv zeta in Hf. fold cands in Hf. change (reports_of _ _ _ _ cands) with local in Hf. fold (best dest) in Hf.
  destruct (rankFeasible (rankablesOf local)) as [|o order], (best dest) as [rep|] eqn:Eb; try done.
  - eexists _, 0%nat. rewrite after_stages_0 by done. split; [apply returns_ret|].
    split; simpl; [exists []|..]; rewrite ?app_nil_r, ?orb_true_r; auto. by destruct (isNull _) eqn:E; [apply Z.eqb_eq in E|].
  - destruct Hf as (j & Hfo & Hrep & Hcand & _). apply best_report_known in Eb.
    destruct (makePath_returns snap req (Z.of_nat (length st.(MulticastState.candidatePaths)) + 1)
      (CandidateReport.path rep) (CandidateReport.cost rep) cs Hwf Eb) as (p & Hp & Hpf).
    assert (Hj : (j < length local)%nat) by (by eapply lookup_lt_Some).
    eexists _, _. split.
    + eapply returns_bind; [unfold returns, lift, index; by rewrite Hfo|].
      eapply returns_bind; [unfold returns, lift, index; by rewrite lookup_seq_lt|].
      eapply returns_bind; [unfold returns, lift, index; by rewrite Hcand|].
      eapply returns_bind.
      { unfold returns, lift, index. rewrite lookup_app_r by lia.
        replace (length (MulticastState.reports st) + j - length (MulticastState.reports st))%nat with j by lia. by rewrite Hrep. }
      eapply returns_bind; [exact Hp|apply returns_ret].
    + split; simpl; [exists [p]; split; [done|by split]| |by rewrite orb_false_r|].
      * unfold path_components. simpl. by rewrite app_nil_r.
      * by rewrite (pf_id _ _ _ _ _ _ Hpf).
Qed.

Lemma multicast_loop_returns dests st cs :
  counters_wf cs ->
  exists st' n, returns (foldM (multicast_step req snap weights bounds) st dests) cs st' (after_stages cs n) /\
    multicast_extends st (omap best dests) (existsb (fun d => bool_decide (best d = None)) dests) st'.
Proof.
  revert st cs; induction dests as [|d dests IH]; intros st cs Hwf.
  { exists st, 0%nat. rewrite after_stages_0 by done. split; [apply returns_ret|].
    split; simpl; [exists []|..]; rewrite ?app_nil_r, ?orb_false_r; auto. by destruct (isNull _) eqn:E; [apply Z.eqb_eq in E|]. }
  destruct (multicast_step_returns st d cs Hwf) as (st1 & n1 & Hr1 & He1).
  destruct (IH st1 (after_stages cs n1)) as (st2 & n2 & Hr2 & He2); [auto with planner|].
  exists st2, (n1 + n2)%nat. rewrite <- after_stages_add. split; [by eapply returns_bind|].
  replace (omap best (d :: dests)) with (option_list (best d) ++ omap best dests) by (simpl; by destruct (best d)).
  by apply (multicast_extends_trans st _ _ st1).
Qed.
End correct.
