(* ===== verification/Collective.v ===== *)
(** * Collective plans

    Models src/collective.cpp: the completeness checks on the participant set, the
    fan-out from the root participant to every other one, and the plan they make.
    Every refusal returns the partially filled plan, so the plan is a function of the
    variables at the point of return. *)

From S2P Require Import Prelude Core Enums Double Model Scenario Feasibility Ranking Cost Enumerate Assembly PointToPoint Multicast.

(** The variables the loop over the members updates. *)
Module CollectiveState.
Record CollectiveState := {
  candidatePaths : list Path;
  ranked : list nat;
  comps : list CostComponent;
  claims : list ResourceId;
  binding : Binding;
}.
End CollectiveState.
Abbreviation CollectiveState := CollectiveState.CollectiveState.

Definition CollectiveState_init : CollectiveState := {|
  CollectiveState.candidatePaths := []; CollectiveState.ranked := []; CollectiveState.comps := [];
  CollectiveState.claims := []; CollectiveState.binding := emptyBinding |}.

Section collective.
Context (req : CommunicationRequest) (snap : EvidenceSnapshot) (weights : gmap CostFactor double) (bounds : Bounds).

(** The checks before any path is built: [Some why] where the source refuses. *)
Definition collectiveCountCheck : option string :=
  refuse_if negb (req.(Request.collectiveCount) =? Z.of_nat (length req.(Request.participants)))
    because "Collective participant count does not match participant set.";;
  refuse_if bounds.(Bounds.maxCollectiveParticipants) <? req.(Request.collectiveCount)
    because "Collective participant count exceeds bound.";;
  None.

Definition participantCheck (pid : EndpointId) : option string :=
  match endpointMap snap !! pid with
  | None => Some ("Missing collective participant " +:+ Id_str pid +:+ ".")
  | Some e =>
      if negb (endpointFresh e snap) || negb e.(Endpoint.reachable) || negb e.(Endpoint.ready) ||
         bool_decide (e.(Endpoint.kind) = EndpointKind.UNKNOWN)
      then Some ("Collective participant " +:+ Id_str pid +:+ " not current/readable.")
      else None
  end.

(** The loop over the members; the second component is the explanation of an early
    return. *)
Fixpoint collective_loop (root : EndpointId) (members : list EndpointId) (st : CollectiveState)
    : M (CollectiveState * option string) :=
  match members with
  | [] => mret (st, None)
  | member :: members' =>
      if member =? root then collective_loop root members' st
      else
        let cands := enumerateCandidatePaths snap root member bounds in
        let reports := reportOf req snap weights bounds <$> cands in
        let rankables := rankablesOf reports in
        match rankFeasible rankables with
        | [] => mret (st, Some ("No feasible path between collective participants " +:+ Id_str root +:+
                                " and " +:+ Id_str member +:+ "."))
        | first :: _ =>
            bi ← lift (index (feasibleOrig reports) first);
            best ← lift (index cands bi);
            rankable ← lift (index rankables first);
            let cst := rankable.(Rankable.cost) in
            pt ← makePath (Z.of_nat (length st.(CollectiveState.candidatePaths)) + 1) best snap req cst;
            collective_loop root members' {|
              CollectiveState.candidatePaths := st.(CollectiveState.candidatePaths) ++ [pt];
              CollectiveState.ranked := st.(CollectiveState.ranked) ++ [length st.(CollectiveState.candidatePaths)];
              CollectiveState.comps := st.(CollectiveState.comps) ++ cst.(CostSummary.components);
              CollectiveState.claims := set_insert_all Z.ltb st.(CollectiveState.claims) (stageClaims pt.(Path.stages));
              CollectiveState.binding := foldl (bind_hop snap) st.(CollectiveState.binding) (hop_of_stage <$> pt.(Path.stages)) |}
        end
  end.

(** A refused plan: only what was assigned before the return. *)
Definition refusedCollective (id : CommunicationPlanId) (generation : CommunicationPlanGeneration)
    (paths : list Path) (why : string) : CommunicationPlan := {|
  Plan.id := id; Plan.generation := generation;
  Plan.requestId := req.(Request.id); Plan.requestGeneration := req.(Request.generation);
  Plan.shape := RequestShape.COLLECTIVE; Plan.primaryPath := 0; Plan.fallbackPaths := [];
  Plan.candidatePaths := paths; Plan.orderedStages := []; Plan.feasibility := Feasibility.REJECT_ENDPOINT;
  Plan.topologyGeneration := 0; Plan.capacityGeneration := 0; Plan.reservationGeneration := 0;
  Plan.congestionGeneration := 0; Plan.capabilityGeneration := 0; Plan.healthGeneration := 0;
  Plan.placementGeneration := 0; Plan.authorityGeneration := 0;
  Plan.endpointGenerations := []; Plan.linkGenerations := [];
  Plan.requiredStagingResources := []; Plan.requiredResourceClaims := [];
  Plan.cost := CostSummary_default; Plan.explanations := [why]; Plan.provenance := "";
  Plan.revalidationGeneration := 0; Plan.revalidateBeforeExecute := true;
  Plan.handoffRequirement := ""; Plan.createdProvenance := ""; Plan.multicastDestinations := [];
  Plan.collectiveShape := req.(Request.collectiveShape);
  Plan.collectiveParticipants := req.(Request.participants); Plan.description := "" |}.

Definition refusal (id : CommunicationPlanId) (generation : CommunicationPlanGeneration)
    (paths : list Path) (why : string) : PlanOutcome := {|
  PlanOutcome.success := false; PlanOutcome.plan := Some (refusedCollective id generation paths why);
  PlanOutcome.candidates := []; PlanOutcome.rankedIndices := []; PlanOutcome.explanations := [] |}.

Definition collectivePlan (id : CommunicationPlanId) (generation : CommunicationPlanGeneration)
    (st : CollectiveState) : CommunicationPlan :=
  let paths := st.(CollectiveState.candidatePaths) in
  let cost := CostSummary_of st.(CollectiveState.comps) in
  {| Plan.id := id; Plan.generation := generation;
     Plan.requestId := req.(Request.id); Plan.requestGeneration := req.(Request.generation);
     Plan.shape := RequestShape.COLLECTIVE;
     Plan.primaryPath := match paths with p :: _ => p.(Path.id) | [] => 0 end;
     Plan.fallbackPaths := []; Plan.candidatePaths := paths;
     Plan.orderedStages := match paths with p :: _ => p.(Path.stages) | [] => [] end;
     Plan.feasibility := Feasibility.FEASIBLE;
     Plan.topologyGeneration := snap.(Snapshot.topologyGeneration);
     Plan.capacityGeneration := snap.(Snapshot.capacityGeneration);
     Plan.reservationGeneration := snap.(Snapshot.reservationGeneration);
     Plan.congestionGeneration := snap.(Snapshot.congestionGeneration);
     Plan.capabilityGeneration := snap.(Snapshot.capabilityGeneration);
     Plan.healthGeneration := snap.(Snapshot.healthGeneration);
     Plan.placementGeneration := snap.(Snapshot.placementGeneration);
     Plan.authorityGeneration := snap.(Snapshot.authorityGeneration);
     Plan.endpointGenerations := st.(CollectiveState.binding).(Binding.endpoints);
     Plan.linkGenerations := st.(CollectiveState.binding).(Binding.links);
     Plan.requiredStagingResources := st.(CollectiveState.claims);
     Plan.requiredResourceClaims := st.(CollectiveState.claims);
     Plan.cost := cost;
     Plan.explanations := [
       "Collective shape: " +:+ CollectiveShape_toString req.(Request.collectiveShape);
       "Participants: " +:+ Id_str (Z.of_nat (length req.(Request.participants)));
       "Feasible root-to-member paths: " +:+ Id_str (Z.of_nat (length paths));
       "Collective scheduling is the responsibility of the Collective Scheduler."];
     Plan.provenance := if totalValid cost then provName (worstProvenance cost) else "UNKNOWN";
     Plan.revalidationGeneration := 1; Plan.revalidateBeforeExecute := true;
     Plan.handoffRequirement := ""; Plan.createdProvenance := ""; Plan.multicastDestinations := [];
     Plan.collectiveShape := req.(Request.collectiveShape);
     Plan.collectiveParticipants := req.(Request.participants); Plan.description := "" |}.

Definition buildCollectivePlan : M PlanOutcome :=
  id ← CommunicationPlanId_next;
  generation ← nextPlanGeneration;
  match collectiveCountCheck with
  | Some why => mret (refusal id generation [] why)
  | None =>
  match first_return participantCheck req.(Request.participants) with
  | Some why => mret (refusal id generation [] why)
  | None =>
      root ← lift (match req.(Request.participants) with p :: _ => Ok p | [] => Throw undefined_index end);
      '(st, failed) ← collective_loop root req.(Request.participants) CollectiveState_init;
      match failed with
      | Some why => mret (refusal id generation st.(CollectiveState.candidatePaths) why)
      | None =>
          mret {| PlanOutcome.success := true; PlanOutcome.plan := Some (collectivePlan id generation st);
                  PlanOutcome.candidates := []; PlanOutcome.rankedIndices := st.(CollectiveState.ranked);
                  PlanOutcome.explanations := [] |}
      end
  end end.

Definition planCollective : M PlanOutcome := buildCollectivePlan.
End collective.

(** ** What the fan-out computes *)

Section correct.
Context (req : CommunicationRequest) (snap : EvidenceSnapshot) (weights : gmap CostFactor double) (bounds : Bounds).
Context (root : EndpointId).

Let best (member : EndpointId) : option CandidateReport := best_report req snap weights bounds root member.

Definition others (members : list EndpointId) : list EndpointId := filter (fun m => m <> root) members.

(** [st'] extends [st] by the paths of [reps]. *)
Definition collective_extends (st : CollectiveState) (reps : list CandidateReport) (st' : CollectiveState) : Prop :=
  exists paths,
    st'.(CollectiveState.candidatePaths) = st.(CollectiveState.candidatePaths) ++ paths /\
    paths_for snap req (Z.of_nat (length st.(CollectiveState.candidatePaths)) + 1) reps paths /\
    st'.(CollectiveState.comps) = st.(CollectiveState.comps) ++ path_components reps /\
    st'.(CollectiveState.binding) = foldl (bind_hop snap) st.(CollectiveState.binding)
      (hop_of_stage <$> concat (Path.stages <$> paths)) /\
    st'.(CollectiveState.claims) = set_insert_all Z.ltb st.(CollectiveState.claims)
      (stageClaims (concat (Path.stages <$> paths))).

Lemma collective_extends_refl st : collective_extends st [] st.
Proof. exists []. simpl. rewrite !app_nil_r. done. Qed.

Lemma collective_extends_cons st rep reps p st1 st' :
  path_for snap req (Z.of_nat (length st.(CollectiveState.candidatePaths)) + 1) rep.(CandidateReport.path) rep.(CandidateReport.cost) p ->
  st1 = {| CollectiveState.candidatePaths := st.(CollectiveState.candidatePaths) ++ [p];
           CollectiveState.ranked := st.(CollectiveState.ranked) ++ [length st.(CollectiveState.candidatePaths)];
           CollectiveState.comps := st.(CollectiveState.comps) ++ rep.(CandidateReport.cost).(CostSummary.components);
           CollectiveState.claims := set_insert_all Z.ltb st.(CollectiveState.claims) (stageClaims p.(Path.stages));
           CollectiveState.binding := foldl (bind_hop snap) st.(CollectiveState.binding) (hop_of_stage <$> p.(Path.stages)) |} ->
  collective_extends st1 reps st' -> collective_extends st (rep :: reps) st'.
Proof.
  intros Hp -> (ps & Hps & Hpf & Hc & Hb & Hcl). simpl in *. exists (p :: ps).
  split_and!.
  - rewrite Hps, <- app_assoc. done.
  - split; [done|]. rewrite length_app in Hpf. simpl in Hpf.
    by replace (Z.of_nat (length (CollectiveState.candidatePaths st)) + 1 + 1) with
      (Z.of_nat (length (CollectiveState.candidatePaths st) + 1) + 1) by lia.
  - rewrite Hc, <- app_assoc. done.
  - rewrite Hb. csimpl. by rewrite fmap_app, foldl_app.
  - rewrite Hcl. csimpl. unfold stageClaims, set_insert_all. by rewrite fmap_app, filter_app, foldl_app.
Qed.

(** Either every other participant got its best path, or the loop stopped at one
    that has none. *)
Lemma collective_loop_returns members st cs :
  counters_wf cs ->
  exists st' failed n, returns (collective_loop req snap weights bounds root members st) cs (st', failed) (after_stages cs n) /\
    match failed with
    | None => Forall (fun m => best m <> None) (others members) /\ collective_extends st (omap best (others members)) st'
    | Some _ => Exists (fun m => best m = None) (others members)
    end.
Proof.
  unfold others. revert st cs; induction members as [|m members IH]; intros st cs Hwf.
  { exists st, None, 0%nat. rewrite after_stages_0 by done. split; [apply returns_ret|].
    split; [constructor|apply collective_extends_refl]. }
  simpl. rewrite filter_cons. destruct (Z.eqb_spec m root) as [->|Hne].
  { rewrite decide_False by (by intros H). by apply IH. }
  rewrite decide_True by done.
  set (cands := enumerateCandidatePaths snap root m bounds).
  set (local := reportOf req snap weights bounds <$> cands).
  pose proof (best_report_reads req snap weights bounds root m) as Hf.
  cbv zeta in Hf. fold cands in Hf. change (reports_of _ _ _ _ cands) with local in Hf. fold (best m) in Hf.
  destruct (rankFeasible (rankablesOf local)) as [|o order], (best m) as [rep|] eqn:Eb; try done.
  { exists st, (Some ("No feasible path between collective participants " +:+ Id_str root +:+
      " and " +:+ Id_str m +:+ ".")), 0%nat.
    rewrite after_stages_0 by done. split; [apply returns_ret|by left]. }
  destruct Hf as (j & Hfo & Hrep & Hcand & Hrk).
  destruct (makePath_returns snap req (Z.of_nat (length st.(CollectiveState.candidatePaths)) + 1)
    (CandidateReport.path rep) (CandidateReport.cost rep) cs Hwf (best_report_known _ _ _ _ _ _ _ Eb)) as (p & Hp & Hpf).
  destruct (IH {| CollectiveState.candidatePaths := st.(CollectiveState.candidatePaths) ++ [p];
           CollectiveState.ranked := st.(CollectiveState.ranked) ++ [length st.(CollectiveState.candidatePaths)];
           CollectiveState.comps := st.(CollectiveState.comps) ++ rep.(CandidateReport.cost).(CostSummary.components);
           CollectiveState.claims := set_insert_all Z.ltb st.(CollectiveState.claims) (stageClaims p.(Path.stages));
           CollectiveState.binding := foldl (bind_hop snap) st.(CollectiveState.binding) (hop_of_stage <$> p.(Path.stages)) |}
    (after_stages cs (length (report_hops rep)))) as (st' & failed & n & Hr & Hx); [auto with planner|].
  exists st', failed, (length (report_hops rep) + n)%nat. split.
  - rewrite <- after_stages_add.
    eapply returns_bind; [unfold returns, lift, index; by rewrite Hfo|].
    eapply returns_bind; [unfold returns, lift, index; by rewrite Hcand|].
    eapply returns_bind; [unfold returns, lift, index; by rewrite Hrk|].
    eapply returns_bind; [exact Hp|exact Hr].
  - destruct failed; [by right|]. destruct Hx as [Hall Hx]. split; [constructor; [congruence|done]|].
    simpl. rewrite Eb. by eapply collective_extends_cons.
Qed.
End correct.
