(* ===== verification/Planner.v ===== *)
(** * The planner

    Models [planCommunication] of src/planner.cpp, the public entry point: validate
    the request, then dispatch on its effective shape.  The theorems of this file are
    the planner's contract towards its callers. *)

From S2P Require Import Prelude Core Enums Double Model Scenario Feasibility Ranking Cost Enumerate Assembly.
From S2P Require Import PointToPoint Multicast Collective.

(** [currentAuthority]: a function-local static that is never changed. *)
Definition currentAuthority : AuthorityGeneration := 1.

Definition planCommunication (request : CommunicationRequest) (snapshot : EvidenceSnapshot)
    (weights : gmap CostFactor double) (bounds : Bounds) : M PlanOutcome :=
  _ ← lift (requireValid request);
  match effectiveShape request with
  | RequestShape.MULTICAST => buildMulticastPlan request snapshot weights bounds
  | RequestShape.COLLECTIVE => buildCollectivePlan request snapshot weights bounds
  | _ => planPointToPoint request snapshot weights bounds
  end.

(** A request for one destination. *)
Definition single_destination (request : CommunicationRequest) : Prop :=
  effectiveShape request = RequestShape.POINT_TO_POINT \/ effectiveShape request = RequestShape.STAGED.

(** ** The three shapes *)

Section shapes.
Context (request : CommunicationRequest) (snapshot : EvidenceSnapshot).
Context (weights : gmap CostFactor double) (bounds : Bounds).

Lemma planCommunication_valid cs :
  valid_request request ->
  planCommunication request snapshot weights bounds cs =
  match effectiveShape request with
  | RequestShape.MULTICAST => buildMulticastPlan request snapshot weights bounds cs
  | RequestShape.COLLECTIVE => buildCollectivePlan request snapshot weights bounds cs
  | _ => planPointToPoint request snapshot weights bounds cs
  end.
Proof.
  intros Hv. pose proof (requireValid_cases request) as H. unfold planCommunication, mbind, M_bind, lift.
  destruct (requireValid request) as [[]|e]; [by destruct (effectiveShape request)|tauto].
Qed.

Lemma planCommunication_invalid cs :
  ~ valid_request request ->
  exists why, planCommunication request snapshot weights bounds cs = (Throw (ComError why), cs).
Proof.
  intros Hv. pose proof (requireValid_cases request) as H. unfold planCommunication, mbind, M_bind, lift.
  destruct (requireValid request) as [?|e]; [done|]. destruct H as (_ & why & _ & ->). eauto.
Qed.

Lemma returns_valid cs o cs' : returns (planCommunication request snapshot weights bounds) cs o cs' -> valid_request request.
Proof.
  intros H. pose proof (requireValid_cases request) as Hc. unfold returns, planCommunication, mbind, M_bind, lift in H.
  by destruct (requireValid request).
Qed.

Lemma firstDestination_single dst : request.(Request.destinations) = [dst] -> firstDestination request = Ok dst.
Proof. unfold firstDestination. by intros ->. Qed.

Lemma single_destination_returns cs o cs' :
  single_destination request -> returns (planCommunication request snapshot weights bounds) cs o cs' ->
  exists dst, request.(Request.destinations) = [dst] /\ returns (planPointToPoint request snapshot weights bounds) cs o cs'.
Proof.
  intros Hs Hr. pose proof (returns_valid _ _ _ Hr) as Hv.
  destruct (vr_single _ Hv Hs) as (_ & dst & Hd). exists dst. split; [done|].
  unfold returns in *. rewrite planCommunication_valid in Hr by done. destruct Hs as [E|E]; by rewrite E in Hr.
Qed.

(** What a returned point-to-point outcome is. *)
Lemma point_to_point_outcome cs o cs' dst :
  counters_wf cs -> firstDestination request = Ok dst ->
  returns (planPointToPoint request snapshot weights bounds) cs o cs' ->
  let cands := enumerateCandidatePaths snapshot request.(Request.source) dst bounds in
  let reps := retained request snapshot weights bounds dst in
  (o.(PlanOutcome.success) = false /\ o.(PlanOutcome.plan) = None /\ cs' = cs /\
   best_report request snapshot weights bounds request.(Request.source) dst = None) \/
  (o.(PlanOutcome.success) = true /\ exists paths,
    best_report request snapshot weights bounds request.(Request.source) dst = head reps /\ reps <> [] /\
    paths_for snapshot request 1 reps paths /\
    o.(PlanOutcome.plan) = Some (pointToPointPlan request snapshot cs.(Counters.plan) cs.(Counters.planGeneration)
      (CandidateReport.path <$> reps) paths (length cands)) /\
    exists n, cs' = after_stages (after_plan_id cs) n).
Proof.
  intros Hwf Hd Hr cands reps.
  destruct (decide (ranked_reports (reports_of request snapshot weights bounds cands) = [])) as [E|E].
  - left. pose proof (planPointToPoint_fails _ _ weights bounds _ Hd cs E) as Hf.
    unfold returns in *. rewrite Hf in Hr. injection Hr as <- <-. split_and!; [reflexivity..|].
    unfold best_report. fold cands. by rewrite E.
  - right. destruct (planPointToPoint_succeeds _ _ weights bounds _ Hd cs Hwf E) as (paths & Hp & Hf).
    unfold returns in *. rewrite Hf in Hr. injection Hr as <- <-. split; [reflexivity|]. exists paths.
    split; [symmetry; apply head_retained|]. split; [unfold reps; by rewrite retained_nil|].
    split; [exact Hp|]. split; [reflexivity|]. eexists; reflexivity.
Qed.
End shapes.

(** ** Fan-out shapes *)

Section fanout.
Context (req : CommunicationRequest) (snap : EvidenceSnapshot) (weights : gmap CostFactor double) (bounds : Bounds).

Lemma buildMulticastPlan_returns cs :
  counters_wf cs ->
  let best := best_report req snap weights bounds req.(Request.source) in
  exists st n, multicast_extends req snap MulticastState_init (omap best req.(Request.destinations))
      (existsb (fun d => bool_decide (best d = None)) req.(Request.destinations)) st /\
    returns (buildMulticastPlan req snap weights bounds) cs
      {| PlanOutcome.success := negb st.(MulticastState.anyFail);
         PlanOutcome.plan := Some (multicastPlan req snap cs.(Counters.plan) cs.(Counters.planGeneration) st);
         PlanOutcome.candidates := st.(MulticastState.reports); PlanOutcome.rankedIndices := st.(MulticastState.ranked);
         PlanOutcome.explanations := if negb st.(MulticastState.anyFail) then []
           else ["Multicast plan rejected: one or more destinations infeasible."] |}
      (after_stages (after_plan_id cs) n).
Proof.
  intros Hwf best.
  destruct (multicast_loop_returns req snap weights bounds req.(Request.destinations) MulticastState_init (after_plan_id cs))
    as (st & n & Hr & He); [by apply after_plan_id_wf|].
  exists st, n. split; [exact He|]. unfold buildMulticastPlan.
  eapply returns_bind; [reflexivity|]. eapply (returns_bind _ _ _ _ (after_plan_id cs)); [reflexivity|].
  eapply returns_bind; [exact Hr|]. apply returns_ret.
Qed.

(** The participants are complete, within the bound and all current. *)
Definition current_participant (pid : EndpointId) : Prop :=
  exists e, endpointMap snap !! pid = Some e /\ fresh_endpoint e snap /\ e.(Endpoint.reachable) = true /\
    e.(Endpoint.ready) = true /\ e.(Endpoint.kind) <> EndpointKind.UNKNOWN.

Definition complete_participants : Prop :=
  req.(Request.collectiveCount) = Z.of_nat (length req.(Request.participants)) /\
  req.(Request.collectiveCount) <= bounds.(Bounds.maxCollectiveParticipants) /\
  Forall current_participant req.(Request.participants).

Lemma collectiveCountCheck_None :
  collectiveCountCheck req bounds = None <->
  req.(Request.collectiveCount) = Z.of_nat (length req.(Request.participants)) /\
  req.(Request.collectiveCount) <= bounds.(Bounds.maxCollectiveParticipants).
Proof. unfold collectiveCountCheck. rewrite !guard_None, negb_false_iff, Z.eqb_eq, Z.ltb_ge. naive_solver. Qed.

Lemma participantCheck_None pid : participantCheck snap pid = None <-> current_participant pid.
Proof.
  unfold participantCheck, current_participant. destruct (endpointMap snap !! pid) as [e|]; [|naive_solver].
  rewrite guard_None, !orb_false_iff, !negb_false_iff, bool_decide_eq_false, endpointFresh_iff. naive_solver.
Qed.

Lemma complete_participants_iff :
  complete_participants <->
  collectiveCountCheck req bounds = None /\ first_return (participantCheck snap) req.(Request.participants) = None.
Proof.
  unfold complete_participants. rewrite collectiveCountCheck_None, first_return_None.
  setoid_rewrite participantCheck_None. tauto.
Qed.

(** A collective is planned or refused; it is planned exactly when its participants
    are complete and each has a feasible path from the root. *)
Lemma buildCollectivePlan_returns cs root :
  counters_wf cs -> head req.(Request.participants) = Some root ->
  let best := best_report req snap weights bounds root in
  let members := others root req.(Request.participants) in
  (complete_participants /\ Forall (fun m => best m <> None) members /\
   exists st n, collective_extends req snap CollectiveState_init (omap best members) st /\
    returns (buildCollectivePlan req snap weights bounds) cs
      {| PlanOutcome.success := true;
         PlanOutcome.plan := Some (collectivePlan req snap cs.(Counters.plan) cs.(Counters.planGeneration) st);
         PlanOutcome.candidates := []; PlanOutcome.rankedIndices := st.(CollectiveState.ranked);
         PlanOutcome.explanations := [] |} (after_stages (after_plan_id cs) n)) \/
  ((~ complete_participants \/ Exists (fun m => best m = None) members) /\
   exists paths why n, returns (buildCollectivePlan req snap weights bounds) cs
     (refusal req cs.(Counters.plan) cs.(Counters.planGeneration) paths why) (after_stages (after_plan_id cs) n)).
Proof.
  intros Hwf Hroot best members. rewrite complete_participants_iff. pose proof (after_plan_id_wf _ Hwf) as Hwf'.
  assert (H0 : after_stages (after_plan_id cs) 0 = after_plan_id cs) by (by apply after_stages_0).
  unfold buildCollectivePlan.
  destruct (collectiveCountCheck req bounds) as [why|].
  { right. split; [left; by intros []|]. exists [], why, 0%nat. rewrite H0. done. }
  destruct (first_return _ _) as [why|].
  { right. split; [left; by intros []|]. exists [], why, 0%nat. rewrite H0. done. }
  destruct (collective_loop_returns req snap weights bounds root req.(Request.participants) CollectiveState_init _ Hwf')
    as (st & failed & n & Hr & Hx).
  destruct req.(Request.participants) as [|p ps] eqn:Ep; [done|]. injection Hroot as ->.
  destruct failed as [why|].
  - right. split; [by right|]. exists st.(CollectiveState.candidatePaths), why, n.
    eapply returns_bind; [reflexivity|]. eapply (returns_bind _ _ _ _ (after_plan_id cs)); [reflexivity|].
    eapply returns_bind; [reflexivity|]. eapply returns_bind; [exact Hr|]. apply returns_ret.
  - left. destruct Hx as [Hall Hx]. split; [done|]. split; [exact Hall|]. exists st, n. split; [exact Hx|].
    eapply returns_bind; [reflexivity|]. eapply (returns_bind _ _ _ _ (after_plan_id cs)); [reflexivity|].
    eapply returns_bind; [reflexivity|]. eapply returns_bind; [exact Hr|]. apply returns_ret.
Qed.
End fanout.

(** ** Properties *)

Lemma collective_root request :
  valid_request request -> effectiveShape request = RequestShape.COLLECTIVE ->
  exists root, head request.(Request.participants) = Some root.
Proof.
  intros Hv E. assert (Es : request.(Request.shape) = RequestShape.COLLECTIVE).
  { unfold effectiveShape in E. by destruct (bool_decide _ || _). }
  destruct (vr_collective _ Hv Es) as (_ & _ & _ & Hp).
  destruct (Request.participants request) as [|r l]; [done|]. by exists r.
Qed.

(** Planning always ends in an outcome or a documented exception: a malformed
    request throws the library's error and uses no identity, a request of unknown
    shape without destinations escapes validation and throws [std::out_of_range], and
    in every other case an outcome is returned; no unchecked vector access is ever out
    of range. *)
Theorem planCommunication_exceptions request snapshot weights bounds cs :
  counters_wf cs ->
  match planCommunication request snapshot weights bounds cs with
  | (Ok _, _) => valid_request request
  | (Throw (ComError _), cs') => ~ valid_request request /\ cs' = cs
  | (Throw out_of_range, cs') => valid_request request /\ effectiveShape request = RequestShape.UNKNOWN /\
      request.(Request.destinations) = [] /\ cs' = cs
  | (Throw undefined_index, _) => False
  end.
Proof.
  intros Hwf. pose proof (validate_iff request) as Hi. destruct (validate request) as [why|] eqn:Ev.
  { destruct (planCommunication_invalid request snapshot weights bounds cs) as [w ->]; [|split; [|done]];
      intros ?%Hi; done. }
  assert (Hv : valid_request request) by tauto. clear Ev Hi. rewrite planCommunication_valid by done.
  assert (Hpp : forall dst, firstDestination request = Ok dst ->
    match planPointToPoint request snapshot weights bounds cs with (Ok _, _) => True | _ => False end).
  { intros dst Hd. destruct (decide (ranked_reports (reports_of request snapshot weights bounds
      (enumerateCandidatePaths snapshot request.(Request.source) dst bounds)) = [])) as [E|E].
    - by rewrite (planPointToPoint_fails _ _ weights bounds _ Hd cs E).
    - destruct (planPointToPoint_succeeds _ _ weights bounds _ Hd cs Hwf E) as (paths & _ & ->). done. }
  destruct (effectiveShape request) eqn:Es.
  - destruct (vr_single _ Hv (or_introl Es)) as (_ & d & Hd). specialize (Hpp d (firstDestination_single _ _ Hd)).
    by destruct (planPointToPoint _ _ _ _ _) as [[|[]] ?].
  - destruct (vr_single _ Hv (or_intror Es)) as (_ & d & Hd). specialize (Hpp d (firstDestination_single _ _ Hd)).
    by destruct (planPointToPoint _ _ _ _ _) as [[|[]] ?].
  - destruct (buildMulticastPlan_returns request snapshot weights bounds cs Hwf) as (st & n & _ & ->). done.
  - destruct (collective_root _ Hv Es) as [root Hr].
    destruct (buildCollectivePlan_returns request snapshot weights bounds cs root Hwf Hr)
      as [(_ & _ & ? & ? & _ & ->)|(_ & ? & ? & ? & ->)]; done.
  - destruct (Request.destinations request) as [|d ds] eqn:Ed.
    + assert (Hf : firstDestination request = Throw out_of_range) by (unfold firstDestination; by rewrite Ed).
      unfold planPointToPoint, mbind, M_bind, lift. by rewrite Hf.
    + specialize (Hpp d). unfold firstDestination in Hpp. rewrite Ed in Hpp. specialize (Hpp eq_refl).
      by destruct (planPointToPoint _ _ _ _ _) as [[|[]] ?].
Qed.

Lemma planCommunication_exceptions_witness :
  match planCommunication basicRequest basicSnapshot ∅ basicBounds initialCounters with
  | (Ok _, _) => valid_request basicRequest | _ => False end.
Proof.
  pose proof (planCommunication_exceptions basicRequest basicSnapshot ∅ basicBounds initialCounters) as H.
  assert (Hwf : counters_wf initialCounters) by (apply (bool_decide_unpack _); vm_compute; exact I).
  specialize (H Hwf).
  destruct (planCommunication basicRequest basicSnapshot ∅ basicBounds initialCounters) as [[o|[]] cs] eqn:E.
  - exact H.
  - destruct H as [H _]. apply H, validate_iff. reflexivity.
  - destruct H as (_ & H & _). discriminate H.
  - exact H.
Defined.

(** How a candidate is costed and ranked. *)
Definition rankableAt (request : CommunicationRequest) (snapshot : EvidenceSnapshot) (weights : gmap CostFactor double)
    (bounds : Bounds) (c : CandidatePath) : Rankable := {|
  Rankable.path := c; Rankable.feasibility := evaluateCandidateFeasibility request snapshot c bounds;
  Rankable.cost := evaluateCandidateCost request snapshot c weights bounds |}.

Lemma reportRankable_at request snapshot weights bounds c :
  feasible_path request snapshot c bounds ->
  reportRankable (reportOf request snapshot weights bounds c) = rankableAt request snapshot weights bounds c /\
  (reportOf request snapshot weights bounds c).(CandidateReport.cost) = evaluateCandidateCost request snapshot c weights bounds.
Proof.
  intros Hf%evaluateCandidateFeasibility_iff. unfold reportRankable, rankableAt, reportOf. simpl. by rewrite Hf.
Qed.

(** [c] is a best feasible path from [src] to [dst]: a simple path of published
    links that meets every hard constraint, and no enumerated feasible path ranks
    before it. *)
Definition optimal_path (request : CommunicationRequest) (snapshot : EvidenceSnapshot) (weights : gmap CostFactor double)
    (bounds : Bounds) (src dst : EndpointId) (c : CandidatePath) : Prop :=
  simple_path snapshot.(Snapshot.links) src dst c.(CandidatePath.hops) /\
  feasible_path request snapshot c bounds /\
  forall c', c' ∈ enumerateCandidatePaths snapshot src dst bounds -> feasible_path request snapshot c' bounds ->
    rankLess (rankableAt request snapshot weights bounds c') (rankableAt request snapshot weights bounds c) = false.

Lemma best_path_optimal request snapshot weights bounds src dst rep :
  best_path request snapshot weights bounds src dst rep ->
  optimal_path request snapshot weights bounds src dst rep.(CandidateReport.path) /\
  rep.(CandidateReport.cost) = evaluateCandidateCost request snapshot rep.(CandidateReport.path) weights bounds /\
  rep.(CandidateReport.path).(CandidatePath.source) = src /\ rep.(CandidateReport.path).(CandidatePath.destination) = dst.
Proof.
  intros [He Hf Hr Hb]. destruct (elem_of_enumerate _ _ _ _ _ He) as (Hs & Hd & Hp & _).
  destruct (reportRankable_at _ _ weights _ _ Hf) as [Er Ec]. rewrite <- Hr in Er, Ec.
  split; [|done]. split; [done|]. split; [done|]. intros c' Hc' Hf'.
  specialize (Hb c' Hc' Hf'). unfold reportLess in Hb.
  destruct (reportRankable_at _ _ weights _ _ Hf') as [Er' _]. by rewrite Er', Er in Hb.
Qed.

(** C1: a plan for one destination is sound: each of its paths carries the whole
    payload along a simple path of published links that meets every hard constraint,
    stage by stage; paths are numbered from 1, at most [maxFallbacks] beside the
    primary; and the primary is best: no enumerated feasible path ranks before it. *)
Theorem planCommunication_single_sound request snapshot weights bounds cs outcome cs' plan :
  counters_wf cs -> single_destination request ->
  returns (planCommunication request snapshot weights bounds) cs outcome cs' ->
  outcome.(PlanOutcome.plan) = Some plan ->
  outcome.(PlanOutcome.success) = true /\
  exists dst n primary, request.(Request.destinations) = [dst] /\
    (forall p, p ∈ plan.(Plan.candidatePaths) -> exists c,
      path_for snapshot request p.(Path.id) c (evaluateCandidateCost request snapshot c weights bounds) p /\
      simple_path snapshot.(Snapshot.links) request.(Request.source) dst c.(CandidatePath.hops) /\
      feasible_path request snapshot c bounds) /\
    Path.id <$> plan.(Plan.candidatePaths) = seqZ 1 (1 + n) /\
    plan.(Plan.primaryPath) = 1 /\ plan.(Plan.fallbackPaths) = seqZ 2 n /\
    0 <= n <= Z.max 0 bounds.(Bounds.maxFallbacks) /\
    optimal_path request snapshot weights bounds request.(Request.source) dst primary /\
    stages_for snapshot request primary.(CandidatePath.hops) plan.(Plan.orderedStages) /\
    plan.(Plan.cost) = evaluateCandidateCost request snapshot primary weights bounds.
Proof.
  intros Hwf Hs Hr Hp.
  destruct (single_destination_returns _ _ _ _ _ _ _ Hs Hr) as (dst & Hd & Hr').
  destruct (point_to_point_outcome _ _ _ _ _ _ _ _ Hwf (firstDestination_single _ _ Hd) Hr')
    as [(_ & Hn & _)|(Hsucc & paths & Hbest & Hne & Hpf & Hplan & _)]; [congruence|].
  split; [exact Hsucc|]. rewrite Hp in Hplan. injection Hplan as ->.
  remember (retained request snapshot weights bounds dst) as reps eqn:Ereps.
  destruct reps as [|rep reps]; [done|]. destruct paths as [|p paths]; [done|].
  apply best_report_Some, best_path_optimal in Hbest as (Hopt & Hcost & _ & _).
  assert (Hlen : length reps = length paths) by (apply paths_for_length in Hpf; by injection Hpf).
  assert (Hmax : (length reps <= Z.to_nat bounds.(Bounds.maxFallbacks))%nat).
  { apply (f_equal length) in Ereps. unfold retained in Ereps. rewrite length_take in Ereps. cbn [length] in Ereps. lia. }
  exists dst, (Z.of_nat (length reps)), rep.(CandidateReport.path).
  pose proof (paths_for_ids _ _ _ _ _ Hpf) as Hids. destruct Hpf as [Hpf0 Hpf].
  pose proof (paths_for_ids _ _ _ _ _ Hpf) as Hids'.
  split; [done|]. split.
  - intros q Hq. apply list_elem_of_lookup in Hq as [i Hi]. cbn in Hi.
    destruct (paths_for_lookup snapshot request 1 (rep :: reps) (p :: paths) i q (conj Hpf0 Hpf) Hi) as (r & Hri & Hq).
    assert (Hin : r ∈ ranked_reports (reports_of request snapshot weights bounds
       (enumerateCandidatePaths snapshot request.(Request.source) dst bounds))).
    { apply list_elem_of_lookup_2 in Hri. rewrite Ereps in Hri. unfold retained in Hri.
      by apply elem_of_take in Hri as (? & ?%list_elem_of_lookup_2 & _). }
    apply elem_of_ranked_reports_of in Hin as (c & Hc & Hf & ->). exists c.
    rewrite <- (proj2 (reportRankable_at _ _ weights _ _ Hf)). rewrite (pf_id _ _ _ _ _ _ Hq).
    split; [exact Hq|]. split; [|done]. by apply elem_of_enumerate in Hc as (_ & _ & ? & _).
  - cbn [Plan.candidatePaths pointToPointPlan Plan.primaryPath Plan.fallbackPaths Plan.orderedStages Plan.cost tail].
    split; [rewrite Hids; f_equal; simpl; lia|]. split; [apply (pf_id _ _ _ _ _ _ Hpf0)|].
    split; [done|]. split; [lia|]. split; [done|]. split; [apply (pf_stages _ _ _ _ _ _ Hpf0)|].
    by rewrite (pf_cost _ _ _ _ _ _ Hpf0).
Qed.

(** The plan of an outcome, where one was returned. *)
Definition plan_of (r : result PlanOutcome * Counters) : option CommunicationPlan :=
  match r with (Ok o, _) => o.(PlanOutcome.plan) | _ => None end.

Lemma initialCounters_wf : counters_wf initialCounters.
Proof. apply (bool_decide_unpack _). vm_compute. exact I. Qed.

Lemma planCommunication_single_sound_witness :
  exists plan, plan_of (planCommunication basicRequest basicSnapshot ∅ basicBounds initialCounters) = Some plan /\
    plan.(Plan.primaryPath) = 1 /\ length plan.(Plan.candidatePaths) = 2%nat.
Proof.
  destruct (planCommunication basicRequest basicSnapshot ∅ basicBounds initialCounters) as [[o|e] cs] eqn:E;
    [|vm_compute in E; discriminate E].
  destruct o.(PlanOutcome.plan) as [plan|] eqn:Ep;
    [|vm_compute in E; injection E as E1 E2; rewrite <- E1 in Ep; discriminate Ep].
  exists plan. split; [exact Ep|]. split.
  - destruct (planCommunication_single_sound basicRequest basicSnapshot ∅ basicBounds initialCounters o cs plan
      initialCounters_wf (or_introl eq_refl) E Ep) as (_ & dst & n & primary & _ & _ & _ & H & _). exact H.
  - vm_compute in E. injection E as E1 E2. rewrite <- E1 in Ep. injection Ep as Ep. rewrite <- Ep. reflexivity.
Defined.

(** C2: planning for one destination succeeds exactly when an enumerated candidate
    meets every hard constraint; and as long as the enumeration stays below the
    candidate bound, exactly when any simple path within the depth and relay bounds
    does: no feasible route is missed, and no infeasible one is invented. *)
Theorem planCommunication_single_complete request snapshot weights bounds cs outcome cs' dst :
  counters_wf cs -> single_destination request -> request.(Request.destinations) = [dst] ->
  returns (planCommunication request snapshot weights bounds) cs outcome cs' ->
  let src := request.(Request.source) in
  let cands := enumerateCandidatePaths snapshot src dst bounds in
  (outcome.(PlanOutcome.success) = true <-> exists c, c ∈ cands /\ feasible_path request snapshot c bounds) /\
  (0 <= bounds.(Bounds.maxPathDepth) -> Z.of_nat (length cands) < bounds.(Bounds.maxCandidates) ->
   outcome.(PlanOutcome.success) = true <->
   exists hops, simple_path snapshot.(Snapshot.links) src dst hops /\ within_bounds bounds hops /\
     feasible_path request snapshot (mkCandidate src dst hops) bounds).
Proof.
  intros Hwf Hs Hd Hr src cands.
  destruct (single_destination_returns _ _ _ _ _ _ _ Hs Hr) as (dst' & Hd' & Hr').
  assert (dst' = dst) as -> by congruence. clear Hd'.
  assert (Hiff : outcome.(PlanOutcome.success) = true <-> exists c, c ∈ cands /\ feasible_path request snapshot c bounds).
  { destruct (point_to_point_outcome _ _ _ _ _ _ _ _ Hwf (firstDestination_single _ _ Hd) Hr')
      as [(-> & _ & _ & Hn)|(-> & paths & Hbest & Hne & _)].
    - rewrite best_report_None in Hn. naive_solver.
    - split; [|done]. intros _. destruct (retained _ _ _ _ _) as [|rep reps]; [done|].
      apply best_report_Some in Hbest as [He Hf _ _]. eauto. }
  split; [exact Hiff|]. intros Hdepth Hcap. rewrite Hiff. split.
  - intros (c & Hc & Hf). destruct (elem_of_enumerate _ _ _ _ _ Hc) as (Es & Ed & Hp & Hb).
    exists c.(CandidatePath.hops). split_and!; [done|done|].
    destruct c as [s d hops]. simpl in *. subst s d. exact Hf.
  - intros (hops & Hp & Hb & Hf). exists (mkCandidate src dst hops). split; [|exact Hf].
    by apply elem_of_enumerate_unbounded.
Qed.

Lemma planCommunication_single_complete_witness :
  exists c, c ∈ enumerateCandidatePaths basicSnapshot 10 11 basicBounds /\ feasible_path basicRequest basicSnapshot c basicBounds.
Proof.
  destruct (planCommunication basicRequest basicSnapshot ∅ basicBounds initialCounters) as [[o|e] cs] eqn:E;
    [|vm_compute in E; discriminate E].
  destruct (planCommunication_single_complete basicRequest basicSnapshot ∅ basicBounds initialCounters o cs 11
    initialCounters_wf (or_introl eq_refl) eq_refl E) as [H _].
  apply H. vm_compute in E. injection E as E1 E2. rewrite <- E1. reflexivity.
Defined.

(** ** Fan-out properties *)

(** [p] takes the whole payload from [src] to [d] along a best feasible path. *)
Definition delivers (request : CommunicationRequest) (snapshot : EvidenceSnapshot) (weights : gmap CostFactor double)
    (bounds : Bounds) (src d : EndpointId) (p : Path) : Prop :=
  p.(Path.source) = src /\ p.(Path.destination) = d /\
  exists c, path_for snapshot request p.(Path.id) c (evaluateCandidateCost request snapshot c weights bounds) p /\
    optimal_path request snapshot weights bounds src d c.

Definition reachable_from (request : CommunicationRequest) (snapshot : EvidenceSnapshot) (bounds : Bounds)
    (src d : EndpointId) : Prop :=
  exists c, c ∈ enumerateCandidatePaths snapshot src d bounds /\ feasible_path request snapshot c bounds.

Lemma best_report_reachable request snapshot weights bounds src d :
  best_report request snapshot weights bounds src d <> None <-> reachable_from request snapshot bounds src d.
Proof.
  split.
  - destruct (best_report _ _ _ _ _ _) as [rep|] eqn:E; [|done]. intros _.
    apply best_report_Some in E as [He Hf _ _]. by exists rep.(CandidateReport.path).
  - intros (c & Hc & Hf) E. rewrite best_report_None in E. naive_solver.
Qed.

Lemma reachable_all request snapshot weights bounds src ds :
  Forall (reachable_from request snapshot bounds src) ds <->
  Forall (fun d => best_report request snapshot weights bounds src d <> None) ds.
Proof. apply Forall_iff. intros d. symmetry. apply best_report_reachable. Qed.

Lemma paths_for_delivers request snapshot weights bounds src k ds paths :
  Forall (fun d => best_report request snapshot weights bounds src d <> None) ds ->
  paths_for snapshot request k (omap (best_report request snapshot weights bounds src) ds) paths ->
  Forall2 (delivers request snapshot weights bounds src) ds paths.
Proof.
  intros Hall. revert k paths; induction Hall as [|d ds Hd Hall IH]; intros k paths; simpl.
  { destruct paths; [constructor|done]. }
  destruct (best_report request snapshot weights bounds src d) as [rep|] eqn:E; [|done].
  destruct paths as [|p paths]; [done|]. intros [Hp Hps]. constructor; [|by eapply IH].
  apply best_report_Some, best_path_optimal in E as (Hopt & Hcost & Hs & Hdst).
  rewrite Hcost in Hp. split_and!; [rewrite (pf_source _ _ _ _ _ _ Hp); done|rewrite (pf_destination _ _ _ _ _ _ Hp); done|].
  exists rep.(CandidateReport.path). by rewrite (pf_id _ _ _ _ _ _ Hp).
Qed.

Lemma omap_all_length {A B} (f : A -> option B) l : Forall (fun x => f x <> None) l -> length (omap f l) = length l.
Proof. induction 1 as [|x l Hx Hl IH]; [done|]. csimpl. destruct (f x); [|done]. csimpl. by rewrite IH. Qed.

(** C27: a multicast succeeds exactly when every destination is reachable over a
    feasible path; it then holds one path per destination, in the destinations'
    order, each delivering the whole payload from the source along a best feasible
    path to that destination; otherwise the outcome and the returned plan are marked
    as rejected. *)
Theorem planCommunication_multicast request snapshot weights bounds cs outcome cs' :
  counters_wf cs -> effectiveShape request = RequestShape.MULTICAST ->
  returns (planCommunication request snapshot weights bounds) cs outcome cs' ->
  exists plan, outcome.(PlanOutcome.plan) = Some plan /\
    (outcome.(PlanOutcome.success) = true <->
       Forall (reachable_from request snapshot bounds request.(Request.source)) request.(Request.destinations)) /\
    plan.(Plan.feasibility) = (if outcome.(PlanOutcome.success) then Feasibility.FEASIBLE else Feasibility.REJECT_ENDPOINT) /\
    (outcome.(PlanOutcome.success) = true ->
       Forall2 (delivers request snapshot weights bounds request.(Request.source))
         request.(Request.destinations) plan.(Plan.candidatePaths) /\
       Path.id <$> plan.(Plan.candidatePaths) = seqZ 1 (Z.of_nat (length request.(Request.destinations)))).
Proof.
  intros Hwf Hs Hr. pose proof (returns_valid _ _ _ _ _ _ _ Hr) as Hv.
  unfold returns in Hr. rewrite planCommunication_valid in Hr by done. rewrite Hs in Hr.
  destruct (buildMulticastPlan_returns request snapshot weights bounds cs Hwf) as (st & n & [(paths & Hp & Hpf) _ Hf _] & Hm).
  rewrite Hm in Hr. injection Hr as <- <-. eexists. split; [reflexivity|].
  cbn [PlanOutcome.success Plan.feasibility Plan.candidatePaths multicastPlan bindGenerations].
  simpl in Hf, Hp, Hpf. rewrite Hp.
  assert (Hiff : negb st.(MulticastState.anyFail) = true <->
    Forall (fun d => best_report request snapshot weights bounds request.(Request.source) d <> None) request.(Request.destinations)).
  { rewrite Hf, negb_true_iff, <- not_true_iff_false, existsb_exists, Forall_forall. setoid_rewrite <- list_elem_of_In.
    setoid_rewrite bool_decide_eq_true. naive_solver. }
  split_and!.
  - by rewrite Hiff, reachable_all.
  - by destruct (MulticastState.anyFail st).
  - rewrite Hiff. intros Hall. split; [by eapply paths_for_delivers|].
    rewrite (paths_for_ids _ _ _ _ _ Hpf), omap_all_length by done. done.
Qed.

(** A request to two destinations, one behind the host memory relay. *)
Definition multicastRequest : CommunicationRequest :=
  let r := mkRequest 6 10 11 4096 RequestShape.MULTICAST ∅ in
  {| Request.id := 6; Request.generation := 1; Request.shape := RequestShape.MULTICAST; Request.source := 10;
     Request.destinations := [11; 12]; Request.payloadSize := 4096; Request.direction := r.(Request.direction);
     Request.latencySensitive := false; Request.throughputTarget := 0; Request.requireOrdering := false;
     Request.requireReliability := false; Request.allowRetry := false; Request.allowStaging := true;
     Request.allowHostStaging := true; Request.allowStorageStaging := false; Request.allowRelay := true;
     Request.allowMulticast := true; Request.allowed := ∅; Request.forbidden := ∅;
     Request.requiredFailureDomain := ""; Request.preferredLocality := ""; Request.maxHops := 16;
     Request.maxStages := 16; Request.maxMovementCost := None; Request.reservationBinding := None;
     Request.externalPriority := 0; Request.policyGeneration := 0;
     Request.collectiveShape := CollectiveShape.UNKNOWN; Request.participants := [];
     Request.collectiveCount := 0; Request.provenance := "" |}.

Lemma planCommunication_multicast_witness :
  Forall (reachable_from multicastRequest basicSnapshot basicBounds 10) [11; 12].
Proof.
  destruct (planCommunication multicastRequest basicSnapshot ∅ basicBounds initialCounters) as [[o|e] cs] eqn:E;
    [|vm_compute in E; discriminate E].
  destruct (planCommunication_multicast multicastRequest basicSnapshot ∅ basicBounds initialCounters o cs
    initialCounters_wf eq_refl E) as (plan & _ & H & _).
  apply H. vm_compute in E. injection E as E1 E2. rewrite <- E1. reflexivity.
Defined.

(** C28: a collective succeeds exactly when the announced count matches the
    participants and the bound, every participant is a current, reachable, ready
    endpoint of known kind, and every other participant is reachable from the root,
    the first one; it then holds one best path from the root to each of them. *)
Theorem planCommunication_collective request snapshot weights bounds cs outcome cs' root :
  counters_wf cs -> effectiveShape request = RequestShape.COLLECTIVE ->
  head request.(Request.participants) = Some root ->
  returns (planCommunication request snapshot weights bounds) cs outcome cs' ->
  exists plan, outcome.(PlanOutcome.plan) = Some plan /\
    (outcome.(PlanOutcome.success) = true <->
       complete_participants request snapshot bounds /\
       Forall (reachable_from request snapshot bounds root) (others root request.(Request.participants))) /\
    plan.(Plan.feasibility) = (if outcome.(PlanOutcome.success) then Feasibility.FEASIBLE else Feasibility.REJECT_ENDPOINT) /\
    (outcome.(PlanOutcome.success) = true ->
       Forall2 (delivers request snapshot weights bounds root) (others root request.(Request.participants)) plan.(Plan.candidatePaths)).
Proof.
  intros Hwf Hs Hroot Hr. pose proof (returns_valid _ _ _ _ _ _ _ Hr) as Hv.
  unfold returns in Hr. rewrite planCommunication_valid in Hr by done. rewrite Hs in Hr.
  setoid_rewrite (reachable_all request snapshot weights bounds).
  destruct (buildCollectivePlan_returns request snapshot weights bounds cs root Hwf Hroot)
    as [(Hc & Hall & st & n & (paths & Hp & Hpf & _) & Hm)|(Hn & paths & why & n & Hm)];
    rewrite Hm in Hr; injection Hr as <- <-; eexists; (split; [reflexivity|]).
  - cbn [PlanOutcome.success Plan.feasibility Plan.candidatePaths collectivePlan]. simpl in Hp, Hpf. rewrite Hp.
    split_and!; [tauto|done|]. intros _. by eapply paths_for_delivers.
  - cbn [PlanOutcome.success Plan.feasibility refusal refusedCollective]. split_and!; [|done|done].
    split; [done|]. intros [Hc Hall]. destruct Hn as [Hn|Hn]; [done|]. exfalso.
    apply Exists_exists in Hn as (m & Hm' & E). rewrite Forall_forall in Hall. by apply (Hall m Hm').
Qed.

Definition collectiveRequest : CommunicationRequest :=
  {| Request.id := 7; Request.generation := 1; Request.shape := RequestShape.COLLECTIVE; Request.source := 10;
     Request.destinations := []; Request.payloadSize := 4096; Request.direction := Direction.FORWARD;
     Request.latencySensitive := false; Request.throughputTarget := 0; Request.requireOrdering := false;
     Request.requireReliability := false; Request.allowRetry := false; Request.allowStaging := true;
     Request.allowHostStaging := true; Request.allowStorageStaging := false; Request.allowRelay := true;
     Request.allowMulticast := false; Request.allowed := ∅; Request.forbidden := ∅;
     Request.requiredFailureDomain := ""; Request.preferredLocality := ""; Request.maxHops := 16;
     Request.maxStages := 16; Request.maxMovementCost := None; Request.reservationBinding := None;
     Request.externalPriority := 0; Request.policyGeneration := 0;
     Request.collectiveShape := CollectiveShape.BROADCAST; Request.participants := [10; 11; 12];
     Request.collectiveCount := 3; Request.provenance := "" |}.

Lemma planCommunication_collective_witness :
  Forall (reachable_from collectiveRequest basicSnapshot basicBounds 10) [11; 12].
Proof.
  destruct (planCommunication collectiveRequest basicSnapshot ∅ basicBounds initialCounters) as [[o|e] cs] eqn:E;
    [|vm_compute in E; discriminate E].
  destruct (planCommunication_collective collectiveRequest basicSnapshot ∅ basicBounds initialCounters o cs 10
    initialCounters_wf eq_refl eq_refl E) as (plan & _ & H & _).
  apply H. vm_compute in E. injection E as E1 E2. rewrite <- E1. reflexivity.
Defined.

(** ** The evidence a plan is bound to *)

Lemma paths_for_hops snap req k reps paths :
  paths_for snap req k reps paths ->
  hop_of_stage <$> concat (Path.stages <$> paths) = concat (CandidatePath.hops <$> (CandidateReport.path <$> reps)).
Proof.
  revert k paths; induction reps as [|rep reps IH]; intros k [|p paths]; csimpl; try done.
  intros [Hp Hps]. rewrite fmap_app. rewrite (IH _ _ Hps). f_equal.
  eapply stages_for_hops, pf_stages, Hp.
Qed.

Lemma elem_of_stageClaims stages r : r ∈ stageClaims stages <-> r <> 0 /\ r ∈ Stage.stagingResource <$> stages.
Proof.
  unfold stageClaims. rewrite list_elem_of_filter, Is_true_true, negb_true_iff. unfold isNull. by rewrite Z.eqb_neq.
Qed.

Lemma elem_of_claims l r : r ∈ set_insert_all Z.ltb [] l <-> r ∈ l.
Proof. rewrite (elem_of_set_insert_all _ Zltb_total). set_solver. Qed.

(** The hops a plan's stages cover. *)
Definition plan_hops (plan : CommunicationPlan) : list Hop :=
  hop_of_stage <$> concat (Path.stages <$> plan.(Plan.candidatePaths)).

(** The stages whose staging resources a plan claims: those of the primary path where
    the other paths are fallbacks, those of all paths where all are executed. *)
Definition claimed_stages (plan : CommunicationPlan) : list Stage :=
  match plan.(Plan.shape) with
  | RequestShape.POINT_TO_POINT => plan.(Plan.orderedStages)
  | _ => concat (Path.stages <$> plan.(Plan.candidatePaths))
  end.

(** A plan bound to a snapshot: its eight generations, the generation of every
    endpoint and link on its paths and nothing else, and its staging claims. *)
Record bound_plan (snap : EvidenceSnapshot) (plan : CommunicationPlan) : Prop := {
  bd_generations : plan.(Plan.topologyGeneration) = snap.(Snapshot.topologyGeneration) /\
    plan.(Plan.capacityGeneration) = snap.(Snapshot.capacityGeneration) /\
    plan.(Plan.reservationGeneration) = snap.(Snapshot.reservationGeneration) /\
    plan.(Plan.congestionGeneration) = snap.(Snapshot.congestionGeneration) /\
    plan.(Plan.capabilityGeneration) = snap.(Snapshot.capabilityGeneration) /\
    plan.(Plan.healthGeneration) = snap.(Snapshot.healthGeneration) /\
    plan.(Plan.placementGeneration) = snap.(Snapshot.placementGeneration) /\
    plan.(Plan.authorityGeneration) = snap.(Snapshot.authorityGeneration);
  bd_endpoints : forall x, x ∈ plan.(Plan.endpointGenerations) <-> bound_endpoint snap (plan_hops plan) x;
  bd_links : forall x, x ∈ plan.(Plan.linkGenerations) <-> bound_link snap (plan_hops plan) x;
  bd_claims : forall r, r ∈ plan.(Plan.requiredResourceClaims) <->
    r <> 0 /\ r ∈ Stage.stagingResource <$> claimed_stages plan;
  bd_staging : plan.(Plan.requiredStagingResources) = plan.(Plan.requiredResourceClaims);
  bd_revalidate : plan.(Plan.revalidateBeforeExecute) = true;
}.

Lemma pointToPointPlan_bound request snapshot id gen reps paths n :
  paths_for snapshot request 1 reps paths ->
  bound_plan snapshot (pointToPointPlan request snapshot id gen (CandidateReport.path <$> reps) paths n).
Proof.
  intros Hp. pose proof (paths_for_hops _ _ _ _ _ Hp) as Hh.
  destruct (bind_hops_correct snapshot (concat (CandidatePath.hops <$> (CandidateReport.path <$> reps)))) as (He & Hl & _).
  split; cbn [pointToPointPlan Plan.topologyGeneration Plan.capacityGeneration Plan.reservationGeneration
    Plan.congestionGeneration Plan.capabilityGeneration Plan.healthGeneration Plan.placementGeneration
    Plan.authorityGeneration Plan.endpointGenerations Plan.linkGenerations Plan.requiredResourceClaims
    Plan.requiredStagingResources Plan.revalidateBeforeExecute]; [done| | | |done|done].
  - unfold plan_hops. cbn [pointToPointPlan Plan.candidatePaths]. rewrite Hh. exact He.
  - unfold plan_hops. cbn [pointToPointPlan Plan.candidatePaths]. rewrite Hh. exact Hl.
  - intros r. unfold claimed_stages. cbn [pointToPointPlan Plan.shape Plan.orderedStages].
    destruct reps as [|rep reps], paths as [|p paths]; try done; csimpl; [set_solver|].
    destruct Hp as [Hp _]. rewrite elem_of_claims, <- (stages_for_staging _ _ _ _ (pf_stages _ _ _ _ _ _ Hp)).
    by rewrite list_elem_of_filter.
Qed.

Lemma bindGenerations_correct paths snap :
  (forall x, x ∈ (bindGenerations paths snap).1.(Binding.endpoints) <-> bound_endpoint snap (hop_of_stage <$> concat (Path.stages <$> paths)) x) /\
  (forall x, x ∈ (bindGenerations paths snap).1.(Binding.links) <-> bound_link snap (hop_of_stage <$> concat (Path.stages <$> paths)) x) /\
  (forall r, r ∈ (bindGenerations paths snap).2 <-> r <> 0 /\ r ∈ Stage.stagingResource <$> concat (Path.stages <$> paths)).
Proof.
  destruct (bind_hops_correct snap (hop_of_stage <$> concat (Path.stages <$> paths))) as (He & Hl & _).
  split_and!; [exact He|exact Hl|]. intros r. simpl. by rewrite elem_of_claims, elem_of_stageClaims.
Qed.

Lemma multicastPlan_bound req snap id gen st : bound_plan snap (multicastPlan req snap id gen st).
Proof.
  unfold multicastPlan. pose proof (bindGenerations_correct st.(MulticastState.candidatePaths) snap) as (He & Hl & Hc).
  destruct (bindGenerations _ _) as [binding claims]. by split.
Qed.

Lemma collectivePlan_bound req snap id gen reps st :
  collective_extends req snap CollectiveState_init reps st -> bound_plan snap (collectivePlan req snap id gen st).
Proof.
  intros (paths & Hp & _ & _ & Hb & Hc). simpl in Hp, Hb, Hc.
  destruct (bindGenerations_correct paths snap) as (He & Hl & Hcl).
  split; unfold plan_hops, claimed_stages; cbn; rewrite ?Hp, ?Hb, ?Hc; auto 10.
Qed.

(** ** The paths of a plan *)

(** What every successful plan is made of: numbered paths, each following the hops of a
    feasible simple candidate from the path's source to its destination, a primary among
    them, and a cost that is a summary of components. *)
Record assembled_plan (request : CommunicationRequest) (snap : EvidenceSnapshot) (bounds : Bounds) (plan : CommunicationPlan) : Prop := {
  ap_paths : Forall (fun p => exists c cost, path_for snap request p.(Path.id) c cost p /\ feasible_path request snap c bounds /\
    simple_path snap.(Snapshot.links) c.(CandidatePath.source) c.(CandidatePath.destination) c.(CandidatePath.hops)) plan.(Plan.candidatePaths);
  ap_ids : Path.id <$> plan.(Plan.candidatePaths) = seqZ 1 (Z.of_nat (length plan.(Plan.candidatePaths)));
  ap_primary : plan.(Plan.primaryPath) = if bool_decide (plan.(Plan.candidatePaths) = []) then 0 else 1;
  ap_cost : exists comps, plan.(Plan.cost) = CostSummary_of comps;
  ap_feasibility : plan.(Plan.feasibility) = Feasibility.FEASIBLE;
  ap_ordered : plan.(Plan.orderedStages) = match plan.(Plan.candidatePaths) with p :: _ => p.(Path.stages) | [] => [] end;
  ap_request : plan.(Plan.requestId) = request.(Request.id);
}.

Definition usable_candidate (request : CommunicationRequest) (snap : EvidenceSnapshot) (bounds : Bounds) (c : CandidatePath) : Prop :=
  feasible_path request snap c bounds /\
  simple_path snap.(Snapshot.links) c.(CandidatePath.source) c.(CandidatePath.destination) c.(CandidatePath.hops).

Lemma paths_for_usable request snap bounds reps paths :
  Forall (fun rep => usable_candidate request snap bounds rep.(CandidateReport.path)) reps ->
  paths_for snap request 1 reps paths ->
  Forall (fun p => exists c cost, path_for snap request p.(Path.id) c cost p /\ feasible_path request snap c bounds /\
    simple_path snap.(Snapshot.links) c.(CandidatePath.source) c.(CandidatePath.destination) c.(CandidatePath.hops)) paths /\
  Path.id <$> paths = seqZ 1 (Z.of_nat (length paths)).
Proof.
  intros Hf Hp. split; [|by rewrite (paths_for_ids _ _ _ _ _ Hp), (paths_for_length _ _ _ _ _ Hp)].
  apply Forall_forall. intros p [i Hi]%list_elem_of_lookup.
  destruct (paths_for_lookup _ _ _ _ _ _ _ Hp Hi) as (rep & Hrep & Hpf).
  rewrite Forall_lookup in Hf. exists rep.(CandidateReport.path), rep.(CandidateReport.cost).
  rewrite (pf_id _ _ _ _ _ _ Hpf). split; [exact Hpf|]. by eapply Hf.
Qed.

Lemma ranked_usable request snap weights bounds src dst :
  Forall (fun rep => usable_candidate request snap bounds rep.(CandidateReport.path))
    (ranked_reports (reports_of request snap weights bounds (enumerateCandidatePaths snap src dst bounds))).
Proof.
  apply Forall_forall. intros rep (c & Hc & Hf & ->)%elem_of_ranked_reports_of. split; [exact Hf|].
  apply elem_of_enumerate in Hc as (Es & Ed & Hp & _). simpl. by rewrite Es, Ed.
Qed.

Lemma best_usable request snap weights bounds src ds :
  Forall (fun rep => usable_candidate request snap bounds rep.(CandidateReport.path)) (omap (best_report request snap weights bounds src) ds).
Proof.
  apply Forall_forall. intros rep (d & _ & E)%list_elem_of_omap. unfold best_report in E.
  pose proof (ranked_usable request snap weights bounds src d) as Hr.
  destruct (ranked_reports _) as [|r l]; [done|]. injection E as ->. by apply Forall_cons in Hr as [? _].
Qed.

Lemma evaluateCandidateCost_summary req snap cand weights bounds :
  exists comps, evaluateCandidateCost req snap cand weights bounds = CostSummary_of comps.
Proof. unfold evaluateCandidateCost. eexists. reflexivity. Qed.

Lemma pointToPointPlan_assembled request snap weights bounds dst id gen paths n :
  retained request snap weights bounds dst <> [] ->
  paths_for snap request 1 (retained request snap weights bounds dst) paths ->
  assembled_plan request snap bounds
    (pointToPointPlan request snap id gen (CandidateReport.path <$> retained request snap weights bounds dst) paths n).
Proof.
  intros Hne Hp.
  assert (Hu : Forall (fun rep => usable_candidate request snap bounds rep.(CandidateReport.path)) (retained request snap weights bounds dst))
    by (unfold retained; apply Forall_take, ranked_usable).
  assert (Hc : Forall (fun rep => exists comps, rep.(CandidateReport.cost) = CostSummary_of comps) (retained request snap weights bounds dst)).
  { unfold retained. apply Forall_take, Forall_forall. intros rep (c & _ & Hf & ->)%elem_of_ranked_reports_of.
    rewrite (proj2 (reportRankable_at _ _ weights _ _ Hf)). apply evaluateCandidateCost_summary. }
  destruct (paths_for_usable _ _ _ _ _ Hu Hp) as [H1 H2].
  destruct (retained request snap weights bounds dst) as [|rep reps]; [done|]. destruct paths as [|p paths]; [done|].
  destruct Hp as [Hp _]. apply Forall_cons in Hc as [Hc _].
  split; [exact H1|exact H2|exact (pf_id _ _ _ _ _ _ Hp)| |done|done|done]. cbn. by rewrite (pf_cost _ _ _ _ _ _ Hp).
Qed.

Lemma planned_is_assembled request snap weights bounds cs outcome cs' plan :
  counters_wf cs -> returns (planCommunication request snap weights bounds) cs outcome cs' ->
  outcome.(PlanOutcome.success) = true -> outcome.(PlanOutcome.plan) = Some plan ->
  bound_plan snap plan /\ assembled_plan request snap bounds plan.
Proof.
  intros Hwf Hr Hs Hp. pose proof (returns_valid _ _ _ _ _ _ _ Hr) as Hv.
  unfold returns in Hr. rewrite planCommunication_valid in Hr by done.
  assert (Hpp : planPointToPoint request snap weights bounds cs = (Ok outcome, cs') ->
    bound_plan snap plan /\ assembled_plan request snap bounds plan).
  { intros Hr'. destruct (firstDestination request) as [dst|e] eqn:Ed.
    - destruct (point_to_point_outcome _ _ _ _ _ _ _ _ Hwf Ed Hr') as [(Hf & _)|(_ & paths & _ & Hne & Hpf & Hplan & _)]; [congruence|].
      rewrite Hplan in Hp. injection Hp as <-. split; [by apply pointToPointPlan_bound|by apply pointToPointPlan_assembled].
    - unfold planPointToPoint, mbind, M_bind, lift in Hr'. by rewrite Ed in Hr'. }
  destruct (effectiveShape request) eqn:Es; auto.
  - destruct (buildMulticastPlan_returns request snap weights bounds cs Hwf) as (st & n & [(paths & Hpaths & Hpf) _ _ Hprim] & Hm).
    rewrite Hm in Hr. injection Hr as <- <-. injection Hp as <-. split; [apply multicastPlan_bound|].
    destruct (paths_for_usable _ _ _ _ _ (best_usable _ _ _ _ _ _) Hpf) as [H1 H2]. simpl in Hpaths, Hprim.
    pose proof (paths_for_length _ _ _ _ _ Hpf) as Hlen.
    unfold multicastPlan. destruct (bindGenerations _ _). split; cbn; rewrite ?Hpaths; [exact H1|exact H2| |eauto| |done|done].
    + rewrite Hprim. destruct paths, (omap _ _); done.
    + cbn in Hs. by destruct (MulticastState.anyFail st).
  - destruct (collective_root _ Hv Es) as [root Hroot].
    destruct (buildCollectivePlan_returns request snap weights bounds cs root Hwf Hroot)
      as [(_ & _ & st & n & Hx & Hm)|(_ & paths & why & n & Hm)]; rewrite Hm in Hr; injection Hr as <- <-; [|done].
    injection Hp as <-. split; [by eapply collectivePlan_bound|]. destruct Hx as (paths & Hpaths & Hpf & _).
    destruct (paths_for_usable _ _ _ _ _ (best_usable _ _ _ _ _ _) Hpf) as [H1 H2]. simpl in Hpaths.
    split; cbn; rewrite ?Hpaths; [exact H1|exact H2| |eauto|done|done|done].
    destruct paths as [|p paths]; [done|]. csimpl in H2. rewrite seqZ_cons in H2 by lia. by injection H2.
Qed.

(** C15: every successful plan, of any shape, is bound to exactly the evidence it was
    made from: the snapshot's generations, the current generation of each endpoint and
    link on its paths and of nothing else, and a claim on the staging resource of each
    relay it has to stage on; and it has to be revalidated before execution. *)
Theorem planCommunication_binds request snapshot weights bounds cs outcome cs' plan :
  counters_wf cs -> returns (planCommunication request snapshot weights bounds) cs outcome cs' ->
  outcome.(PlanOutcome.success) = true -> outcome.(PlanOutcome.plan) = Some plan ->
  bound_plan snapshot plan /\ plan.(Plan.feasibility) = Feasibility.FEASIBLE.
Proof.
  intros Hwf Hr Hs Hp. destruct (planned_is_assembled _ _ _ _ _ _ _ _ Hwf Hr Hs Hp) as [Hb []]. done.
Qed.

Lemma planCommunication_binds_witness :
  exists plan, plan_of (planCommunication collectiveRequest basicSnapshot ∅ basicBounds initialCounters) = Some plan /\
    bound_plan basicSnapshot plan.
Proof.
  destruct (planCommunication collectiveRequest basicSnapshot ∅ basicBounds initialCounters) as [[o|e] cs] eqn:E;
    [|vm_compute in E; discriminate E].
  assert (Ho : o.(PlanOutcome.success) = true /\ is_Some o.(PlanOutcome.plan)).
  { vm_compute in E. injection E as E1 E2. rewrite <- E1. split; [reflexivity|eexists; reflexivity]. }
  destruct Ho as [Hs [plan Hp]]. exists plan. split; [exact Hp|].
  apply (planCommunication_binds collectiveRequest basicSnapshot ∅ basicBounds initialCounters o cs plan
    initialCounters_wf E Hs Hp).
Defined.

(** ** Identities *)

(** A returned outcome used at most one plan identity, the one of its plan. *)
Lemma planCommunication_counters request snap weights bounds cs outcome cs' :
  counters_wf cs -> returns (planCommunication request snap weights bounds) cs outcome cs' ->
  counters_wf cs' /\
  ((outcome.(PlanOutcome.plan) = None /\ cs'.(Counters.plan) = cs.(Counters.plan)) \/
   exists plan, outcome.(PlanOutcome.plan) = Some plan /\ plan.(Plan.id) = cs.(Counters.plan) /\
     cs'.(Counters.plan) = wrap64 (cs.(Counters.plan) + 1)).
Proof.
  intros Hwf Hr. pose proof (returns_valid _ _ _ _ _ _ _ Hr) as Hv.
  unfold returns in Hr. rewrite planCommunication_valid in Hr by done.
  pose proof (fun n => after_stages_wf _ n (after_plan_id_wf _ Hwf)) as Hwf'.
  assert (Hpp : planPointToPoint request snap weights bounds cs = (Ok outcome, cs') -> counters_wf cs' /\
    ((outcome.(PlanOutcome.plan) = None /\ cs'.(Counters.plan) = cs.(Counters.plan)) \/
     exists plan, outcome.(PlanOutcome.plan) = Some plan /\ plan.(Plan.id) = cs.(Counters.plan) /\
       cs'.(Counters.plan) = wrap64 (cs.(Counters.plan) + 1))).
  { intros Hr'. destruct (firstDestination request) as [dst|e] eqn:Ed.
    - destruct (point_to_point_outcome _ _ _ _ _ _ _ _ Hwf Ed Hr') as [(_ & Hn & -> & _)|(_ & paths & _ & _ & _ & Hplan & n & ->)];
        [auto|]. split; [apply Hwf'|]. right. eexists. split; [exact Hplan|]. by split.
    - unfold planPointToPoint, mbind, M_bind, lift in Hr'. by rewrite Ed in Hr'. }
  destruct (effectiveShape request) eqn:Es; auto.
  - destruct (buildMulticastPlan_returns request snap weights bounds cs Hwf) as (st & n & _ & Hm).
    rewrite Hm in Hr. injection Hr as <- <-. split; [apply Hwf'|]. right. eexists. split; [reflexivity|]. by split.
  - destruct (collective_root _ Hv Es) as [root Hroot].
    destruct (buildCollectivePlan_returns request snap weights bounds cs root Hwf Hroot)
      as [(_ & _ & st & n & _ & Hm)|(_ & paths & why & n & Hm)]; rewrite Hm in Hr; injection Hr as <- <-;
      (split; [apply Hwf'|]; right; eexists; split; [reflexivity|]; by split).
Qed.
