(* ===== verification/PlanTotals.v ===== *)
(** * Finite totals of plans

    Carries the bound of [Totals] from candidate paths to plans of every shape: the cost
    of a plan is the sum over the paths it delivers, and it is finite. *)

From S2P Require Import Prelude Core Enums Double Rounding Model Scenario Feasibility Ranking Cost Totals Enumerate Assembly.
From S2P Require Import PointToPoint Multicast Collective Planner.

Section totals.
Context (request : CommunicationRequest) (snap : EvidenceSnapshot) (weights : gmap CostFactor double) (bounds : Bounds).

(** The report of a candidate that was costed. *)
Definition costed_report (rep : CandidateReport) : Prop :=
  exists c, rep.(CandidateReport.cost) = evaluateCandidateCost request snap c weights bounds.

Lemma best_report_costed src dst rep : best_report request snap weights bounds src dst = Some rep -> costed_report rep.
Proof. intros (_ & Hc & _)%best_report_Some%best_path_optimal. by eexists. Qed.

Lemma omap_costed src dsts :
  Forall costed_report (omap (best_report request snap weights bounds src) dsts).
Proof. apply Forall_forall. intros rep (d & _ & Hd)%list_elem_of_omap. by eapply best_report_costed. Qed.

Lemma length_omap_le {A B} (f : A -> option B) l : (length (omap f l) <= length l)%nat.
Proof. induction l as [|x l IH]; csimpl; [lia|]. destruct (f x); csimpl; lia. Qed.

(** The cost of a plan is the sum over costed candidates, at most one for each
    destination or participant. *)
Lemma planned_cost cs outcome cs' plan :
  counters_wf cs -> returns (planCommunication request snap weights bounds) cs outcome cs' ->
  outcome.(PlanOutcome.success) = true -> outcome.(PlanOutcome.plan) = Some plan ->
  exists reps, plan.(Plan.cost) = CostSummary_of (path_components reps) /\ Forall costed_report reps /\
    Z.of_nat (length reps) <= 2 ^ 20.
Proof.
  intros Hwf Hr Hs Hp. pose proof (returns_valid _ _ _ _ _ _ _ Hr) as Hv.
  unfold returns in Hr. rewrite planCommunication_valid in Hr by done.
  assert (Hpp : planPointToPoint request snap weights bounds cs = (Ok outcome, cs') ->
    exists reps, plan.(Plan.cost) = CostSummary_of (path_components reps) /\ Forall costed_report reps /\ Z.of_nat (length reps) <= 2 ^ 20).
  { intros Hr'. destruct (firstDestination request) as [dst|e] eqn:Ed.
    - destruct (point_to_point_outcome _ _ _ _ _ _ _ _ Hwf Ed Hr') as [(Hf & _)|(_ & paths & Hb & Hne & Hpf & Hplan & _)]; [congruence|].
      rewrite Hplan in Hp. injection Hp as <-.
      destruct (retained request snap weights bounds dst) as [|rep reps]; [done|]. destruct paths as [|p paths]; [done|].
      destruct Hpf as [Hpf _]. destruct (best_report_costed _ _ _ Hb) as [c Hc]. exists [rep]. split_and!; [|by apply Forall_singleton; exists c|simpl; lia].
      cbn. rewrite (pf_cost _ _ _ _ _ _ Hpf). unfold path_components. cbn. rewrite app_nil_r, Hc. reflexivity.
    - unfold planPointToPoint, mbind, M_bind, lift in Hr'. by rewrite Ed in Hr'. }
  destruct (effectiveShape request) eqn:Es; auto.
  - destruct (buildMulticastPlan_returns request snap weights bounds cs Hwf) as (st & n & [_ Hc _ _] & Hm).
    rewrite Hm in Hr. injection Hr as <- <-. injection Hp as <-. eexists. split; [|split; [apply omap_costed|]].
    + unfold multicastPlan. destruct (bindGenerations _ _). cbn. by rewrite Hc.
    + pose proof (vr_multicast _ Hv Es). pose proof (length_omap_le (best_report request snap weights bounds (Request.source request))
        (Request.destinations request)). lia.
  - destruct (collective_root _ Hv Es) as [root Hroot].
    destruct (buildCollectivePlan_returns request snap weights bounds cs root Hwf Hroot)
      as [((Hn & _) & _ & st & n & Hx & Hm)|(_ & paths & why & n & Hm)]; rewrite Hm in Hr; injection Hr as <- <-; [|done].
    injection Hp as <-. destruct Hx as (paths & _ & _ & Hc & _). eexists. split; [|split; [apply omap_costed|]].
    + cbn. by rewrite Hc.
    + assert (Hsh : request.(Request.shape) = RequestShape.COLLECTIVE) by (unfold effectiveShape in Es; by destruct (bool_decide _ || _)).
      destruct (vr_collective _ Hv Hsh) as (_ & Hle & _).
      pose proof (length_omap_le (best_report request snap weights bounds root) (others root (Request.participants request))).
      assert (length (others root (Request.participants request)) <= length (Request.participants request))%nat by apply length_filter. lia.
Qed.

Lemma path_components_moderate reps :
  penalties_wf snap -> moderate weights -> Forall costed_report reps ->
  Forall moderate_component (path_components reps) /\ length (path_components reps) = (19 * length reps)%nat.
Proof.
  intros Hp Hm. unfold path_components. induction 1 as [|rep reps [c Hc] _ [IH1 IH2]]; [split; [constructor|done]|].
  csimpl. rewrite length_app, IH2, Hc. split; [apply Forall_app_2; [by apply evaluateCandidateCost_moderate|done]|]. simpl. lia.
Qed.

Lemma planned_total_valid cs outcome cs' plan :
  penalties_wf snap -> moderate weights ->
  counters_wf cs -> returns (planCommunication request snap weights bounds) cs outcome cs' ->
  outcome.(PlanOutcome.success) = true -> outcome.(PlanOutcome.plan) = Some plan -> totalValid plan.(Plan.cost) = true.
Proof.
  intros Hpw Hm Hwf Hr Hs Hp. destruct (planned_cost _ _ _ _ Hwf Hr Hs Hp) as (reps & -> & Hc & Hl).
  destruct (path_components_moderate reps Hpw Hm Hc) as [Hmc Hlen]. apply summary_total_valid; [done|]. lia.
Qed.
End totals.
