(* ===== verification/Determinism.v ===== *)
(** * Insertion-order determinism

    The planner reads its evidence from vectors filled in arrival order.  This file
    shows that the order does not matter: snapshots with the same evidence in a
    different order are equivalent, every planner function respects the equivalence
    ([Proper] instances), and so the plan is the same. *)

From S2P Require Import Prelude Core Enums Double Model Scenario Feasibility Ranking Cost Enumerate Assembly.
From S2P Require Import PointToPoint Multicast Collective Planner.

(** ** Insertion order *)

(** Two snapshots with the same evidence, published in different orders. *)
Record snapshot_equiv (s1 s2 : EvidenceSnapshot) : Prop := {
  se_endpoints : s1.(Snapshot.endpoints) ≡ₚ s2.(Snapshot.endpoints);
  se_endpoint_ids : NoDup (Endpoint.id <$> s1.(Snapshot.endpoints));
  se_links : s1.(Snapshot.links) ≡ₚ s2.(Snapshot.links);
  se_link_ids : NoDup (Link.id <$> s1.(Snapshot.links));
  se_reservations : s1.(Snapshot.reservations) ≡ₚ s2.(Snapshot.reservations);
  se_workerBoots : s1.(Snapshot.workerBoots) = s2.(Snapshot.workerBoots);
  se_sourceBoots : s1.(Snapshot.sourceBoots) = s2.(Snapshot.sourceBoots);
  se_topology : s1.(Snapshot.topologyGeneration) = s2.(Snapshot.topologyGeneration);
  se_capacity : s1.(Snapshot.capacityGeneration) = s2.(Snapshot.capacityGeneration);
  se_reservation : s1.(Snapshot.reservationGeneration) = s2.(Snapshot.reservationGeneration);
  se_congestion : s1.(Snapshot.congestionGeneration) = s2.(Snapshot.congestionGeneration);
  se_capability : s1.(Snapshot.capabilityGeneration) = s2.(Snapshot.capabilityGeneration);
  se_health : s1.(Snapshot.healthGeneration) = s2.(Snapshot.healthGeneration);
  se_placement : s1.(Snapshot.placementGeneration) = s2.(Snapshot.placementGeneration);
  se_policy : s1.(Snapshot.policyGeneration) = s2.(Snapshot.policyGeneration);
  se_authority : s1.(Snapshot.authorityGeneration) = s2.(Snapshot.authorityGeneration);
}.

#[export] Instance snapshot_equiv_sym : Symmetric snapshot_equiv.
Proof. intros s1 s2 []. by split; try done; [rewrite <- se_endpoints0|rewrite <- se_links0]. Qed.

#[export] Instance snapshot_equiv_trans : Transitive snapshot_equiv.
Proof. intros s1 s2 s3 [] []. split; first [done|etrans; eassumption]. Qed.

#[export] Instance endpointMap_proper : Proper (snapshot_equiv ==> eq) endpointMap.
Proof. intros s1 s2 []. by apply index_by_perm. Qed.
#[export] Instance linkMap_proper : Proper (snapshot_equiv ==> eq) linkMap.
Proof. intros s1 s2 []. by apply index_by_perm. Qed.

#[export] Instance reserved_on_proper : Proper (snapshot_equiv ==> eq ==> eq) reserved_on.
Proof.
  intros s1 s2 [] id ? <-. unfold reserved_on. apply foldl_perm; [|done].
  intros b x y. repeat case_match; try done. rewrite !wrap64_add. f_equal. lia.
Qed.

#[export] Instance endpointFresh_proper : Proper (eq ==> snapshot_equiv ==> eq) endpointFresh.
Proof. intros e ? <- s1 s2 []. unfold endpointFresh. by rewrite se_workerBoots0, se_sourceBoots0. Qed.

#[export] Instance check_endpoint_proper : Proper (snapshot_equiv ==> eq ==> eq ==> eq) check_endpoint.
Proof. intros s1 s2 Hs t ? <- e ? <-. unfold check_endpoint. by rewrite Hs. Qed.

#[export] Instance check_link_proper : Proper (eq ==> snapshot_equiv ==> eq ==> eq ==> eq) check_link.
Proof. intros req ? <- s1 s2 Hs h ? <- l ? <-. unfold check_link. by rewrite Hs. Qed.

Lemma first_return_ext {A R} (f g : A -> option R) l : (forall x, f x = g x) -> first_return f l = first_return g l.
Proof. intros H. induction l as [|x l IH]; simpl; [done|]. by rewrite H, IH. Qed.

#[export] Instance evaluateCandidateFeasibility_proper :
  Proper (eq ==> snapshot_equiv ==> eq ==> eq ==> eq) evaluateCandidateFeasibility.
Proof.
  intros req ? <- s1 s2 Hs c ? <- b ? <-. unfold evaluateCandidateFeasibility.
  rewrite (first_return_ext _ (check_hop req s2 (endpointMap s2) (linkMap s2))); [by rewrite (se_policy _ _ Hs), (endpointMap_proper _ _ Hs)|].
  intros h. rewrite (endpointMap_proper _ _ Hs), (linkMap_proper _ _ Hs). unfold check_hop. destruct (linkMap s2 !! Hop.link h) as [l|]; [|done]. rewrite Hs.
  destruct (check_link req s2 h l); [done|].
  destruct (endpointMap s2 !! Hop.from h), (endpointMap s2 !! Hop.to h); try done.
  apply first_return_ext. intros e'. by rewrite Hs.
Qed.

#[export] Instance evaluateCandidateCost_proper :
  Proper (eq ==> snapshot_equiv ==> eq ==> eq ==> eq ==> eq) evaluateCandidateCost.
Proof.
  intros req ? <- s1 s2 Hs c ? <- w ? <- b ? <-. unfold evaluateCandidateCost.
  rewrite (endpointMap_proper _ _ Hs), (linkMap_proper _ _ Hs). reflexivity.
Qed.

#[export] Instance reportOf_proper : Proper (eq ==> snapshot_equiv ==> eq ==> eq ==> eq ==> eq) reportOf.
Proof.
  intros req ? <- s1 s2 Hs w ? <- b ? <- c ? <-. unfold reportOf.
  rewrite (evaluateCandidateFeasibility_proper req _ eq_refl _ _ Hs c _ eq_refl b _ eq_refl).
  rewrite (evaluateCandidateCost_proper req _ eq_refl _ _ Hs c _ eq_refl w _ eq_refl b _ eq_refl). reflexivity.
Qed.

#[export] Instance enumerateCandidatePaths_proper :
  Proper (snapshot_equiv ==> eq ==> eq ==> eq ==> eq) enumerateCandidatePaths.
Proof.
  intros s1 s2 Hs src ? <- dst ? <- b ? <-. unfold enumerateCandidatePaths.
  by rewrite (buildAdjacency_perm _ _ (se_links _ _ Hs)).
Qed.

#[export] Instance makePath_proper : Proper (eq ==> eq ==> snapshot_equiv ==> eq ==> eq ==> eq ==> eq) makePath.
Proof. intros id ? <- c ? <- s1 s2 Hs req ? <- cost ? <- cs ? <-. unfold makePath, buildStages. by rewrite Hs. Qed.

#[export] Instance bind_hop_proper : Proper (snapshot_equiv ==> eq ==> eq ==> eq) bind_hop.
Proof. intros s1 s2 Hs b ? <- h ? <-. unfold bind_hop, link_entry, endpoint_entry. by rewrite Hs. Qed.

(** ** Each planner respects the equivalence *)

Section respects.
Context (req : CommunicationRequest) (weights : gmap CostFactor double) (bounds : Bounds).
Context (s1 s2 : EvidenceSnapshot) (Hs : snapshot_equiv s1 s2).

Lemma reports_equiv (cands : list CandidatePath) :
  reportOf req s1 weights bounds <$> cands = reportOf req s2 weights bounds <$> cands.
Proof using Hs. apply list_fmap_ext. intros _ c _. by apply reportOf_proper. Qed.

Lemma binding_equiv b hops : foldl (bind_hop s1) b hops = foldl (bind_hop s2) b hops.
Proof using Hs.
  revert b; induction hops as [|h hops IH]; intros b; simpl; [done|].
  rewrite (bind_hop_proper _ _ Hs b b eq_refl h h eq_refl). apply IH.
Qed.

Lemma bind_ext2 {A B} (m1 m2 : M A) (f g : A -> M B) cs :
  m1 cs = m2 cs -> (forall a cs, f a cs = g a cs) -> (m1 ≫= f) cs = (m2 ≫= g) cs.
Proof. intros E H. unfold mbind, M_bind. rewrite E. destruct (m2 cs) as [[]]; auto. Qed.

Lemma bind_ext {A B} (m : M A) (f g : A -> M B) cs :
  (forall a cs, f a cs = g a cs) -> (m ≫= f) cs = (m ≫= g) cs.
Proof. by apply bind_ext2. Qed.

Lemma mapM_ext_run {A B} (f g : A -> M B) l cs :
  (forall a cs, f a cs = g a cs) -> mapM f l cs = mapM g l cs.
Proof.
  intros H. revert cs; induction l as [|x l IH]; intros cs; simpl; [done|].
  apply bind_ext2; [done|]. intros b cs'. by apply bind_ext2.
Qed.

Lemma foldM_ext_run {S X} (f g : S -> X -> M S) st l cs :
  (forall st x cs, f st x cs = g st x cs) -> foldM f st l cs = foldM g st l cs.
Proof.
  intros H. revert st cs; induction l as [|x l IH]; intros st cs; simpl; [done|].
  by apply bind_ext2.
Qed.

Lemma makePath_equiv id c cost cs : makePath id c s1 req cost cs = makePath id c s2 req cost cs.
Proof using Hs. by apply (makePath_proper id id eq_refl c c eq_refl s1 s2 Hs req req eq_refl cost cost eq_refl). Qed.

Lemma pointToPointPlan_equiv id gen cands paths n :
  pointToPointPlan req s1 id gen cands paths n = pointToPointPlan req s2 id gen cands paths n.
Proof using Hs. unfold pointToPointPlan. rewrite binding_equiv. destruct Hs. by f_equal. Qed.

Lemma planPointToPoint_equiv cs : planPointToPoint req s1 weights bounds cs = planPointToPoint req s2 weights bounds cs.
Proof using Hs.
  unfold planPointToPoint. apply bind_ext. intros dst cs1.
  rewrite (enumerateCandidatePaths_proper _ _ Hs (Request.source req) _ eq_refl dst _ eq_refl bounds _ eq_refl).
  rewrite reports_equiv. apply bind_ext. intros order cs2.
  destruct (bool_decide (order = [])); [done|].
  apply bind_ext. intros id cs3. apply bind_ext. intros gen cs4.
  apply bind_ext2.
  - apply mapM_ext_run. intros k cs5. do 4 (apply bind_ext; intros ? ?). apply bind_ext2; [apply makePath_equiv|done].
  - intros built cs5. by rewrite pointToPointPlan_equiv.
Qed.

Lemma multicast_step_equiv st d cs :
  multicast_step req s1 weights bounds st d cs = multicast_step req s2 weights bounds st d cs.
Proof using Hs.
  unfold multicast_step.
  rewrite (enumerateCandidatePaths_proper _ _ Hs (Request.source req) _ eq_refl d _ eq_refl bounds _ eq_refl), reports_equiv.
  destruct (rankFeasible _) as [|o order]; [done|]. do 4 (apply bind_ext; intros ? ?).
  apply bind_ext2; [apply makePath_equiv|done].
Qed.

Lemma multicastPlan_equiv id gen st : multicastPlan req s1 id gen st = multicastPlan req s2 id gen st.
Proof using Hs. unfold multicastPlan, bindGenerations. rewrite binding_equiv. destruct Hs. by f_equal. Qed.

Lemma buildMulticastPlan_equiv cs : buildMulticastPlan req s1 weights bounds cs = buildMulticastPlan req s2 weights bounds cs.
Proof using Hs.
  unfold buildMulticastPlan. apply bind_ext. intros id cs1. apply bind_ext. intros gen cs2.
  apply bind_ext2; [apply foldM_ext_run, multicast_step_equiv|]. intros st cs3. by rewrite multicastPlan_equiv.
Qed.

Lemma collective_loop_equiv root members st cs :
  collective_loop req s1 weights bounds root members st cs = collective_loop req s2 weights bounds root members st cs.
Proof using Hs.
  revert st cs; induction members as [|m members IH]; intros st cs; [done|]. cbn [collective_loop].
  destruct (m =? root); [apply IH|].
  rewrite (enumerateCandidatePaths_proper _ _ Hs root _ eq_refl m _ eq_refl bounds _ eq_refl), reports_equiv.
  destruct (rankFeasible _) as [|o order]; [done|]. do 3 (apply bind_ext; intros ? ?).
  apply bind_ext2; [apply makePath_equiv|]. intros p cs'. rewrite binding_equiv. apply IH.
Qed.

Lemma participantCheck_equiv pid : participantCheck s1 pid = participantCheck s2 pid.
Proof using Hs.
  unfold participantCheck. rewrite (endpointMap_proper _ _ Hs). destruct (endpointMap s2 !! pid) as [e|]; [|done].
  by rewrite (endpointFresh_proper e e eq_refl s1 s2 Hs).
Qed.

Lemma collectivePlan_equiv id gen st : collectivePlan req s1 id gen st = collectivePlan req s2 id gen st.
Proof using Hs. unfold collectivePlan. destruct Hs. by f_equal. Qed.

Lemma buildCollectivePlan_equiv cs : buildCollectivePlan req s1 weights bounds cs = buildCollectivePlan req s2 weights bounds cs.
Proof using Hs.
  unfold buildCollectivePlan. apply bind_ext. intros id cs1. apply bind_ext. intros gen cs2.
  destruct (collectiveCountCheck req bounds); [done|].
  rewrite (first_return_ext _ _ _ participantCheck_equiv). destruct (first_return _ _); [done|].
  apply bind_ext. intros root cs3. apply bind_ext2; [apply collective_loop_equiv|].
  intros [st failed] cs4. destruct failed; [done|]. by rewrite collectivePlan_equiv.
Qed.
End respects.

Lemma planCommunication_equiv request weights bounds s1 s2 cs :
  snapshot_equiv s1 s2 ->
  planCommunication request s1 weights bounds cs = planCommunication request s2 weights bounds cs.
Proof.
  intros Hs. unfold planCommunication. apply bind_ext. intros _ cs'.
  destruct (effectiveShape request); by first [apply planPointToPoint_equiv|apply buildMulticastPlan_equiv|apply buildCollectivePlan_equiv].
Qed.

(** C4: planning is deterministic and independent of insertion order: from the same
    counters, two snapshots that hold the same endpoints, links and reservations in
    different orders give the same outcome, plan identities, stage identities,
    ranking and explanations included, for every request shape. *)
Theorem planCommunication_order_independent request weights bounds s1 s2 cs :
  snapshot_equiv s1 s2 ->
  planCommunication request s1 weights bounds cs = planCommunication request s2 weights bounds cs.
Proof. exact (planCommunication_equiv request weights bounds s1 s2 cs). Qed.

Lemma planCommunication_order_independent_witness :
  planCommunication basicRequest basicSnapshot ∅ basicBounds initialCounters =
  planCommunication basicRequest (mkSnapshot [hostMem; gpuB; gpuA] [downLink; upLink; directLink] [] [] {[10 := 7]})
    ∅ basicBounds initialCounters.
Proof.
  apply (planCommunication_order_independent basicRequest ∅ basicBounds basicSnapshot).
  split; try reflexivity; try (apply (bool_decide_unpack _); reflexivity).
  - apply (Permutation_rev [gpuA; gpuB; hostMem]).
  - apply (Permutation_rev [directLink; upLink; downLink]).
Defined.
