(* ===== verification/Lifecycle.v ===== *)
(** * Plan lifecycle

    Models src/lifecycle.cpp: the table of legal transitions between plan states, and
    the runs it admits. *)

From S2P Require Import Prelude Core Enums.

(** [PlanLifecycle::canTransition]. *)
Definition canTransition (from to : PlanState) : bool :=
  let to_ s := bool_decide (to = s) in
  match from with
  | PlanState.REQUESTED =>
      to_ PlanState.DISCOVERING || to_ PlanState.CONSTRUCTING || to_ PlanState.CANCELLED ||
      to_ PlanState.FAILED || to_ PlanState.RETIRED
  | PlanState.DISCOVERING =>
      to_ PlanState.CONSTRUCTING || to_ PlanState.FILTERING || to_ PlanState.CANCELLED ||
      to_ PlanState.FAILED || to_ PlanState.RETIRED
  | PlanState.CONSTRUCTING =>
      to_ PlanState.FILTERING || to_ PlanState.RANKING || to_ PlanState.CANCELLED ||
      to_ PlanState.FAILED || to_ PlanState.RETIRED
  | PlanState.FILTERING =>
      to_ PlanState.RANKING || to_ PlanState.CANCELLED || to_ PlanState.FAILED || to_ PlanState.RETIRED
  | PlanState.RANKING =>
      to_ PlanState.PLAN_READY || to_ PlanState.CANCELLED || to_ PlanState.FAILED || to_ PlanState.RETIRED
  | PlanState.PLAN_READY =>
      to_ PlanState.AWAITING_RESOURCE_COMMIT || to_ PlanState.REVALIDATION_REQUIRED || to_ PlanState.CANCELLED ||
      to_ PlanState.FAILED || to_ PlanState.SUPERSEDED || to_ PlanState.RETIRED
  | PlanState.AWAITING_RESOURCE_COMMIT =>
      to_ PlanState.COMMITTED || to_ PlanState.CANCELLED || to_ PlanState.FAILED ||
      to_ PlanState.REVALIDATION_REQUIRED || to_ PlanState.SUPERSEDED || to_ PlanState.RETIRED
  | PlanState.COMMITTED =>
      to_ PlanState.AWAITING_EXECUTION || to_ PlanState.CANCELLED || to_ PlanState.FAILED ||
      to_ PlanState.REVALIDATION_REQUIRED || to_ PlanState.SUPERSEDED || to_ PlanState.RETIRED
  | PlanState.AWAITING_EXECUTION =>
      to_ PlanState.ACTIVE || to_ PlanState.CANCELLED || to_ PlanState.FAILED ||
      to_ PlanState.REVALIDATION_REQUIRED || to_ PlanState.SUPERSEDED || to_ PlanState.RETIRED
  | PlanState.ACTIVE =>
      to_ PlanState.COMPLETED || to_ PlanState.REVALIDATION_REQUIRED || to_ PlanState.FAILED ||
      to_ PlanState.CANCELLED || to_ PlanState.RETIRED
  | PlanState.REVALIDATION_REQUIRED =>
      to_ PlanState.AWAITING_EXECUTION || to_ PlanState.PLAN_READY || to_ PlanState.CANCELLED ||
      to_ PlanState.FAILED || to_ PlanState.RETIRED
  | PlanState.COMPLETED | PlanState.CANCELLED | PlanState.FAILED | PlanState.SUPERSEDED => to_ PlanState.RETIRED
  | PlanState.RETIRED => false
  end.

(** ** Runs *)

(** [run s l]: from [s] the plan may pass through the states [l], in this order. *)
Inductive run : PlanState -> list PlanState -> Prop :=
  | run_nil s : run s []
  | run_cons s t l : canTransition s t = true -> run t l -> run s (t :: l).

(** States in which nothing of the plan remains to be done. *)
Definition finished (s : PlanState) : bool :=
  match s with
  | PlanState.COMPLETED | PlanState.CANCELLED | PlanState.FAILED | PlanState.SUPERSEDED | PlanState.RETIRED => true
  | _ => false
  end.

(** A set of states that the transitions avoiding [x] do not leave. *)
Definition closed_avoiding (x : PlanState) (inside : list PlanState) : bool :=
  forallb (fun s => forallb (fun t => negb (canTransition s t) || bool_decide (t = x) || bool_decide (t ∈ inside))
                     (enum_values (A := PlanState))) inside.

Lemma all_states (s : PlanState) : s ∈ enum_values (A := PlanState).
Proof. destruct (enum_u8_spec s) as [_ H]. by eapply list_elem_of_lookup_2. Qed.

Lemma run_inside x inside s l t :
  closed_avoiding x inside = true -> s ∈ inside -> run s l -> x ∉ l -> t ∈ l -> t ∈ inside.
Proof.
  intros Hc Hs Hr. revert t; induction Hr as [s|s u l Hstep Hr IH]; intros t Hx Ht; [by apply elem_of_nil in Ht|].
  assert (Hu : u ∈ inside).
  { unfold closed_avoiding in Hc. rewrite forallb_forall in Hc. apply list_elem_of_In in Hs. specialize (Hc s Hs).
    rewrite forallb_forall in Hc. specialize (Hc u). rewrite <- list_elem_of_In in Hc. specialize (Hc (all_states u)).
    rewrite Hstep in Hc. simpl in Hc. apply orb_true_iff in Hc as [Hc|Hc]; apply bool_decide_eq_true in Hc; [|done].
    exfalso. apply Hx. rewrite Hc. left. }
  apply elem_of_cons in Ht as [->|Ht]; [done|]. apply IH; [done|set_solver|done].
Qed.

(** A state that every run from [s] to [t] passes through. *)
Lemma run_passes x inside s l t :
  closed_avoiding x inside = true -> s ∈ inside -> t ∉ inside -> run s l -> t ∈ l -> x ∈ l.
Proof.
  intros Hc Hs Hn Hr Ht. destruct (decide (x ∈ l)); [done|]. exfalso. apply Hn. by eapply run_inside.
Qed.

(** The states reachable from REQUESTED without passing through [x]. *)
Definition before (x : PlanState) : list PlanState :=
  let final := [PlanState.CANCELLED; PlanState.FAILED; PlanState.RETIRED] in
  let planning := [PlanState.REQUESTED; PlanState.DISCOVERING; PlanState.CONSTRUCTING; PlanState.FILTERING] in
  let ready := [PlanState.RANKING; PlanState.PLAN_READY; PlanState.AWAITING_RESOURCE_COMMIT; PlanState.COMMITTED;
                PlanState.REVALIDATION_REQUIRED; PlanState.SUPERSEDED] in
  match x with
  | PlanState.RANKING => planning ++ final
  | PlanState.PLAN_READY => planning ++ [PlanState.RANKING] ++ final
  | PlanState.AWAITING_EXECUTION => planning ++ ready ++ final
  | PlanState.ACTIVE => planning ++ ready ++ [PlanState.AWAITING_EXECUTION] ++ final
  | _ => enum_values
  end.

(** A finished plan stays finished: once COMPLETED, CANCELLED, FAILED or
    SUPERSEDED, the only legal move is to RETIRED, and no sequence of moves ever makes
    it ready, committed or active again; RETIRED itself is final, and every other
    state can be retired. *)
Theorem finished_stays_finished :
  (forall s l t, finished s = true -> run s l -> t ∈ l -> t = PlanState.RETIRED) /\
  (forall s, s <> PlanState.RETIRED -> canTransition s PlanState.RETIRED = true) /\
  (forall t, canTransition PlanState.RETIRED t = false) /\
  (forall s, canTransition s s = false).
Proof.
  split_and!.
  - intros s l t Hf Hr Ht. induction Hr as [s|s u l Hstep Hr IH]; [by apply elem_of_nil in Ht|].
    assert (u = PlanState.RETIRED) as ->.
    { destruct s; try discriminate Hf; apply bool_decide_eq_true in Hstep || discriminate Hstep; exact Hstep. }
    apply elem_of_cons in Ht as [->|Ht]; [done|]. by apply IH.
  - by intros [].
  - by intros [].
  - by intros [].
Qed.

(** No plan completes by a shortcut: every legal history that reaches COMPLETED
    has been ranked, was ready, awaited execution and was active. *)
Theorem completion_requires_all_phases l x :
  run PlanState.REQUESTED l -> PlanState.COMPLETED ∈ l ->
  x ∈ [PlanState.RANKING; PlanState.PLAN_READY; PlanState.AWAITING_EXECUTION; PlanState.ACTIVE] -> x ∈ l.
Proof.
  intros Hr Hc Hx. apply (run_passes x (before x) PlanState.REQUESTED l PlanState.COMPLETED); [| | |done|done];
    repeat (apply elem_of_cons in Hx as [->|Hx]; [first [reflexivity|apply (bool_decide_unpack _); reflexivity]|]);
    by apply elem_of_nil in Hx.
Qed.

(** The shortest history of a completed plan with a resource commit. *)
Definition fullHistory : list PlanState :=
  [PlanState.CONSTRUCTING; PlanState.RANKING; PlanState.PLAN_READY; PlanState.AWAITING_RESOURCE_COMMIT;
   PlanState.COMMITTED; PlanState.AWAITING_EXECUTION; PlanState.ACTIVE; PlanState.COMPLETED].

Lemma completion_requires_all_phases_witness : PlanState.ACTIVE ∈ fullHistory.
Proof.
  apply (completion_requires_all_phases fullHistory).
  - repeat (apply run_cons; [reflexivity|]). apply run_nil.
  - apply (bool_decide_unpack _). reflexivity.
  - apply (bool_decide_unpack _). reflexivity.
Defined.

(** The table does not enforce the documented rule that claims are committed
    before a plan becomes ACTIVE: revalidation leads from PLAN_READY to ACTIVE around
    COMMITTED. *)
Theorem active_without_commit :
  exists l, run PlanState.REQUESTED l /\ PlanState.ACTIVE ∈ l /\ PlanState.COMMITTED ∉ l.
Proof.
  exists [PlanState.CONSTRUCTING; PlanState.RANKING; PlanState.PLAN_READY; PlanState.REVALIDATION_REQUIRED;
          PlanState.AWAITING_EXECUTION; PlanState.ACTIVE].
  split_and!; [repeat (apply run_cons; [reflexivity|]); apply run_nil|apply (bool_decide_unpack _); reflexivity|].
  apply (bool_decide_unpack _). reflexivity.
Qed.
