(* ===== verification/Revalidation.v ===== *)
(** * Revalidation

    Models src/revalidation.cpp: the check a plan has to pass, against a snapshot taken
    later, before it is handed over for execution. *)

From S2P Require Import Prelude Core Enums Double Model Scenario Feasibility Ranking Cost Enumerate Assembly.
From S2P Require Import PointToPoint Multicast Collective Planner.

Module RevalidationResult.
Record RevalidationResult := {
  ok : bool;
  feasibility : Feasibility;
  detail : string;
  changes : list string;
}.
End RevalidationResult.
Abbreviation RevalidationResult := RevalidationResult.RevalidationResult.

(** [r.ok = false; r.detail = d; r.changes.push_back(d); return r;] with the
    feasibility [r] has at that point. *)
Definition stale (f : Feasibility) (d : string) : RevalidationResult := {|
  RevalidationResult.ok := false; RevalidationResult.feasibility := f;
  RevalidationResult.detail := d; RevalidationResult.changes := [d] |}.

Definition current (f : Feasibility) : RevalidationResult := {|
  RevalidationResult.ok := true; RevalidationResult.feasibility := f;
  RevalidationResult.detail := ""; RevalidationResult.changes := [] |}.

(** [genOk] and its out parameter. *)
Definition genOk (current bound delta : Z) : bool * Z :=
  if current <? bound then (false, wrap64 (bound - current)) else (true, delta).

Notation "'stale_if' b 'as_' f 'saying' d ;; k" := (if b then Some (stale f d) else k)
  (at level 10, b at level 99, f at level 0, d at level 0, k at level 200).

(** ** One path *)

Definition revalidate_stage (snap : EvidenceSnapshot) (st : Stage) : option RevalidationResult :=
  match linkMap snap !! st.(Stage.link) with
  | None => Some (stale Feasibility.REVALIDATION_REQUIRED ("link missing: " +:+ Id_str st.(Stage.link)))
  | Some link =>
      stale_if negb link.(Link.health).(Health.healthy) as_ Feasibility.FEASIBLE saying "link unhealthy";;
      stale_if link.(Link.congestion).(Congestion.hardLimitExceeded) as_ Feasibility.FEASIBLE
        saying "link congestion hard limit";;
      match endpointMap snap !! st.(Stage.source), endpointMap snap !! st.(Stage.destination) with
      | Some s, Some d =>
          stale_if negb (endpointFresh s snap) || negb (endpointFresh d snap) as_ Feasibility.REJECT_STALE_ENDPOINT
            saying "endpoint incarnation stale";;
          stale_if negb s.(Endpoint.reachable) || negb s.(Endpoint.ready) ||
                   negb d.(Endpoint.reachable) || negb d.(Endpoint.ready) as_ Feasibility.FEASIBLE
            saying "endpoint not ready";;
          None
      | _, _ => Some (stale Feasibility.FEASIBLE "endpoint missing")
      end
  end.

Definition revalidatePath (path : Path) (snap : EvidenceSnapshot) : RevalidationResult :=
  match first_return (revalidate_stage snap) path.(Path.stages) with
  | Some r => r
  | None => current Feasibility.FEASIBLE
  end.

(** ** A whole plan *)

(** The generation checks; [delta] starts at 0 and is not read afterwards. *)
Definition revalidate_generations (plan : CommunicationPlan) (snap : EvidenceSnapshot) : option RevalidationResult :=
  let advanced bound cur := negb (isNull bound) && negb (cur =? bound) in
  stale_if negb (genOk snap.(Snapshot.topologyGeneration) plan.(Plan.topologyGeneration) 0).1
    as_ Feasibility.REVALIDATION_REQUIRED saying "topology generation regressed";;
  stale_if advanced plan.(Plan.congestionGeneration) snap.(Snapshot.congestionGeneration)
    as_ Feasibility.REVALIDATION_REQUIRED saying "congestion generation advanced";;
  stale_if advanced plan.(Plan.capacityGeneration) snap.(Snapshot.capacityGeneration)
    as_ Feasibility.REVALIDATION_REQUIRED saying "capacity generation advanced";;
  stale_if advanced plan.(Plan.reservationGeneration) snap.(Snapshot.reservationGeneration)
    as_ Feasibility.REVALIDATION_REQUIRED saying "reservation generation advanced";;
  None.

Definition revalidate_endpoint (snap : EvidenceSnapshot) (pr : Z * Z) : option RevalidationResult :=
  match endpointMap snap !! pr.1 with
  | None => Some (stale Feasibility.REVALIDATION_REQUIRED ("endpoint " +:+ Id_str pr.1 +:+ " missing"))
  | Some e =>
      stale_if negb (e.(Endpoint.generation) =? pr.2) as_ Feasibility.REVALIDATION_REQUIRED
        saying ("endpoint " +:+ Id_str pr.1 +:+ " generation changed");;
      stale_if negb (endpointFresh e snap) || negb e.(Endpoint.reachable) || negb e.(Endpoint.ready)
        as_ Feasibility.REJECT_STALE_ENDPOINT saying ("endpoint " +:+ Id_str pr.1 +:+ " no longer fresh/ready");;
      None
  end.

Definition revalidate_link (snap : EvidenceSnapshot) (pr : Z * Z) : option RevalidationResult :=
  match linkMap snap !! pr.1 with
  | None => Some (stale Feasibility.REVALIDATION_REQUIRED ("link " +:+ Id_str pr.1 +:+ " missing"))
  | Some l =>
      stale_if negb (l.(Link.generation) =? pr.2) as_ Feasibility.REVALIDATION_REQUIRED
        saying ("link " +:+ Id_str pr.1 +:+ " generation changed");;
      stale_if negb l.(Link.health).(Health.healthy) || l.(Link.congestion).(Congestion.hardLimitExceeded)
        as_ Feasibility.REVALIDATION_REQUIRED saying ("link " +:+ Id_str pr.1 +:+ " unhealthy/congested");;
      None
  end.

(** The loop over [resourceCapacities] inside the loop over the staging resources. *)
Definition revalidate_staging (snap : EvidenceSnapshot) (rid : ResourceId) : option RevalidationResult :=
  match first_return (fun rc : Z * Capacity =>
          stale_if (rc.1 =? rid) && (rc.2.(Capacity.usable) <? 1) as_ Feasibility.REVALIDATION_REQUIRED
            saying ("staging resource " +:+ Id_str rid +:+ " unavailable");; None)
        snap.(Snapshot.resourceCapacities) with
  | Some r => Some r
  | None =>
      stale_if negb (existsb (fun rc : Z * Capacity => rc.1 =? rid) snap.(Snapshot.resourceCapacities))
        as_ Feasibility.REVALIDATION_REQUIRED saying ("staging resource " +:+ Id_str rid +:+ " not committed");; None
  end.

Definition revalidatePlan (plan : CommunicationPlan) (snap : EvidenceSnapshot) : RevalidationResult :=
  match revalidate_generations plan snap with
  | Some r => r
  | None =>
  match first_return (revalidate_endpoint snap) plan.(Plan.endpointGenerations) with
  | Some r => r
  | None =>
  match first_return (revalidate_link snap) plan.(Plan.linkGenerations) with
  | Some r => r
  | None =>
  let paths := (fun p => revalidatePath p snap) <$> plan.(Plan.candidatePaths) in
  match first_return (fun pr => if negb pr.(RevalidationResult.ok) then Some pr else None) paths with
  | Some r => r
  | None =>
  let allOk := forallb (fun pr => bool_decide (pr.(RevalidationResult.feasibility) = Feasibility.FEASIBLE)) paths in
  match first_return (revalidate_staging snap) plan.(Plan.requiredStagingResources) with
  | Some r => r
  | None => current (if allOk then Feasibility.FEASIBLE else Feasibility.REVALIDATION_REQUIRED)
  end end end end end.

(** ** Specification: a plan that is still current *)

Definition live_endpoint (snap : EvidenceSnapshot) (e : Endpoint) : Prop :=
  fresh_endpoint e snap /\ e.(Endpoint.reachable) = true /\ e.(Endpoint.ready) = true.

Definition live_link (l : Link) : Prop :=
  l.(Link.health).(Health.healthy) = true /\ l.(Link.congestion).(Congestion.hardLimitExceeded) = false.

Definition live_stage (snap : EvidenceSnapshot) (st : Stage) : Prop :=
  exists l s d, linkMap snap !! st.(Stage.link) = Some l /\ live_link l /\
    endpointMap snap !! st.(Stage.source) = Some s /\ live_endpoint snap s /\
    endpointMap snap !! st.(Stage.destination) = Some d /\ live_endpoint snap d.

(** A staging resource is offered, and nowhere without usable capacity. *)
Definition usable_resource (snap : EvidenceSnapshot) (rid : ResourceId) : Prop :=
  (exists c, (rid, c) ∈ snap.(Snapshot.resourceCapacities)) /\
  forall c, (rid, c) ∈ snap.(Snapshot.resourceCapacities) -> 1 <= c.(Capacity.usable).

Definition same_generation (bound cur : Z) : Prop := bound <> 0 -> cur = bound.

Record current_plan (plan : CommunicationPlan) (snap : EvidenceSnapshot) : Prop := {
  cp_topology : plan.(Plan.topologyGeneration) <= snap.(Snapshot.topologyGeneration);
  cp_congestion : same_generation plan.(Plan.congestionGeneration) snap.(Snapshot.congestionGeneration);
  cp_capacity : same_generation plan.(Plan.capacityGeneration) snap.(Snapshot.capacityGeneration);
  cp_reservation : same_generation plan.(Plan.reservationGeneration) snap.(Snapshot.reservationGeneration);
  cp_endpoints : Forall (fun pr => exists e, endpointMap snap !! pr.1 = Some e /\
    e.(Endpoint.generation) = pr.2 /\ live_endpoint snap e) plan.(Plan.endpointGenerations);
  cp_links : Forall (fun pr => exists l, linkMap snap !! pr.1 = Some l /\
    l.(Link.generation) = pr.2 /\ live_link l) plan.(Plan.linkGenerations);
  cp_stages : Forall (fun p => Forall (live_stage snap) p.(Path.stages)) plan.(Plan.candidatePaths);
  cp_staging : Forall (usable_resource snap) plan.(Plan.requiredStagingResources);
}.

(** ** Each check decides its part *)

Lemma revalidate_stage_None snap st : revalidate_stage snap st = None <-> live_stage snap st.
Proof.
  unfold revalidate_stage, live_stage, live_link, live_endpoint.
  destruct (linkMap snap !! _) as [l|]; [|naive_solver].
  rewrite !guard_None, negb_false_iff.
  destruct (endpointMap snap !! Stage.source st) as [s|]; [|naive_solver].
  destruct (endpointMap snap !! Stage.destination st) as [d|]; [|naive_solver].
  rewrite !guard_None, !orb_false_iff, !negb_false_iff, !endpointFresh_iff. split.
  - intros; destruct_and!. exists l, s, d. auto 10.
  - intros (l' & s' & d' & ?); destruct_and!. simplify_eq. auto 10.
Qed.

(** A loop of checks passes exactly when each of its elements does. *)
Lemma first_return_decides {A R} (f : A -> option R) (P : A -> Prop) l :
  (forall x, f x = None <-> P x) -> first_return f l = None <-> Forall P l.
Proof. intros H. rewrite first_return_None. by apply Forall_iff. Qed.

Lemma revalidatePath_ok path snap :
  (revalidatePath path snap).(RevalidationResult.ok) = true <-> Forall (live_stage snap) path.(Path.stages).
Proof.
  rewrite <- (first_return_decides _ _ _ (revalidate_stage_None snap)). unfold revalidatePath.
  destruct (first_return _ _) as [r|] eqn:E; [|done]. split; [|done]. intros Hr. exfalso. revert E Hr.
  apply (first_return_ind (fun r => r.(RevalidationResult.ok) = true -> False)).
  intros st r'. unfold revalidate_stage. repeat case_match; intros; simplify_eq; done.
Qed.

Lemma revalidatePath_feasible path snap :
  (revalidatePath path snap).(RevalidationResult.ok) = true ->
  revalidatePath path snap = current Feasibility.FEASIBLE.
Proof.
  rewrite revalidatePath_ok, <- (first_return_decides _ _ _ (revalidate_stage_None snap)).
  unfold revalidatePath. by intros ->.
Qed.

Lemma revalidate_generations_None plan snap :
  revalidate_generations plan snap = None <->
  plan.(Plan.topologyGeneration) <= snap.(Snapshot.topologyGeneration) /\
  same_generation plan.(Plan.congestionGeneration) snap.(Snapshot.congestionGeneration) /\
  same_generation plan.(Plan.capacityGeneration) snap.(Snapshot.capacityGeneration) /\
  same_generation plan.(Plan.reservationGeneration) snap.(Snapshot.reservationGeneration).
Proof.
  assert (Ha : forall b c, negb (isNull b) && negb (c =? b) = false <-> same_generation b c).
  { intros b c. unfold isNull, same_generation. destruct (Z.eqb_spec b 0), (Z.eqb_spec c b); simpl; naive_solver. }
  unfold revalidate_generations, genOk. rewrite !guard_None, !Ha, negb_false_iff.
  destruct (Z.ltb_spec (Snapshot.topologyGeneration snap) (Plan.topologyGeneration plan)); simpl; intuition (lia || done).
Qed.

Lemma revalidate_endpoint_None snap pr :
  revalidate_endpoint snap pr = None <-> exists e, endpointMap snap !! pr.1 = Some e /\
    e.(Endpoint.generation) = pr.2 /\ live_endpoint snap e.
Proof.
  unfold revalidate_endpoint, live_endpoint. destruct (endpointMap snap !! pr.1) as [e|]; [|naive_solver].
  rewrite !guard_None, !orb_false_iff, !negb_false_iff, Z.eqb_eq, endpointFresh_iff. naive_solver.
Qed.

Lemma revalidate_link_None snap pr :
  revalidate_link snap pr = None <-> exists l, linkMap snap !! pr.1 = Some l /\ l.(Link.generation) = pr.2 /\ live_link l.
Proof.
  unfold revalidate_link, live_link. destruct (linkMap snap !! pr.1) as [l|]; [|naive_solver].
  rewrite !guard_None, !orb_false_iff, !negb_false_iff, Z.eqb_eq. naive_solver.
Qed.

Lemma revalidate_staging_None snap rid : revalidate_staging snap rid = None <-> usable_resource snap rid.
Proof.
  unfold revalidate_staging, usable_resource.
  assert (He : existsb (fun rc : Z * Capacity => rc.1 =? rid) snap.(Snapshot.resourceCapacities) = true <->
               exists c, (rid, c) ∈ snap.(Snapshot.resourceCapacities)).
  { rewrite existsb_exists. setoid_rewrite <- list_elem_of_In. split.
    - intros ([r c] & ? & E%Z.eqb_eq). simpl in E. subst. eauto.
    - intros [c ?]. exists (rid, c). by rewrite Z.eqb_refl. }
  destruct (first_return _ _) as [r|] eqn:E.
  - split; [done|]. intros [_ Hu]. exfalso. apply first_return_Some in E as (l1 & [r' c] & l2 & Hl & _ & Hb).
    simpl in Hb. destruct (Z.eqb_spec r' rid) as [->|]; [|done].
    assert (1 <= Capacity.usable c) by (apply Hu; rewrite Hl; set_solver).
    destruct (Z.ltb_spec (Capacity.usable c) 1); [lia|done].
  - rewrite guard_None, negb_false_iff, He. apply first_return_None in E. rewrite Forall_forall in E.
    split; [|naive_solver]. intros [Hf _]. split; [done|]. intros c Hc. specialize (E _ Hc). simpl in E.
    rewrite Z.eqb_refl in E. destruct (Z.ltb_spec (Capacity.usable c) 1); [done|lia].
Qed.

(** Failed checks answer [ok = false]. *)
Definition refuses (o : option RevalidationResult) : Prop :=
  forall r, o = Some r -> r.(RevalidationResult.ok) = false.

Lemma refuses_None : refuses None.
Proof. done. Qed.
Lemma refuses_stale f d : refuses (Some (stale f d)).
Proof. by intros ? [= <-]. Qed.
Lemma refuses_if (b : bool) x y : refuses x -> refuses y -> refuses (if b then x else y).
Proof. by destruct b. Qed.
Lemma refuses_first {A} (f : A -> option RevalidationResult) l : (forall x, refuses (f x)) -> refuses (first_return f l).
Proof. intros Hf r. apply (first_return_ind (fun r => r.(RevalidationResult.ok) = false)). intros x. apply Hf. Qed.

Create HintDb refuses.
#[export] Hint Resolve refuses_None refuses_stale refuses_if refuses_first : refuses.

Lemma revalidate_endpoint_refuses snap pr : refuses (revalidate_endpoint snap pr).
Proof. unfold revalidate_endpoint. case_match; auto 6 with refuses. Qed.
Lemma revalidate_link_refuses snap pr : refuses (revalidate_link snap pr).
Proof. unfold revalidate_link. case_match; auto 6 with refuses. Qed.
Lemma revalidate_staging_refuses snap rid : refuses (revalidate_staging snap rid).
Proof.
  unfold revalidate_staging. destruct (first_return _ _) eqn:E; [|auto with refuses].
  rewrite <- E. apply refuses_first. auto with refuses.
Qed.
Lemma revalidate_generations_refuses plan snap : refuses (revalidate_generations plan snap).
Proof. unfold revalidate_generations. auto 8 with refuses. Qed.
Lemma not_ok_refuses (r : RevalidationResult) :
  refuses (if negb r.(RevalidationResult.ok) then Some r else None).
Proof. destruct (RevalidationResult.ok r) eqn:E; simpl; [apply refuses_None|]. by intros ? [= <-]. Qed.

#[export] Hint Resolve revalidate_endpoint_refuses revalidate_link_refuses revalidate_staging_refuses
  revalidate_generations_refuses not_ok_refuses : refuses.

Lemma paths_ok_None snap (paths : list Path) :
  first_return (fun pr : RevalidationResult => if negb pr.(RevalidationResult.ok) then Some pr else None)
    ((fun p => revalidatePath p snap) <$> paths) = None <->
  Forall (fun p => Forall (live_stage snap) p.(Path.stages)) paths.
Proof.
  rewrite first_return_None, Forall_fmap. apply Forall_iff. intros p. simpl.
  rewrite guard_None, negb_false_iff, revalidatePath_ok. naive_solver.
Qed.

(** Every check in turn: a failing one is returned, and is a refusal. *)
Lemma revalidatePlan_cases plan snap :
  (current_plan plan snap /\ revalidatePlan plan snap = current Feasibility.FEASIBLE) \/
  (~ current_plan plan snap /\ (revalidatePlan plan snap).(RevalidationResult.ok) = false).
Proof.
  unfold revalidatePlan.
  destruct (revalidate_generations plan snap) as [r|] eqn:E1.
  { right. split; [|by apply (revalidate_generations_refuses plan snap)].
    intros []. rewrite (proj2 (revalidate_generations_None plan snap)) in E1; [done|tauto]. }
  destruct (first_return (revalidate_endpoint snap) _) as [r|] eqn:E2.
  { right. split; [|by eapply (refuses_first (revalidate_endpoint snap)); [auto with refuses|exact E2]].
    intros []. by rewrite (proj2 (first_return_decides _ _ _ (revalidate_endpoint_None snap))) in E2. }
  destruct (first_return (revalidate_link snap) _) as [r|] eqn:E3.
  { right. split; [|by eapply (refuses_first (revalidate_link snap)); [auto with refuses|exact E3]].
    intros []. by rewrite (proj2 (first_return_decides _ _ _ (revalidate_link_None snap))) in E3. }
  cbv zeta. destruct (first_return _ ((fun p => revalidatePath p snap) <$> _)) as [r|] eqn:E4.
  { right. split; [|by eapply refuses_first; [intros x; apply not_ok_refuses|exact E4]].
    intros []. by rewrite (proj2 (paths_ok_None snap _)) in E4. }
  destruct (first_return (revalidate_staging snap) _) as [r|] eqn:E5.
  { right. split; [|by eapply (refuses_first (revalidate_staging snap)); [auto with refuses|exact E5]].
    intros []. by rewrite (proj2 (first_return_decides _ _ _ (revalidate_staging_None snap))) in E5. }
  left. apply revalidate_generations_None in E1 as (? & ? & ? & ?).
  apply (first_return_decides _ _ _ (revalidate_endpoint_None snap)) in E2.
  apply (first_return_decides _ _ _ (revalidate_link_None snap)) in E3.
  apply paths_ok_None in E4. apply (first_return_decides _ _ _ (revalidate_staging_None snap)) in E5.
  split; [by split|]. replace (forallb _ _) with true; [done|]. symmetry. apply forallb_forall.
  intros pr Hpr. apply list_elem_of_In, list_elem_of_fmap in Hpr as (p & -> & Hp).
  rewrite Forall_forall in E4. specialize (E4 p Hp). apply revalidatePath_ok, revalidatePath_feasible in E4. by rewrite E4.
Qed.

(** C16: revalidation passes exactly the plans that are still current: topology has not
    regressed, congestion, capacity and reservation evidence is of the bound
    generation, every bound endpoint and link is present with its bound generation and
    live, every stage of every path is live, and every staging resource is offered with
    usable capacity.  A passing answer is FEASIBLE without recorded changes. *)
Theorem revalidatePlan_correct plan snap :
  ((revalidatePlan plan snap).(RevalidationResult.ok) = true <-> current_plan plan snap) /\
  (current_plan plan snap -> revalidatePlan plan snap = current Feasibility.FEASIBLE).
Proof.
  destruct (revalidatePlan_cases plan snap) as [[H ->]|[H E]]; [done|]. rewrite E. by split.
Qed.

(** ** A fresh plan is current *)

Lemma feasible_hop_live request snap h :
  feasible_hop request snap h ->
  exists l s d, linkMap snap !! h.(Hop.link) = Some l /\ live_link l /\
    endpointMap snap !! h.(Hop.from) = Some s /\ live_endpoint snap s /\
    endpointMap snap !! h.(Hop.to) = Some d /\ live_endpoint snap d.
Proof.
  intros (l & s & d & Hl & [] & Hs & [] & Hd & []). exists l, s, d. unfold live_link, live_endpoint. auto 12.
Qed.

Lemma assembled_plan_hops request snap bounds plan h :
  assembled_plan request snap bounds plan -> h ∈ plan_hops plan -> feasible_hop request snap h.
Proof.
  unfold plan_hops. intros [Hf _ _ _ _ _ _] Hh.
  rewrite list_elem_of_fmap in Hh. destruct Hh as (st & -> & Hst). rewrite elem_of_concat in Hst.
  destruct Hst as (stages & Hst & Hs). apply list_elem_of_fmap in Hs as (p & -> & Hp).
  rewrite Forall_forall in Hf. destruct (Hf p Hp) as (c & cost & Hc & [_ _ _ _ _ Hl _] & _).
  rewrite Forall_forall in Hl. apply Hl. rewrite <- (stages_for_hops _ _ _ _ (pf_stages _ _ _ _ _ _ Hc)). by apply list_elem_of_fmap_2.
Qed.

Lemma fresh_plan_current request snap bounds plan :
  bound_plan snap plan -> assembled_plan request snap bounds plan ->
  Forall (usable_resource snap) plan.(Plan.requiredStagingResources) -> current_plan plan snap.
Proof.
  intros [(Et & Ec & Er & Eg & _) He Hl _ _ _] Hf Hst.
  pose proof (fun h Hh => feasible_hop_live _ _ _ (assembled_plan_hops _ _ _ _ h Hf Hh)) as Hlive.
  split; [lia|by intros _|by intros _|by intros _| | | |done].
  - apply Forall_forall. intros x (h & e & Hh & Hm & ->)%He.
    destruct (Hlive h Hh) as (l & s & d & _ & _ & Hs & Hsl & Hd & Hdl). exists e. simpl.
    destruct Hm as [Hm|Hm]; rewrite Hm in *; simplify_eq; (split; [|done]);
      apply index_by_Some in Hm as Hid; destruct Hid as [_ ->]; exact Hm.
  - apply Forall_forall. intros x (h & l & Hh & Hm & ->)%Hl.
    destruct (Hlive h Hh) as (l' & s & d & Hl' & Hll & _). simplify_eq. exists l. simpl.
    split; [|done]. apply index_by_Some in Hm as Hid. destruct Hid as [_ ->]. exact Hm.
  - apply Forall_forall. intros p Hp. apply Forall_forall. intros st Hst'.
    apply (Hlive (hop_of_stage st)). unfold plan_hops. apply list_elem_of_fmap_2, elem_of_concat.
    exists p.(Path.stages). split; [done|]. by apply list_elem_of_fmap_2.
Qed.

(** C20: a successful plan is current against the evidence it was made from: if nothing
    changes and the staging resources it claims are offered, revalidation before
    execution passes. *)
Theorem planned_then_revalidates request snap weights bounds cs outcome cs' plan :
  counters_wf cs -> returns (planCommunication request snap weights bounds) cs outcome cs' ->
  outcome.(PlanOutcome.success) = true -> outcome.(PlanOutcome.plan) = Some plan ->
  Forall (usable_resource snap) plan.(Plan.requiredStagingResources) ->
  revalidatePlan plan snap = current Feasibility.FEASIBLE.
Proof.
  intros Hwf Hr Hs Hp Hst. destruct (planned_is_assembled _ _ _ _ _ _ _ _ Hwf Hr Hs Hp) as [Hb Hf].
  destruct (revalidatePlan_cases plan snap) as [[_ E]|[H _]]; [exact E|].
  exfalso. apply H. by eapply fresh_plan_current.
Qed.

Lemma planned_then_revalidates_witness :
  exists plan, plan_of (planCommunication basicRequest basicSnapshot ∅ basicBounds initialCounters) = Some plan /\
    revalidatePlan plan basicSnapshot = current Feasibility.FEASIBLE.
Proof.
  destruct (planCommunication basicRequest basicSnapshot ∅ basicBounds initialCounters) as [[o|e] cs] eqn:E;
    [|vm_compute in E; discriminate E].
  assert (Ho : o.(PlanOutcome.success) = true /\ exists plan, o.(PlanOutcome.plan) = Some plan /\
    plan.(Plan.requiredStagingResources) = []).
  { vm_compute in E. injection E as E1 E2. rewrite <- E1. split; [reflexivity|eexists; split; reflexivity]. }
  destruct Ho as (Hs & plan & Hp & Hst). exists plan. split; [exact Hp|].
  apply (planned_then_revalidates basicRequest basicSnapshot ∅ basicBounds initialCounters o cs plan
    initialCounters_wf E Hs Hp). rewrite Hst. apply Forall_nil_2.
Defined.
