(* ===== verification/Broker.v ===== *)
(** * The resource broker

    Models adapters/broker.hpp: the interface through which the coordinator acquires and
    releases staging resources, as a class with its laws, and [MemoryResourceBroker],
    which implements it. *)

From S2P Require Import Prelude Core Enums Double Model.

(** ** The interface [ResourceBroker] *)

(** What [acquire] answers: granted, or the text it stores in [err]. *)
Inductive Acquired :=
  | Granted
  | Denied (err : string).

Class ResourceBroker (B : Type) := {
  acquire : B -> list ResourceId -> list Bytes -> result Acquired * B;
  release : B -> list ResourceId -> B;
  held : B -> ResourceId -> Z;
  capacity : B -> ResourceId -> Z;
}.

(** The total requested for a resource. *)
Fixpoint requested (resources sizes : list Z) (r : Z) : Z :=
  match resources, sizes with
  | x :: resources', s :: sizes' => (if x =? r then s else 0) + requested resources' sizes' r
  | _, _ => 0
  end.

(** What clients may rely on: acquisition is all or nothing, it grants what was asked
    for, a release drops the holdings of exactly the named resources, and neither
    changes a capacity. *)
Class ResourceBrokerLaws (B : Type) `{ResourceBroker B} := {
  acquire_denied : forall b rs ss e b', acquire b rs ss = (Ok (Denied e), b') ->
    forall r, held b' r = held b r;
  acquire_granted : forall b rs ss b', acquire b rs ss = (Ok Granted, b') ->
    forall r, held b' r = if bool_decide (r ∈ rs) then wrap64 (held b r + requested rs ss r) else held b r;
  acquire_defined : forall b rs ss, length rs = length ss -> exists a b', acquire b rs ss = (Ok a, b');
  release_held : forall b rs r, held (release b rs) r = if bool_decide (r ∈ rs) then 0 else held b r;
  acquire_capacity : forall b rs ss a b' r, acquire b rs ss = (Ok a, b') -> capacity b' r = capacity b r;
  release_capacity : forall b rs r, capacity (release b rs) r = capacity b r;
}.

(** ** [MemoryResourceBroker] *)

Module MemoryResourceBroker.
Record MemoryResourceBroker := {
  defaultCap : Z;
  caps : gmap Z Z;
  held_ : gmap Z Z;
  failAfter : Z;               (* int *)
}.
End MemoryResourceBroker.
Abbreviation MemoryResourceBroker := MemoryResourceBroker.MemoryResourceBroker.

Definition MemoryResourceBroker_init (defaultCap : Z) : MemoryResourceBroker := {|
  MemoryResourceBroker.defaultCap := defaultCap; MemoryResourceBroker.caps := ∅;
  MemoryResourceBroker.held_ := ∅; MemoryResourceBroker.failAfter := -1 |}.

Definition setCapacity (b : MemoryResourceBroker) (id bytes : Z) : MemoryResourceBroker := {|
  MemoryResourceBroker.defaultCap := b.(MemoryResourceBroker.defaultCap);
  MemoryResourceBroker.caps := <[id := bytes]> b.(MemoryResourceBroker.caps);
  MemoryResourceBroker.held_ := b.(MemoryResourceBroker.held_);
  MemoryResourceBroker.failAfter := b.(MemoryResourceBroker.failAfter) |}.

Definition setFailNext (b : MemoryResourceBroker) (n : Z) : MemoryResourceBroker := {|
  MemoryResourceBroker.defaultCap := b.(MemoryResourceBroker.defaultCap);
  MemoryResourceBroker.caps := b.(MemoryResourceBroker.caps);
  MemoryResourceBroker.held_ := b.(MemoryResourceBroker.held_);
  MemoryResourceBroker.failAfter := n |}.

Definition memory_capacity (b : MemoryResourceBroker) (id : ResourceId) : Z :=
  match b.(MemoryResourceBroker.caps) !! id with Some c => c | None => b.(MemoryResourceBroker.defaultCap) end.

Definition memory_held (b : MemoryResourceBroker) (id : ResourceId) : Z :=
  match b.(MemoryResourceBroker.held_) !! id with Some h => h | None => 0 end.

Definition capacityAvailable (b : MemoryResourceBroker) (id : ResourceId) : bool :=
  memory_held b id <? memory_capacity b id.

(** The first loop of [acquire]: every claim fits beside what is held. *)
Fixpoint acquire_check (b : MemoryResourceBroker) (resources : list ResourceId) (sizes : list Bytes) : result Acquired :=
  match resources with
  | [] => Ok Granted
  | r :: resources' =>
      match sizes with
      | [] => Throw undefined_index
      | size :: sizes' =>
          let cap := memory_capacity b r in
          match b.(MemoryResourceBroker.held_) !! r with
          | Some h => if cap <? wrap64 (h + size) then Ok (Denied "insufficient capacity") else acquire_check b resources' sizes'
          | None => if cap <? size then Ok (Denied "insufficient capacity") else acquire_check b resources' sizes'
          end
      end
  end.

(** The second loop: [held_[resources[i]] += sizes[i].count()]. *)
Definition acquire_take (held_ : gmap Z Z) (resources : list ResourceId) (sizes : list Bytes) : gmap Z Z :=
  foldl (fun m (p : Z * Z) => <[p.1 := wrap64 (default 0 (m !! p.1) + p.2)]> m) held_ (zip resources sizes).

Definition memory_acquire (b : MemoryResourceBroker) (resources : list ResourceId) (sizes : list Bytes)
    : result Acquired * MemoryResourceBroker :=
  if b.(MemoryResourceBroker.failAfter) =? 0 then (Ok (Denied "broker scripted acquire failure"), b)
  else
    let b := setFailNext b (if 0 <? b.(MemoryResourceBroker.failAfter)
                            then b.(MemoryResourceBroker.failAfter) - 1 else b.(MemoryResourceBroker.failAfter)) in
    match acquire_check b resources sizes with
    | Ok Granted =>
        (Ok Granted, {| MemoryResourceBroker.defaultCap := b.(MemoryResourceBroker.defaultCap);
                        MemoryResourceBroker.caps := b.(MemoryResourceBroker.caps);
                        MemoryResourceBroker.held_ := acquire_take b.(MemoryResourceBroker.held_) resources sizes;
                        MemoryResourceBroker.failAfter := b.(MemoryResourceBroker.failAfter) |})
    | r => (r, b)
    end.

Definition memory_release (b : MemoryResourceBroker) (resources : list ResourceId) : MemoryResourceBroker := {|
  MemoryResourceBroker.defaultCap := b.(MemoryResourceBroker.defaultCap);
  MemoryResourceBroker.caps := b.(MemoryResourceBroker.caps);
  MemoryResourceBroker.held_ := foldl (fun m id => delete id m) b.(MemoryResourceBroker.held_) resources;
  MemoryResourceBroker.failAfter := b.(MemoryResourceBroker.failAfter) |}.

#[export] Instance MemoryResourceBroker_broker : ResourceBroker MemoryResourceBroker := {|
  acquire := memory_acquire; release := memory_release; held := memory_held; capacity := memory_capacity |}.

(** ** The implementation keeps the interface's laws *)

Lemma requested_notin rs ss r : r ∉ rs -> requested rs ss r = 0.
Proof.
  revert ss; induction rs as [|y rs IH]; intros [|t ss] Hn; simpl; auto.
  destruct (Z.eqb_spec y r) as [->|]; [set_solver|]. rewrite IH by set_solver. lia.
Qed.

Lemma acquire_take_lookup m rs ss r :
  length rs = length ss ->
  default 0 (acquire_take m rs ss !! r) =
  if bool_decide (r ∈ rs) then wrap64 (default 0 (m !! r) + requested rs ss r) else default 0 (m !! r).
Proof.
  unfold acquire_take. revert m ss; induction rs as [|x rs IH]; intros m [|s ss] Hl; simplify_eq/=; [done|].
  rewrite IH by done. rewrite lookup_insert. rewrite (bool_decide_ext (r ∈ x :: rs) (r = x \/ r ∈ rs)) by apply elem_of_cons.
  destruct (decide (x = r)) as [->|Hne].
  - rewrite Z.eqb_refl. simpl. rewrite (bool_decide_eq_true_2 (r = r \/ _)) by auto.
    case_bool_decide; simpl.
    + unfold wrap64. rewrite Zplus_mod_idemp_l. f_equal. lia.
    + by rewrite requested_notin, Z.add_0_r.
  - destruct (Z.eqb_spec x r); [done|]. repeat case_bool_decide; simpl; try done; naive_solver.
Qed.

Lemma acquire_check_defined b rs ss : length rs = length ss -> exists a, acquire_check b rs ss = Ok a.
Proof.
  revert ss; induction rs as [|r rs IH]; intros [|s ss] Hl; simplify_eq/=; [eauto|].
  destruct (MemoryResourceBroker.held_ b !! r); case_match; eauto.
Qed.

Lemma acquire_check_granted b rs ss :
  acquire_check b rs ss = Ok Granted -> (length rs <= length ss)%nat.
Proof.
  revert ss; induction rs as [|r rs IH]; intros [|s ss]; simpl; try done; [lia|].
  destruct (MemoryResourceBroker.held_ b !! r); case_match; try done; intros ?%IH; lia.
Qed.

(** Extra sizes beyond the resources are never read. *)
Lemma requested_take rs ss r : requested rs (take (length rs) ss) r = requested rs ss r.
Proof. revert ss; induction rs as [|x rs IH]; intros [|s ss]; simpl; auto. by rewrite IH. Qed.

Lemma zip_take {A B} (l : list A) (k : list B) : zip l (take (length l) k) = zip l k.
Proof. revert k; induction l as [|x l IH]; intros [|y k]; simpl; auto. by rewrite IH. Qed.

Lemma release_lookup (m : gmap Z Z) rs r :
  foldl (fun m id => delete id m) m rs !! r = if bool_decide (r ∈ rs) then None else m !! r.
Proof.
  revert m; induction rs as [|x rs IH]; intros m; simpl; [done|]. rewrite IH, lookup_delete.
  rewrite (bool_decide_ext (r ∈ x :: rs) (r = x \/ r ∈ rs)) by apply elem_of_cons.
  destruct (decide (x = r)) as [->|]; repeat case_bool_decide; try done; naive_solver.
Qed.

Lemma memory_held_default b r : memory_held b r = default 0 (b.(MemoryResourceBroker.held_) !! r).
Proof. unfold memory_held. by destruct (_ !! r). Qed.

#[export] Instance MemoryResourceBroker_laws : ResourceBrokerLaws MemoryResourceBroker.
Proof.
  split; simpl; unfold memory_acquire.
  - intros b rs ss e b' H r. repeat case_match; simplify_eq/=; done.
  - intros b rs ss b' H r. destruct (_ =? 0); [done|].
    destruct (acquire_check _ rs ss) as [[]|] eqn:E; simplify_eq/=. rewrite !memory_held_default. simpl.
    apply acquire_check_granted in E. unfold acquire_take. rewrite <- zip_take, <- (requested_take rs ss).
    apply (acquire_take_lookup (MemoryResourceBroker.held_ b)). rewrite length_take. lia.
  - intros b rs ss Hl. destruct (_ =? 0); [eauto|].
    edestruct acquire_check_defined as [a ->]; [exact Hl|]. destruct a; eauto.
  - intros b rs r. unfold memory_release. rewrite !memory_held_default. simpl. rewrite release_lookup. by case_bool_decide.
  - intros b rs ss a b' r H. repeat case_match; simplify_eq/=; done.
  - done.
Qed.

(** ** Properties *)

(** No resource is held beyond its capacity. *)
Definition within_capacity `{ResourceBroker B} (b : B) : Prop := forall r, held b r <= capacity b r.

(** Every claim fits beside what is held, in the width the broker adds in. *)
Definition claims_fit (b : MemoryResourceBroker) (rs ss : list Z) : Prop :=
  Forall (fun p : Z * Z => wrap64 (memory_held b p.1 + p.2) <= memory_capacity b p.1) (zip rs ss).

Lemma acquire_check_iff b rs ss :
  length rs = length ss -> Forall is_u64 ss ->
  acquire_check b rs ss = Ok Granted <-> claims_fit b rs ss.
Proof.
  unfold claims_fit. intros Hl Hs. revert rs Hl; induction Hs as [|s ss Hs0 Hs IH]; intros [|r rs] Hl; simplify_eq/=.
  { split; [constructor|done]. }
  rewrite Forall_cons, <- (IH rs) by done. simpl. unfold memory_held.
  destruct (MemoryResourceBroker.held_ b !! r) as [h|].
  - destruct (Z.ltb_spec (memory_capacity b r) (wrap64 (h + s))); intuition (lia || done).
  - rewrite Z.add_0_l, wrap64_small by done.
    destruct (Z.ltb_spec (memory_capacity b r) s); intuition (lia || done).
Qed.

(** Acquisition is all or nothing and never overcommits: without a scripted
    failure the broker grants a request exactly when every single claim fits, a denied
    request leaves every holding as it was, and from a state within capacity a granted
    request for distinct resources leads to one within capacity. *)
Theorem memory_acquire_correct b rs ss :
  length rs = length ss -> Forall is_u64 ss -> NoDup rs -> within_capacity b ->
  exists a b', acquire b rs ss = (Ok a, b') /\
    (b.(MemoryResourceBroker.failAfter) <> 0 -> (a = Granted <-> claims_fit b rs ss)) /\
    (a <> Granted -> forall r, held b' r = held b r) /\
    within_capacity b'.
Proof.
  intros Hl Hs Hnd Hw. destruct (acquire_defined b rs ss Hl) as (a & b' & E). exists a, b'. split; [done|].
  assert (Hfit : a = Granted -> claims_fit b rs ss).
  { intros ->. simpl in E. unfold memory_acquire in E. destruct (_ =? 0); [done|].
    destruct (acquire_check _ rs ss) as [[]|] eqn:Ec; simplify_eq. by apply acquire_check_iff in Ec. }
  assert (Hden : a <> Granted -> forall r, held b' r = held b r).
  { destruct a as [|e]; [done|]. intros _ r. by apply (acquire_denied b rs ss e b'). }
  split_and!; [|done|].
  - intros Hf. split; [done|]. intros Hc. simpl in E. unfold memory_acquire in E.
    destruct (Z.eqb_spec (MemoryResourceBroker.failAfter b) 0); [done|].
    rewrite (proj2 (acquire_check_iff _ _ _ Hl Hs)) in E; [by simplify_eq|exact Hc].
  - destruct a as [|e].
    + intros r. rewrite (acquire_capacity b rs ss Granted b' r E), (acquire_granted b rs ss b' E r).
      case_bool_decide as Hr; [|apply Hw]. specialize (Hfit eq_refl). unfold claims_fit in Hfit.
      clear -Hfit Hr Hnd Hl. revert ss Hl Hfit; induction rs as [|x rs IH]; intros [|s ss] Hl Hfit; simplify_eq/=; [set_solver|].
      apply Forall_cons in Hfit as [Hx Hfit]. apply NoDup_cons in Hnd as [Hni Hnd].
      destruct (Z.eqb_spec x r) as [->|Hne].
      * rewrite requested_notin, Z.add_0_r by done. exact Hx.
      * rewrite Z.add_0_l. apply IH; try done. set_solver.
    + intros r. rewrite (acquire_capacity b rs ss (Denied e) b' r E), Hden by done. apply Hw.
Qed.

Lemma memory_acquire_correct_witness :
  within_capacity (MemoryResourceBroker_init 4096) /\
  exists b', acquire (MemoryResourceBroker_init 4096) [25; 27] [4096; 1024] = (Ok Granted, b') /\ within_capacity b'.
Proof.
  assert (Hw : within_capacity (MemoryResourceBroker_init 4096)) by (intros r; vm_compute; discriminate).
  split; [exact Hw|].
  destruct (memory_acquire_correct (MemoryResourceBroker_init 4096) [25; 27] [4096; 1024]) as (a & b' & E & Hi & _ & Hb).
  - reflexivity.
  - repeat constructor; vm_compute; discriminate.
  - apply (bool_decide_unpack _). reflexivity.
  - exact Hw.
  - exists b'. split; [|exact Hb]. rewrite E. do 2 f_equal. apply Hi; [discriminate|].
    repeat constructor; vm_compute; discriminate.
Defined.

(** The check adds each claim to what was held before the call, so a request that
    names one resource twice is granted beyond the capacity. *)
Theorem duplicate_claims_overcommit :
  exists b', acquire (MemoryResourceBroker_init 4096) [25; 25] [4096; 4096] = (Ok Granted, b') /\
    capacity b' 25 < held b' 25.
Proof. eexists. split; [reflexivity|]. vm_compute. reflexivity. Qed.
