(* ===== verification/Message.v ===== *)
(** * Messages

    Models protocol/protocol.hpp: the message types and the structured message that
    carries the fields of each type, and the default-constructed values of the model's
    structs that an unset field holds. *)

From S2P Require Import Prelude Core Enums Double Model.

Module MessageType.
Inductive MessageType :=
  | HELLO
  | REGISTER
  | PUBLISH_ENDPOINT
  | PUBLISH_LINK
  | PUBLISH_TOPOLOGY
  | PUBLISH_CAPACITY
  | PUBLISH_CONGESTION
  | SUBMIT_REQUEST
  | QUERY_PLAN
  | PLAN_RESULT
  | COMMIT_REQUEST
  | COMMIT_RESULT
  | REVALIDATE
  | SUPERSEDE
  | CANCEL
  | EXECUTION_HANDOFF
  | EXECUTION_RESULT
  | EXECUTE
  | SAVE
  | SHUTDOWN
  | ERROR.
End MessageType.
Abbreviation MessageType := MessageType.MessageType.

#[export] Instance MessageType_eq_dec : EqDecision MessageType.
Proof. solve_decision. Defined.

Definition MessageType_u8 (t : MessageType) : Z :=
  match t with
  | MessageType.HELLO => 0
  | MessageType.REGISTER => 1
  | MessageType.PUBLISH_ENDPOINT => 2
  | MessageType.PUBLISH_LINK => 3
  | MessageType.PUBLISH_TOPOLOGY => 4
  | MessageType.PUBLISH_CAPACITY => 5
  | MessageType.PUBLISH_CONGESTION => 6
  | MessageType.SUBMIT_REQUEST => 7
  | MessageType.QUERY_PLAN => 8
  | MessageType.PLAN_RESULT => 9
  | MessageType.COMMIT_REQUEST => 10
  | MessageType.COMMIT_RESULT => 11
  | MessageType.REVALIDATE => 12
  | MessageType.SUPERSEDE => 13
  | MessageType.CANCEL => 14
  | MessageType.EXECUTION_HANDOFF => 15
  | MessageType.EXECUTION_RESULT => 16
  | MessageType.EXECUTE => 17
  | MessageType.SAVE => 18
  | MessageType.SHUTDOWN => 19
  | MessageType.ERROR => 20
  end.

#[export] Instance MessageType_enum : CppEnum MessageType.
Proof.
  refine {| enum_values := [MessageType.HELLO; MessageType.REGISTER; MessageType.PUBLISH_ENDPOINT; MessageType.PUBLISH_LINK; MessageType.PUBLISH_TOPOLOGY; MessageType.PUBLISH_CAPACITY; MessageType.PUBLISH_CONGESTION; MessageType.SUBMIT_REQUEST; MessageType.QUERY_PLAN; MessageType.PLAN_RESULT; MessageType.COMMIT_REQUEST; MessageType.COMMIT_RESULT; MessageType.REVALIDATE; MessageType.SUPERSEDE; MessageType.CANCEL; MessageType.EXECUTION_HANDOFF; MessageType.EXECUTION_RESULT; MessageType.EXECUTE; MessageType.SAVE; MessageType.SHUTDOWN; MessageType.ERROR];
    enum_u8 := MessageType_u8; enum_of_u8 := enum_index _ |}; solve_cpp_enum_fields.
Defined.

Definition MessageType_toString (t : MessageType) : string :=
  match t with
  | MessageType.HELLO => "HELLO"
  | MessageType.REGISTER => "REGISTER"
  | MessageType.PUBLISH_ENDPOINT => "PUBLISH_ENDPOINT"
  | MessageType.PUBLISH_LINK => "PUBLISH_LINK"
  | MessageType.PUBLISH_TOPOLOGY => "PUBLISH_TOPOLOGY"
  | MessageType.PUBLISH_CAPACITY => "PUBLISH_CAPACITY"
  | MessageType.PUBLISH_CONGESTION => "PUBLISH_CONGESTION"
  | MessageType.SUBMIT_REQUEST => "SUBMIT_REQUEST"
  | MessageType.QUERY_PLAN => "QUERY_PLAN"
  | MessageType.PLAN_RESULT => "PLAN_RESULT"
  | MessageType.COMMIT_REQUEST => "COMMIT_REQUEST"
  | MessageType.COMMIT_RESULT => "COMMIT_RESULT"
  | MessageType.REVALIDATE => "REVALIDATE"
  | MessageType.SUPERSEDE => "SUPERSEDE"
  | MessageType.CANCEL => "CANCEL"
  | MessageType.EXECUTION_HANDOFF => "EXECUTION_HANDOFF"
  | MessageType.EXECUTION_RESULT => "EXECUTION_RESULT"
  | MessageType.EXECUTE => "EXECUTE"
  | MessageType.SAVE => "SAVE"
  | MessageType.SHUTDOWN => "SHUTDOWN"
  | MessageType.ERROR => "ERROR"
  end.

(** ** Default-constructed structs *)

Definition Capability_default : Capability := {|
  Capability.generation := 0; Capability.transports := ∅; Capability.features := ∅;
  Capability.provenance := Provenance.UNKNOWN; Capability.computeArch := replicate 8 0 |}.

Definition Health_default : Health := {| Health.generation := 0; Health.healthy := false; Health.message := "" |}.

Definition Capacity_default : Capacity := {|
  Capacity.generation := 0; Capacity.usable := 0; Capacity.headroom := 0; Capacity.provenance := Provenance.UNKNOWN |}.

Definition Congestion_default : Congestion := {|
  Congestion.generation := 0; Congestion.load := dzero; Congestion.penalty := dzero;
  Congestion.hardLimitExceeded := false; Congestion.provenance := Provenance.UNKNOWN |}.

Definition TopologyLocation_default : TopologyLocation := {|
  TopologyLocation.node := 0; TopologyLocation.cpuDomain := 0; TopologyLocation.memoryDomain := 0;
  TopologyLocation.nic := 0; TopologyLocation.device := 0; TopologyLocation.pcieRoot := "";
  TopologyLocation.numaDistance := 0; TopologyLocation.provenance := Provenance.UNKNOWN |}.

Definition Endpoint_default : Endpoint := {|
  Endpoint.id := 0; Endpoint.generation := 0; Endpoint.kind := EndpointKind.UNKNOWN; Endpoint.node := 0;
  Endpoint.device := 0; Endpoint.location := TopologyLocation_default;
  Endpoint.address := ""; Endpoint.protocol := ""; Endpoint.version := ""; Endpoint.name := "";
  Endpoint.capability := Capability_default; Endpoint.health := Health_default;
  Endpoint.reachable := false; Endpoint.ready := false; Endpoint.worker := 0; Endpoint.workerBoot := 0;
  Endpoint.source := 0; Endpoint.sourceBoot := 0; Endpoint.failureDomain := "";
  Endpoint.provenance := Provenance.UNKNOWN |}.

Definition Link_default : Link := {|
  Link.id := 0; Link.generation := 0; Link.source := 0; Link.destination := 0; Link.kind := LinkKind.UNKNOWN;
  Link.transport := Transport.UNKNOWN; Link.directed := true; Link.capacity := 0; Link.effectiveBandwidth := 0;
  Link.latency := 0; Link.health := Health_default; Link.congestion := Congestion_default;
  Link.capacityEvidence := Capacity_default; Link.topologyGeneration := 0; Link.capabilityGeneration := 0;
  Link.failureDomain := ""; Link.workerBoot := 0; Link.provenance := Provenance.UNKNOWN |}.

Definition Request_default : CommunicationRequest := {|
  Request.id := 0; Request.generation := 0; Request.shape := RequestShape.POINT_TO_POINT; Request.source := 0;
  Request.destinations := []; Request.payloadSize := 0; Request.direction := Direction.FORWARD;
  Request.latencySensitive := false; Request.throughputTarget := 0; Request.requireOrdering := false;
  Request.requireReliability := false; Request.allowRetry := false; Request.allowStaging := true;
  Request.allowHostStaging := true; Request.allowStorageStaging := false; Request.allowRelay := true;
  Request.allowMulticast := false; Request.allowed := ∅; Request.forbidden := ∅;
  Request.requiredFailureDomain := ""; Request.preferredLocality := ""; Request.maxHops := 16;
  Request.maxStages := 16; Request.maxMovementCost := None; Request.reservationBinding := None;
  Request.externalPriority := 0; Request.policyGeneration := 0;
  Request.collectiveShape := CollectiveShape.UNKNOWN; Request.participants := [];
  Request.collectiveCount := 0; Request.provenance := "" |}.

Definition Plan_default : CommunicationPlan := {|
  Plan.id := 0; Plan.generation := 0; Plan.requestId := 0; Plan.requestGeneration := 0;
  Plan.shape := RequestShape.POINT_TO_POINT; Plan.primaryPath := 0; Plan.fallbackPaths := [];
  Plan.candidatePaths := []; Plan.orderedStages := []; Plan.feasibility := Feasibility.UNKNOWN;
  Plan.topologyGeneration := 0; Plan.capacityGeneration := 0; Plan.reservationGeneration := 0;
  Plan.congestionGeneration := 0; Plan.capabilityGeneration := 0; Plan.healthGeneration := 0;
  Plan.placementGeneration := 0; Plan.authorityGeneration := 0; Plan.endpointGenerations := [];
  Plan.linkGenerations := []; Plan.requiredStagingResources := []; Plan.requiredResourceClaims := [];
  Plan.cost := CostSummary_default; Plan.explanations := []; Plan.provenance := "";
  Plan.revalidationGeneration := 0; Plan.revalidateBeforeExecute := true; Plan.handoffRequirement := "";
  Plan.createdProvenance := ""; Plan.multicastDestinations := [];
  Plan.collectiveShape := CollectiveShape.UNKNOWN; Plan.collectiveParticipants := []; Plan.description := "" |}.

(** ** Messages *)

Module Message.
Record Message := {
  type : MessageType;
  epoch : CoordinatorEpoch;
  worker : WorkerId;
  boot : WorkerBootId;
  source : SourceId;
  sourceBoot : SourceBootId;
  name : string;
  endpoint : Endpoint;
  link : Link;
  request : CommunicationRequest;
  plan : CommunicationPlan;
  linkId : LinkId;
  capacity : Capacity;
  congestion : Congestion;
  planId : CommunicationPlanId;
  requestId : CommunicationRequestId;
  ok : bool;
  bytes : Z;
  error : string;
}.
End Message.
Abbreviation Message := Message.Message.

(** [Message m; m.type = t; m.epoch = ...; ...] with the fields the coordinator sets. *)
Definition makeMessage (t : MessageType) (epoch : Z) (worker boot : Z) (plan : CommunicationPlan)
    (planId : Z) (ok : bool) (bytes : Z) (error : string) : Message := {|
  Message.type := t; Message.epoch := epoch; Message.worker := worker; Message.boot := boot;
  Message.source := 0; Message.sourceBoot := 0; Message.name := ""; Message.endpoint := Endpoint_default;
  Message.link := Link_default; Message.request := Request_default; Message.plan := plan; Message.linkId := 0;
  Message.capacity := Capacity_default; Message.congestion := Congestion_default; Message.planId := planId;
  Message.requestId := 0; Message.ok := ok; Message.bytes := bytes; Message.error := error |}.

(** [sendError], [sendOk] and the plain result. *)
Definition errorMessage (e : string) : Message := makeMessage MessageType.ERROR 0 0 0 Plan_default 0 false 0 e.
Definition resultMessage (ok : bool) (planId : Z) : Message :=
  makeMessage MessageType.COMMIT_RESULT 0 0 0 Plan_default planId ok 0 "".
Definition okMessage (id : Z) : Message := resultMessage true id.
