(* ===== verification/Client.v ===== *)
(** * The coordinator's client

    Models [CoordinatorClient] of src/coordinator.cpp without its sockets: the message
    each call sends, and what the call answers for the reply it gets ([None] stands for
    a transport error or a reply that does not decode). *)

From S2P Require Import Prelude Core Enums Double Model Message.

(** [Message m; m.type = t; ...] with the fields a client sets. *)
Definition clientMessage (t : MessageType) (worker boot : Z) (name : string) (e : Endpoint) (l : Link)
    (request : CommunicationRequest) (linkId : LinkId) (cap : Capacity) (cong : Congestion)
    (planId requestId : Z) (ok : bool) : Message := {|
  Message.type := t; Message.epoch := 0; Message.worker := worker; Message.boot := boot;
  Message.source := 0; Message.sourceBoot := 0; Message.name := name; Message.endpoint := e;
  Message.link := l; Message.request := request; Message.plan := Plan_default; Message.linkId := linkId;
  Message.capacity := cap; Message.congestion := cong; Message.planId := planId;
  Message.requestId := requestId; Message.ok := ok; Message.bytes := 0; Message.error := "" |}.

Definition plainMessage (t : MessageType) (planId requestId : Z) (ok : bool) : Message :=
  clientMessage t 0 0 "" Endpoint_default Link_default Request_default 0 Capacity_default Congestion_default planId requestId ok.

Definition registerWorker (worker boot : Z) (name : string) : Message :=
  clientMessage MessageType.REGISTER worker boot name Endpoint_default Link_default Request_default 0
    Capacity_default Congestion_default 0 0 false.
Definition publishEndpointCall (worker boot : Z) (e : Endpoint) : Message :=
  clientMessage MessageType.PUBLISH_ENDPOINT worker boot "" e Link_default Request_default 0
    Capacity_default Congestion_default 0 0 false.
Definition publishLinkCall (worker boot : Z) (l : Link) : Message :=
  clientMessage MessageType.PUBLISH_LINK worker boot "" Endpoint_default l Request_default 0
    Capacity_default Congestion_default 0 0 false.
Definition publishCapacity (link : LinkId) (cap : Capacity) : Message :=
  clientMessage MessageType.PUBLISH_CAPACITY 0 0 "" Endpoint_default Link_default Request_default link
    cap Congestion_default 0 0 false.
Definition publishCongestion (link : LinkId) (cong : Congestion) : Message :=
  clientMessage MessageType.PUBLISH_CONGESTION 0 0 "" Endpoint_default Link_default Request_default link
    Capacity_default cong 0 0 false.
Definition submitRequest (req : CommunicationRequest) : Message :=
  clientMessage MessageType.SUBMIT_REQUEST 0 0 "" Endpoint_default Link_default req 0
    Capacity_default Congestion_default 0 0 false.
Definition commitPlan (id : CommunicationPlanId) : Message := plainMessage MessageType.COMMIT_REQUEST id 0 false.
Definition revalidate (id : CommunicationPlanId) : Message := plainMessage MessageType.REVALIDATE id 0 false.
Definition executionHandoff (id : CommunicationPlanId) : Message := plainMessage MessageType.EXECUTION_HANDOFF id 0 false.
Definition executionResult (id : CommunicationPlanId) (okv : bool) : Message := plainMessage MessageType.EXECUTION_RESULT id 0 okv.
Definition queryPlanState (id : CommunicationPlanId) : Message := plainMessage MessageType.QUERY_PLAN id 0 false.
Definition cancel (reqId : CommunicationRequestId) (planId : CommunicationPlanId) : Message :=
  plainMessage MessageType.CANCEL planId reqId false.
Definition supersede (reqId : CommunicationRequestId) (planId : CommunicationPlanId) : Message :=
  plainMessage MessageType.SUPERSEDE planId reqId false.
Definition save : Message := plainMessage MessageType.SAVE 0 0 false.
Definition shutdown : Message := plainMessage MessageType.SHUTDOWN 0 0 false.

(** [CP_CLIENT_SEND] up to its body: the text stored in [err], or the reply. *)
Definition clientReply (reply : option Message) : string + Message :=
  match reply with
  | None => inl "transport error"
  | Some r => if bool_decide (r.(Message.type) = MessageType.ERROR) then inl r.(Message.error) else inr r
  end.

(** [{ return reply.ok; }] and [{ ok = reply.ok; return true; }]: the value returned and
    the out parameter. *)
Definition returnsOk (reply : option Message) : bool :=
  match clientReply reply with inl _ => false | inr r => r.(Message.ok) end.
Definition storesOk (reply : option Message) (ok : bool) : bool * bool :=
  match clientReply reply with inl _ => (false, ok) | inr r => (true, r.(Message.ok)) end.

(** [submitRequest]: the value returned, [feasible] and [out]. *)
Definition submitReply (reply : option Message) (feasible : bool) (out : CommunicationPlan) : bool * bool * CommunicationPlan :=
  match clientReply reply with
  | inl _ => (false, feasible, out)
  | inr r => (true, r.(Message.ok), if r.(Message.ok) then r.(Message.plan) else out)
  end.

(** [(int)v]. *)
Definition to_int (v : Z) : Z := (v + 2 ^ 31) mod 2 ^ 32 - 2 ^ 31.

(** [queryPlanState]: the value returned and [state]. *)
Definition queryReply (reply : option Message) (state : Z) : bool * Z :=
  match clientReply reply with
  | inl _ => (false, state)
  | inr r => (r.(Message.ok), to_int r.(Message.planId))
  end.
