(* ===== verification/Codec.v ===== *)
(** * Byte codecs

    Models the writer and reader classes that src/persistence.cpp ([Writer], [Reader],
    [fnv1a]) and src/protocol.cpp ([W], [R], [fnv]) define alike: little-endian
    integers, booleans, doubles by their bits, length-prefixed strings, and the FNV-1a
    checksum.  A byte is a [Z] below 256.  A writer yields the bytes it appends; a
    reader consumes a prefix of the remaining bytes or fails with an error. *)

From S2P Require Import Prelude Core Enums Double Rounding.

Definition is_u8 (b : Z) : Prop := 0 <= b <= 255.

Definition kMaxCount : Z := 2 ^ 20.

(** ** Doubles as 64 bits *)

(** [std::memcpy] between a double and a [std::uint64_t].  The payload of a NaN is not
    part of the model of doubles; it is written as the canonical quiet NaN. *)
Definition bits_of_double (d : double) : Z :=
  let sign (s : bool) := if s then 2 ^ 63 else 0 in
  match d with
  | S754_zero s => sign s
  | S754_infinity s => sign s + 2047 * 2 ^ 52
  | S754_nan => 2047 * 2 ^ 52 + 2 ^ 51
  | S754_finite s m e =>
      if Zpos m <? 2 ^ 52 then sign s + Zpos m
      else sign s + (e + 1075) * 2 ^ 52 + (Zpos m - 2 ^ 52)
  end.

Definition double_of_bits (b : Z) : double :=
  let s := Z.testbit b 63 in
  let ex := Z.land (Z.shiftr b 52) 2047 in
  let fr := Z.land b (2 ^ 52 - 1) in
  if ex =? 2047 then (if fr =? 0 then S754_infinity s else S754_nan)
  else if ex =? 0 then
    match fr with Zpos m => S754_finite s m (-1074) | _ => S754_zero s end
  else match 2 ^ 52 + fr with Zpos m => S754_finite s m (ex - 1075) | _ => S754_nan end.

(** ** Writers *)

Fixpoint le_bytes (n : nat) (v : Z) : list Z :=
  match n with
  | O => []
  | S n' => Z.land v 255 :: le_bytes n' (Z.shiftr v 8)
  end.

Definition u8 (v : Z) : list Z := [v].
Definition u32 (v : Z) : list Z := le_bytes 4 v.
Definition u64 (v : Z) : list Z := le_bytes 8 v.
Definition boo (b : bool) : list Z := u8 (if b then 1 else 0).
Definition dbl (d : double) : list Z := u64 (bits_of_double d).
Definition string_bytes (s : string) : list Z := (Z.of_N ∘ N_of_ascii) <$> String.list_ascii_of_string s.
Definition str (s : string) : list Z := u64 (Z.of_nat (String.length s)) ++ string_bytes s.
Definition enum `{CppEnum A} (a : A) : list Z := u8 (enum_u8 a).

(** [w.u32((std::uint32_t)v.size()); for (x : v) write(x);] *)
Definition counted {A} (write : A -> list Z) (l : list A) : list Z :=
  u32 (wrap32 (Z.of_nat (length l))) ++ concat (write <$> l).

(** ** Readers *)

Definition P (E A : Type) : Type := list Z -> E + A * list Z.

#[export] Instance P_ret {E} : MRet (P E) := fun A a l => inr (a, l).
#[export] Instance P_bind {E} : MBind (P E) := fun A B f m l =>
  match m l with
  | inl e => inl e
  | inr (a, l') => f a l'
  end.

(** The readers of the source return [bool]: [false] is the error [tt]. *)
Definition Rd (A : Type) : Type := P () A.

Definition fail {E A} (e : E) : P E A := fun _ => inl e.
(** [if (!r.read(&v)) return e;] and [if (!b) return e;]. *)
Definition need {E E' A} (e : E) (m : P E' A) : P E A := fun l =>
  match m l with inl _ => inl e | inr x => inr x end.
Definition check {E} (e : E) (b : bool) : P E () := if b then mret () else fail e.

Definition rd_u8 : Rd Z := fun l => match l with [] => inl () | b :: l' => inr (b, l') end.

Fixpoint rd_bytes (n : nat) : Rd (list Z) :=
  match n with
  | O => mret []
  | S n' => b ← rd_u8; bs ← rd_bytes n'; mret (b :: bs)
  end.

Fixpoint le_value (bs : list Z) : Z :=
  match bs with
  | [] => 0
  | b :: bs' => Z.lor b (Z.shiftl (le_value bs') 8)
  end.

Definition rd_u32 : Rd Z := bs ← rd_bytes 4; mret (le_value bs).
Definition rd_u64 : Rd Z := bs ← rd_bytes 8; mret (le_value bs).
Definition rd_boo : Rd bool := v ← rd_u8; mret (negb (v =? 0)).
Definition rd_dbl : Rd double := v ← rd_u64; mret (double_of_bits v).

Definition string_of_bytes (bs : list Z) : string := String.string_of_list_ascii ((ascii_of_N ∘ Z.to_N) <$> bs).

(** [if (pos_ + len > n_) return false;] and the next [len] bytes. *)
Definition rd_take (len : Z) : Rd (list Z) := fun l =>
  if Z.of_nat (length l) <? len then inl () else inr (take (Z.to_nat len) l, drop (Z.to_nat len) l).

Definition rd_str : Rd string :=
  len ← rd_u64;
  _ ← check () (len <=? kMaxCount);
  bs ← rd_take len;
  mret (string_of_bytes bs).

(** [u8(&k)], then [if (k > LAST) return false; x = (Enum)k;]. *)
Definition rd_enum `{CppEnum A} : Rd A :=
  k ← rd_u8;
  match enum_of_u8 k with Some a => mret a | None => fail () end.

(** A loop of [n] reads. *)
Fixpoint repeated {E A} (n : nat) (m : P E A) : P E (list A) :=
  match n with
  | O => mret []
  | S n' => a ← m; l ← repeated n' m; mret (a :: l)
  end.

(** A count, bounded by [limit], and that many reads. *)
Definition rd_counted {E A} (short over : E) (limit : Z) (m : P E A) : P E (list A) :=
  n ← need short rd_u32;
  _ ← check over (n <=? limit);
  repeated (Z.to_nat n) m.


(** ** The checksum *)

(** One byte; the product wraps at 64 bits, here by masking. *)
Definition fnv_step (h b : Z) : Z := Z.land (1099511628211 * Z.lxor h b) 18446744073709551615.
Definition fnv (bs : list Z) : Z := foldl fnv_step 1469598103934665603 bs.

(** ** Reading what was written *)

(** [m] reads [a] off the front, where it was written as [bs]. *)
Definition reads {E A} (m : P E A) (bs : list Z) (a : A) : Prop := forall rest, m (bs ++ rest) = inr (a, rest).

Lemma reads_ret {E A} (a : A) : reads (E:=E) (mret a) [] a.
Proof. done. Qed.

Lemma reads_bind {E A B} (m : P E A) (f : A -> P E B) bs1 bs2 a b :
  reads m bs1 a -> reads (f a) bs2 b -> reads (m ≫= f) (bs1 ++ bs2) b.
Proof. intros H1 H2 rest. unfold mbind, P_bind. by rewrite <- app_assoc, H1, H2. Qed.

Lemma reads_check {E B} (e : E) (f : () -> P E B) bs b x : b = true -> reads (f ()) bs x -> reads (check e b ≫= f) bs x.
Proof. intros -> H rest. apply H. Qed.

Lemma reads_need {E E' A} (e : E) (m : P E' A) bs a : reads m bs a -> reads (need e m) bs a.
Proof. intros H rest. unfold need. by rewrite H. Qed.

Lemma reads_end {E A B} (m : P E A) (f : A -> B) bs a : reads m bs a -> reads (x ← m; mret (f x)) bs (f a).
Proof. intros H rest. unfold mbind, P_bind. by rewrite H. Qed.

Create HintDb codec.

Lemma rd_u8_reads b : reads rd_u8 (u8 b) b.
Proof. done. Qed.

Lemma rd_bytes_reads bs : reads (rd_bytes (length bs)) bs bs.
Proof. induction bs as [|b bs IH]; intros rest; [done|]. cbn [rd_bytes length app]. unfold mbind, P_bind, rd_u8. by rewrite IH. Qed.

Lemma length_le_bytes n v : length (le_bytes n v) = n.
Proof. revert v; induction n as [|n IH]; intros v; simpl; auto. Qed.

Lemma le_value_bytes n v : 0 <= v < 2 ^ (8 * Z.of_nat n) -> le_value (le_bytes n v) = v.
Proof.
  revert v; induction n as [|n IH]; intros v Hv; [simpl in *; lia|]. cbn [le_bytes le_value].
  rewrite IH.
  - change 255 with (Z.ones 8). apply Z.bits_inj'. intros i Hi. rewrite Z.lor_spec, Z.land_spec, Z.shiftl_spec by lia.
    destruct (Z.ltb_spec i 8).
    + rewrite Z.ones_spec_low, (Z.testbit_neg_r _ (i - 8)) by lia. by rewrite andb_true_r, orb_false_r.
    + rewrite Z.ones_spec_high, Z.shiftr_spec by lia. rewrite andb_false_r, orb_false_l. f_equal. lia.
  - rewrite Z.shiftr_div_pow2 by lia. split; [apply Z.div_pos; lia|]. apply Z.div_lt_upper_bound; [lia|].
    rewrite <- Z.pow_add_r by lia. replace (8 + 8 * Z.of_nat n) with (8 * Z.of_nat (S n)) by lia. lia.
Qed.

Lemma rd_int_reads n v : 0 <= v < 2 ^ (8 * Z.of_nat n) -> reads (bs ← rd_bytes n; mret (le_value bs)) (le_bytes n v) v.
Proof.
  intros Hv rest. pose proof (rd_bytes_reads (le_bytes n v)) as H. rewrite length_le_bytes in H.
  pose proof (reads_end _ le_value _ _ H rest) as H'. by rewrite le_value_bytes in H'.
Qed.

Lemma rd_u32_reads v : is_u32 v -> reads rd_u32 (u32 v) v.
Proof. intros [H1 H2]. apply (rd_int_reads 4). unfold u32_max in *. simpl. lia. Qed.

Lemma rd_u64_reads v : is_u64 v -> reads rd_u64 (u64 v) v.
Proof. intros [H1 H2]. apply (rd_int_reads 8). unfold u64_max in *. simpl. lia. Qed.

Lemma rd_boo_reads b : reads rd_boo (boo b) b.
Proof. intros rest. by destruct b. Qed.

Lemma rd_enum_reads `{CppEnum A} (a : A) : reads rd_enum (enum a) a.
Proof. intros rest. unfold rd_enum, enum, mbind, P_bind, rd_u8, u8. cbn. by rewrite enum_of_u8_u8. Qed.

(** *** Doubles *)

Lemma bits_fields (s : bool) ex fr :
  0 <= ex < 2048 -> 0 <= fr < 2 ^ 52 ->
  let b := (if s then 2 ^ 63 else 0) + ex * 2 ^ 52 + fr in
  is_u64 b /\ Z.testbit b 63 = s /\ Z.land (Z.shiftr b 52) 2047 = ex /\ Z.land b (2 ^ 52 - 1) = fr.
Proof.
  intros Hex Hfr b.
  assert (Hdiv : b / 2 ^ 52 = (if s then 2048 else 0) + ex).
  { symmetry. apply (Z.div_unique_pos b (2 ^ 52) _ fr); [lia|]. unfold b. destruct s; lia. }
  split_and!.
  - unfold is_u64, u64_max, b. destruct s; lia.
  - rewrite (Z.testbit_eqb b 63) by lia. replace (b / 2 ^ 63) with ((b / 2 ^ 52) / 2 ^ 11) by (by rewrite Z.div_div by lia).
    rewrite Hdiv. replace (((if s then 2048 else 0) + ex) / 2 ^ 11) with (if s then 1 else 0).
    + by destruct s.
    + apply (Z.div_unique_pos _ (2 ^ 11) _ ex); destruct s; lia.
  - rewrite Z.shiftr_div_pow2, Hdiv by lia. change 2047 with (Z.ones 11). rewrite Z.land_ones by lia.
    symmetry. apply (Z.mod_unique_pos _ (2 ^ 11) (if s then 1 else 0)); destruct s; lia.
  - change (2 ^ 52 - 1) with (Z.ones 52). rewrite Z.land_ones by lia. symmetry.
    apply (Z.mod_unique_pos _ (2 ^ 52) ((if s then 2048 else 0) + ex)); [lia|]. unfold b. destruct s; lia.
Qed.

Lemma double_bits_roundtrip d : double_wf d = true -> is_u64 (bits_of_double d) /\ double_of_bits (bits_of_double d) = d.
Proof.
  destruct d as [s|s| |s m e]; intros Hw.
  - destruct s; (split; [split; vm_compute; discriminate|reflexivity]).
  - destruct s; (split; [split; vm_compute; discriminate|reflexivity]).
  - split; [split; vm_compute; discriminate|reflexivity].
  - unfold bits_of_double. destruct (proj1 (double_wf_finite _ _ _) Hw) as [[Hm ->]|[Hm He]].
    + rewrite (proj2 (Z.ltb_lt _ _)) by lia. destruct (bits_fields s 0 (Zpos m)) as (Hu & H1 & H2 & H3); [lia..|].
      rewrite Z.mul_0_l, Z.add_0_r in *. unfold double_of_bits. by rewrite H1, H2, H3.
    + rewrite (proj2 (Z.ltb_ge _ _)) by lia. destruct (bits_fields s (e + 1075) (Zpos m - 2 ^ 52)) as (Hu & H1 & H2 & H3); [lia..|].
      split; [exact Hu|]. unfold double_of_bits. rewrite H1, H2, H3.
      destruct (Z.eqb_spec (e + 1075) 2047); [lia|]. destruct (Z.eqb_spec (e + 1075) 0); [lia|].
      replace (2 ^ 52 + (Zpos m - 2 ^ 52)) with (Zpos m) by lia. by replace (e + 1075 - 1075) with e by lia.
Qed.

Lemma rd_dbl_reads d : double_wf d = true -> reads rd_dbl (dbl d) d.
Proof.
  intros [Hu Hr]%double_bits_roundtrip. unfold rd_dbl, dbl.
  pose proof (reads_end _ double_of_bits _ _ (rd_u64_reads _ Hu)) as H. by rewrite Hr in H.
Qed.

(** *** Strings *)

Definition small_str (s : string) : Prop := Z.of_nat (String.length s) <= kMaxCount.

Lemma string_bytes_roundtrip s : string_of_bytes (string_bytes s) = s.
Proof.
  unfold string_of_bytes, string_bytes. rewrite <- list_fmap_compose. rewrite <- (String.string_of_list_ascii_of_string s) at 2.
  f_equal. rewrite <- (list_fmap_id (String.list_ascii_of_string s)) at 2. apply list_fmap_ext. intros ? a _. unfold compose.
  rewrite N2Z.id. apply ascii_N_embedding.
Qed.

Lemma length_string_bytes s : length (string_bytes s) = String.length s.
Proof. unfold string_bytes. rewrite length_fmap. induction s; simpl; auto. Qed.

Lemma rd_take_reads bs : reads (rd_take (Z.of_nat (length bs))) bs bs.
Proof.
  intros rest. unfold rd_take. rewrite length_app. destruct (Z.ltb_spec (Z.of_nat (length bs + length rest)) (Z.of_nat (length bs))); [lia|].
  by rewrite Nat2Z.id, take_app_length, drop_app_length.
Qed.

Lemma rd_str_reads s : small_str s -> reads rd_str (str s) s.
Proof.
  unfold small_str. intros Hs. unfold rd_str, str. eapply reads_bind.
  { apply rd_u64_reads. unfold is_u64, u64_max, kMaxCount in *. lia. }
  apply reads_check; [by apply Z.leb_le|]. rewrite <- length_string_bytes.
  pose proof (reads_end _ string_of_bytes _ _ (rd_take_reads (string_bytes s))) as H. by rewrite string_bytes_roundtrip in H.
Qed.

(** *** Counted lists *)

Definition small_list {A} (l : list A) : Prop := Z.of_nat (length l) <= kMaxCount.

Lemma repeated_reads {E A B} (m : P E B) (write : A -> list Z) (f : A -> B) l :
  Forall (fun x => reads m (write x) (f x)) l -> reads (repeated (length l) m) (concat (write <$> l)) (f <$> l).
Proof.
  induction 1 as [|x l Hx Hl IH]; intros rest; [done|]. cbn. unfold mbind, P_bind. rewrite <- app_assoc, Hx. by rewrite IH.
Qed.

Lemma rd_counted_reads {E A B} (short over : E) limit (m : P E B) (write : A -> list Z) (f : A -> B) l :
  Z.of_nat (length l) <= limit -> limit <= kMaxCount -> Forall (fun x => reads m (write x) (f x)) l ->
  reads (rd_counted short over limit m) (counted write l) (f <$> l).
Proof.
  intros Hl Hk Hall. assert (Hw : is_u32 (Z.of_nat (length l))) by (unfold is_u32, u32_max, kMaxCount in *; lia).
  assert (Hwr : wrap32 (Z.of_nat (length l)) = Z.of_nat (length l)) by (unfold wrap32, is_u32, u32_max in *; apply Z.mod_small; lia).
  unfold rd_counted, counted. rewrite Hwr. eapply reads_bind; [by apply reads_need, rd_u32_reads|].
  apply reads_check; [by apply Z.leb_le|]. rewrite Nat2Z.id. by apply repeated_reads.
Qed.

Lemma rd_counted_same {E A} (short over : E) (m : P E A) (write : A -> list Z) l :
  small_list l -> Forall (fun x => reads m (write x) x) l -> reads (rd_counted short over kMaxCount m) (counted write l) l.
Proof. intros Hl Hall. pose proof (rd_counted_reads short over kMaxCount m write id l Hl ltac:(lia) Hall) as H. by rewrite list_fmap_id in H. Qed.

#[export] Hint Resolve rd_u8_reads rd_u32_reads rd_u64_reads rd_boo_reads rd_dbl_reads rd_enum_reads rd_str_reads reads_need rd_counted_same : codec.

(** Reads a sequence of fields written one after the other. *)
Lemma reads_field {E A B} (m : P E A) (f : A -> P E B) bs fields a b :
  reads m bs a -> reads (f a) (concat fields) b -> reads (m ≫= f) (concat (bs :: fields)) b.
Proof. apply reads_bind. Qed.

Lemma reads_record {E A} (a b : A) : a = b -> reads (E:=E) (mret a) (concat []) b.
Proof. intros ->. apply reads_ret. Qed.

Ltac reads_fields :=
  cbv beta;
  repeat first
    [ apply reads_record; solve [reflexivity | match goal with |- _ = ?x => destruct x; reflexivity end]
    | apply reads_check; [solve [auto with codec]|]
    | eapply reads_field; [solve [eauto with codec]|]; cbv beta ].

(** ** Bytes *)

Lemma land_255_u8 v : is_u8 (Z.land v 255).
Proof. change 255 with (Z.ones 8). rewrite Z.land_ones by lia. unfold is_u8. pose proof (Z.mod_pos_bound v (2 ^ 8)). lia. Qed.

Lemma le_bytes_u8 n v : Forall is_u8 (le_bytes n v).
Proof. revert v; induction n as [|n IH]; intros v; constructor; [apply land_255_u8|apply IH]. Qed.

Lemma le_bytes_value bs : Forall is_u8 bs -> le_bytes (length bs) (le_value bs) = bs.
Proof.
  induction 1 as [|b bs Hb Hbs IH]; [done|]. cbn [length le_bytes le_value].
  assert (Hb8 : forall i, 8 <= i -> Z.testbit b i = false).
  { intros i Hi. destruct (Z.eq_dec b 0) as [->|]; [apply Z.bits_0|]. apply Z.bits_above_log2; [unfold is_u8 in Hb; lia|].
    eapply Z.lt_le_trans; [|exact Hi]. apply Z.log2_lt_pow2; unfold is_u8 in Hb; lia. }
  f_equal.
  - change 255 with (Z.ones 8). apply Z.bits_inj'. intros i Hi. rewrite Z.land_spec, Z.lor_spec, Z.shiftl_spec by lia.
    destruct (Z.ltb_spec i 8).
    + rewrite Z.ones_spec_low, (Z.testbit_neg_r _ (i - 8)) by lia. by rewrite orb_false_r, andb_true_r.
    + rewrite Z.ones_spec_high by lia. by rewrite andb_false_r, Hb8.
  - etrans; [|exact IH]. f_equal. apply Z.bits_inj'. intros i Hi. rewrite Z.shiftr_spec, Z.lor_spec, Z.shiftl_spec by lia.
    rewrite Hb8 by lia. rewrite orb_false_l. f_equal. lia.
Qed.

Lemma le_value_inj bs1 bs2 :
  Forall is_u8 bs1 -> Forall is_u8 bs2 -> length bs1 = length bs2 -> le_value bs1 = le_value bs2 -> bs1 = bs2.
Proof. intros H1 H2 Hl H. rewrite <- (le_bytes_value bs1), <- (le_bytes_value bs2) by done. by rewrite H, Hl. Qed.

(** Replacing a byte by another one changes the value. *)
Lemma le_value_changed bs i x y :
  Forall is_u8 bs -> is_u8 y -> bs !! i = Some x -> y <> x -> le_value (<[i:=y]> bs) <> le_value bs.
Proof.
  intros Hbs Hy Hx Hne H. apply le_value_inj in H; [|by apply Forall_insert|done|by rewrite length_insert].
  apply (f_equal (.!! i)) in H. rewrite list_lookup_insert_eq in H by (by eapply lookup_lt_Some). congruence.
Qed.

Lemma le_bytes_changed n v i x y :
  0 <= v < 2 ^ (8 * Z.of_nat n) -> is_u8 y -> le_bytes n v !! i = Some x -> y <> x -> le_value (<[i:=y]> (le_bytes n v)) <> v.
Proof.
  intros Hv Hy Hx Hne H. apply (le_value_changed _ _ _ _ (le_bytes_u8 n v) Hy Hx Hne). by rewrite le_value_bytes.
Qed.

Lemma u64_width v : is_u64 v -> 0 <= v < 2 ^ (8 * Z.of_nat 8).
Proof. unfold is_u64, u64_max. change (2 ^ (8 * Z.of_nat 8)) with (2 ^ 64). lia. Qed.
Lemma le_value_u64 v : is_u64 v -> le_value (u64 v) = v.
Proof. intros. by apply (le_value_bytes 8), u64_width. Qed.

Lemma wrap32_small v : is_u32 v -> wrap32 v = v.
Proof. unfold is_u32, u32_max, wrap32. intros. apply Z.mod_small. lia. Qed.
Lemma le_value_u32 v : is_u32 v -> le_value (u32 v) = v.
Proof. intros H. apply (le_value_bytes 4). unfold is_u32, u32_max in H. change (2 ^ (8 * Z.of_nat 4)) with (2 ^ 32). lia. Qed.

Lemma length_u32 v : length (u32 v) = 4%nat.
Proof. apply length_le_bytes. Qed.

Lemma u8_bytes v : is_u8 v -> Forall is_u8 (u8 v).
Proof. by constructor. Qed.
Lemma u32_bytes v : Forall is_u8 (u32 v).
Proof. apply le_bytes_u8. Qed.
Lemma u64_bytes v : Forall is_u8 (u64 v).
Proof. apply le_bytes_u8. Qed.
Lemma boo_bytes b : Forall is_u8 (boo b).
Proof. apply u8_bytes. unfold is_u8. destruct b; lia. Qed.
Lemma dbl_bytes d : Forall is_u8 (dbl d).
Proof. apply u64_bytes. Qed.
Lemma enum_bytes `{CppEnum A} (a : A) : Forall is_u8 (enum a).
Proof. apply u8_bytes. pose proof (enum_u8_range a). unfold is_u8. lia. Qed.
Lemma string_bytes_u8 s : Forall is_u8 (string_bytes s).
Proof.
  unfold string_bytes. apply Forall_fmap, Forall_true. intros a. unfold compose, is_u8. pose proof (N_ascii_bounded a). lia.
Qed.
Lemma str_bytes s : Forall is_u8 (str s).
Proof. apply Forall_app. split; [apply u64_bytes|apply string_bytes_u8]. Qed.
Lemma counted_bytes {A} (write : A -> list Z) l : (forall x, Forall is_u8 (write x)) -> Forall is_u8 (counted write l).
Proof.
  intros H. apply Forall_app. split; [apply u32_bytes|]. apply Forall_concat, Forall_fmap, Forall_true. exact H.
Qed.

#[export] Hint Resolve u32_bytes u64_bytes boo_bytes dbl_bytes enum_bytes str_bytes counted_bytes : codec.

Ltac all_bytes :=
  apply Forall_concat;
  repeat match goal with
    | |- Forall _ (_ :: _) => apply Forall_cons_2
    | |- Forall _ [] => apply Forall_nil_2
    end; auto with codec.

Lemma rd_bytes_short n l : (length l < n)%nat -> rd_bytes n l = inl ().
Proof.
  revert l; induction n as [|n IH]; intros [|b l] Hl; simpl in Hl; try lia; [done|].
  cbn [rd_bytes]. unfold mbind, P_bind, rd_u8. by rewrite IH by lia.
Qed.

Lemma rd_u32_short l : (length l < 4)%nat -> rd_u32 l = inl ().
Proof. intros H. unfold rd_u32, mbind, P_bind. by rewrite rd_bytes_short. Qed.
Lemma rd_u64_short l : (length l < 8)%nat -> rd_u64 l = inl ().
Proof. intros H. unfold rd_u64, mbind, P_bind. by rewrite rd_bytes_short. Qed.

Lemma rd_u32_any bs rest : length bs = 4%nat -> rd_u32 (bs ++ rest) = inr (le_value bs, rest).
Proof. intros H. pose proof (reads_end _ le_value _ _ (rd_bytes_reads bs) rest) as Hr. by rewrite H in Hr. Qed.
Lemma rd_u64_any bs rest : length bs = 8%nat -> rd_u64 (bs ++ rest) = inr (le_value bs, rest).
Proof. intros H. pose proof (reads_end _ le_value _ _ (rd_bytes_reads bs) rest) as Hr. by rewrite H in Hr. Qed.

(** ** The checksum detects the change of any single byte *)

(** The inverse of the FNV prime modulo 2^64. *)
Definition fnv_inverse : Z := 14886173955864302971.

Lemma fnv_mul_inj x y : is_u64 x -> is_u64 y -> wrap64 (x * 1099511628211) = wrap64 (y * 1099511628211) -> x = y.
Proof.
  intros Hx Hy H.
  assert (Hinv : forall z, is_u64 z -> wrap64 (wrap64 (z * 1099511628211) * fnv_inverse) = z).
  { intros z Hz. unfold wrap64. rewrite Zmult_mod_idemp_l, <- Z.mul_assoc, <- Zmult_mod_idemp_r.
    replace ((1099511628211 * fnv_inverse) mod 2 ^ 64) with 1 by reflexivity. rewrite Z.mul_1_r. by apply wrap64_small. }
  rewrite <- (Hinv x Hx), <- (Hinv y Hy). by rewrite H.
Qed.

Lemma lxor_u64 h b : is_u64 h -> is_u64 b -> is_u64 (Z.lxor h b).
Proof.
  unfold is_u64, u64_max. intros [H1 H2] [H3 H4]. assert (H0 : 0 <= Z.lxor h b) by (apply Z.lxor_nonneg; lia).
  split; [done|]. destruct (Z.eq_dec (Z.lxor h b) 0); [lia|]. assert (Z.lxor h b < 2 ^ 64); [|lia].
  apply Z.log2_lt_pow2; [lia|]. eapply Z.le_lt_trans; [apply Z.log2_lxor; lia|].
  assert (forall z, 0 <= z <= 2 ^ 64 - 1 -> Z.log2 z < 64).
  { intros z Hz. destruct (Z.eq_dec z 0) as [->|]; [done|]. apply Z.log2_lt_pow2; lia. }
  apply Z.max_lub_lt; auto.
Qed.

Lemma lxor_inj_r h1 h2 b : Z.lxor h1 b = Z.lxor h2 b -> h1 = h2.
Proof.
  intros H. apply (f_equal (fun z => Z.lxor z b)) in H. by rewrite !Z.lxor_assoc, Z.lxor_nilpotent, !Z.lxor_0_r in H.
Qed.

Lemma is_u8_u64 b : is_u8 b -> is_u64 b.
Proof. unfold is_u8, is_u64, u64_max. lia. Qed.

Lemma fnv_step_wraps h b : fnv_step h b = wrap64 (Z.lxor h b * 1099511628211).
Proof. rewrite (Z.mul_comm (Z.lxor h b)). apply (Z.land_ones _ 64). lia. Qed.

Lemma fnv_step_u64 h b : is_u64 (fnv_step h b).
Proof. rewrite fnv_step_wraps. apply wrap64_range. Qed.

Lemma fnv_from_u64 bs h : is_u64 h -> is_u64 (foldl fnv_step h bs).
Proof. revert h; induction bs as [|b bs IH]; intros h Hh; [done|]. apply IH, fnv_step_u64. Qed.

Lemma fnv_u64 bs : is_u64 (fnv bs).
Proof. apply fnv_from_u64. split; vm_compute; discriminate. Qed.

(** Different hashes stay different over the same bytes. *)
Lemma fnv_from_inj bs h1 h2 :
  Forall is_u8 bs -> is_u64 h1 -> is_u64 h2 -> foldl fnv_step h1 bs = foldl fnv_step h2 bs -> h1 = h2.
Proof.
  intros Hbs. revert h1 h2; induction Hbs as [|b bs Hb Hbs IH]; intros h1 h2 H1 H2 H; [done|]. apply IH in H; [|apply fnv_step_u64..].
  rewrite !fnv_step_wraps in H. apply is_u8_u64 in Hb. apply (lxor_inj_r _ _ b), fnv_mul_inj; [by apply lxor_u64..|exact H].
Qed.

Lemma fnv_single_byte bs1 x y bs2 :
  Forall is_u8 bs2 -> is_u8 x -> is_u8 y -> x <> y -> fnv (bs1 ++ x :: bs2) <> fnv (bs1 ++ y :: bs2).
Proof.
  unfold fnv. rewrite !foldl_app. cbn [foldl]. intros Hbs Hx Hy Hne H.
  assert (Hh : is_u64 (foldl fnv_step 1469598103934665603 bs1)) by (apply fnv_from_u64; split; vm_compute; discriminate).
  apply fnv_from_inj in H; [|done|apply fnv_step_u64..]. apply is_u8_u64 in Hx, Hy.
  rewrite !fnv_step_wraps in H. apply fnv_mul_inj in H; [|by apply lxor_u64..]. apply Hne, (lxor_inj_r _ _ (foldl fnv_step 1469598103934665603 bs1)).
  by rewrite (Z.lxor_comm x), (Z.lxor_comm y).
Qed.

Lemma fnv_changed bs i x y :
  Forall is_u8 bs -> is_u8 y -> bs !! i = Some x -> y <> x -> fnv (<[i:=y]> bs) <> fnv bs.
Proof.
  intros Hbs Hy Hx Hne. assert (Hi : (i < length bs)%nat) by (by eapply lookup_lt_Some). rewrite insert_take_drop by done.
  rewrite <- (take_drop_middle bs i x Hx) at 3. apply fnv_single_byte; [by apply Forall_drop|done| |done].
  rewrite Forall_lookup in Hbs. by eapply Hbs.
Qed.

(** ** A truncated input is refused

    [cut_short Q m bs]: [m] fails with an error in [Q] on every strict prefix of [bs]. *)
Definition cut_short {E A} (Q : E -> Prop) (m : P E A) (bs : list Z) : Prop :=
  forall k, (k < length bs)%nat -> exists e, m (take k bs) = inl e /\ Q e.

Lemma cut_short_bind {E A B} (Q : E -> Prop) (m : P E A) (f : A -> P E B) bs1 bs2 a :
  cut_short Q m bs1 -> reads m bs1 a -> cut_short Q (f a) bs2 -> cut_short Q (m ≫= f) (bs1 ++ bs2).
Proof.
  intros H1 Hr H2 k Hk. rewrite length_app in Hk. unfold mbind, P_bind. rewrite take_app.
  destruct (decide (k < length bs1)%nat) as [Hlt|Hge].
  - replace (k - length bs1)%nat with 0%nat by lia. rewrite take_0, app_nil_r. destruct (H1 k Hlt) as (e & -> & He). by exists e.
  - rewrite take_ge, Hr by lia. apply H2. lia.
Qed.

Lemma cut_short_check {E B} (Q : E -> Prop) (e : E) (f : () -> P E B) bs b :
  b = true -> cut_short Q (f ()) bs -> cut_short Q (check e b ≫= f) bs.
Proof. intros -> H. exact H. Qed.

Lemma cut_short_ret {E A} (Q : E -> Prop) (a : A) : cut_short Q (mret a : P E A) [].
Proof. intros k Hk. simpl in Hk. lia. Qed.

Lemma cut_short_need {E A} (Q : E -> Prop) (e : E) (m : Rd A) bs :
  Q e -> cut_short (fun _ => True) m bs -> cut_short Q (need e m) bs.
Proof. intros He H k Hk. destruct (H k Hk) as (x & Hx & _). exists e. split; [|done]. unfold need. by rewrite Hx. Qed.

Lemma rd_u32_cut v : cut_short (fun _ => True) rd_u32 (u32 v).
Proof. intros k Hk. exists (). split; [|done]. apply rd_u32_short. rewrite length_take. unfold u32 in *. rewrite length_le_bytes in *. lia. Qed.
Lemma rd_u64_cut v : cut_short (fun _ => True) rd_u64 (u64 v).
Proof. intros k Hk. exists (). split; [|done]. apply rd_u64_short. rewrite length_take. unfold u64 in *. rewrite length_le_bytes in *. lia. Qed.

Lemma rd_u8_cut v : cut_short (fun _ => True) rd_u8 (u8 v).
Proof. intros k Hk. exists (). split; [|done]. simpl in Hk. by replace k with 0%nat by lia. Qed.

(** ** What is read is well typed

    [yields m Q]: on bytes, what [m] reads satisfies [Q] and bytes remain. *)
Definition yields {E A} (m : P E A) (Q : A -> Prop) : Prop :=
  forall l a l', Forall is_u8 l -> m l = inr (a, l') -> Q a /\ Forall is_u8 l'.

Lemma yields_bind {E A B} (m : P E A) (f : A -> P E B) Q R :
  yields m Q -> (forall a, Q a -> yields (f a) R) -> yields (m ≫= f) R.
Proof.
  intros Hm Hf l b l' Hl H. unfold mbind, P_bind in H. destruct (m l) as [|[a l1]] eqn:Em; [done|].
  destruct (Hm _ _ _ Hl Em) as [Ha Hl1]. by eapply Hf.
Qed.

Lemma yields_ret {E A} (a : A) (Q : A -> Prop) : Q a -> yields (mret a : P E A) Q.
Proof. by intros Ha l b l' Hl [= <- <-]. Qed.
Lemma yields_fail {E A} (e : E) (Q : A -> Prop) : yields (fail e) Q.
Proof. by intros l b l' Hl H. Qed.
Lemma yields_need {E E' A} (e : E) (m : P E' A) Q : yields m Q -> yields (need e m) Q.
Proof. intros H l a l' Hl Hn. unfold need in Hn. destruct (m l) as [|x] eqn:Em; [done|]. injection Hn as ->. by eapply H. Qed.
Lemma yields_check {E} (e : E) b : yields (check e b) (fun _ => b = true).
Proof. destruct b; [by apply yields_ret|apply yields_fail]. Qed.
Lemma yields_impl {E A} (m : P E A) (Q R : A -> Prop) : yields m Q -> (forall a, Q a -> R a) -> yields m R.
Proof. intros H Hi l a l' Hl Hm. destruct (H _ _ _ Hl Hm). auto. Qed.

Lemma yields_u8 : yields rd_u8 is_u8.
Proof. intros [|b l] a l' Hl H; [done|]. injection H as <- <-. by apply Forall_cons in Hl. Qed.

Lemma yields_bytes n : yields (rd_bytes n) (fun bs => length bs = n /\ Forall is_u8 bs).
Proof.
  induction n as [|n IH]; [apply yields_ret; by split|]. cbn [rd_bytes]. eapply yields_bind; [apply yields_u8|]. intros b Hb.
  eapply yields_bind; [exact IH|]. intros bs [<- Hbs]. apply yields_ret. split; [done|by constructor].
Qed.

Lemma le_value_range bs : Forall is_u8 bs -> 0 <= le_value bs < 2 ^ (8 * Z.of_nat (length bs)).
Proof.
  induction 1 as [|b bs Hb Hbs IH]; [done|]. cbn [le_value length].
  assert (Hnn : 0 <= Z.lor b (Z.shiftl (le_value bs) 8)).
  { apply Z.lor_nonneg. unfold is_u8 in Hb. split; [lia|]. apply Z.shiftl_nonneg. lia. }
  split; [done|]. destruct (Z.eq_dec (Z.lor b (Z.shiftl (le_value bs) 8)) 0) as [->|Hne]; [lia|].
  apply Z.log2_lt_pow2; [lia|]. rewrite Z.log2_lor by (unfold is_u8 in Hb; try apply Z.shiftl_nonneg; lia).
  apply Z.max_lub_lt.
  - eapply Z.lt_le_trans with 8; [|lia]. destruct (Z.eq_dec b 0) as [->|]; [done|]. apply Z.log2_lt_pow2; unfold is_u8 in Hb; lia.
  - destruct (Z.eq_dec (le_value bs) 0) as [->|]; [rewrite Z.shiftl_0_l; simpl; lia|].
    rewrite Z.log2_shiftl by lia. assert (Z.log2 (le_value bs) < 8 * Z.of_nat (length bs)) by (apply Z.log2_lt_pow2; lia). lia.
Qed.

Lemma yields_u32 : yields rd_u32 is_u32.
Proof.
  eapply yields_bind; [apply yields_bytes|]. intros bs [Hn Hb]. apply yields_ret. pose proof (le_value_range bs Hb) as H.
  rewrite Hn in H. unfold is_u32, u32_max. simpl in H. lia.
Qed.
Lemma yields_u64 : yields rd_u64 is_u64.
Proof.
  eapply yields_bind; [apply yields_bytes|]. intros bs [Hn Hb]. apply yields_ret. pose proof (le_value_range bs Hb) as H.
  rewrite Hn in H. unfold is_u64, u64_max. simpl in H. lia.
Qed.
Lemma yields_any {E A} (m : P E A) Q : yields m Q -> yields m (fun _ => True).
Proof. intros H. by eapply yields_impl. Qed.
Lemma yields_boo : yields rd_boo (fun _ => True).
Proof. eapply yields_bind; [apply yields_u8|]. intros. by apply yields_ret. Qed.
Lemma yields_enum `{CppEnum A} : yields (rd_enum (A:=A)) (fun _ => True).
Proof. eapply yields_bind; [apply yields_u8|]. intros k _. destruct (enum_of_u8 k); [by apply yields_ret|apply yields_fail]. Qed.

(** Every bit pattern is a double in canonical form. *)
Lemma double_of_bits_wf b : double_wf (double_of_bits b) = true.
Proof.
  unfold double_of_bits. set (s := Z.testbit b 63).
  assert (Hfr : 0 <= Z.land b (2 ^ 52 - 1) < 2 ^ 52).
  { change (2 ^ 52 - 1) with (Z.ones 52). rewrite Z.land_ones by lia. apply Z.mod_pos_bound. lia. }
  assert (Hex : 0 <= Z.land (Z.shiftr b 52) 2047 < 2048).
  { change 2047 with (Z.ones 11). rewrite Z.land_ones by lia. change 2048 with (2 ^ 11). apply Z.mod_pos_bound. lia. }
  revert Hfr Hex. generalize (Z.land b (2 ^ 52 - 1)) (Z.land (Z.shiftr b 52) 2047). intros fr ex Hfr Hex.
  destruct (Z.eqb_spec ex 2047); [by destruct (fr =? 0)|].
  destruct (Z.eqb_spec ex 0).
  - destruct fr as [|m|m]; [done| |done]. pose proof (digits2_pos_le m 52 ltac:(lia) ltac:(lia)) as Hd.
    unfold double_wf, valid_binary, bounded, canonical_mantissa, fexp, emin. apply andb_true_iff.
    split; [apply Z.eqb_eq|by apply Z.leb_le]. simpl. lia.
  - destruct (2 ^ 52 + fr) as [|m|m] eqn:Em; [done| |done]. pose proof (digits2_pos_le m 53 ltac:(lia) ltac:(lia)) as Hd.
    pose proof (digits2_pos_bounds m) as [_ Hb]. assert (52 < Zpos (digits2_pos m)) by (apply (Z.pow_lt_mono_r_iff 2); lia).
    unfold double_wf, valid_binary, bounded, canonical_mantissa, fexp, emin. apply andb_true_iff.
    split; [apply Z.eqb_eq|apply Z.leb_le]; simpl; lia.
Qed.

Lemma yields_dbl : yields rd_dbl (fun d => double_wf d = true).
Proof. eapply yields_bind; [apply yields_u64|]. intros v _. apply yields_ret, double_of_bits_wf. Qed.

Lemma string_of_list_length l : String.length (String.string_of_list_ascii l) = length l.
Proof. induction l; simpl; auto. Qed.

Lemma yields_take len : yields (rd_take len) (fun bs => Z.of_nat (length bs) <= Z.max 0 len).
Proof.
  intros l bs l' Hl H. unfold rd_take in H. case_match; [done|]. injection H as <- <-.
  split; [cbv beta; rewrite length_take; lia|by apply Forall_drop].
Qed.

Lemma yields_str : yields rd_str small_str.
Proof.
  eapply yields_bind; [apply yields_u64|]. intros len [Hlen _]. eapply yields_bind; [apply yields_check|]. intros _ Hk%Z.leb_le.
  eapply yields_bind; [apply yields_take|]. intros bs Hbs. apply yields_ret. unfold small_str, string_of_bytes.
  rewrite string_of_list_length, length_fmap. cbv beta in Hbs. unfold kMaxCount in *. lia.
Qed.

Lemma yields_repeated {E A} n (m : P E A) Q : yields m Q -> yields (repeated n m) (fun l => length l = n /\ Forall Q l).
Proof.
  intros Hm. induction n as [|n IH]; [apply yields_ret; by split|]. cbn [repeated]. eapply yields_bind; [exact Hm|]. intros a Ha.
  eapply yields_bind; [exact IH|]. intros l [<- Hl]. apply yields_ret. split; [done|by constructor].
Qed.

Lemma yields_counted {E A} (short over : E) limit (m : P E A) Q :
  yields m Q -> yields (rd_counted short over limit m) (fun l => Z.of_nat (length l) <= limit /\ Forall Q l).
Proof.
  intros Hm. eapply yields_bind; [apply yields_need, yields_u32|]. intros n [Hn _]. eapply yields_bind; [apply yields_check|].
  intros _ Hk%Z.leb_le. eapply yields_impl; [by apply yields_repeated|]. intros l [Hl HQ]. split; [lia|done].
Qed.

#[export] Hint Resolve yields_u8 yields_u32 yields_u64 yields_boo yields_dbl yields_str yields_enum yields_need yields_check yields_counted : codec.

(** Reads the fields of a record one after the other; leaves what its type demands. *)
Ltac yields_fields :=
  cbv beta;
  repeat (eapply yields_bind; [solve [eauto with codec]|cbv beta; intros ? ?]);
  try apply yields_ret.
