(* ===== verification/Framing.v ===== *)
(** * Frames

    Models the frames of src/protocol.cpp: a message type and a payload, under a magic
    number, a version, a length and a checksum.  Both directions report the texts of the
    source. *)

From S2P Require Import Prelude Core Enums Double Model Message Codec.

Definition kFrameMagic : Z := 1129334272.        (* 0x43504600 *)
Definition kFrameVersion : Z := 1.
Definition kMaxFramePayload : Z := 64 * 1024 * 1024.

Module Frame.
Record Frame := { type : MessageType; payload : list Z }.
End Frame.
Abbreviation Frame := Frame.Frame.

(** ** Frames *)

Definition encodeFrame (f : Frame) : string + list Z :=
  if kMaxFramePayload <? Z.of_nat (length f.(Frame.payload)) then inl "frame payload oversized"
  else
    let b := concat [u32 kFrameMagic; u32 kFrameVersion; enum f.(Frame.type);
                     u64 (Z.of_nat (length f.(Frame.payload))); f.(Frame.payload)] in
    inr (b ++ u64 (fnv b)).

Definition decodeHeader : P string (MessageType * Z) :=
  m ← need "frame truncated: magic" rd_u32;
  _ ← check "bad frame magic" (m =? kFrameMagic);
  v ← need "frame truncated: version" rd_u32;
  _ ← check "unsupported frame version" (v =? kFrameVersion);
  t ← need "frame truncated: type" rd_u8;
  type ← match enum_of_u8 t with Some type => mret type | None => fail "invalid frame type" end;
  len ← need "frame truncated: length" rd_u64;
  _ ← check "frame payload oversized" (len <=? kMaxFramePayload);
  mret (type, len).

Definition decodeFrame (data : list Z) : string + Frame :=
  match decodeHeader data with
  | inl e => inl e
  | inr ((type, len), rest) =>
      let header := Z.of_nat (length data) - Z.of_nat (length rest) in
      if Z.of_nat (length data) <? header + len + 8 then inl "frame truncated: payload/checksum"
      else
        let bodySum := fnv (take (Z.to_nat (header + len)) data) in
        let checksum := le_value (take 8 (drop (Z.to_nat (header + len)) data)) in
        if negb (bodySum =? checksum) then inl "frame checksum mismatch"
        else inr {| Frame.type := type; Frame.payload := take (Z.to_nat len) rest |}
  end.

(** ** Frames round trip *)

Lemma enum_u8_is_u8 `{CppEnum A} (a : A) : is_u8 (enum_u8 a).
Proof. pose proof (enum_u8_range a). unfold is_u8. lia. Qed.

Definition frameHeader (f : Frame) : list Z :=
  concat [u32 kFrameMagic; u32 kFrameVersion; enum f.(Frame.type); u64 (Z.of_nat (length f.(Frame.payload)))].

Lemma frameHeader_length f : length (frameHeader f) = 17%nat.
Proof. unfold frameHeader. cbn [concat]. rewrite !length_app. unfold u32, u64, enum, u8. by rewrite !length_le_bytes. Qed.

Definition small_frame (f : Frame) : Prop := Z.of_nat (length f.(Frame.payload)) <= kMaxFramePayload.

Lemma small_frame_u64 f : small_frame f -> is_u64 (Z.of_nat (length f.(Frame.payload))).
Proof. unfold small_frame, kMaxFramePayload, is_u64, u64_max. lia. Qed.

Lemma kFrameMagic_reads : reads rd_u32 (u32 kFrameMagic) kFrameMagic.
Proof. apply rd_u32_reads. split; vm_compute; discriminate. Qed.
Lemma kFrameVersion_reads : reads rd_u32 (u32 kFrameVersion) kFrameVersion.
Proof. apply rd_u32_reads. split; vm_compute; discriminate. Qed.

Lemma decodeHeader_reads f : small_frame f -> reads decodeHeader (frameHeader f) (f.(Frame.type), Z.of_nat (length f.(Frame.payload))).
Proof.
  intros Hs. unfold decodeHeader, frameHeader.
  eapply reads_field; [apply reads_need, kFrameMagic_reads|]. apply reads_check; [done|].
  eapply reads_field; [apply reads_need, kFrameVersion_reads|]. apply reads_check; [done|].
  eapply reads_field; [apply reads_need, rd_u8_reads|]. rewrite enum_of_u8_u8.
  change (concat [u64 (Z.of_nat (length (Frame.payload f)))]) with ([] ++ concat [u64 (Z.of_nat (length (Frame.payload f)))]).
  eapply reads_bind; [apply reads_ret|].
  eapply reads_field; [by apply reads_need, rd_u64_reads, small_frame_u64|]. apply reads_check; [by apply Z.leb_le|]. by apply reads_record.
Qed.

(** The bytes of a frame: its header, its payload, the checksum of both. *)
Definition frameBytes (f : Frame) : list Z :=
  frameHeader f ++ f.(Frame.payload) ++ u64 (fnv (frameHeader f ++ f.(Frame.payload))).

Lemma encodeFrame_bytes f : small_frame f -> encodeFrame f = inr (frameBytes f).
Proof.
  intros Hs. unfold encodeFrame, frameBytes. rewrite (proj2 (Z.ltb_ge _ _)) by exact Hs. cbv zeta. f_equal.
  replace (concat [_; _; _; _; _]) with (frameHeader f ++ f.(Frame.payload)); [by rewrite <- app_assoc|].
  unfold frameHeader. cbn [concat]. by rewrite !app_nil_r, <- !app_assoc.
Qed.

Lemma encodeFrame_small f bytes : encodeFrame f = inr bytes -> small_frame f.
Proof. unfold encodeFrame, small_frame. case_match; [done|lia]. Qed.

(** A frame as it is found in front of more bytes, with whatever checksum. *)
Lemma decodeFrame_parts f sum rest :
  small_frame f -> length sum = 8%nat ->
  decodeFrame (frameHeader f ++ f.(Frame.payload) ++ sum ++ rest) =
    if negb (fnv (frameHeader f ++ f.(Frame.payload)) =? le_value sum) then inl "frame checksum mismatch" else inr f.
Proof.
  intros Hs Hsum. unfold decodeFrame. rewrite decodeHeader_reads by done. cbv zeta.
  rewrite !length_app, frameHeader_length, Hsum.
  replace (Z.of_nat (17 + (length (Frame.payload f) + (8 + length rest))) - Z.of_nat (length (Frame.payload f) + (8 + length rest)))
    with 17 by lia.
  rewrite (proj2 (Z.ltb_ge _ _)) by lia.
  replace (Z.to_nat (17 + Z.of_nat (length (Frame.payload f)))) with (length (frameHeader f ++ f.(Frame.payload)))
    by (rewrite length_app, frameHeader_length; lia).
  rewrite app_assoc, take_app_length, drop_app_length, take_app_length' by done.
  rewrite Nat2Z.id, take_app_length. by destruct f.
Qed.

Lemma decodeFrame_bytes f rest : small_frame f -> decodeFrame (frameBytes f ++ rest) = inr f.
Proof.
  intros Hs. unfold frameBytes. rewrite <- !app_assoc, decodeFrame_parts by (exact Hs || apply length_le_bytes).
  by rewrite le_value_u64, Z.eqb_refl by apply fnv_u64.
Qed.

(** Frames round trip: a frame whose payload is within the limit is encoded, and
    decoding those bytes, whatever follows them, gives it back; a larger one is refused
    before anything is sent. *)
Theorem frame_roundtrip f rest :
  match encodeFrame f with
  | inr bytes => small_frame f /\ decodeFrame (bytes ++ rest) = inr f
  | inl e => ~ small_frame f /\ e = "frame payload oversized"
  end.
Proof.
  destruct (Z.leb_spec (Z.of_nat (length f.(Frame.payload))) kMaxFramePayload) as [Hs|Hs].
  - rewrite encodeFrame_bytes by exact Hs. split; [exact Hs|by apply decodeFrame_bytes].
  - unfold encodeFrame. rewrite (proj2 (Z.ltb_lt _ _)) by exact Hs. split; [unfold small_frame; lia|done].
Qed.

(** ** Damaged and truncated frames *)

(** The header is read in four fields of fixed width. *)
Lemma decodeHeader_fields m v t n rest :
  length m = 4%nat -> length v = 4%nat -> length n = 8%nat -> le_value n <= kMaxFramePayload ->
  decodeHeader (m ++ v ++ t :: n ++ rest) =
    if negb (le_value m =? kFrameMagic) then inl "bad frame magic"
    else if negb (le_value v =? kFrameVersion) then inl "unsupported frame version"
    else match enum_of_u8 t with Some type => inr ((type, le_value n), rest) | None => inl "invalid frame type" end.
Proof.
  intros Hm Hv Hn Hl. unfold decodeHeader, mbind, P_bind. unfold need at 1. rewrite rd_u32_any by done.
  destruct (le_value m =? kFrameMagic); [|done]. cbn [check negb]. unfold mret, P_ret. unfold need at 1.
  rewrite rd_u32_any by done. destruct (le_value v =? kFrameVersion); [|done].
  cbn [check negb]. unfold mret, P_ret. unfold need at 1. cbn [rd_u8]. destruct (enum_of_u8 t) as [type|]; [|done].
  unfold need at 1. rewrite rd_u64_any by done. by rewrite (proj2 (Z.leb_le _ _)) by done.
Qed.

Definition damage_report (e : string) : Prop :=
  e ∈ ["bad frame magic"; "unsupported frame version"; "invalid frame type"; "frame checksum mismatch"].

(** A frame whose checksum does not match the bytes before it is refused. *)
Lemma decodeFrame_mismatch m v t n payload sum :
  length m = 4%nat -> length v = 4%nat -> length n = 8%nat -> length sum = 8%nat ->
  le_value n = Z.of_nat (length payload) -> le_value n <= kMaxFramePayload ->
  fnv (m ++ v ++ t :: n ++ payload) <> le_value sum ->
  exists e, decodeFrame (m ++ v ++ t :: n ++ payload ++ sum) = inl e /\ damage_report e.
Proof.
  intros Hm Hv Hn Hsum Hl Hk Hne. unfold decodeFrame, damage_report. rewrite decodeHeader_fields by done.
  destruct (negb _); [eexists; split; [done|set_solver]|]. destruct (negb _); [eexists; split; [done|set_solver]|].
  destruct (enum_of_u8 t) as [type|]; [|eexists; split; [done|set_solver]]. cbv zeta. rewrite Hl.
  assert (Hlen : length (m ++ v ++ t :: n ++ payload ++ sum) = (17 + length (payload ++ sum))%nat)
    by (rewrite !length_app; cbn [length]; rewrite !length_app; lia).
  rewrite Hlen. replace (Z.of_nat (17 + length (payload ++ sum)) - Z.of_nat (length (payload ++ sum))) with 17 by lia.
  rewrite (proj2 (Z.ltb_ge _ _)) by (rewrite length_app, Hsum; lia).
  replace (Z.to_nat (17 + Z.of_nat (length payload))) with (length (m ++ v ++ t :: n ++ payload))
    by (rewrite !length_app; cbn [length]; rewrite !length_app; lia).
  replace (m ++ v ++ t :: n ++ payload ++ sum) with ((m ++ v ++ t :: n ++ payload) ++ sum)
    by (rewrite <- !app_assoc; cbn [app]; by rewrite <- !app_assoc).
  rewrite take_app_length, drop_app_length, take_ge by lia.
  destruct (Z.eqb_spec (fnv (m ++ v ++ t :: n ++ payload)) (le_value sum)); [done|]. eexists; split; [done|set_solver].
Qed.

(** The same of the bytes under the checksum, whatever they are. *)
Lemma decodeFrame_mismatch_body body sum len :
  length body = (17 + len)%nat -> Z.of_nat len <= kMaxFramePayload -> take 8 (drop 9 body) = u64 (Z.of_nat len) ->
  length sum = 8%nat -> fnv body <> le_value sum -> exists e, decodeFrame (body ++ sum) = inl e /\ damage_report e.
Proof.
  intros Hl Hk Hn Hsum Hne. assert (Hu : is_u64 (Z.of_nat len)) by (unfold kMaxFramePayload, is_u64, u64_max in *; lia).
  destruct (lookup_lt_is_Some_2 body 8) as [t Ht]; [lia|].
  assert (E : body = take 4 body ++ take 4 (drop 4 body) ++ t :: take 8 (drop 9 body) ++ drop 17 body).
  { rewrite <- (take_drop 4 body) at 1. f_equal. rewrite <- (take_drop 4 (drop 4 body)) at 1. f_equal. rewrite drop_drop.
    change (4 + 4)%nat with 8%nat. rewrite (drop_S body t 8 Ht). f_equal. rewrite <- (take_drop 8 (drop 9 body)) at 1. by rewrite drop_drop. }
  rewrite E in Hne |- *. rewrite <- !app_assoc. cbn [app]. rewrite <- app_assoc.
  assert (Hd : length (drop 17 body) = len) by (rewrite length_drop; lia).
  apply decodeFrame_mismatch; rewrite ?Hn, ?le_value_u64, ?length_take, ?length_drop by done; try lia; [apply length_le_bytes|].
  rewrite Hn in Hne. exact Hne.
Qed.

Lemma frameBody_bytes f : Forall is_u8 f.(Frame.payload) -> Forall is_u8 (frameHeader f ++ f.(Frame.payload)).
Proof. intros H. apply Forall_app. split; [|done]. unfold frameHeader. all_bytes. Qed.

Lemma frameHeader_length_field f : take 8 (drop 9 (frameHeader f ++ f.(Frame.payload))) = u64 (Z.of_nat (length f.(Frame.payload))).
Proof.
  unfold frameHeader. cbn [concat]. rewrite app_nil_r, <- !app_assoc.
  change 9%nat with (4 + (4 + 1))%nat. rewrite drop_app_add' by (symmetry; apply length_le_bytes). rewrite drop_app_add' by (symmetry; apply length_le_bytes).
  rewrite drop_app_length' by done. by rewrite take_app_length' by (symmetry; apply length_le_bytes).
Qed.

(** Damage on the wire is detected: changing any single byte of a frame, other than
    in its length field, makes the receiver refuse it: as a wrong magic number, version
    or type, or by the checksum. *)
Theorem damaged_frame_refused f i x y bytes :
  encodeFrame f = inr bytes -> Forall is_u8 f.(Frame.payload) -> bytes !! i = Some x -> is_u8 y -> y <> x ->
  ~ (9 <= i < 17)%nat ->
  exists e, decodeFrame (<[i:=y]> bytes) = inl e /\
    e ∈ ["bad frame magic"; "unsupported frame version"; "invalid frame type"; "frame checksum mismatch"].
Proof.
  intros He Hu Hx Hy Hne Hi.
  pose proof (encodeFrame_small _ _ He) as Hs.
  rewrite encodeFrame_bytes in He by done. injection He as <-.
  destruct (decide (i < 17 + length f.(Frame.payload))%nat) as [Hb|Hc].
  - unfold frameBytes in *. rewrite app_assoc in Hx |- *. set (body := frameHeader f ++ f.(Frame.payload)) in *.
    assert (Hlb : length body = (17 + length f.(Frame.payload))%nat) by (unfold body; by rewrite length_app, frameHeader_length).
    rewrite lookup_app_l in Hx by lia. rewrite insert_app_l by lia.
    eapply decodeFrame_mismatch_body; [by rewrite length_insert|exact Hs| |apply length_le_bytes|].
    + rewrite <- frameHeader_length_field. fold body. destruct (decide (i < 9)%nat); [by rewrite drop_insert_lt by lia|].
      rewrite drop_insert_ge by lia. by rewrite take_insert_ge by lia.
    + rewrite le_value_u64 by apply fnv_u64. eapply fnv_changed; [by apply frameBody_bytes|done|exact Hx|done].
  - unfold frameBytes in *. rewrite app_assoc in Hx |- *. set (body := frameHeader f ++ f.(Frame.payload)) in *.
    assert (Hlb : length body = (17 + length f.(Frame.payload))%nat) by (unfold body; by rewrite length_app, frameHeader_length).
    rewrite lookup_app_r in Hx by lia. replace i with (length body + (i - length body))%nat by lia. rewrite insert_app_r.
    eapply decodeFrame_mismatch_body; [exact Hlb|exact Hs|apply frameHeader_length_field| |].
    + rewrite length_insert. apply length_le_bytes.
    + intros Hbad. symmetry in Hbad. revert Hbad. eapply (le_bytes_changed 8); [apply u64_width, fnv_u64|done|exact Hx|done].
Qed.

Lemma decodeHeader_cut f : small_frame f -> cut_short (fun _ => True) decodeHeader (frameHeader f).
Proof.
  intros Hs. unfold decodeHeader, frameHeader. cbn [concat].
  eapply cut_short_bind; [apply cut_short_need; [done|apply rd_u32_cut]|apply reads_need, kFrameMagic_reads|]. apply cut_short_check; [done|].
  eapply cut_short_bind; [apply cut_short_need; [done|apply rd_u32_cut]|apply reads_need, kFrameVersion_reads|]. apply cut_short_check; [done|].
  eapply cut_short_bind; [apply cut_short_need; [done|apply rd_u8_cut]|apply reads_need, rd_u8_reads|]. rewrite enum_of_u8_u8.
  rewrite app_nil_r.
  intros k Hk. unfold mbind at 1, P_bind at 1, mret at 1, P_ret at 1.
  destruct (rd_u64_cut (Z.of_nat (length f.(Frame.payload))) k Hk) as (e & He & _).
  exists "frame truncated: length". split; [|done]. unfold mbind, P_bind, need. by rewrite He.
Qed.

(** A frame that arrives in part is refused, wherever it was cut. *)
Theorem truncated_frame_refused f bytes k :
  encodeFrame f = inr bytes -> (k < length bytes)%nat -> exists e, decodeFrame (take k bytes) = inl e.
Proof.
  intros He Hk. pose proof (encodeFrame_small _ _ He) as Hs.
  rewrite encodeFrame_bytes in He by done. injection He as <-. unfold frameBytes in *.
  rewrite take_app. unfold decodeFrame. destruct (decide (k < 17)%nat) as [Hlt|Hge].
  - rewrite frameHeader_length. replace (k - 17)%nat with 0%nat by lia. rewrite take_0, app_nil_r.
    destruct (decodeHeader_cut f Hs k) as (e & -> & _); [by rewrite frameHeader_length|]. by exists e.
  - rewrite (take_ge (frameHeader f)) by (rewrite frameHeader_length; lia). rewrite decodeHeader_reads by done. cbv zeta.
    rewrite (proj2 (Z.ltb_lt _ _)); [by eexists|]. rewrite !length_app in Hk. unfold u64 in Hk. rewrite length_le_bytes in Hk.
    rewrite frameHeader_length in *. rewrite !length_app, length_take, frameHeader_length, !length_app. unfold u64. rewrite length_le_bytes. lia.
Qed.


(** The payload of a decoded frame is a part of what it was decoded from. *)
Lemma yields_decodeHeader : yields decodeHeader (fun _ => True).
Proof.
  unfold decodeHeader. eapply yields_bind; [apply yields_need, yields_u32|]. intros m _. eapply yields_bind; [apply yields_check|]. intros _ _.
  eapply yields_bind; [apply yields_need, yields_u32|]. intros v _. eapply yields_bind; [apply yields_check|]. intros _ _.
  eapply yields_bind; [apply yields_need, yields_u8|]. intros t _.
  apply (yields_bind _ _ (fun _ => True)); [destruct (enum_of_u8 t); [by apply yields_ret|apply yields_fail]|]. intros type _.
  eapply yields_bind; [apply yields_need, yields_u64|]. intros len _. eapply yields_bind; [apply yields_check|]. intros _ _.
  by apply yields_ret.
Qed.

Lemma decodeFrame_payload data f : Forall is_u8 data -> decodeFrame data = inr f -> Forall is_u8 f.(Frame.payload).
Proof.
  intros Hd H. unfold decodeFrame in H. destruct (decodeHeader data) as [|[[type len] rest]] eqn:E; [done|].
  destruct (yields_decodeHeader _ _ _ Hd E) as [_ Hr]. cbv zeta in H. destruct (_ <? _); [done|]. destruct (negb _); [done|].
  injection H as <-. by apply Forall_take.
Qed.

Definition sampleFrame : Frame := {| Frame.type := MessageType.CANCEL; Frame.payload := u64 5 ++ u64 1 |}.

Lemma damaged_frame_refused_witness :
  exists e, decodeFrame (<[20%nat := 9]> (frameBytes sampleFrame)) = inl e /\
    e ∈ ["bad frame magic"; "unsupported frame version"; "invalid frame type"; "frame checksum mismatch"].
Proof.
  apply (damaged_frame_refused sampleFrame 20 0 9); [reflexivity| |vm_compute; reflexivity|split; discriminate|discriminate|lia].
  apply Forall_app. split; apply u64_bytes.
Defined.

Lemma truncated_frame_refused_witness : exists e, decodeFrame (take 40 (frameBytes sampleFrame)) = inl e.
Proof. apply (truncated_frame_refused sampleFrame (frameBytes sampleFrame) 40); [reflexivity|apply Nat.ltb_lt; vm_compute; reflexivity]. Defined.
