(* ===== verification/Transport.v ===== *)
(** * The TCP transport

    Models the framed connection of src/transport/tcp.hpp: [readExact], [writeAll],
    [sendFrame] and [recvFrame].  The socket calls themselves belong to the operating
    system: they are the operations of the class [Socket], whose laws are the documented
    behaviour of a connected stream socket that the code relies on. *)

From S2P Require Import Prelude Core Enums Double Model Message Codec Framing.

(** [recv] answers [None] for SOCKET_ERROR and [Some []] for a closed connection; [send]
    answers how many bytes it took.  [incoming] are the bytes that the peer has sent and
    that were not received yet, [outgoing] those taken from this side so far. *)
Class Socket (Sock : Type) := {
  recv : nat -> Sock -> option (list Z) * Sock;
  send : list Z -> Sock -> option nat * Sock;
  incoming : Sock -> list Z;
  outgoing : Sock -> list Z;
  recv_bound n s bs s' : recv n s = (Some bs, s') -> (length bs <= n)%nat;
  recv_order n s bs s' : recv n s = (Some bs, s') -> incoming s = bs ++ incoming s';
  recv_ready n s : (0 < n)%nat -> incoming s <> [] -> exists bs s', recv n s = (Some bs, s') /\ bs <> [];
  send_bound bs s r s' : send bs s = (Some r, s') -> (r <= length bs)%nat;
  send_progress bs s r s' : bs <> [] -> send bs s = (Some r, s') -> (0 < r)%nat;
  send_order bs s r s' : send bs s = (Some r, s') -> outgoing s' = outgoing s ++ take r bs;
}.

Section transport.
Context {Sock : Type} `{HS : Socket Sock}.
Implicit Types s : Sock.

(** ** Definitions *)

(** The loop of [readExact] with [n] bytes to go; [None] is running out of fuel. *)
Fixpoint readExact_loop (fuel n : nat) (s : Sock) : option (option (list Z) * Sock) :=
  match n with
  | O => Some (Some [], s)
  | _ =>
      match fuel with
      | O => None
      | S fuel' =>
          match recv n s with
          | (None, s') => Some (None, s')
          | (Some [], s') => Some (None, s')
          | (Some bs, s') =>
              match readExact_loop fuel' (n - length bs) s' with
              | Some (Some rest, s'') => Some (Some (bs ++ rest), s'')
              | r => r
              end
          end
      end
  end.

Definition readExact (n : nat) (s : Sock) : option (list Z) * Sock :=
  match readExact_loop n n s with Some r => r | None => (None, s) end.

(** The loop of [writeAll] with the bytes that remain. *)
Fixpoint writeAll_loop (fuel : nat) (bs : list Z) (s : Sock) : option (bool * Sock) :=
  match bs with
  | [] => Some (true, s)
  | _ =>
      match fuel with
      | O => None
      | S fuel' =>
          match send bs s with
          | (None, s') => Some (false, s')
          | (Some r, s') => writeAll_loop fuel' (drop r bs) s'
          end
      end
  end.

Definition writeAll (bs : list Z) (s : Sock) : bool * Sock :=
  match writeAll_loop (length bs) bs s with Some r => r | None => (false, s) end.

Definition sendFrame (f : Frame) (s : Sock) : (string + ()) * Sock :=
  match encodeFrame f with
  | inl e => (inl e, s)
  | inr bytes =>
      match writeAll (u32 (wrap32 (Z.of_nat (length bytes)))) s with
      | (false, s') => (inl "write length failed", s')
      | (true, s') =>
          match writeAll bytes s' with
          | (false, s'') => (inl "write frame failed", s'')
          | (true, s'') => (inr (), s'')
          end
      end
  end.

Definition recvFrame (s : Sock) : (string + Frame) * Sock :=
  match readExact 4 s with
  | (None, s') => (inl "read length failed", s')
  | (Some hdr, s') =>
      let len := le_value hdr in
      if (len =? 0) || (kMaxFramePayload <? len) then (inl "bad frame length", s')
      else
        match readExact (Z.to_nat len) s' with
        | (None, s'') => (inl "read frame failed", s'')
        | (Some buf, s'') => (decodeFrame buf, s'')
        end
  end.

(** A frame on the connection: its length, then its bytes. *)
Definition wireFrame (f : Frame) : list Z := u32 (Z.of_nat (length (frameBytes f))) ++ frameBytes f.

(** Frames sent or received one after the other, up to the first failure. *)
Fixpoint sendFrames (fs : list Frame) (s : Sock) : (string + ()) * Sock :=
  match fs with
  | [] => (inr (), s)
  | f :: fs' => match sendFrame f s with (inr _, s') => sendFrames fs' s' | r => r end
  end.

Fixpoint recvFrames (n : nat) (s : Sock) : (string + list Frame) * Sock :=
  match n with
  | O => (inr [], s)
  | S n' =>
      match recvFrame s with
      | (inl e, s') => (inl e, s')
      | (inr f, s') => match recvFrames n' s' with (inr fs, s'') => (inr (f :: fs), s'') | r => r end
      end
  end.

(** ** The loops end *)

Lemma readExact_loop_enough fuel n s : (n <= fuel)%nat -> readExact_loop fuel n s = readExact_loop n n s /\ is_Some (readExact_loop n n s).
Proof.
  revert n s; induction fuel as [fuel IH] using lt_wf_ind; intros n s Hn. destruct n as [|n]; [by destruct fuel; eauto|].
  destruct fuel as [|fuel]; [lia|]. cbn [readExact_loop].
  destruct (recv (S n) s) as [[[|b bs]|] s'] eqn:E; [by eauto| |by eauto]. apply recv_bound in E. cbn [length] in E.
  assert (Hlt : (S n - length (b :: bs) <= n)%nat) by (cbn [length]; lia).
  destruct (IH fuel ltac:(lia) (S n - length (b :: bs))%nat s' ltac:(lia)) as [-> Hd].
  destruct (IH n ltac:(lia) (S n - length (b :: bs))%nat s' Hlt) as [-> _]. split; [done|].
  destruct Hd as [[[rest|] s''] ->]; eauto.
Qed.

Lemma readExact_loop_length fuel n s bs s' : readExact_loop fuel n s = Some (Some bs, s') -> length bs = n.
Proof.
  revert n s bs; induction fuel as [|fuel IH]; intros [|n] s bs H; cbn [readExact_loop] in H; simplify_eq; [done..|].
  destruct (recv (S n) s) as [[[|b bs1]|] s1] eqn:E; [done| |done]. apply recv_bound in E.
  destruct (readExact_loop fuel _ s1) as [[[rest|] s2]|] eqn:E2; [|done..]. injection H as <- <-.
  cbn [length] in *. rewrite length_app, (IH _ _ _ E2). lia.
Qed.

Lemma writeAll_loop_enough fuel bs s :
  (length bs <= fuel)%nat -> writeAll_loop fuel bs s = writeAll_loop (length bs) bs s /\ is_Some (writeAll_loop (length bs) bs s).
Proof.
  revert bs s; induction fuel as [fuel IH] using lt_wf_ind; intros bs s Hn. destruct bs as [|b bs]; [by destruct fuel; eauto|].
  destruct fuel as [|fuel]; cbn [length] in *; [lia|]. cbn [writeAll_loop].
  destruct (send (b :: bs) s) as [[r|] s'] eqn:E; [|by eauto].
  pose proof (send_progress (b :: bs) s r s' ltac:(discriminate) E) as Hr.
  assert (Hl : (length (drop r (b :: bs)) <= length bs)%nat) by (rewrite length_drop; cbn [length]; lia).
  destruct (IH fuel ltac:(lia) (drop r (b :: bs)) s' ltac:(lia)) as [-> Hd].
  destruct (IH (length bs) ltac:(lia) (drop r (b :: bs)) s' Hl) as [-> _]. done.
Qed.

(** C23: the loops of the transport end: whatever the connection delivers, [readExact]
    needs at most as many calls of [recv] as it was asked for bytes, and then either fails
    or has exactly that many; [writeAll] needs at most as many calls of [send] as it has
    bytes.  So fuel beyond that changes nothing, and none of the fuel given runs out. *)
Theorem transport_loops_end :
  (forall fuel n s, (n <= fuel)%nat -> readExact_loop fuel n s = Some (readExact n s)) /\
  (forall fuel bs s, (length bs <= fuel)%nat -> writeAll_loop fuel bs s = Some (writeAll bs s)) /\
  (forall n s bs s', readExact n s = (Some bs, s') -> length bs = n).
Proof.
  split_and!.
  - intros fuel n s Hn. unfold readExact. by destruct (readExact_loop_enough fuel n s Hn) as [-> [r ->]].
  - intros fuel bs s Hn. unfold writeAll. by destruct (writeAll_loop_enough fuel bs s Hn) as [-> [r ->]].
  - intros n s bs s' H. unfold readExact in H. destruct (readExact_loop n n s) as [r|] eqn:E; [|done]. subst r.
    by eapply readExact_loop_length.
Qed.

(** ** Frames travel in order *)

(** With enough bytes on the way, reading takes them off the front. *)
Lemma readExact_loop_incoming fuel n s :
  (n <= fuel)%nat -> (n <= length (incoming s))%nat ->
  exists s', readExact_loop fuel n s = Some (Some (take n (incoming s)), s') /\ incoming s' = drop n (incoming s).
Proof.
  revert n s; induction fuel as [|fuel IH]; intros n s Hn Hl.
  { replace n with 0%nat by lia. exists s. by rewrite drop_0. }
  destruct n as [|n]; [exists s; by rewrite drop_0|]. cbn [readExact_loop].
  destruct (recv_ready (S n) s) as (bs & s' & E & Hne); [lia|by intros H; rewrite H in Hl; simpl in Hl; lia|].
  rewrite E. pose proof (recv_bound _ _ _ _ E) as Hb. pose proof (recv_order _ _ _ _ E) as Ho.
  destruct bs as [|b bs]; [done|]. rewrite Ho, length_app in Hl.
  destruct (IH (S n - length (b :: bs))%nat s') as (s'' & -> & Hi); [cbn [length] in *; lia|lia|]. exists s''. split.
  - rewrite Ho, take_app_ge by lia. done.
  - by rewrite Hi, Ho, drop_app_ge by lia.
Qed.

Lemma readExact_incoming bs rest s :
  incoming s = bs ++ rest -> exists s', readExact (length bs) s = (Some bs, s') /\ incoming s' = rest.
Proof.
  intros Hi. unfold readExact. destruct (readExact_loop_incoming (length bs) (length bs) s) as (s' & -> & Hr); [done|by rewrite Hi, length_app; lia|].
  exists s'. by rewrite Hr, Hi, take_app_length, drop_app_length.
Qed.

Lemma readExact_loop_order fuel n s bs s' : readExact_loop fuel n s = Some (Some bs, s') -> incoming s = bs ++ incoming s'.
Proof.
  revert n s bs; induction fuel as [|fuel IH]; intros [|n] s bs H; cbn [readExact_loop] in H; simplify_eq; [done..|].
  destruct (recv (S n) s) as [[[|b bs1]|] s1] eqn:E; [done| |done]. apply recv_order in E.
  destruct (readExact_loop fuel _ s1) as [[[rest|] s2]|] eqn:E2; [|done..]. injection H as <- <-.
  by rewrite E, (IH _ _ _ E2), app_assoc.
Qed.

Lemma readExact_order n s bs s' : readExact n s = (Some bs, s') -> incoming s = bs ++ incoming s'.
Proof.
  unfold readExact. intros H. destruct (readExact_loop n n s) as [r|] eqn:E; [|done]. subst r. by eapply readExact_loop_order.
Qed.

(** A frame that is received on a connection of bytes is a frame of bytes. *)
Lemma recvFrame_bytes s f s' :
  Forall is_u8 (incoming s) -> recvFrame s = (inr f, s') -> Forall is_u8 f.(Frame.payload).
Proof.
  intros Hb H. unfold recvFrame in H. destruct (readExact 4 s) as [[hdr|] s1] eqn:E1; [|done]. apply readExact_order in E1.
  rewrite E1 in Hb. apply Forall_app in Hb as [_ Hb]. cbv zeta in H. destruct (_ || _); [done|].
  destruct (readExact _ s1) as [[buf|] s2] eqn:E2; [|done]. apply readExact_order in E2. rewrite E2 in Hb.
  apply Forall_app in Hb as [Hbuf _]. injection H as H _. by eapply decodeFrame_payload.
Qed.

Lemma writeAll_loop_outgoing fuel bs s s' :
  writeAll_loop fuel bs s = Some (true, s') -> outgoing s' = outgoing s ++ bs.
Proof.
  revert bs s; induction fuel as [|fuel IH]; intros [|b bs] s H; cbn [writeAll_loop] in H; simplify_eq; [by rewrite app_nil_r..|].
  destruct (send (b :: bs) s) as [[r|] s1] eqn:E; [|done]. rewrite (IH _ _ H), (send_order _ _ _ _ E), <- app_assoc.
  by rewrite take_drop.
Qed.

Lemma writeAll_outgoing bs s s' : writeAll bs s = (true, s') -> outgoing s' = outgoing s ++ bs.
Proof.
  unfold writeAll. intros H. destruct (writeAll_loop _ _ _) as [r|] eqn:E; [|done]. subst r. by eapply writeAll_loop_outgoing.
Qed.

(** A frame that both sides accept: with its header and checksum it is within the limit. *)
Definition receivable (f : Frame) : Prop := Z.of_nat (length f.(Frame.payload)) + 25 <= kMaxFramePayload.

Lemma frameBytes_length f : length (frameBytes f) = (length f.(Frame.payload) + 25)%nat.
Proof. unfold frameBytes. rewrite !length_app, frameHeader_length. unfold u64. rewrite length_le_bytes. lia. Qed.

Lemma frameBytes_u32 f : small_frame f -> is_u32 (Z.of_nat (length (frameBytes f))).
Proof. unfold small_frame, kMaxFramePayload, is_u32, u32_max. rewrite frameBytes_length. lia. Qed.

Lemma sendFrame_outgoing f s s' : sendFrame f s = (inr (), s') -> small_frame f /\ outgoing s' = outgoing s ++ wireFrame f.
Proof.
  unfold sendFrame, wireFrame. intros H. destruct (encodeFrame f) as [|bytes] eqn:E; [done|].
  pose proof (encodeFrame_small _ _ E) as Hs. split; [done|].
  rewrite encodeFrame_bytes in E by done. injection E as <-. rewrite wrap32_small in H by (by apply frameBytes_u32).
  destruct (writeAll (u32 _) s) as [[] s1] eqn:E1; [|done]. destruct (writeAll (frameBytes f) s1) as [[] s2] eqn:E2; [|done].
  injection H as <-. by rewrite (writeAll_outgoing _ _ _ E2), (writeAll_outgoing _ _ _ E1), <- app_assoc.
Qed.

Lemma recvFrame_incoming f rest s :
  receivable f -> incoming s = wireFrame f ++ rest -> exists s', recvFrame s = (inr f, s') /\ incoming s' = rest.
Proof.
  intros Hr Hi. assert (Hs : small_frame f) by (unfold receivable, small_frame in *; lia).
  unfold wireFrame in Hi. rewrite <- app_assoc in Hi. unfold recvFrame. rewrite <- (length_u32 (Z.of_nat (length (frameBytes f)))).
  destruct (readExact_incoming _ _ s Hi) as (s1 & -> & Hi1). cbv zeta. rewrite le_value_u32 by (by apply frameBytes_u32).
  rewrite frameBytes_length. unfold receivable in Hr.
  destruct (Z.eqb_spec (Z.of_nat (length (Frame.payload f) + 25)) 0); [lia|].
  destruct (Z.ltb_spec kMaxFramePayload (Z.of_nat (length (Frame.payload f) + 25))); [lia|]. cbn [orb].
  rewrite Nat2Z.id, <- frameBytes_length. destruct (readExact_incoming _ _ s1 Hi1) as (s2 & -> & Hi2). exists s2.
  split; [|done]. pose proof (decodeFrame_bytes f [] Hs) as Hd. rewrite app_nil_r in Hd. by rewrite Hd.
Qed.


(** The two limits disagree: a frame whose payload is within the limit, but which
    exceeds it together with its header and checksum, is sent without objection, and
    refused by the receiver, which takes its length for a bad one and leaves the frame on
    the connection. *)
Theorem large_frame_sent_but_refused f :
  small_frame f -> ~ receivable f ->
  (forall s e s', sendFrame f s = (inl e, s') -> e = "write length failed" \/ e = "write frame failed") /\
  (forall s s', sendFrame f s = (inr (), s') -> outgoing s' = outgoing s ++ wireFrame f) /\
  (forall r rest, incoming r = wireFrame f ++ rest ->
    exists r', recvFrame r = (inl "bad frame length", r') /\ incoming r' = frameBytes f ++ rest).
Proof.
  intros Hs Hr. split_and!.
  - intros s e s' H. unfold sendFrame in H. rewrite encodeFrame_bytes in H by done. repeat case_match; simplify_eq; auto.
  - intros s s' H. by apply sendFrame_outgoing in H as [_ ?].
  - intros r rest Hi. unfold wireFrame in Hi. rewrite <- app_assoc in Hi.
    unfold recvFrame. rewrite <- (length_u32 (Z.of_nat (length (frameBytes f)))).
    destruct (readExact_incoming _ _ r Hi) as (r1 & -> & Hi1). cbv zeta. rewrite le_value_u32 by (by apply frameBytes_u32).
    rewrite (proj2 (Z.ltb_lt _ _)) by (rewrite frameBytes_length; unfold receivable in Hr; lia). rewrite orb_true_r. by exists r1.
Qed.
End transport.

(** ** A connection

    A socket that delivers what the peer sent in the given segments, and takes at most 536
    bytes at a time. *)

Module Pipe.
Record Pipe := { segments : list (list Z); taken : list Z }.
End Pipe.
Abbreviation Pipe := Pipe.Pipe.

Fixpoint next_segment (segs : list (list Z)) : option (list Z * list (list Z)) :=
  match segs with
  | [] => None
  | [] :: segs' => next_segment segs'
  | seg :: segs' => Some (seg, segs')
  end.

Definition pipe_recv (n : nat) (p : Pipe) : option (list Z) * Pipe :=
  match next_segment p.(Pipe.segments) with
  | None => (Some [], {| Pipe.segments := []; Pipe.taken := p.(Pipe.taken) |})
  | Some (seg, segs) => (Some (take n seg), {| Pipe.segments := drop n seg :: segs; Pipe.taken := p.(Pipe.taken) |})
  end.

Definition pipe_send (bs : list Z) (p : Pipe) : option nat * Pipe :=
  (Some (Nat.min (length bs) 536), {| Pipe.segments := p.(Pipe.segments); Pipe.taken := p.(Pipe.taken) ++ take (Nat.min (length bs) 536) bs |}).

Lemma next_segment_concat segs :
  match next_segment segs with
  | None => concat segs = []
  | Some (seg, segs') => concat segs = seg ++ concat segs' /\ seg <> []
  end.
Proof. induction segs as [|[|b seg] segs IH]; [done|exact IH|done]. Qed.

#[export] Program Instance Pipe_socket : Socket Pipe := {|
  recv := pipe_recv; send := pipe_send; incoming p := concat p.(Pipe.segments); outgoing := Pipe.taken |}.
Next Obligation.
  intros n s bs s' H. unfold pipe_recv in H. destruct (next_segment _) as [[seg segs]|]; injection H as <- <-; [rewrite length_take; lia|simpl; lia].
Qed.
Next Obligation.
  intros n s bs s' H. unfold pipe_recv in H. pose proof (next_segment_concat (Pipe.segments s)) as Hc.
  destruct (next_segment _) as [[seg segs]|]; injection H as <- <-; cbn; [|done]. destruct Hc as [-> _].
  by rewrite app_assoc, take_drop.
Qed.
Next Obligation.
  intros n s Hn Hi. unfold pipe_recv. pose proof (next_segment_concat (Pipe.segments s)) as Hc.
  destruct (next_segment _) as [[seg segs]|]; [|done]. destruct Hc as [_ Hne]. eexists _, _. split; [reflexivity|].
  destruct n as [|n], seg; [lia|lia|done|done].
Qed.
Next Obligation. intros bs s r s' [= <- _]. lia. Qed.
Next Obligation. intros bs s r s' Hne [= <- _]. destruct bs; [done|]. cbn [length]. lia. Qed.
Next Obligation. by intros bs s r s' [= <- <-]. Qed.

Definition demoFrame (type : MessageType) (payload : list Z) : Frame := {| Frame.type := type; Frame.payload := payload |}.
Definition demoFrames : list Frame := [demoFrame MessageType.SAVE []; demoFrame MessageType.HELLO (u64 3)].

(** [l] in segments of [n] bytes. *)
Fixpoint segmented (fuel n : nat) (l : list Z) : list (list Z) :=
  match fuel with
  | O => [l]
  | S fuel' => take n l :: segmented fuel' n (drop n l)
  end.


Lemma transport_loops_end_witness :
  readExact_loop 9 5 {| Pipe.segments := [[1; 2]; []; [3; 4; 5; 6]]; Pipe.taken := [] |} =
    Some (Some [1; 2; 3; 4; 5], {| Pipe.segments := [[6]]; Pipe.taken := [] |}).
Proof. rewrite (proj1 transport_loops_end) by lia. vm_compute. reflexivity. Defined.

Lemma large_frame_sent_but_refused_witness :
  exists f, small_frame f /\ ~ receivable f /\
    exists r', recvFrame {| Pipe.segments := [wireFrame f]; Pipe.taken := [] |} = (inl "bad frame length", r') /\
      incoming r' = frameBytes f ++ [].
Proof.
  set (f := demoFrame MessageType.HELLO (replicate (Z.to_nat kMaxFramePayload) 0)). exists f.
  assert (Hl : Z.of_nat (length f.(Frame.payload)) = kMaxFramePayload).
  { unfold f, demoFrame. cbn [Frame.payload]. rewrite length_replicate, Z2Nat.id; [reflexivity|discriminate]. }
  assert (Hs : small_frame f) by (unfold small_frame; rewrite Hl; discriminate).
  assert (Hr : ~ receivable f) by (unfold receivable; rewrite Hl; lia).
  split; [exact Hs|]. split; [exact Hr|].
  apply (proj2 (proj2 (large_frame_sent_but_refused f Hs Hr)) {| Pipe.segments := [wireFrame f]; Pipe.taken := [] |} []).
  reflexivity.
Defined.
