(* ===== verification/Protocol.v ===== *)
(** * The wire protocol

    Models the messages of src/protocol.cpp: the encoding of each message type in the
    payload of its frame.  Decoding reports the texts of the source and starts from a
    default-constructed message, as every caller does. *)

From S2P Require Import Prelude Core Enums Double Rounding Model Scenario Message Client Codec.

(** ** Fields *)

(** [Endpoint::setArch]: at most seven characters and a terminator. *)
Definition setArch (a arch : list Z) : list Z :=
  let n := Nat.min (length a) 7 in take n a ++ [0] ++ drop (S n) arch.

(** A set of transports, in the order of the set. *)
Definition encTransports (s : gset Transport) : list Z := counted enum (enum_set_elements s).

Definition decTransports : Rd (gset Transport) :=
  l ← rd_counted () () 64 (rd_enum (A:=Transport)); mret (list_to_set l).

Definition encEndpoint (e : Endpoint) : list Z := concat [
  u64 e.(Endpoint.id); u64 e.(Endpoint.generation); enum e.(Endpoint.kind); u64 e.(Endpoint.node); u64 e.(Endpoint.device);
  u64 e.(Endpoint.capability).(Capability.generation); encTransports e.(Endpoint.capability).(Capability.transports);
  enum e.(Endpoint.capability).(Capability.provenance); take 8 e.(Endpoint.capability).(Capability.computeArch);
  str e.(Endpoint.address); str e.(Endpoint.protocol); str e.(Endpoint.version); str e.(Endpoint.name);
  boo e.(Endpoint.health).(Health.healthy); boo e.(Endpoint.reachable); boo e.(Endpoint.ready);
  u64 e.(Endpoint.worker); u64 e.(Endpoint.workerBoot); u64 e.(Endpoint.source); u64 e.(Endpoint.sourceBoot);
  str e.(Endpoint.failureDomain); enum e.(Endpoint.provenance); str e.(Endpoint.location).(TopologyLocation.pcieRoot);
  u64 (if 0 <? e.(Endpoint.location).(TopologyLocation.numaDistance)
       then e.(Endpoint.location).(TopologyLocation.numaDistance) else 0)].

(** The endpoint with the fields of the wire; the others keep their defaults. *)
Definition wireEndpoint (id generation : Z) (kind : EndpointKind) (node device capGen : Z) (transports : gset Transport)
    (capProv : Provenance) (arch : list Z) (address protocol version name : string) (healthy reachable ready : bool)
    (worker workerBoot source sourceBoot : Z) (failureDomain : string) (prov : Provenance) (pcieRoot : string)
    (numa : Z) : Endpoint := {|
  Endpoint.id := id; Endpoint.generation := generation; Endpoint.kind := kind; Endpoint.node := node; Endpoint.device := device;
  Endpoint.location := {|
    TopologyLocation.node := TopologyLocation_default.(TopologyLocation.node);
    TopologyLocation.cpuDomain := TopologyLocation_default.(TopologyLocation.cpuDomain);
    TopologyLocation.memoryDomain := TopologyLocation_default.(TopologyLocation.memoryDomain);
    TopologyLocation.nic := TopologyLocation_default.(TopologyLocation.nic);
    TopologyLocation.device := TopologyLocation_default.(TopologyLocation.device);
    TopologyLocation.pcieRoot := pcieRoot; TopologyLocation.numaDistance := numa;
    TopologyLocation.provenance := TopologyLocation_default.(TopologyLocation.provenance) |};
  Endpoint.address := address; Endpoint.protocol := protocol; Endpoint.version := version; Endpoint.name := name;
  Endpoint.capability := {| Capability.generation := capGen; Capability.transports := transports;
    Capability.features := Capability_default.(Capability.features); Capability.provenance := capProv;
    Capability.computeArch := setArch arch Capability_default.(Capability.computeArch) |};
  Endpoint.health := {| Health.generation := Health_default.(Health.generation); Health.healthy := healthy;
    Health.message := Health_default.(Health.message) |};
  Endpoint.reachable := reachable; Endpoint.ready := ready; Endpoint.worker := worker; Endpoint.workerBoot := workerBoot;
  Endpoint.source := source; Endpoint.sourceBoot := sourceBoot; Endpoint.failureDomain := failureDomain;
  Endpoint.provenance := prov |}.

Definition decEndpoint : Rd Endpoint :=
  id ← rd_u64; generation ← rd_u64; kind ← rd_enum; node ← rd_u64; device ← rd_u64; capGen ← rd_u64;
  transports ← decTransports; capProv ← rd_enum; arch ← rd_bytes 8;
  address ← rd_str; protocol ← rd_str; version ← rd_str; name ← rd_str;
  healthy ← rd_boo; reachable ← rd_boo; ready ← rd_boo;
  worker ← rd_u64; workerBoot ← rd_u64; source ← rd_u64; sourceBoot ← rd_u64;
  failureDomain ← rd_str; prov ← rd_enum; pcieRoot ← rd_str; numa ← rd_u64;
  mret (wireEndpoint id generation kind node device capGen transports capProv arch address protocol version name
    healthy reachable ready worker workerBoot source sourceBoot failureDomain prov pcieRoot (to_int numa)).

Definition encLink (l : Link) : list Z := concat [
  u64 l.(Link.id); u64 l.(Link.generation); u64 l.(Link.source); u64 l.(Link.destination); enum l.(Link.kind);
  enum l.(Link.transport); boo l.(Link.directed); u64 l.(Link.capacity); u64 l.(Link.effectiveBandwidth); u64 l.(Link.latency);
  boo l.(Link.health).(Health.healthy); u64 l.(Link.congestion).(Congestion.generation);
  dbl l.(Link.congestion).(Congestion.load); dbl l.(Link.congestion).(Congestion.penalty);
  boo l.(Link.congestion).(Congestion.hardLimitExceeded); enum l.(Link.congestion).(Congestion.provenance);
  u64 l.(Link.capacityEvidence).(Capacity.generation); u64 l.(Link.capacityEvidence).(Capacity.usable);
  u64 l.(Link.capacityEvidence).(Capacity.headroom); enum l.(Link.capacityEvidence).(Capacity.provenance);
  u64 l.(Link.topologyGeneration); u64 l.(Link.capabilityGeneration); str l.(Link.failureDomain); u64 l.(Link.workerBoot);
  enum l.(Link.provenance)].

Definition wireLink (id generation source destination : Z) (kind : LinkKind) (transport : Transport) (directed : bool)
    (capacity bandwidth latency : Z) (healthy : bool) (cong : Congestion) (cap : Capacity) (topoGen capGen : Z)
    (failureDomain : string) (workerBoot : Z) (prov : Provenance) : Link := {|
  Link.id := id; Link.generation := generation; Link.source := source; Link.destination := destination; Link.kind := kind;
  Link.transport := transport; Link.directed := directed; Link.capacity := capacity; Link.effectiveBandwidth := bandwidth;
  Link.latency := latency;
  Link.health := {| Health.generation := Health_default.(Health.generation); Health.healthy := healthy;
    Health.message := Health_default.(Health.message) |};
  Link.congestion := cong; Link.capacityEvidence := cap; Link.topologyGeneration := topoGen;
  Link.capabilityGeneration := capGen; Link.failureDomain := failureDomain; Link.workerBoot := workerBoot;
  Link.provenance := prov |}.

Definition mkCongestion (generation : Z) (load penalty : double) (hard : bool) (prov : Provenance) : Congestion := {|
  Congestion.generation := generation; Congestion.load := load; Congestion.penalty := penalty;
  Congestion.hardLimitExceeded := hard; Congestion.provenance := prov |}.
Definition mkCapacity (generation usable headroom : Z) (prov : Provenance) : Capacity := {|
  Capacity.generation := generation; Capacity.usable := usable; Capacity.headroom := headroom; Capacity.provenance := prov |}.

Definition decLink : Rd Link :=
  id ← rd_u64; generation ← rd_u64; source ← rd_u64; destination ← rd_u64; kind ← rd_enum; transport ← rd_enum;
  directed ← rd_boo; capacity ← rd_u64; bandwidth ← rd_u64; latency ← rd_u64; healthy ← rd_boo;
  congGen ← rd_u64; load ← rd_dbl; penalty ← rd_dbl; hard ← rd_boo; congProv ← rd_enum;
  evGen ← rd_u64; usable ← rd_u64; headroom ← rd_u64; evProv ← rd_enum;
  topoGen ← rd_u64; capGen ← rd_u64; failureDomain ← rd_str; workerBoot ← rd_u64; prov ← rd_enum;
  mret (wireLink id generation source destination kind transport directed capacity bandwidth latency healthy
    (mkCongestion congGen load penalty hard congProv) (mkCapacity evGen usable headroom evProv) topoGen capGen
    failureDomain workerBoot prov).

Definition encRequest (r : CommunicationRequest) : list Z := concat [
  u64 r.(Request.id); u64 r.(Request.generation); enum r.(Request.shape); u64 r.(Request.source); u64 r.(Request.payloadSize);
  enum r.(Request.direction); boo r.(Request.allowStaging); boo r.(Request.allowHostStaging); boo r.(Request.allowStorageStaging);
  boo r.(Request.allowRelay); boo r.(Request.allowMulticast); u32 r.(Request.maxHops); u32 r.(Request.maxStages);
  u64 r.(Request.externalPriority); u64 r.(Request.policyGeneration); encTransports r.(Request.allowed);
  encTransports r.(Request.forbidden); enum r.(Request.collectiveShape); u64 r.(Request.collectiveCount);
  counted u64 r.(Request.destinations); counted u64 r.(Request.participants); str r.(Request.provenance);
  str r.(Request.requiredFailureDomain); str r.(Request.preferredLocality)].

Definition wireRequest (id generation : Z) (shape : RequestShape) (source payload : Z) (direction : Direction)
    (staging host storage relay multicast : bool) (hops stages priority policy : Z) (allowed forbidden : gset Transport)
    (cshape : CollectiveShape) (count : Z) (destinations participants : list Z) (prov domain locality : string)
    : CommunicationRequest := {|
  Request.id := id; Request.generation := generation; Request.shape := shape; Request.source := source;
  Request.destinations := destinations; Request.payloadSize := payload; Request.direction := direction;
  Request.latencySensitive := Request_default.(Request.latencySensitive);
  Request.throughputTarget := Request_default.(Request.throughputTarget);
  Request.requireOrdering := Request_default.(Request.requireOrdering);
  Request.requireReliability := Request_default.(Request.requireReliability);
  Request.allowRetry := Request_default.(Request.allowRetry); Request.allowStaging := staging;
  Request.allowHostStaging := host; Request.allowStorageStaging := storage; Request.allowRelay := relay;
  Request.allowMulticast := multicast; Request.allowed := allowed; Request.forbidden := forbidden;
  Request.requiredFailureDomain := domain; Request.preferredLocality := locality; Request.maxHops := hops;
  Request.maxStages := stages; Request.maxMovementCost := Request_default.(Request.maxMovementCost);
  Request.reservationBinding := Request_default.(Request.reservationBinding);
  Request.externalPriority := priority; Request.policyGeneration := policy; Request.collectiveShape := cshape;
  Request.participants := participants; Request.collectiveCount := count; Request.provenance := prov |}.

Definition decRequest : Rd CommunicationRequest :=
  id ← rd_u64; generation ← rd_u64; shape ← rd_enum; source ← rd_u64; payload ← rd_u64; direction ← rd_enum;
  staging ← rd_boo; host ← rd_boo; storage ← rd_boo; relay ← rd_boo; multicast ← rd_boo;
  hops ← rd_u32; stages ← rd_u32; priority ← rd_u64; policy ← rd_u64;
  allowed ← decTransports; forbidden ← decTransports; cshape ← rd_enum; count ← rd_u64;
  _ ← check () (count <=? u32_max);
  destinations ← rd_counted () () kMaxCount rd_u64; participants ← rd_counted () () kMaxCount rd_u64;
  prov ← rd_str; domain ← rd_str; locality ← rd_str;
  mret (wireRequest id generation shape source payload direction staging host storage relay multicast hops stages
    (wrap32 priority) policy allowed forbidden cshape count destinations participants prov domain locality).

(** ** Messages *)

(** The part of a stage, a path and a plan that a plan result carries. *)
Definition encStage (st : Stage) : list Z :=
  concat [u64 st.(Stage.link); u64 st.(Stage.source); u64 st.(Stage.destination); u64 st.(Stage.payload)].
Definition encPath (p : Path) : list Z :=
  concat [u64 p.(Path.id); u64 p.(Path.totalPayload); counted encStage p.(Path.stages)].
Definition encGeneration (pr : Z * Z) : list Z := concat [u64 pr.1; u64 pr.2].
Definition encPlan (plan : CommunicationPlan) : list Z := concat [
  u64 plan.(Plan.id); u64 plan.(Plan.generation); u64 plan.(Plan.requestId); u64 plan.(Plan.requestGeneration);
  u64 plan.(Plan.primaryPath); counted encPath plan.(Plan.candidatePaths); counted encStage plan.(Plan.orderedStages);
  counted encGeneration plan.(Plan.endpointGenerations)].

Definition encodeMessage (m : Message) : list Z :=
  match m.(Message.type) with
  | MessageType.HELLO => concat [u64 m.(Message.epoch)]
  | MessageType.REGISTER => concat [u64 m.(Message.worker); u64 m.(Message.boot); str m.(Message.name)]
  | MessageType.PUBLISH_ENDPOINT => concat [u64 m.(Message.worker); u64 m.(Message.boot); encEndpoint m.(Message.endpoint)]
  | MessageType.PUBLISH_LINK => concat [u64 m.(Message.worker); u64 m.(Message.boot); encLink m.(Message.link)]
  | MessageType.PUBLISH_CAPACITY => concat [
      u64 m.(Message.linkId); u64 m.(Message.capacity).(Capacity.generation); u64 m.(Message.capacity).(Capacity.usable);
      u64 m.(Message.capacity).(Capacity.headroom); enum m.(Message.capacity).(Capacity.provenance)]
  | MessageType.PUBLISH_CONGESTION => concat [
      u64 m.(Message.linkId); u64 m.(Message.congestion).(Congestion.generation);
      dbl m.(Message.congestion).(Congestion.load); dbl m.(Message.congestion).(Congestion.penalty);
      boo m.(Message.congestion).(Congestion.hardLimitExceeded); enum m.(Message.congestion).(Congestion.provenance)]
  | MessageType.SUBMIT_REQUEST => concat [encRequest m.(Message.request)]
  | MessageType.PLAN_RESULT => concat [
      boo m.(Message.ok); enum (if m.(Message.ok) then Feasibility.FEASIBLE else Feasibility.REJECT_ENDPOINT);
      if m.(Message.ok) then encPlan m.(Message.plan) else []]
  | MessageType.REVALIDATE | MessageType.COMMIT_REQUEST | MessageType.EXECUTION_HANDOFF | MessageType.QUERY_PLAN =>
      concat [u64 m.(Message.planId)]
  | MessageType.CANCEL | MessageType.SUPERSEDE => concat [u64 m.(Message.requestId); u64 m.(Message.planId)]
  | MessageType.COMMIT_RESULT => concat [boo m.(Message.ok); u64 m.(Message.planId)]
  | MessageType.EXECUTION_RESULT =>
      concat [boo m.(Message.ok); u64 m.(Message.planId); u64 m.(Message.worker); u64 m.(Message.boot)]
  | MessageType.EXECUTE =>
      concat [u64 m.(Message.planId); u64 m.(Message.bytes); u64 m.(Message.worker); u64 m.(Message.boot)]
  | MessageType.PUBLISH_TOPOLOGY => concat [u64 m.(Message.endpoint).(Endpoint.capability).(Capability.generation)]
  | MessageType.SAVE | MessageType.SHUTDOWN => []
  | MessageType.ERROR => concat [str m.(Message.error)]
  end.

(** [if(!r.u64(&v)) return fail(what);], and an enumerator with a text for its range. *)
Definition field {A} (what : string) (m : Rd A) : P string A := need what m.
Definition enumField `{CppEnum A} (what invalid : string) : P string A :=
  k ← need what rd_u8; match enum_of_u8 k with Some a => mret a | None => fail invalid end.

(** Default-constructed structs with the fields that were read. *)
Definition Stage_default : Stage := {|
  Stage.id := 0; Stage.generation := 0; Stage.source := 0; Stage.destination := 0; Stage.link := 0;
  Stage.transport := Transport.UNKNOWN; Stage.payload := 0; Stage.expectedBandwidth := 0; Stage.expectedLatency := 0;
  Stage.stagingResource := 0; Stage.requiresAuthority := false; Stage.provenance := Provenance.UNKNOWN; Stage.description := "" |}.

Definition wireStage (link source destination payload : Z) : Stage := {|
  Stage.id := Stage_default.(Stage.id); Stage.generation := Stage_default.(Stage.generation); Stage.source := source;
  Stage.destination := destination; Stage.link := link; Stage.transport := Stage_default.(Stage.transport);
  Stage.payload := payload; Stage.expectedBandwidth := Stage_default.(Stage.expectedBandwidth);
  Stage.expectedLatency := Stage_default.(Stage.expectedLatency); Stage.stagingResource := Stage_default.(Stage.stagingResource);
  Stage.requiresAuthority := Stage_default.(Stage.requiresAuthority); Stage.provenance := Stage_default.(Stage.provenance);
  Stage.description := Stage_default.(Stage.description) |}.

Definition Path_default : Path := {|
  Path.id := 0; Path.generation := 0; Path.source := 0; Path.destination := 0; Path.stages := []; Path.totalPayload := 0;
  Path.cost := CostSummary_default; Path.provenance := Provenance.UNKNOWN; Path.failureDomain := ""; Path.reason := "" |}.

Definition wirePath (id payload : Z) (stages : list Stage) : Path := {|
  Path.id := id; Path.generation := Path_default.(Path.generation); Path.source := Path_default.(Path.source);
  Path.destination := Path_default.(Path.destination); Path.stages := stages; Path.totalPayload := payload;
  Path.cost := Path_default.(Path.cost); Path.provenance := Path_default.(Path.provenance);
  Path.failureDomain := Path_default.(Path.failureDomain); Path.reason := Path_default.(Path.reason) |}.

Definition wirePlan (id generation requestId requestGeneration primary : Z) (paths : list Path) (stages : list Stage)
    (endpointGens : list (Z * Z)) : CommunicationPlan := {|
  Plan.id := id; Plan.generation := generation; Plan.requestId := requestId; Plan.requestGeneration := requestGeneration;
  Plan.shape := Plan_default.(Plan.shape); Plan.primaryPath := primary; Plan.fallbackPaths := Plan_default.(Plan.fallbackPaths);
  Plan.candidatePaths := paths; Plan.orderedStages := stages; Plan.feasibility := Plan_default.(Plan.feasibility);
  Plan.topologyGeneration := Plan_default.(Plan.topologyGeneration);
  Plan.capacityGeneration := Plan_default.(Plan.capacityGeneration);
  Plan.reservationGeneration := Plan_default.(Plan.reservationGeneration);
  Plan.congestionGeneration := Plan_default.(Plan.congestionGeneration);
  Plan.capabilityGeneration := Plan_default.(Plan.capabilityGeneration);
  Plan.healthGeneration := Plan_default.(Plan.healthGeneration);
  Plan.placementGeneration := Plan_default.(Plan.placementGeneration);
  Plan.authorityGeneration := Plan_default.(Plan.authorityGeneration); Plan.endpointGenerations := endpointGens;
  Plan.linkGenerations := Plan_default.(Plan.linkGenerations);
  Plan.requiredStagingResources := Plan_default.(Plan.requiredStagingResources);
  Plan.requiredResourceClaims := Plan_default.(Plan.requiredResourceClaims); Plan.cost := Plan_default.(Plan.cost);
  Plan.explanations := Plan_default.(Plan.explanations); Plan.provenance := Plan_default.(Plan.provenance);
  Plan.revalidationGeneration := Plan_default.(Plan.revalidationGeneration);
  Plan.revalidateBeforeExecute := Plan_default.(Plan.revalidateBeforeExecute);
  Plan.handoffRequirement := Plan_default.(Plan.handoffRequirement); Plan.createdProvenance := Plan_default.(Plan.createdProvenance);
  Plan.multicastDestinations := Plan_default.(Plan.multicastDestinations);
  Plan.collectiveShape := Plan_default.(Plan.collectiveShape);
  Plan.collectiveParticipants := Plan_default.(Plan.collectiveParticipants); Plan.description := Plan_default.(Plan.description) |}.

Definition decStage (what : string) : P string Stage :=
  link ← field what rd_u64; source ← field what rd_u64; destination ← field what rd_u64; payload ← field what rd_u64;
  mret (wireStage link source destination payload).
Definition decPath : P string Path :=
  id ← field "PR path id" rd_u64; payload ← field "PR path payload" rd_u64;
  stages ← rd_counted "PR stages" "PR stages count" kMaxCount (decStage "PR st");
  mret (wirePath id payload stages).
Definition decGeneration : P string (Z * Z) := e ← field "PR eg" rd_u64; g ← field "PR eg" rd_u64; mret (e, g).
Definition decPlan : P string CommunicationPlan :=
  id ← field "PR plan id" rd_u64; generation ← field "PR plan gen" rd_u64; requestId ← field "PR req id" rd_u64;
  requestGeneration ← field "PR req gen" rd_u64; primary ← field "PR primary" rd_u64;
  paths ← rd_counted "PR paths" "PR paths count" kMaxCount decPath;
  stages ← rd_counted "PR ordered stages" "PR ordered count" kMaxCount (decStage "PR os");
  gens ← rd_counted "PR endp gens" "PR eg count" kMaxCount decGeneration;
  mret (wirePlan id generation requestId requestGeneration primary paths stages gens).

(** An endpoint of which only the capability generation was set. *)
Definition topologyEndpoint (generation : Z) : Endpoint := {|
  Endpoint.id := Endpoint_default.(Endpoint.id); Endpoint.generation := Endpoint_default.(Endpoint.generation);
  Endpoint.kind := Endpoint_default.(Endpoint.kind); Endpoint.node := Endpoint_default.(Endpoint.node);
  Endpoint.device := Endpoint_default.(Endpoint.device); Endpoint.location := Endpoint_default.(Endpoint.location);
  Endpoint.address := Endpoint_default.(Endpoint.address); Endpoint.protocol := Endpoint_default.(Endpoint.protocol);
  Endpoint.version := Endpoint_default.(Endpoint.version); Endpoint.name := Endpoint_default.(Endpoint.name);
  Endpoint.capability := {| Capability.generation := generation; Capability.transports := Capability_default.(Capability.transports);
    Capability.features := Capability_default.(Capability.features);
    Capability.provenance := Capability_default.(Capability.provenance);
    Capability.computeArch := Capability_default.(Capability.computeArch) |};
  Endpoint.health := Endpoint_default.(Endpoint.health); Endpoint.reachable := Endpoint_default.(Endpoint.reachable);
  Endpoint.ready := Endpoint_default.(Endpoint.ready); Endpoint.worker := Endpoint_default.(Endpoint.worker);
  Endpoint.workerBoot := Endpoint_default.(Endpoint.workerBoot); Endpoint.source := Endpoint_default.(Endpoint.source);
  Endpoint.sourceBoot := Endpoint_default.(Endpoint.sourceBoot);
  Endpoint.failureDomain := Endpoint_default.(Endpoint.failureDomain); Endpoint.provenance := Endpoint_default.(Endpoint.provenance) |}.

(** What each type carries, in a message that is otherwise default. *)
Definition helloOf (epoch : Z) : Message := makeMessage MessageType.HELLO epoch 0 0 Plan_default 0 false 0 "".
Definition topologyOf (generation : Z) : Message :=
  clientMessage MessageType.PUBLISH_TOPOLOGY 0 0 "" (topologyEndpoint generation) Link_default Request_default 0
    Capacity_default Congestion_default 0 0 false.
Definition executionOf (ok : bool) (planId worker boot : Z) : Message :=
  makeMessage MessageType.EXECUTION_RESULT 0 worker boot Plan_default planId ok 0 "".
Definition executeOf (planId bytes worker boot : Z) : Message :=
  makeMessage MessageType.EXECUTE 0 worker boot Plan_default planId false bytes "".
Definition planResultOf (ok : bool) (plan : CommunicationPlan) : Message :=
  makeMessage MessageType.PLAN_RESULT 0 0 0 plan 0 ok 0 "".

Definition decodeFields (type : MessageType) : P string Message :=
  match type with
  | MessageType.HELLO => v ← field "HELLO trunc" rd_u64; mret (helloOf v)
  | MessageType.REGISTER =>
      worker ← field "REG worker" rd_u64; boot ← field "REG boot" rd_u64; name ← field "REG name" rd_str;
      mret (registerWorker worker boot name)
  | MessageType.PUBLISH_ENDPOINT =>
      worker ← field "EP worker" rd_u64; boot ← field "EP boot" rd_u64; e ← field "EP endpoint" decEndpoint;
      mret (publishEndpointCall worker boot e)
  | MessageType.PUBLISH_LINK =>
      worker ← field "LK worker" rd_u64; boot ← field "LK boot" rd_u64; l ← field "LK link" decLink;
      mret (publishLinkCall worker boot l)
  | MessageType.PUBLISH_CAPACITY =>
      link ← field "CAP link" rd_u64; generation ← field "CAP gen" rd_u64; usable ← field "CAP usable" rd_u64;
      headroom ← field "CAP head" rd_u64; prov ← enumField "CAP prov" "CAP prov enum";
      mret (publishCapacity link (mkCapacity generation usable headroom prov))
  | MessageType.PUBLISH_CONGESTION =>
      link ← field "COG link" rd_u64; generation ← field "COG gen" rd_u64; load ← field "COG load" rd_dbl;
      penalty ← field "COG pen" rd_dbl; hard ← field "COG hard" rd_boo; prov ← enumField "COG prov" "COG prov enum";
      mret (publishCongestion link (mkCongestion generation load penalty hard prov))
  | MessageType.SUBMIT_REQUEST => r ← field "SUBMIT request" decRequest; mret (submitRequest r)
  | MessageType.PLAN_RESULT =>
      ok ← field "PR ok" rd_boo; _ ← enumField (A:=Feasibility) "PR feas" "PR feas enum";
      plan ← (if ok then decPlan else mret Plan_default);
      mret (planResultOf ok plan)
  | MessageType.REVALIDATE | MessageType.COMMIT_REQUEST | MessageType.EXECUTION_HANDOFF | MessageType.QUERY_PLAN =>
      v ← field "ID" rd_u64; mret (plainMessage type v 0 false)
  | MessageType.CANCEL | MessageType.SUPERSEDE =>
      r ← field "ID" rd_u64; v ← field "ID2" rd_u64; mret (plainMessage type v r false)
  | MessageType.COMMIT_RESULT => ok ← field "RES ok" rd_boo; v ← field "RES id" rd_u64; mret (resultMessage ok v)
  | MessageType.EXECUTION_RESULT =>
      ok ← field "ER ok" rd_boo; v ← field "ER id" rd_u64; worker ← field "ER worker" rd_u64; boot ← field "ER boot" rd_u64;
      mret (executionOf ok v worker boot)
  | MessageType.EXECUTE =>
      v ← field "EX id" rd_u64; bytes ← field "EX bytes" rd_u64; worker ← field "EX worker" rd_u64; boot ← field "EX boot" rd_u64;
      mret (executeOf v bytes worker boot)
  | MessageType.PUBLISH_TOPOLOGY => v ← field "TOPO gen" rd_u64; mret (topologyOf v)
  | MessageType.SAVE | MessageType.SHUTDOWN => mret (plainMessage type 0 0 false)
  | MessageType.ERROR => e ← field "ERR" rd_str; mret (errorMessage e)
  end.

Definition decodeMessage (type : MessageType) (payload : list Z) : string + Message :=
  match decodeFields type payload with
  | inl e => inl e
  | inr (m, _) => inr m
  end.

(** ** Messages round trip *)

(** Fields that fit the wire. *)
Definition endpoint_sendable (e : Endpoint) : Prop :=
  Forall is_u64 [e.(Endpoint.id); e.(Endpoint.generation); e.(Endpoint.node); e.(Endpoint.device);
    e.(Endpoint.capability).(Capability.generation); e.(Endpoint.worker); e.(Endpoint.workerBoot); e.(Endpoint.source);
    e.(Endpoint.sourceBoot)] /\
  length e.(Endpoint.capability).(Capability.computeArch) = 8%nat /\
  e.(Endpoint.location).(TopologyLocation.numaDistance) < 2 ^ 31 /\
  Forall small_str [e.(Endpoint.address); e.(Endpoint.protocol); e.(Endpoint.version); e.(Endpoint.name);
    e.(Endpoint.failureDomain); e.(Endpoint.location).(TopologyLocation.pcieRoot)].

Definition congestion_sendable (c : Congestion) : Prop :=
  is_u64 c.(Congestion.generation) /\ double_wf c.(Congestion.load) = true /\ double_wf c.(Congestion.penalty) = true.
Definition capacity_sendable (c : Capacity) : Prop :=
  Forall is_u64 [c.(Capacity.generation); c.(Capacity.usable); c.(Capacity.headroom)].

Definition link_sendable (l : Link) : Prop :=
  Forall is_u64 [l.(Link.id); l.(Link.generation); l.(Link.source); l.(Link.destination); l.(Link.capacity);
    l.(Link.effectiveBandwidth); l.(Link.latency); l.(Link.topologyGeneration); l.(Link.capabilityGeneration);
    l.(Link.workerBoot)] /\
  congestion_sendable l.(Link.congestion) /\ capacity_sendable l.(Link.capacityEvidence) /\ small_str l.(Link.failureDomain).

Definition request_sendable (r : CommunicationRequest) : Prop :=
  Forall is_u64 [r.(Request.id); r.(Request.generation); r.(Request.source); r.(Request.payloadSize); r.(Request.policyGeneration)] /\
  Forall is_u32 [r.(Request.maxHops); r.(Request.maxStages); r.(Request.externalPriority); r.(Request.collectiveCount)] /\
  (small_list r.(Request.destinations) /\ Forall is_u64 r.(Request.destinations)) /\
  (small_list r.(Request.participants) /\ Forall is_u64 r.(Request.participants)) /\
  Forall small_str [r.(Request.provenance); r.(Request.requiredFailureDomain); r.(Request.preferredLocality)].

Definition stage_sendable (s : Stage) : Prop :=
  Forall is_u64 [s.(Stage.link); s.(Stage.source); s.(Stage.destination); s.(Stage.payload)].
Definition path_sendable (p : Path) : Prop :=
  Forall is_u64 [p.(Path.id); p.(Path.totalPayload)] /\ small_list p.(Path.stages) /\ Forall stage_sendable p.(Path.stages).
Definition plan_sendable (p : CommunicationPlan) : Prop :=
  Forall is_u64 [p.(Plan.id); p.(Plan.generation); p.(Plan.requestId); p.(Plan.requestGeneration); p.(Plan.primaryPath)] /\
  (small_list p.(Plan.candidatePaths) /\ Forall path_sendable p.(Plan.candidatePaths)) /\
  (small_list p.(Plan.orderedStages) /\ Forall stage_sendable p.(Plan.orderedStages)) /\
  (small_list p.(Plan.endpointGenerations) /\ Forall (fun pr => is_u64 pr.1 /\ is_u64 pr.2) p.(Plan.endpointGenerations)).

(** What arrives of a struct: the fields the wire carries, the defaults elsewhere. *)
Definition carriedEndpoint (e : Endpoint) : Endpoint :=
  wireEndpoint e.(Endpoint.id) e.(Endpoint.generation) e.(Endpoint.kind) e.(Endpoint.node) e.(Endpoint.device)
    e.(Endpoint.capability).(Capability.generation) e.(Endpoint.capability).(Capability.transports)
    e.(Endpoint.capability).(Capability.provenance) e.(Endpoint.capability).(Capability.computeArch)
    e.(Endpoint.address) e.(Endpoint.protocol) e.(Endpoint.version) e.(Endpoint.name)
    e.(Endpoint.health).(Health.healthy) e.(Endpoint.reachable) e.(Endpoint.ready) e.(Endpoint.worker) e.(Endpoint.workerBoot)
    e.(Endpoint.source) e.(Endpoint.sourceBoot) e.(Endpoint.failureDomain) e.(Endpoint.provenance)
    e.(Endpoint.location).(TopologyLocation.pcieRoot) (Z.max 0 e.(Endpoint.location).(TopologyLocation.numaDistance)).

Definition carriedLink (l : Link) : Link :=
  wireLink l.(Link.id) l.(Link.generation) l.(Link.source) l.(Link.destination) l.(Link.kind) l.(Link.transport)
    l.(Link.directed) l.(Link.capacity) l.(Link.effectiveBandwidth) l.(Link.latency) l.(Link.health).(Health.healthy)
    l.(Link.congestion) l.(Link.capacityEvidence) l.(Link.topologyGeneration) l.(Link.capabilityGeneration)
    l.(Link.failureDomain) l.(Link.workerBoot) l.(Link.provenance).

Definition carriedRequest (r : CommunicationRequest) : CommunicationRequest :=
  wireRequest r.(Request.id) r.(Request.generation) r.(Request.shape) r.(Request.source) r.(Request.payloadSize)
    r.(Request.direction) r.(Request.allowStaging) r.(Request.allowHostStaging) r.(Request.allowStorageStaging)
    r.(Request.allowRelay) r.(Request.allowMulticast) r.(Request.maxHops) r.(Request.maxStages) r.(Request.externalPriority)
    r.(Request.policyGeneration) r.(Request.allowed) r.(Request.forbidden) r.(Request.collectiveShape)
    r.(Request.collectiveCount) r.(Request.destinations) r.(Request.participants) r.(Request.provenance)
    r.(Request.requiredFailureDomain) r.(Request.preferredLocality).

Definition carriedStage (s : Stage) : Stage := wireStage s.(Stage.link) s.(Stage.source) s.(Stage.destination) s.(Stage.payload).
Definition carriedPath (p : Path) : Path := wirePath p.(Path.id) p.(Path.totalPayload) (carriedStage <$> p.(Path.stages)).
Definition carriedPlan (p : CommunicationPlan) : CommunicationPlan :=
  wirePlan p.(Plan.id) p.(Plan.generation) p.(Plan.requestId) p.(Plan.requestGeneration) p.(Plan.primaryPath)
    (carriedPath <$> p.(Plan.candidatePaths)) (carriedStage <$> p.(Plan.orderedStages)) p.(Plan.endpointGenerations).

(** What arrives of a message. *)
Definition carriedMessage (m : Message) : Message :=
  match m.(Message.type) with
  | MessageType.HELLO => helloOf m.(Message.epoch)
  | MessageType.REGISTER => registerWorker m.(Message.worker) m.(Message.boot) m.(Message.name)
  | MessageType.PUBLISH_ENDPOINT => publishEndpointCall m.(Message.worker) m.(Message.boot) (carriedEndpoint m.(Message.endpoint))
  | MessageType.PUBLISH_LINK => publishLinkCall m.(Message.worker) m.(Message.boot) (carriedLink m.(Message.link))
  | MessageType.PUBLISH_CAPACITY => publishCapacity m.(Message.linkId) m.(Message.capacity)
  | MessageType.PUBLISH_CONGESTION => publishCongestion m.(Message.linkId) m.(Message.congestion)
  | MessageType.SUBMIT_REQUEST => submitRequest (carriedRequest m.(Message.request))
  | MessageType.PLAN_RESULT => planResultOf m.(Message.ok) (if m.(Message.ok) then carriedPlan m.(Message.plan) else Plan_default)
  | MessageType.REVALIDATE | MessageType.COMMIT_REQUEST | MessageType.EXECUTION_HANDOFF | MessageType.QUERY_PLAN =>
      plainMessage m.(Message.type) m.(Message.planId) 0 false
  | MessageType.CANCEL | MessageType.SUPERSEDE => plainMessage m.(Message.type) m.(Message.planId) m.(Message.requestId) false
  | MessageType.COMMIT_RESULT => resultMessage m.(Message.ok) m.(Message.planId)
  | MessageType.EXECUTION_RESULT => executionOf m.(Message.ok) m.(Message.planId) m.(Message.worker) m.(Message.boot)
  | MessageType.EXECUTE => executeOf m.(Message.planId) m.(Message.bytes) m.(Message.worker) m.(Message.boot)
  | MessageType.PUBLISH_TOPOLOGY => topologyOf m.(Message.endpoint).(Endpoint.capability).(Capability.generation)
  | MessageType.SAVE | MessageType.SHUTDOWN => plainMessage m.(Message.type) 0 0 false
  | MessageType.ERROR => errorMessage m.(Message.error)
  end.

Lemma list_to_set_elements (s : gset Transport) : list_to_set (enum_set_elements s) = s.
Proof. apply set_eq. intros x. by rewrite elem_of_list_to_set, elem_of_enum_set_elements. Qed.

Lemma decTransports_reads s : reads decTransports (encTransports s) s.
Proof.
  unfold decTransports, encTransports. rewrite <- (list_to_set_elements s) at 2. apply reads_end.
  pose proof (rd_counted_reads () () 64 (rd_enum (A:=Transport)) enum id (enum_set_elements s)) as H. rewrite list_fmap_id in H.
  apply H; [|unfold kMaxCount; lia|apply Forall_true; intros; apply rd_enum_reads].
  unfold enum_set_elements. etrans; [apply inj_le, length_filter|]. vm_compute. discriminate.
Qed.

Lemma field_reads {A} w (m : Rd A) bs a : reads m bs a -> reads (field w m) bs a.
Proof. apply reads_need. Qed.
Lemma enumField_reads `{CppEnum A} w i (a : A) : reads (enumField w i) (enum a) a.
Proof. intros rest. unfold enumField, enum, need, mbind, P_bind, rd_u8, u8. cbn. by rewrite enum_of_u8_u8. Qed.
#[local] Hint Resolve decTransports_reads field_reads enumField_reads : codec.

Ltac split_sendable := repeat match goal with
  | H : Forall _ (_ :: _) |- _ => apply Forall_cons in H as [? H]
  | H : _ /\ _ |- _ => destruct H
  end.

Lemma to_int_small v : 0 <= v < 2 ^ 31 -> to_int v = v.
Proof. intros H. unfold to_int. rewrite Z.mod_small; lia. Qed.

Lemma rd_arch_reads a : length a = 8%nat -> reads (rd_bytes 8) (take 8 a) a.
Proof. intros H. rewrite take_ge by lia. rewrite <- H. apply rd_bytes_reads. Qed.
#[local] Hint Resolve rd_arch_reads : codec.

Lemma decEndpoint_reads e : endpoint_sendable e -> reads decEndpoint (encEndpoint e) (carriedEndpoint e).
Proof.
  intros H. unfold endpoint_sendable in H. split_sendable. unfold decEndpoint, encEndpoint, carriedEndpoint.
  set (numa := TopologyLocation.numaDistance _) in *.
  assert (Hn : (if 0 <? numa then numa else 0) = Z.max 0 numa) by (destruct (Z.ltb_spec 0 numa); lia). rewrite Hn.
  assert (is_u64 (Z.max 0 numa)) by (unfold is_u64, u64_max; lia). rewrite <- (to_int_small (Z.max 0 numa)) at 2 by lia.
  reads_fields.
Qed.

Lemma congestion_eta c :
  mkCongestion c.(Congestion.generation) c.(Congestion.load) c.(Congestion.penalty) c.(Congestion.hardLimitExceeded)
    c.(Congestion.provenance) = c.
Proof. by destruct c. Qed.
Lemma capacity_eta c :
  mkCapacity c.(Capacity.generation) c.(Capacity.usable) c.(Capacity.headroom) c.(Capacity.provenance) = c.
Proof. by destruct c. Qed.

Lemma decLink_reads l : link_sendable l -> reads decLink (encLink l) (carriedLink l).
Proof.
  intros H. unfold link_sendable, congestion_sendable, capacity_sendable in H. split_sendable.
  unfold decLink, encLink, carriedLink. reads_fields. apply reads_record. by rewrite congestion_eta, capacity_eta.
Qed.

Lemma is_u32_u64 v : is_u32 v -> is_u64 v.
Proof. unfold is_u32, u32_max, is_u64, u64_max. lia. Qed.

Lemma rd_ids_reads l : small_list l -> Forall is_u64 l -> reads (rd_counted () () kMaxCount rd_u64) (counted u64 l) l.
Proof. intros Hs Hl. apply rd_counted_same; [done|]. eapply Forall_impl; [exact Hl|apply rd_u64_reads]. Qed.
#[local] Hint Resolve rd_ids_reads is_u32_u64 : codec.

Lemma decRequest_reads r : request_sendable r -> reads decRequest (encRequest r) (carriedRequest r).
Proof.
  intros H. unfold request_sendable in H. split_sendable. unfold decRequest, encRequest, carriedRequest.
  assert ((r.(Request.collectiveCount) <=? u32_max) = true) by (apply Z.leb_le; unfold is_u32 in *; lia).
  rewrite <- (wrap32_small r.(Request.externalPriority)) at 2 by done. reads_fields.
Qed.

Lemma decStage_reads w s : stage_sendable s -> reads (decStage w) (encStage s) (carriedStage s).
Proof. intros H. unfold stage_sendable in H. split_sendable. unfold decStage, encStage, carriedStage. reads_fields. Qed.

Lemma decStages_reads a b w l : small_list l -> Forall stage_sendable l ->
  reads (rd_counted a b kMaxCount (decStage w)) (counted encStage l) (carriedStage <$> l).
Proof. intros Hs Hl. apply rd_counted_reads; [done|lia|]. eapply Forall_impl; [exact Hl|apply decStage_reads]. Qed.
#[local] Hint Resolve decStages_reads : codec.

Lemma decPath_reads p : path_sendable p -> reads decPath (encPath p) (carriedPath p).
Proof. intros H. unfold path_sendable in H. split_sendable. unfold decPath, encPath, carriedPath. reads_fields. Qed.

Lemma decGeneration_reads pr : is_u64 pr.1 /\ is_u64 pr.2 -> reads decGeneration (encGeneration pr) pr.
Proof. intros [H1 H2]. unfold decGeneration, encGeneration. reads_fields. Qed.

Lemma decPaths_reads a b l : small_list l -> Forall path_sendable l ->
  reads (rd_counted a b kMaxCount decPath) (counted encPath l) (carriedPath <$> l).
Proof. intros Hs Hl. apply rd_counted_reads; [done|lia|]. eapply Forall_impl; [exact Hl|apply decPath_reads]. Qed.
Lemma decGenerations_reads a b l : small_list l -> Forall (fun pr => is_u64 pr.1 /\ is_u64 pr.2) l ->
  reads (rd_counted a b kMaxCount decGeneration) (counted encGeneration l) l.
Proof. intros Hs Hl. apply rd_counted_same; [done|]. eapply Forall_impl; [exact Hl|apply decGeneration_reads]. Qed.
#[local] Hint Resolve decPaths_reads decGenerations_reads : codec.

Lemma decPlan_reads p : plan_sendable p -> reads decPlan (encPlan p) (carriedPlan p).
Proof. intros H. unfold plan_sendable in H. split_sendable. unfold decPlan, encPlan, carriedPlan. reads_fields. Qed.
#[local] Hint Resolve decEndpoint_reads decLink_reads decRequest_reads decPlan_reads : codec.

(** Only the parts that a type carries have to fit. *)
Definition sendable (m : Message) : Prop :=
  match m.(Message.type) with
  | MessageType.HELLO => is_u64 m.(Message.epoch)
  | MessageType.REGISTER => is_u64 m.(Message.worker) /\ is_u64 m.(Message.boot) /\ small_str m.(Message.name)
  | MessageType.PUBLISH_ENDPOINT => is_u64 m.(Message.worker) /\ is_u64 m.(Message.boot) /\ endpoint_sendable m.(Message.endpoint)
  | MessageType.PUBLISH_LINK => is_u64 m.(Message.worker) /\ is_u64 m.(Message.boot) /\ link_sendable m.(Message.link)
  | MessageType.PUBLISH_CAPACITY => is_u64 m.(Message.linkId) /\ capacity_sendable m.(Message.capacity)
  | MessageType.PUBLISH_CONGESTION => is_u64 m.(Message.linkId) /\ congestion_sendable m.(Message.congestion)
  | MessageType.SUBMIT_REQUEST => request_sendable m.(Message.request)
  | MessageType.PLAN_RESULT => m.(Message.ok) = true -> plan_sendable m.(Message.plan)
  | MessageType.REVALIDATE | MessageType.COMMIT_REQUEST | MessageType.EXECUTION_HANDOFF | MessageType.QUERY_PLAN
  | MessageType.COMMIT_RESULT => is_u64 m.(Message.planId)
  | MessageType.CANCEL | MessageType.SUPERSEDE => is_u64 m.(Message.requestId) /\ is_u64 m.(Message.planId)
  | MessageType.EXECUTION_RESULT => is_u64 m.(Message.planId) /\ is_u64 m.(Message.worker) /\ is_u64 m.(Message.boot)
  | MessageType.EXECUTE =>
      is_u64 m.(Message.planId) /\ is_u64 m.(Message.bytes) /\ is_u64 m.(Message.worker) /\ is_u64 m.(Message.boot)
  | MessageType.PUBLISH_TOPOLOGY => is_u64 m.(Message.endpoint).(Endpoint.capability).(Capability.generation)
  | MessageType.SAVE | MessageType.SHUTDOWN => True
  | MessageType.ERROR => small_str m.(Message.error)
  end.

#[export] Instance endpoint_sendable_dec e : Decision (endpoint_sendable e).
Proof. unfold endpoint_sendable, is_u64, small_str. apply _. Defined.
#[export] Instance link_sendable_dec l : Decision (link_sendable l).
Proof. unfold link_sendable, congestion_sendable, capacity_sendable, is_u64, small_str. apply _. Defined.
#[export] Instance request_sendable_dec r : Decision (request_sendable r).
Proof. unfold request_sendable, is_u64, is_u32, small_str, small_list. apply _. Defined.
#[export] Instance plan_sendable_dec p : Decision (plan_sendable p).
Proof. unfold plan_sendable, path_sendable, stage_sendable, is_u64, small_list. apply _. Defined.
#[export] Instance sendable_dec m : Decision (sendable m).
Proof. unfold sendable, capacity_sendable, congestion_sendable, is_u64, small_str. destruct (Message.type m); apply _. Defined.

Lemma decodeFields_reads m : sendable m -> reads (decodeFields m.(Message.type)) (encodeMessage m) (carriedMessage m).
Proof.
  unfold sendable, encodeMessage, carriedMessage, capacity_sendable, congestion_sendable.
  destruct (Message.type m) eqn:Et; cbn [decodeFields]; intros H; split_sendable; try solve [reads_fields].
  - reads_fields. apply reads_record. by rewrite capacity_eta.
  - reads_fields. apply reads_record. by rewrite congestion_eta.
  - destruct (Message.ok m); [specialize (H eq_refl)|]; reads_fields.
Qed.

(** C11: messages round trip: what is decoded from the encoding of a message whose fields
    fit their widths and limits is that message with exactly the fields its type carries,
    every other field being default-constructed. *)
Theorem message_roundtrip m :
  sendable m -> decodeMessage m.(Message.type) (encodeMessage m) = inr (carriedMessage m).
Proof.
  intros H. unfold decodeMessage. pose proof (decodeFields_reads m H []) as Hr. rewrite app_nil_r in Hr. by rewrite Hr.
Qed.

Lemma message_roundtrip_witness :
  sendable (submitRequest basicRequest) /\
  decodeMessage MessageType.SUBMIT_REQUEST (encodeMessage (submitRequest basicRequest)) = inr (submitRequest basicRequest).
Proof.
  assert (H : sendable (submitRequest basicRequest)) by (apply (bool_decide_unpack _); vm_compute; exact I).
  split; [exact H|]. exact (message_roundtrip (submitRequest basicRequest) H).
Defined.

(** ** What is decoded is well typed *)

Lemma yields_transports : yields decTransports (fun _ => True).
Proof. eapply yields_bind; [apply yields_counted, yields_enum|]. intros. by apply yields_ret. Qed.
Lemma yields_field {A} w (m : Rd A) Q : yields m Q -> yields (field w m) Q.
Proof. apply yields_need. Qed.
Lemma yields_enumField `{CppEnum A} w i : yields (enumField (A:=A) w i) (fun _ => True).
Proof. eapply yields_bind; [apply yields_need, yields_u8|]. intros k _. destruct (enum_of_u8 k); [by apply yields_ret|apply yields_fail]. Qed.
#[local] Hint Resolve yields_transports yields_field yields_enumField : codec.

Ltac typed_fields :=
  repeat match goal with
    | H : _ /\ _ |- _ => destruct H
    | |- _ /\ _ => split
    | |- Forall _ (_ :: _) => apply Forall_cons_2
    | |- Forall _ [] => apply Forall_nil_2
    end; try assumption.

Lemma length_setArch a : length a = 8%nat -> length (setArch a (replicate 8 0)) = 8%nat.
Proof. intros H. unfold setArch. rewrite H. cbn [Nat.min]. rewrite !length_app, length_take, length_drop, length_replicate, H. reflexivity. Qed.

Lemma yields_arch : yields (rd_bytes 8) (fun bs => length bs = 8%nat).
Proof. eapply yields_impl; [apply yields_bytes|]. by intros ? []. Qed.
#[local] Hint Resolve yields_arch : codec.

Lemma to_int_lt v : to_int v < 2 ^ 31.
Proof. unfold to_int. pose proof (Z.mod_pos_bound (v + 2 ^ 31) (2 ^ 32)). lia. Qed.

Lemma yields_decEndpoint : yields decEndpoint endpoint_sendable.
Proof.
  unfold decEndpoint. yields_fields. unfold endpoint_sendable. cbn -[setArch to_int].
  typed_fields; [by apply length_setArch|apply to_int_lt].
Qed.

Lemma yields_decLink : yields decLink link_sendable.
Proof. unfold decLink. yields_fields. unfold link_sendable, congestion_sendable, capacity_sendable. cbn. typed_fields. Qed.

Lemma wrap32_range v : is_u32 (wrap32 v).
Proof. unfold is_u32, u32_max, wrap32. pose proof (Z.mod_pos_bound v (2 ^ 32)). lia. Qed.

Lemma yields_decRequest : yields decRequest request_sendable.
Proof.
  unfold decRequest. yields_fields. unfold request_sendable. cbn -[wrap32].
  match goal with H : (_ <=? u32_max) = true |- _ => apply Z.leb_le in H end.
  typed_fields; [apply wrap32_range|]. unfold is_u32, is_u64 in *. lia.
Qed.

Lemma yields_decStage w : yields (decStage w) stage_sendable.
Proof. unfold decStage. yields_fields. unfold stage_sendable. cbn. typed_fields. Qed.
#[local] Hint Resolve yields_decStage : codec.
Lemma yields_decPath : yields decPath path_sendable.
Proof. unfold decPath. yields_fields. unfold path_sendable. cbn. typed_fields. Qed.
Lemma yields_decGeneration : yields decGeneration (fun pr => is_u64 pr.1 /\ is_u64 pr.2).
Proof. unfold decGeneration. yields_fields. cbn. typed_fields. Qed.
#[local] Hint Resolve yields_decPath yields_decGeneration : codec.
Lemma yields_decPlan : yields decPlan plan_sendable.
Proof. unfold decPlan. yields_fields. unfold plan_sendable. cbn. typed_fields. Qed.
#[local] Hint Resolve yields_decEndpoint yields_decLink yields_decRequest yields_decPlan : codec.

Lemma yields_decodeFields type : yields (decodeFields type) (fun m => m.(Message.type) = type /\ sendable m).
Proof.
  destruct type; cbn [decodeFields]; yields_fields; try solve [split; [done|]; unfold sendable, capacity_sendable, congestion_sendable; cbn; typed_fields; done].
  destruct a.
  - eapply yields_bind; [apply yields_decPlan|]. intros plan Hp. apply yields_ret. split; [done|intros _; exact Hp].
  - eapply yields_bind; [exact (yields_ret Plan_default (fun _ => True) I)|]. intros plan _. apply yields_ret. split; [done|intros Hok; discriminate Hok].
Qed.

(** C19: what is decoded is well typed: whatever bytes a peer sends, a message that is
    decoded from them has the type it was decoded as, all the integers it carries within
    their widths, its strings and lists within the limits, its doubles in canonical form
    and, every enumerator being one of its type, can be encoded again. *)
Theorem decodeMessage_typed type payload m :
  Forall is_u8 payload -> decodeMessage type payload = inr m -> m.(Message.type) = type /\ sendable m.
Proof.
  intros Hp H. unfold decodeMessage in H. destruct (decodeFields type payload) as [|[m' rest]] eqn:E; [done|].
  injection H as ->. by apply (yields_decodeFields type payload m rest).
Qed.

Lemma decodeMessage_typed_witness :
  decodeMessage MessageType.CANCEL (replicate 16 255) = inr (cancel u64_max u64_max) /\ sendable (cancel u64_max u64_max).
Proof.
  assert (H : decodeMessage MessageType.CANCEL (replicate 16 255) = inr (cancel u64_max u64_max)) by (vm_compute; reflexivity).
  split; [exact H|]. refine (proj2 (decodeMessage_typed _ _ _ _ H)). apply Forall_replicate. split; discriminate.
Defined.
