(* ===== verification/Remote.v ===== *)
(** * Planning at a distance

    What the wire drops of a request ([encRequest] of src/protocol.cpp) is never read by
    the planner: a coordinator plans a request that was sent to it as the client itself
    would have planned it. *)

From S2P Require Import Prelude Core Enums Double Model Scenario Feasibility Ranking Cost Enumerate Assembly.
From S2P Require Import PointToPoint Multicast Collective Planner Determinism Message Client Codec Protocol.

Section carried.
Context (r : CommunicationRequest) (snap : EvidenceSnapshot) (weights : gmap CostFactor double) (bounds : Bounds).

Lemma reportOf_carried : reportOf (carriedRequest r) snap weights bounds = reportOf r snap weights bounds.
Proof. reflexivity. Qed.

Lemma buildStages_loop_carried lmap hops cs : buildStages_loop lmap (carriedRequest r) hops cs = buildStages_loop lmap r hops cs.
Proof.
  revert cs; induction hops as [|h hops IH]; intros cs; [done|]. cbn [buildStages_loop].
  apply bind_ext. intros link cs1. apply bind_ext. intros id cs2. by apply bind_ext2; [apply IH|].
Qed.

Lemma makePath_carried id c cost cs : makePath id c snap (carriedRequest r) cost cs = makePath id c snap r cost cs.
Proof. unfold makePath. apply bind_ext2; [apply buildStages_loop_carried|done]. Qed.

Lemma planPointToPoint_carried cs :
  planPointToPoint (carriedRequest r) snap weights bounds cs = planPointToPoint r snap weights bounds cs.
Proof.
  unfold planPointToPoint. rewrite reportOf_carried. apply bind_ext. intros dst cs1. apply bind_ext. intros order cs2.
  change (Request.source (carriedRequest r)) with (Request.source r).
  destruct (bool_decide (order = [])); [done|]. apply bind_ext. intros id cs3. apply bind_ext. intros gen cs4.
  apply bind_ext2; [|done]. apply mapM_ext_run. intros k cs5. do 4 (apply bind_ext; intros ? ?).
  apply bind_ext2; [apply makePath_carried|done].
Qed.

Lemma multicast_step_carried st d cs :
  multicast_step (carriedRequest r) snap weights bounds st d cs = multicast_step r snap weights bounds st d cs.
Proof.
  unfold multicast_step. rewrite reportOf_carried. change (Request.source (carriedRequest r)) with (Request.source r).
  destruct (rankFeasible _) as [|o order]; [done|]. do 4 (apply bind_ext; intros ? ?).
  apply bind_ext2; [apply makePath_carried|done].
Qed.

Lemma buildMulticastPlan_carried cs :
  buildMulticastPlan (carriedRequest r) snap weights bounds cs = buildMulticastPlan r snap weights bounds cs.
Proof.
  unfold buildMulticastPlan. apply bind_ext. intros id cs1. apply bind_ext. intros gen cs2.
  apply bind_ext2; [apply foldM_ext_run, multicast_step_carried|done].
Qed.

Lemma collective_loop_carried root members st cs :
  collective_loop (carriedRequest r) snap weights bounds root members st cs = collective_loop r snap weights bounds root members st cs.
Proof.
  revert st cs; induction members as [|m members IH]; intros st cs; [done|]. cbn [collective_loop].
  destruct (m =? root); [apply IH|]. rewrite reportOf_carried.
  destruct (rankFeasible _) as [|o order]; [done|]. do 3 (apply bind_ext; intros ? ?).
  apply bind_ext2; [apply makePath_carried|]. intros p cs'. apply IH.
Qed.

Lemma buildCollectivePlan_carried cs :
  buildCollectivePlan (carriedRequest r) snap weights bounds cs = buildCollectivePlan r snap weights bounds cs.
Proof.
  unfold buildCollectivePlan. apply bind_ext. intros id cs1. apply bind_ext. intros gen cs2.
  change (collectiveCountCheck (carriedRequest r) bounds) with (collectiveCountCheck r bounds).
  destruct (collectiveCountCheck r bounds); [done|].
  change (Request.participants (carriedRequest r)) with (Request.participants r).
  destruct (first_return _ _); [done|]. apply bind_ext. intros root cs3. apply bind_ext2; [apply collective_loop_carried|done].
Qed.

Lemma planCommunication_carried cs :
  planCommunication (carriedRequest r) snap weights bounds cs = planCommunication r snap weights bounds cs.
Proof.
  unfold planCommunication. change (requireValid (carriedRequest r)) with (requireValid r). apply bind_ext. intros _ cs'.
  change (effectiveShape (carriedRequest r)) with (effectiveShape r).
  destruct (effectiveShape r); by first [apply planPointToPoint_carried|apply buildMulticastPlan_carried|apply buildCollectivePlan_carried].
Qed.
End carried.
