(* ===== verification/Store.v ===== *)
(** * The plan store

    Models the data of persistence/persistence.hpp and, of src/persistence.cpp, the
    semantic validation of a store that was read back ([validateStore]) and the
    conservative recovery of its plans. *)

From S2P Require Import Prelude Core Enums Double Model Scenario Feasibility Ranking Cost Enumerate Assembly.
From S2P Require Import PointToPoint Multicast Collective Planner Revalidation.

Module PersistErrorCode.
Inductive PersistErrorCode :=
  | OK
  | BAD_MAGIC
  | UNSUPPORTED_VERSION
  | TRUNCATION
  | CORRUPTION
  | CHECKSUM_MISMATCH
  | MALFORMED_LENGTH
  | OVERSIZED_COUNT
  | INVALID_ENUM
  | DUPLICATE_ID
  | DUPLICATE_CURRENT_AUTHORITY
  | GENERATION_REGRESSION
  | IMPOSSIBLE_LIFECYCLE
  | PATH_MISSING_ENDPOINT
  | INVALID_STAGE_ORDER
  | CYCLE_FORBIDDEN
  | PAYLOAD_MISMATCH
  | SELECTED_PLAN_NOT_IN_CANDIDATE_SET
  | COMMITTED_PLAN_NO_EVIDENCE
  | NAN_INF_COST
  | CP_OVERFLOW
  | TRAILING_GARBAGE.
End PersistErrorCode.
Abbreviation PersistErrorCode := PersistErrorCode.PersistErrorCode.

#[export] Instance PersistErrorCode_eq_dec : EqDecision PersistErrorCode.
Proof. solve_decision. Defined.

Definition PersistErrorCode_toString (c : PersistErrorCode) : string :=
  match c with
  | PersistErrorCode.OK => "OK"
  | PersistErrorCode.BAD_MAGIC => "BAD_MAGIC"
  | PersistErrorCode.UNSUPPORTED_VERSION => "UNSUPPORTED_VERSION"
  | PersistErrorCode.TRUNCATION => "TRUNCATION"
  | PersistErrorCode.CORRUPTION => "CORRUPTION"
  | PersistErrorCode.CHECKSUM_MISMATCH => "CHECKSUM_MISMATCH"
  | PersistErrorCode.MALFORMED_LENGTH => "MALFORMED_LENGTH"
  | PersistErrorCode.OVERSIZED_COUNT => "OVERSIZED_COUNT"
  | PersistErrorCode.INVALID_ENUM => "INVALID_ENUM"
  | PersistErrorCode.DUPLICATE_ID => "DUPLICATE_ID"
  | PersistErrorCode.DUPLICATE_CURRENT_AUTHORITY => "DUPLICATE_CURRENT_AUTHORITY"
  | PersistErrorCode.GENERATION_REGRESSION => "GENERATION_REGRESSION"
  | PersistErrorCode.IMPOSSIBLE_LIFECYCLE => "IMPOSSIBLE_LIFECYCLE"
  | PersistErrorCode.PATH_MISSING_ENDPOINT => "PATH_MISSING_ENDPOINT"
  | PersistErrorCode.INVALID_STAGE_ORDER => "INVALID_STAGE_ORDER"
  | PersistErrorCode.CYCLE_FORBIDDEN => "CYCLE_FORBIDDEN"
  | PersistErrorCode.PAYLOAD_MISMATCH => "PAYLOAD_MISMATCH"
  | PersistErrorCode.SELECTED_PLAN_NOT_IN_CANDIDATE_SET => "SELECTED_PLAN_NOT_IN_CANDIDATE_SET"
  | PersistErrorCode.COMMITTED_PLAN_NO_EVIDENCE => "COMMITTED_PLAN_NO_EVIDENCE"
  | PersistErrorCode.NAN_INF_COST => "NAN_INF_COST"
  | PersistErrorCode.CP_OVERFLOW => "CP_OVERFLOW"
  | PersistErrorCode.TRAILING_GARBAGE => "TRAILING_GARBAGE"
  end.

Module PersistError.
Record PersistError := { code : PersistErrorCode; detail : string }.
End PersistError.
Abbreviation PersistError := PersistError.PersistError.

Definition PersistError_ok : PersistError := {| PersistError.code := PersistErrorCode.OK; PersistError.detail := "" |}.

Module SupersessionRecord.
Record SupersessionRecord := { superseded : CommunicationPlanId; newer : CommunicationPlanId }.
End SupersessionRecord.
Abbreviation SupersessionRecord := SupersessionRecord.SupersessionRecord.

Module StoreRecord.
Record StoreRecord := { plan : CommunicationPlan; state : PlanState }.
End StoreRecord.
Abbreviation StoreRecord := StoreRecord.StoreRecord.

Module StoreState.
Record StoreState := {
  epoch : CoordinatorEpoch;
  plans : list StoreRecord;
  supersessions : list SupersessionRecord;
  requests : list CommunicationRequest;
}.
End StoreState.
Abbreviation StoreState := StoreState.StoreState.

(** ** [validateStore] *)

Definition perr (c : PersistErrorCode) (d : string) : option PersistError :=
  Some {| PersistError.code := c; PersistError.detail := d |}.

Notation "'fail_if' b 'as_' c 'saying' d ;; k" := (if b then perr c d else k)
  (at level 10, b at level 99, c at level 0, d at level 0, k at level 200).

(** A loop whose body inserts a key into a set and returns where it was there. *)
Fixpoint duplicate {A} (key : A -> Z) (seen : gset Z) (l : list A) : bool :=
  match l with
  | [] => false
  | x :: l' => if bool_decide (key x ∈ seen) then true else duplicate key ({[key x]} ∪ seen) l'
  end.

(** The chain of stages: contiguous from [prev], no stage to itself, no endpoint
    twice; [inl] an error, [inr] the final [prev]. *)
Fixpoint validate_chain (prev : EndpointId) (seen : gset Z) (stages : list Stage) : option PersistError + EndpointId :=
  match stages with
  | [] => inr prev
  | s :: stages' =>
      if negb (s.(Stage.source) =? prev) then inl (perr PersistErrorCode.INVALID_STAGE_ORDER "stage order broken")
      else if s.(Stage.source) =? s.(Stage.destination) then inl (perr PersistErrorCode.CYCLE_FORBIDDEN "self stage cycle")
      else if bool_decide (s.(Stage.destination) ∈ seen) then inl (perr PersistErrorCode.CYCLE_FORBIDDEN "endpoint revisit cycle")
      else validate_chain s.(Stage.destination) ({[s.(Stage.destination)]} ∪ seen) stages'
  end.

Definition validate_path (p : CommunicationPlan) (path : Path) : option PersistError :=
  fail_if existsb (fun s => negb (s.(Stage.payload) =? path.(Path.totalPayload))) path.(Path.stages)
    as_ PersistErrorCode.PAYLOAD_MISMATCH saying "stage payload mismatch";;
  match validate_chain path.(Path.source) ∅ path.(Path.stages) with
  | inl e => e
  | inr prev =>
      fail_if negb (bool_decide (path.(Path.stages) = [])) && negb (prev =? path.(Path.destination))
        as_ PersistErrorCode.PATH_MISSING_ENDPOINT saying "path chain does not reach destination";;
      let bound : gset Z := list_to_set p.(Plan.endpointGenerations).*1 in
      fail_if existsb (fun s => negb (bool_decide (s.(Stage.source) ∈ bound)) || negb (bool_decide (s.(Stage.destination) ∈ bound)))
                path.(Path.stages)
        as_ PersistErrorCode.PATH_MISSING_ENDPOINT saying "stage endpoint not bound";;
      None
  end.

(** The loop over the candidate paths; the identity check of each path comes before
    its other checks. *)
Fixpoint validate_paths (p : CommunicationPlan) (pathIds : gset Z) (paths : list Path) : option PersistError :=
  match paths with
  | [] => None
  | path :: paths' =>
      fail_if bool_decide (path.(Path.id) ∈ pathIds) as_ PersistErrorCode.DUPLICATE_ID saying "duplicate path id";;
      match validate_path p path with
      | Some e => Some e
      | None => validate_paths p ({[path.(Path.id)]} ∪ pathIds) paths'
      end
  end.

(** States in which the plan's claims must be recorded. *)
Definition needs_evidence (s : PlanState) : bool :=
  match s with
  | PlanState.COMMITTED | PlanState.AWAITING_EXECUTION | PlanState.ACTIVE => true
  | _ => false
  end.

(** One record, after its identity was checked. *)
Definition validate_record (rec : StoreRecord) : option PersistError :=
  let p := rec.(StoreRecord.plan) in
  fail_if negb (totalValid p.(Plan.cost)) as_ PersistErrorCode.NAN_INF_COST saying "cost total NaN/Inf";;
  fail_if existsb (fun cc => negb (isValid cc)) p.(Plan.cost).(CostSummary.components)
    as_ PersistErrorCode.NAN_INF_COST saying "cost component NaN/Inf";;
  match validate_paths p ∅ p.(Plan.candidatePaths) with
  | Some e => Some e
  | None =>
      let foundPrimary := existsb (fun path => path.(Path.id) =? p.(Plan.primaryPath)) p.(Plan.candidatePaths) in
      fail_if negb foundPrimary && negb (isNull p.(Plan.primaryPath))
        as_ PersistErrorCode.SELECTED_PLAN_NOT_IN_CANDIDATE_SET saying "primary path not in candidate path set";;
      fail_if needs_evidence rec.(StoreRecord.state) && bool_decide (p.(Plan.requiredResourceClaims) = [])
        as_ PersistErrorCode.COMMITTED_PLAN_NO_EVIDENCE saying "committed plan lacks resource commitment evidence";;
      None
  end.

Fixpoint validate_records (planIds : gset Z) (recs : list StoreRecord) : option PersistError :=
  match recs with
  | [] => None
  | rec :: recs' =>
      let id := rec.(StoreRecord.plan).(Plan.id) in
      fail_if bool_decide (id ∈ planIds) as_ PersistErrorCode.DUPLICATE_ID saying "duplicate plan id";;
      match validate_record rec with
      | Some e => Some e
      | None => validate_records ({[id]} ∪ planIds) recs'
      end
  end.

Definition validateStore (state : StoreState) : PersistError :=
  match validate_records ∅ state.(StoreState.plans) with
  | Some e => e
  | None =>
      if duplicate Request.id ∅ state.(StoreState.requests)
      then {| PersistError.code := PersistErrorCode.DUPLICATE_ID; PersistError.detail := "duplicate request id" |}
      else PersistError_ok
  end.

(** ** [conservativeRecovery] *)

Definition recoveredState (s : PlanState) : PlanState :=
  match s with
  | PlanState.PLAN_READY | PlanState.AWAITING_RESOURCE_COMMIT | PlanState.COMMITTED
  | PlanState.AWAITING_EXECUTION | PlanState.ACTIVE => PlanState.REVALIDATION_REQUIRED
  | s => s
  end.

Definition conservativeRecovery (state : StoreState) : StoreState := {|
  StoreState.epoch := state.(StoreState.epoch);
  StoreState.plans := (fun rec => {| StoreRecord.plan := rec.(StoreRecord.plan);
                                     StoreRecord.state := recoveredState rec.(StoreRecord.state) |}) <$> state.(StoreState.plans);
  StoreState.supersessions := state.(StoreState.supersessions);
  StoreState.requests := state.(StoreState.requests) |}.

(** ** Specification: a consistent store *)

Fixpoint contiguous (prev : EndpointId) (stages : list Stage) : Prop :=
  match stages with
  | [] => True
  | s :: stages' => s.(Stage.source) = prev /\ contiguous s.(Stage.destination) stages'
  end.

Fixpoint chain_end (prev : EndpointId) (stages : list Stage) : EndpointId :=
  match stages with
  | [] => prev
  | s :: stages' => chain_end s.(Stage.destination) stages'
  end.

(** A path whose stages carry its payload, in one piece and without revisiting an
    endpoint, from its source to its destination, over endpoints its plan is bound to. *)
Record consistent_path (p : CommunicationPlan) (path : Path) : Prop := {
  cs_payload : Forall (fun s => s.(Stage.payload) = path.(Path.totalPayload)) path.(Path.stages);
  cs_contiguous : contiguous path.(Path.source) path.(Path.stages);
  cs_self : Forall (fun s => s.(Stage.source) <> s.(Stage.destination)) path.(Path.stages);
  cs_simple : NoDup (Stage.destination <$> path.(Path.stages));
  cs_end : path.(Path.stages) <> [] -> chain_end path.(Path.source) path.(Path.stages) = path.(Path.destination);
  cs_bound : Forall (fun s => s.(Stage.source) ∈ p.(Plan.endpointGenerations).*1 /\
    s.(Stage.destination) ∈ p.(Plan.endpointGenerations).*1) path.(Path.stages);
}.

Record consistent_record (rec : StoreRecord) : Prop := {
  cr_total : totalValid rec.(StoreRecord.plan).(Plan.cost) = true;
  cr_components : Forall (fun c => isValid c = true) rec.(StoreRecord.plan).(Plan.cost).(CostSummary.components);
  cr_path_ids : NoDup (Path.id <$> rec.(StoreRecord.plan).(Plan.candidatePaths));
  cr_paths : Forall (consistent_path rec.(StoreRecord.plan)) rec.(StoreRecord.plan).(Plan.candidatePaths);
  cr_primary : rec.(StoreRecord.plan).(Plan.primaryPath) <> 0 ->
    rec.(StoreRecord.plan).(Plan.primaryPath) ∈ Path.id <$> rec.(StoreRecord.plan).(Plan.candidatePaths);
  cr_evidence : needs_evidence rec.(StoreRecord.state) = true -> rec.(StoreRecord.plan).(Plan.requiredResourceClaims) <> [];
}.

Record consistent_store (state : StoreState) : Prop := {
  co_plan_ids : NoDup ((fun rec => rec.(StoreRecord.plan).(Plan.id)) <$> state.(StoreState.plans));
  co_records : Forall consistent_record state.(StoreState.plans);
  co_request_ids : NoDup (Request.id <$> state.(StoreState.requests));
}.

(** ** Each check decides its part *)

Lemma existsb_negb_false {A} (f : A -> bool) l : existsb (fun x => negb (f x)) l = false <-> Forall (fun x => f x = true) l.
Proof.
  rewrite <- not_true_iff_false, existsb_exists, Forall_forall. setoid_rewrite <- list_elem_of_In.
  split.
  - intros H x Hx. destruct (f x) eqn:E; [done|]. exfalso. apply H. exists x. by rewrite E.
  - intros H (x & Hx & E). by rewrite (H x Hx) in E.
Qed.

Lemma fresh_keys {A} (key : A -> Z) (seen : gset Z) x l :
  ((forall y, y ∈ key <$> l -> y ∉ {[key x]} ∪ seen) /\ NoDup (key <$> l)) /\ key x ∉ seen <->
  (forall y, y ∈ key <$> x :: l -> y ∉ seen) /\ NoDup (key <$> x :: l).
Proof. csimpl. rewrite NoDup_cons. setoid_rewrite elem_of_cons. set_solver. Qed.

Lemma duplicate_false {A} (key : A -> Z) seen l :
  duplicate key seen l = false <-> (forall y, y ∈ key <$> l -> y ∉ seen) /\ NoDup (key <$> l).
Proof.
  revert seen; induction l as [|x l IH]; intros seen.
  { split; [intros _; split; [set_solver|constructor]|done]. }
  cbn [duplicate]. rewrite <- (fresh_keys key), <- IH. case_bool_decide; naive_solver.
Qed.

Lemma validate_chain_inr prev seen stages e :
  validate_chain prev seen stages = inr e <->
  contiguous prev stages /\ Forall (fun s => s.(Stage.source) <> s.(Stage.destination)) stages /\
  ((forall y, y ∈ Stage.destination <$> stages -> y ∉ seen) /\ NoDup (Stage.destination <$> stages)) /\
  e = chain_end prev stages.
Proof.
  revert prev seen; induction stages as [|s stages IH]; intros prev seen.
  { simpl. split; [intros [= <-]; split_and!; [done|done|set_solver|constructor|done]|]. by intros (_ & _ & _ & ->). }
  cbn [validate_chain contiguous chain_end]. rewrite <- (fresh_keys Stage.destination), Forall_cons.
  destruct (Z.eqb_spec (Stage.source s) prev); simpl; [|naive_solver].
  destruct (Z.eqb_spec (Stage.source s) (Stage.destination s)); [naive_solver|].
  case_bool_decide; [naive_solver|]. rewrite IH. naive_solver.
Qed.

Lemma validate_chain_inl prev seen stages e : validate_chain prev seen stages = inl e -> e <> None.
Proof.
  revert prev seen; induction stages as [|s stages IH]; intros prev seen; simpl; [done|].
  repeat (case_match; [by intros [= <-]|]). by apply IH.
Qed.

(** The codes with which validation refuses a store. *)
Definition validation_codes : list PersistErrorCode := [
  PersistErrorCode.DUPLICATE_ID; PersistErrorCode.NAN_INF_COST; PersistErrorCode.PAYLOAD_MISMATCH;
  PersistErrorCode.INVALID_STAGE_ORDER; PersistErrorCode.CYCLE_FORBIDDEN; PersistErrorCode.PATH_MISSING_ENDPOINT;
  PersistErrorCode.SELECTED_PLAN_NOT_IN_CANDIDATE_SET; PersistErrorCode.COMMITTED_PLAN_NO_EVIDENCE].

(** Every error of a check carries one of them. *)
Definition errs (o : option PersistError) : Prop := forall e, o = Some e -> e.(PersistError.code) ∈ validation_codes.

Ltac code_in := apply (bool_decide_unpack _); exact I.

Lemma validation_code_error c : c ∈ validation_codes -> c <> PersistErrorCode.OK.
Proof. intros H ->. by apply (bool_decide_pack _) in H. Qed.

Lemma errs_if (b : bool) c d k : c ∈ validation_codes -> errs k -> errs (if b then perr c d else k).
Proof. destruct b; [|done]. by intros ? _ ? [= <-]. Qed.
Lemma errs_None : errs None.
Proof. done. Qed.

Create HintDb errs.
#[export] Hint Resolve errs_if errs_None : errs.
#[export] Hint Extern 1 (_ ∈ validation_codes) => code_in : errs.

Lemma validate_chain_errs prev seen stages e : validate_chain prev seen stages = inl e -> errs e.
Proof.
  revert prev seen; induction stages as [|s stages IH]; intros prev seen; simpl; [done|].
  repeat (case_match; [intros [= <-]; intros ? [= <-]; code_in|]). by apply IH.
Qed.

Lemma validate_path_errs p path : errs (validate_path p path).
Proof.
  unfold validate_path. apply errs_if; [code_in|].
  destruct (validate_chain _ _ _) eqn:E; [by eapply validate_chain_errs|auto with errs].
Qed.

Lemma validate_paths_errs p seen paths : errs (validate_paths p seen paths).
Proof.
  revert seen; induction paths as [|path paths IH]; intros seen; simpl; [apply errs_None|].
  apply errs_if; [code_in|]. pose proof (validate_path_errs p path).
  destruct (validate_path p path); [done|apply IH].
Qed.

Lemma validate_record_errs rec : errs (validate_record rec).
Proof.
  unfold validate_record. do 2 (apply errs_if; [code_in|]).
  pose proof (validate_paths_errs rec.(StoreRecord.plan) ∅ rec.(StoreRecord.plan).(Plan.candidatePaths)).
  destruct (validate_paths _ _ _); [done|auto with errs].
Qed.

Lemma validate_records_errs seen recs : errs (validate_records seen recs).
Proof.
  revert seen; induction recs as [|rec recs IH]; intros seen; simpl; [apply errs_None|].
  apply errs_if; [code_in|]. pose proof (validate_record_errs rec).
  destruct (validate_record rec); [done|apply IH].
Qed.

Lemma validate_path_None p path : validate_path p path = None <-> consistent_path p path.
Proof.
  unfold validate_path, perr. rewrite guard_None.
  rewrite (existsb_negb_false (fun s => s.(Stage.payload) =? path.(Path.totalPayload))).
  rewrite (Forall_iff _ _ (fun s => s.(Stage.payload) = path.(Path.totalPayload)) (fun s => Z.eqb_eq _ _)).
  destruct (validate_chain _ _ _) as [e|prev] eqn:E.
  - pose proof (validate_chain_inl _ _ _ _ E). split; [naive_solver|]. intros [].
    assert (E' : validate_chain path.(Path.source) ∅ path.(Path.stages) = inr (chain_end path.(Path.source) path.(Path.stages)))
      by (apply validate_chain_inr; set_solver). congruence.
  - apply validate_chain_inr in E as (Hc & Hs & (_ & Hn) & ->). rewrite !guard_None, andb_false_iff, !negb_false_iff, bool_decide_eq_true, Z.eqb_eq.
    assert (Hb : existsb (fun s => negb (bool_decide (Stage.source s ∈ (list_to_set (Plan.endpointGenerations p).*1 : gset Z))) ||
        negb (bool_decide (Stage.destination s ∈ (list_to_set (Plan.endpointGenerations p).*1 : gset Z)))) path.(Path.stages) = false <->
      Forall (fun s => s.(Stage.source) ∈ p.(Plan.endpointGenerations).*1 /\ s.(Stage.destination) ∈ p.(Plan.endpointGenerations).*1) path.(Path.stages)).
    { rewrite <- not_true_iff_false, existsb_exists, Forall_forall. setoid_rewrite <- list_elem_of_In.
      setoid_rewrite orb_true_iff. setoid_rewrite negb_true_iff. setoid_rewrite bool_decide_eq_false.
      setoid_rewrite elem_of_list_to_set. split; [|naive_solver].
      intros H s Hin. split; apply dec_stable; naive_solver. }
    rewrite Hb. split; [|intros []; split_and!; try done; destruct (Path.stages path); naive_solver].
    intros (Hp & He & Hbd & _). split; try done. intros Hne. by destruct He.
Qed.

Lemma validate_paths_None p seen paths :
  validate_paths p seen paths = None <->
  ((forall y, y ∈ Path.id <$> paths -> y ∉ seen) /\ NoDup (Path.id <$> paths)) /\ Forall (consistent_path p) paths.
Proof.
  revert seen; induction paths as [|path paths IH]; intros seen.
  { split; [intros _; split_and!; [set_solver|constructor|done]|done]. }
  cbn [validate_paths]. unfold perr. rewrite guard_None, bool_decide_eq_false, <- (fresh_keys Path.id), Forall_cons, <- validate_path_None.
  destruct (validate_path p path); [naive_solver|]. rewrite IH. naive_solver.
Qed.

Lemma validate_record_None rec : validate_record rec = None <-> consistent_record rec.
Proof.
  unfold validate_record, perr. rewrite !guard_None, negb_false_iff, existsb_negb_false.
  assert (Hf : existsb (fun path => path.(Path.id) =? rec.(StoreRecord.plan).(Plan.primaryPath)) rec.(StoreRecord.plan).(Plan.candidatePaths) = true <->
    rec.(StoreRecord.plan).(Plan.primaryPath) ∈ Path.id <$> rec.(StoreRecord.plan).(Plan.candidatePaths)).
  { rewrite existsb_exists, list_elem_of_fmap. setoid_rewrite <- list_elem_of_In. setoid_rewrite Z.eqb_eq. naive_solver. }
  destruct (validate_paths _ _ _) as [e|] eqn:E.
  - split; [naive_solver|]. intros []. rewrite (proj2 (validate_paths_None _ ∅ _)) in E; [done|]. split_and!; set_solver.
  - apply validate_paths_None in E as [[_ Hn] Hp]. rewrite !guard_None, !andb_false_iff, !negb_false_iff, Hf, bool_decide_eq_false.
    unfold isNull. rewrite Z.eqb_eq. split.
    + intros (Ht & Hc & Hpr & He & _). split; try done; [by destruct Hpr|]. intros Hs. destruct He; congruence.
    + intros []. split_and!; try done; [destruct (Z.eq_dec rec.(StoreRecord.plan).(Plan.primaryPath) 0); auto|].
      destruct (needs_evidence _); auto.
Qed.

Lemma validate_records_None seen recs :
  validate_records seen recs = None <->
  ((forall y, y ∈ (fun rec => rec.(StoreRecord.plan).(Plan.id)) <$> recs -> y ∉ seen) /\
   NoDup ((fun rec => rec.(StoreRecord.plan).(Plan.id)) <$> recs)) /\ Forall consistent_record recs.
Proof.
  revert seen; induction recs as [|rec recs IH]; intros seen.
  { split; [intros _; split_and!; [set_solver|constructor|done]|done]. }
  cbn [validate_records]. unfold perr. rewrite guard_None, bool_decide_eq_false, <- (fresh_keys (fun rec => rec.(StoreRecord.plan).(Plan.id))), Forall_cons, <- validate_record_None.
  destruct (validate_record rec); [naive_solver|]. rewrite IH. naive_solver.
Qed.

(** ** Properties *)

(** Validation decides consistency. *)
Lemma validateStore_consistent state :
  (validateStore state).(PersistError.code) = PersistErrorCode.OK <-> consistent_store state.
Proof.
  unfold validateStore. destruct (validate_records ∅ _) as [e|] eqn:E.
  - split.
    + intros Hc. exfalso. by apply (validation_code_error _ (validate_records_errs _ _ _ E)).
    + intros []. rewrite (proj2 (validate_records_None ∅ _)) in E; [done|]. split_and!; set_solver.
  - apply validate_records_None in E as [[_ Hn] Hr]. destruct (duplicate _ _ _) eqn:Ed.
    + split; [done|]. intros []. rewrite (proj2 (duplicate_false _ ∅ _)) in Ed; [done|]. set_solver.
    + apply duplicate_false in Ed as [_ ?]. split; [by split|done].
Qed.

(** A store is accepted on reading exactly when it is consistent: distinct plan and
    request identities, finite costs, distinct paths whose stages carry the payload in
    one piece over bound endpoints without a cycle, a selected path among the
    candidates, and recorded claims for every committed plan. *)
Theorem validateStore_correct state :
  (validateStore state).(PersistError.code) = PersistErrorCode.OK <-> consistent_store state.
Proof. exact (validateStore_consistent state). Qed.

(** ** Plans made by the planner are consistent *)

Lemma walk_stages links prev hops stages dst :
  walk links prev hops dst -> hop_of_stage <$> stages = hops ->
  contiguous prev stages /\ chain_end prev stages = dst.
Proof.
  intros Hw. revert stages; induction Hw as [x|l hs y Hl Hw IH]; intros [|st stages] E; [done|done|done|].
  csimpl in E. injection E as E1 E2 E3 E4. destruct (IH stages E4) as [Hc He]. simpl. by rewrite E2, E3.
Qed.

Lemma simple_no_self links src dst hops :
  simple_path links src dst hops -> Forall (fun h => h.(Hop.from) <> h.(Hop.to)) hops.
Proof.
  intros [_ Hw Hnd]. revert Hnd. induction Hw as [|l hs y Hl Hw IH]; [constructor|]. csimpl. intros Hnd.
  apply NoDup_cons in Hnd as [Hni Hnd]. constructor; [set_solver|]. by apply IH.
Qed.

Lemma assembled_path_consistent request snap bounds plan p :
  bound_plan snap plan -> assembled_plan request snap bounds plan -> p ∈ plan.(Plan.candidatePaths) -> consistent_path plan p.
Proof.
  intros Hb Ha Hp. pose proof (ap_paths _ _ _ _ Ha) as Hall. rewrite Forall_forall in Hall.
  destruct (Hall p Hp) as (c & cost & Hpf & Hf & Hs). pose proof (stages_for_hops _ _ _ _ (pf_stages _ _ _ _ _ _ Hpf)) as Hh.
  destruct (walk_stages _ _ _ _ _ (sp_walk _ _ _ _ Hs) Hh) as [Hc He].
  split.
  - rewrite (pf_payload _ _ _ _ _ _ Hpf). pose proof (pf_stages _ _ _ _ _ _ Hpf) as Hst. clear -Hst.
    revert Hst; generalize (CandidatePath.hops c), (Path.stages p). intros hops. induction hops as [|h hops IH];
      intros [|st stages]; simpl; try done. intros [(l & id & _ & ->) Hst]. constructor; [done|auto].
  - by rewrite (pf_source _ _ _ _ _ _ Hpf).
  - pose proof (simple_no_self _ _ _ _ Hs) as Hn. rewrite <- Hh, Forall_fmap in Hn. exact Hn.
  - assert (Hnd : NoDup (Hop.to <$> c.(CandidatePath.hops))) by (destruct Hs as [_ _ Hs]; by apply NoDup_cons in Hs as [_ ?]).
    rewrite <- Hh, <- list_fmap_compose in Hnd. exact Hnd.
  - intros _. by rewrite (pf_source _ _ _ _ _ _ Hpf), (pf_destination _ _ _ _ _ _ Hpf).
  - apply Forall_forall. intros st Hst.
    assert (Hin : hop_of_stage st ∈ plan_hops plan).
    { unfold plan_hops. apply list_elem_of_fmap_2, elem_of_concat. exists p.(Path.stages). split; [done|].
      by apply list_elem_of_fmap_2. }
    destruct (feasible_hop_live _ _ _ (assembled_plan_hops _ _ _ _ _ Ha Hin)) as (l & s & d & _ & _ & Hs' & _ & Hd & _).
    split; apply list_elem_of_fmap.
    + exists (s.(Endpoint.id), s.(Endpoint.generation)). split; [by apply index_by_Some in Hs' as [_ ->]|].
      apply (bd_endpoints _ _ Hb). exists (hop_of_stage st), s. auto.
    + exists (d.(Endpoint.id), d.(Endpoint.generation)). split; [by apply index_by_Some in Hd as [_ ->]|].
      apply (bd_endpoints _ _ Hb). exists (hop_of_stage st), d. auto.
Qed.

(** What validation asks of a plan and does not depend on its state or on its total. *)
Record storable (p : CommunicationPlan) : Prop := {
  st_components : totalValid p.(Plan.cost) = true -> Forall (fun c => isValid c = true) p.(Plan.cost).(CostSummary.components);
  st_path_ids : NoDup (Path.id <$> p.(Plan.candidatePaths));
  st_paths : Forall (consistent_path p) p.(Plan.candidatePaths);
  st_primary : p.(Plan.primaryPath) <> 0 -> p.(Plan.primaryPath) ∈ Path.id <$> p.(Plan.candidatePaths);
}.

Lemma storable_consistent rec : storable rec.(StoreRecord.plan) ->
  consistent_record rec <->
  totalValid rec.(StoreRecord.plan).(Plan.cost) = true /\
  (needs_evidence rec.(StoreRecord.state) = true -> rec.(StoreRecord.plan).(Plan.requiredResourceClaims) <> []).
Proof. intros []. split; [by intros []|]. intros [? ?]. by split; auto. Qed.

Lemma consistent_storable rec : consistent_record rec -> storable rec.(StoreRecord.plan).
Proof. by intros []. Qed.

Lemma assembled_storable request snap bounds plan :
  bound_plan snap plan -> assembled_plan request snap bounds plan -> storable plan.
Proof.
  intros Hb Ha. split.
  - intros Ht. destruct (ap_cost _ _ _ _ Ha) as [comps E]. rewrite E in *. by apply CostSummary_valid_components.
  - rewrite (ap_ids _ _ _ _ Ha). apply NoDup_seqZ.
  - apply Forall_forall. intros p Hp. by eapply assembled_path_consistent.
  - rewrite (ap_primary _ _ _ _ Ha). case_bool_decide as E; [done|]. intros _. rewrite (ap_ids _ _ _ _ Ha).
    apply elem_of_seqZ. destruct (Plan.candidatePaths plan); [done|]. simpl. lia.
Qed.

(** What the planner makes, the store accepts: a store holding one successful plan
    of finite cost, not yet committed, passes the validation that is applied when it is
    read back. *)
Theorem planned_plan_storable request snap weights bounds cs outcome cs' plan state epoch :
  counters_wf cs -> returns (planCommunication request snap weights bounds) cs outcome cs' ->
  outcome.(PlanOutcome.success) = true -> outcome.(PlanOutcome.plan) = Some plan ->
  totalValid plan.(Plan.cost) = true -> needs_evidence state = false ->
  validateStore {| StoreState.epoch := epoch;
    StoreState.plans := [{| StoreRecord.plan := plan; StoreRecord.state := state |}];
    StoreState.supersessions := []; StoreState.requests := [request] |} = PersistError_ok.
Proof.
  intros Hwf Hr Hs Hp Ht Hn. destruct (planned_is_assembled _ _ _ _ _ _ _ _ Hwf Hr Hs Hp) as [Hb Ha].
  unfold validateStore. cbn [StoreState.plans StoreState.requests].
  rewrite (proj2 (validate_records_None ∅ _)); [done|]. split_and!; [set_solver|apply NoDup_singleton|].
  apply Forall_singleton, storable_consistent; [by eapply assembled_storable|]. simpl. by rewrite Hn.
Qed.

Lemma planned_plan_storable_witness :
  exists plan, plan_of (planCommunication basicRequest basicSnapshot ∅ basicBounds initialCounters) = Some plan /\
    validateStore {| StoreState.epoch := 1;
      StoreState.plans := [{| StoreRecord.plan := plan; StoreRecord.state := PlanState.PLAN_READY |}];
      StoreState.supersessions := []; StoreState.requests := [basicRequest] |} = PersistError_ok.
Proof.
  destruct (planCommunication basicRequest basicSnapshot ∅ basicBounds initialCounters) as [[o|e] cs] eqn:E;
    [|vm_compute in E; discriminate E].
  assert (Ho : o.(PlanOutcome.success) = true /\ exists plan, o.(PlanOutcome.plan) = Some plan /\ totalValid plan.(Plan.cost) = true).
  { vm_compute in E. injection E as E1 E2. rewrite <- E1. split; [reflexivity|eexists; split; [reflexivity|vm_compute; reflexivity]]. }
  destruct Ho as (Hs & plan & Hp & Ht). exists plan. split; [exact Hp|].
  apply (planned_plan_storable basicRequest basicSnapshot ∅ basicBounds initialCounters o cs plan PlanState.PLAN_READY 1
    initialCounters_wf E Hs Hp Ht eq_refl).
Defined.

(** A committed, awaiting or active plan without claims fails validation, and with it the
    store that holds it. *)
Lemma unclaimed_record_unreadable recs1 recs2 epoch supersessions requests plan state :
  plan.(Plan.requiredResourceClaims) = [] -> needs_evidence state = true ->
  (validateStore {| StoreState.epoch := epoch;
    StoreState.plans := recs1 ++ {| StoreRecord.plan := plan; StoreRecord.state := state |} :: recs2;
    StoreState.supersessions := supersessions; StoreState.requests := requests |}).(PersistError.code) <> PersistErrorCode.OK.
Proof.
  intros Hc Hn H. unfold validateStore in H. cbn [StoreState.plans] in H.
  destruct (validate_records ∅ _) as [e|] eqn:E; [by apply (validation_code_error _ (validate_records_errs _ _ _ E))|].
  apply validate_records_None in E as [_ Hr]. apply Forall_app in Hr as [_ Hr]. apply Forall_cons in Hr as [Hr _].
  exact (cr_evidence _ Hr Hn Hc).
Qed.
