(* ===== verification/Persistence.v ===== *)
(** * The store format

    Models [serializeStore] and [parseStore] of src/persistence.cpp: the byte format of
    the coordinator's history, a checksummed frame around the plans, supersessions and
    requests.  Each failing read of the source returns its own code and text. *)

From S2P Require Import Prelude Core Enums Double Rounding Model Scenario Feasibility Ranking Cost Enumerate Assembly.
From S2P Require Import PointToPoint Multicast Collective Planner Message Codec Store.

Definition kMagic : Z := 1129335890.        (* 0x43504C52 *)
Definition kFormatVersion : Z := 1.

(** ** Writing *)

Definition writeComponent (comp : CostComponent) : list Z := concat [
  enum comp.(CostComponent.factor); dbl comp.(CostComponent.weight); dbl comp.(CostComponent.value);
  enum comp.(CostComponent.provenance)].

Definition writeCost (c : CostSummary) : list Z := concat [
  counted writeComponent c.(CostSummary.components); dbl c.(CostSummary.total)].

Definition writeStage (s : Stage) : list Z := concat [
  u64 s.(Stage.id); u64 s.(Stage.generation); u64 s.(Stage.source); u64 s.(Stage.destination); u64 s.(Stage.link);
  enum s.(Stage.transport); u64 s.(Stage.payload); u64 s.(Stage.expectedBandwidth); u64 s.(Stage.expectedLatency);
  u64 s.(Stage.stagingResource); boo s.(Stage.requiresAuthority); enum s.(Stage.provenance); str s.(Stage.description)].

Definition writePath (p : Path) : list Z := concat [
  u64 p.(Path.id); u64 p.(Path.generation); u64 p.(Path.source); u64 p.(Path.destination); u64 p.(Path.totalPayload);
  enum p.(Path.provenance); counted writeStage p.(Path.stages); writeCost p.(Path.cost); str p.(Path.failureDomain);
  str p.(Path.reason)].

Definition writePair (pr : Z * Z) : list Z := concat [u64 pr.1; u64 pr.2].

(** The body of the loop over the plans. *)
Definition writeRecord (rec : StoreRecord) : list Z :=
  let plan := rec.(StoreRecord.plan) in concat [
  u64 plan.(Plan.id); u64 plan.(Plan.generation); u64 plan.(Plan.requestId); u64 plan.(Plan.requestGeneration);
  enum plan.(Plan.shape); u64 plan.(Plan.primaryPath); enum plan.(Plan.feasibility); enum rec.(StoreRecord.state);
  counted writePath plan.(Plan.candidatePaths); counted u64 plan.(Plan.fallbackPaths);
  counted writeStage plan.(Plan.orderedStages);
  u64 plan.(Plan.topologyGeneration); u64 plan.(Plan.capacityGeneration); u64 plan.(Plan.reservationGeneration);
  u64 plan.(Plan.congestionGeneration); u64 plan.(Plan.capabilityGeneration); u64 plan.(Plan.healthGeneration);
  u64 plan.(Plan.placementGeneration); u64 plan.(Plan.authorityGeneration);
  counted writePair plan.(Plan.endpointGenerations); counted writePair plan.(Plan.linkGenerations);
  counted u64 plan.(Plan.requiredStagingResources); counted u64 plan.(Plan.requiredResourceClaims);
  writeCost plan.(Plan.cost); counted str plan.(Plan.explanations); str plan.(Plan.provenance);
  u64 plan.(Plan.revalidationGeneration); boo plan.(Plan.revalidateBeforeExecute); str plan.(Plan.handoffRequirement);
  counted u64 plan.(Plan.multicastDestinations); enum plan.(Plan.collectiveShape);
  counted u64 plan.(Plan.collectiveParticipants); str plan.(Plan.description); str plan.(Plan.createdProvenance)].

Definition writeSupersession (sr : SupersessionRecord) : list Z :=
  concat [u64 sr.(SupersessionRecord.superseded); u64 sr.(SupersessionRecord.newer)].

(** The body of the loop over the requests. *)
Definition writeRequest (req : CommunicationRequest) : list Z := concat [
  u64 req.(Request.id); u64 req.(Request.generation); enum req.(Request.shape); u64 req.(Request.source);
  u64 req.(Request.payloadSize); enum req.(Request.direction); enum req.(Request.collectiveShape);
  u64 req.(Request.collectiveCount); counted u64 req.(Request.destinations)].

Definition storeBody (state : StoreState) : list Z := concat [
  u64 state.(StoreState.epoch); counted writeRecord state.(StoreState.plans);
  counted writeSupersession state.(StoreState.supersessions); counted writeRequest state.(StoreState.requests)].

Definition serializeStore (state : StoreState) : list Z :=
  let b := storeBody state in
  concat [u32 kMagic; u32 kFormatVersion; u64 (fnv b); u64 (Z.of_nat (length b)); b].

(** ** Reading *)

Definition perror (c : PersistErrorCode) (d : string) : PersistError :=
  {| PersistError.code := c; PersistError.detail := d |}.
Definition truncated (d : string) : PersistError := perror PersistErrorCode.TRUNCATION d.
Definition corrupt (d : string) : PersistError := perror PersistErrorCode.CORRUPTION d.
Definition oversized (d : string) : PersistError := perror PersistErrorCode.OVERSIZED_COUNT d.

Definition readCost : Rd CostSummary :=
  components ← rd_counted () () kMaxCount
    (factor ← rd_enum; weight ← rd_dbl; value ← rd_dbl; provenance ← rd_enum;
     mret {| CostComponent.factor := factor; CostComponent.weight := weight; CostComponent.value := value;
             CostComponent.provenance := provenance |});
  total ← rd_dbl;
  mret {| CostSummary.components := components; CostSummary.total := total |}.

Definition readStage : Rd Stage :=
  id ← rd_u64; generation ← rd_u64; source ← rd_u64; destination ← rd_u64; link ← rd_u64; transport ← rd_enum;
  payload ← rd_u64; bandwidth ← rd_u64; latency ← rd_u64; resource ← rd_u64; authority ← rd_boo; provenance ← rd_enum;
  description ← rd_str;
  mret {| Stage.id := id; Stage.generation := generation; Stage.source := source; Stage.destination := destination;
          Stage.link := link; Stage.transport := transport; Stage.payload := payload;
          Stage.expectedBandwidth := bandwidth; Stage.expectedLatency := latency; Stage.stagingResource := resource;
          Stage.requiresAuthority := authority; Stage.provenance := provenance; Stage.description := description |}.

Definition readPath : Rd Path :=
  id ← rd_u64; generation ← rd_u64; source ← rd_u64; destination ← rd_u64; payload ← rd_u64; provenance ← rd_enum;
  stages ← rd_counted () () kMaxCount readStage; cost ← readCost; failureDomain ← rd_str; reason ← rd_str;
  mret {| Path.id := id; Path.generation := generation; Path.source := source; Path.destination := destination;
          Path.stages := stages; Path.totalPayload := payload; Path.cost := cost; Path.provenance := provenance;
          Path.failureDomain := failureDomain; Path.reason := reason |}.

(** [if (!pr.u64(&v)) return err(TRUNCATION, what);] and the same for an enumerator,
    whose range is checked under another code. *)
Definition get64 (what : string) : P PersistError Z := need (truncated what) rd_u64.
Definition getStr (what : string) : P PersistError string := need (corrupt what) rd_str.
Definition getEnum `{CppEnum A} (what invalid : string) : P PersistError A :=
  k ← need (truncated what) rd_u8;
  match enum_of_u8 k with Some a => mret a | None => fail (perror PersistErrorCode.INVALID_ENUM invalid) end.
Definition getList {A} (what over : string) (m : P PersistError A) : P PersistError (list A) :=
  rd_counted (truncated what) (oversized over) kMaxCount m.
Definition getPair (first second : string) : P PersistError (Z * Z) := a ← get64 first; b ← get64 second; mret (a, b).

(** A plan after its identity. *)
Definition parsePlan (id : CommunicationPlanId) : P PersistError StoreRecord :=
  generation ← get64 "plan gen"; requestId ← get64 "request id"; requestGeneration ← get64 "request gen";
  shape ← getEnum "shape" "invalid shape"; primary ← get64 "primary";
  feasibility ← getEnum "feasibility" "invalid feasibility"; state ← getEnum "state" "invalid state";
  paths ← getList "paths" "oversized path count" (need (corrupt "path") readPath);
  fallbacks ← getList "fallbacks" "oversized fallback count" (get64 "fallback");
  stages ← getList "stages" "oversized stage count" (need (corrupt "stage") readStage);
  topology ← get64 "topology"; capacity ← get64 "capacity"; reservation ← get64 "reservation";
  congestion ← get64 "congestion"; capability ← get64 "capability"; health ← get64 "health";
  placement ← get64 "placement"; authority ← get64 "authority";
  endpointGens ← getList "endpoint gens" "oversized endpoint gens" (getPair "eid" "egen");
  linkGens ← getList "link gens" "oversized link gens" (getPair "lid" "lgen");
  staging ← getList "staging resources" "oversized staging resources" (get64 "rid");
  claims ← getList "claims" "oversized claims" (get64 "claim");
  cost ← need (corrupt "cost") readCost;
  explanations ← getList "explanations" "oversized explanations" (getStr "explanation");
  provenance ← getStr "provenance"; revalGen ← get64 "reval gen"; reval ← need (truncated "reval bool") rd_boo;
  handoff ← getStr "handoff";
  multicast ← getList "multicast dests" "oversized multicast dests" (get64 "mdest");
  collective ← getEnum "collective shape" "invalid collective shape";
  participants ← getList "collective participants" "oversized participants" (get64 "cp");
  description ← getStr "description"; created ← getStr "created provenance";
  mret {| StoreRecord.plan := {|
      Plan.id := id; Plan.generation := generation; Plan.requestId := requestId; Plan.requestGeneration := requestGeneration;
      Plan.shape := shape; Plan.primaryPath := primary; Plan.fallbackPaths := fallbacks; Plan.candidatePaths := paths;
      Plan.orderedStages := stages; Plan.feasibility := feasibility; Plan.topologyGeneration := topology;
      Plan.capacityGeneration := capacity; Plan.reservationGeneration := reservation; Plan.congestionGeneration := congestion;
      Plan.capabilityGeneration := capability; Plan.healthGeneration := health; Plan.placementGeneration := placement;
      Plan.authorityGeneration := authority; Plan.endpointGenerations := endpointGens; Plan.linkGenerations := linkGens;
      Plan.requiredStagingResources := staging; Plan.requiredResourceClaims := claims; Plan.cost := cost;
      Plan.explanations := explanations; Plan.provenance := provenance; Plan.revalidationGeneration := revalGen;
      Plan.revalidateBeforeExecute := reval; Plan.handoffRequirement := handoff; Plan.createdProvenance := created;
      Plan.multicastDestinations := multicast; Plan.collectiveShape := collective;
      Plan.collectiveParticipants := participants; Plan.description := description |};
    StoreRecord.state := state |}.

(** The loop over the plans. *)
Fixpoint parsePlans (n : nat) (planIds : gset Z) : P PersistError (list StoreRecord) :=
  match n with
  | O => mret []
  | S n' =>
      id ← get64 "plan id";
      _ ← check (corrupt "null plan id") (negb (id =? 0));
      _ ← check (perror PersistErrorCode.DUPLICATE_ID "duplicate plan id") (negb (bool_decide (id ∈ planIds)));
      rec ← parsePlan id;
      recs ← parsePlans n' ({[id]} ∪ planIds);
      mret (rec :: recs)
  end.

Definition parseSupersession : P PersistError SupersessionRecord :=
  a ← get64 "sup old"; b ← get64 "sup new"; mret {| SupersessionRecord.superseded := a; SupersessionRecord.newer := b |}.

(** A request with the fields of the format; the others keep their defaults. *)
Definition restoredRequest (id generation : Z) (shape : RequestShape) (source payload : Z) (direction : Direction)
    (collective : CollectiveShape) (count : Z) (destinations : list Z) : CommunicationRequest := {|
  Request.id := id; Request.generation := generation; Request.shape := shape; Request.source := source;
  Request.destinations := destinations; Request.payloadSize := payload; Request.direction := direction;
  Request.latencySensitive := Request_default.(Request.latencySensitive);
  Request.throughputTarget := Request_default.(Request.throughputTarget);
  Request.requireOrdering := Request_default.(Request.requireOrdering);
  Request.requireReliability := Request_default.(Request.requireReliability);
  Request.allowRetry := Request_default.(Request.allowRetry); Request.allowStaging := Request_default.(Request.allowStaging);
  Request.allowHostStaging := Request_default.(Request.allowHostStaging);
  Request.allowStorageStaging := Request_default.(Request.allowStorageStaging);
  Request.allowRelay := Request_default.(Request.allowRelay); Request.allowMulticast := Request_default.(Request.allowMulticast);
  Request.allowed := Request_default.(Request.allowed); Request.forbidden := Request_default.(Request.forbidden);
  Request.requiredFailureDomain := Request_default.(Request.requiredFailureDomain);
  Request.preferredLocality := Request_default.(Request.preferredLocality); Request.maxHops := Request_default.(Request.maxHops);
  Request.maxStages := Request_default.(Request.maxStages); Request.maxMovementCost := Request_default.(Request.maxMovementCost);
  Request.reservationBinding := Request_default.(Request.reservationBinding);
  Request.externalPriority := Request_default.(Request.externalPriority);
  Request.policyGeneration := Request_default.(Request.policyGeneration); Request.collectiveShape := collective;
  Request.participants := Request_default.(Request.participants); Request.collectiveCount := count;
  Request.provenance := Request_default.(Request.provenance) |}.

Definition parseRequest : P PersistError CommunicationRequest :=
  id ← get64 "req id"; generation ← get64 "req gen"; shape ← getEnum "req shape" "invalid req shape";
  source ← get64 "req source"; payload ← get64 "req payload"; direction ← getEnum "req dir" "invalid direction";
  collective ← getEnum "req cshape" "invalid collective shape"; count ← get64 "req count";
  _ ← check (perror PersistErrorCode.CP_OVERFLOW "collective count overflow") (count <=? u32_max);
  destinations ← getList "req dests" "oversized req dests" (get64 "req dest");
  mret (restoredRequest id generation shape source payload direction collective count destinations).

Definition parseBody : P PersistError StoreState :=
  epoch ← get64 "missing epoch";
  nPlans ← need (truncated "missing plans") rd_u32;
  _ ← check (oversized "oversized plan count") (nPlans <=? kMaxCount);
  plans ← parsePlans (Z.to_nat nPlans) ∅;
  supersessions ← getList "supersessions" "oversized supersessions" parseSupersession;
  requests ← getList "requests" "oversized requests" parseRequest;
  mret {| StoreState.epoch := epoch; StoreState.plans := plans; StoreState.supersessions := supersessions;
          StoreState.requests := requests |}.

(** The frame around the payload: its checksum and length. *)
Definition parseHeader : P PersistError (Z * Z) :=
  magic ← need (truncated "missing magic") rd_u32;
  _ ← check (perror PersistErrorCode.BAD_MAGIC "bad magic") (magic =? kMagic);
  version ← need (truncated "missing version") rd_u32;
  _ ← check (perror PersistErrorCode.UNSUPPORTED_VERSION "unsupported version") (version =? kFormatVersion);
  sum ← get64 "missing checksum";
  len ← get64 "missing payload length";
  mret (sum, len).

Definition parseStore (data : list Z) : PersistError + StoreState :=
  match parseHeader data with
  | inl e => inl e
  | inr ((sum, len), rest) =>
      if Z.of_nat (length rest) <? len then inl (truncated "payload length exceeds buffer")
      else
        let payload := take (Z.to_nat len) rest in
        if negb (fnv payload =? sum) then inl (perror PersistErrorCode.CHECKSUM_MISMATCH "checksum mismatch")
        else match parseBody payload with
             | inl e => inl e
             | inr (state, remaining) =>
                 if negb (bool_decide (remaining = [])) then inl (perror PersistErrorCode.TRAILING_GARBAGE "trailing garbage in payload")
                 else if negb (bool_decide (drop (Z.to_nat len) rest = [])) then
                   inl (perror PersistErrorCode.TRAILING_GARBAGE "trailing bytes after frame")
                 else let e := validateStore state in
                      if bool_decide (e.(PersistError.code) = PersistErrorCode.OK) then inr state else inl e
             end
  end.

(** ** Round trip *)

(** Values that fit the format: machine-width integers, canonical doubles, and strings
    and lists below the format's limit. *)
Definition cost_fits (c : CostSummary) : Prop :=
  small_list c.(CostSummary.components) /\ double_wf c.(CostSummary.total) = true /\
  Forall (fun x => double_wf x.(CostComponent.weight) = true /\ double_wf x.(CostComponent.value) = true) c.(CostSummary.components).

Definition stage_fits (s : Stage) : Prop :=
  Forall is_u64 [s.(Stage.id); s.(Stage.generation); s.(Stage.source); s.(Stage.destination); s.(Stage.link); s.(Stage.payload);
    s.(Stage.expectedBandwidth); s.(Stage.expectedLatency); s.(Stage.stagingResource)] /\ small_str s.(Stage.description).

Definition path_fits (p : Path) : Prop :=
  Forall is_u64 [p.(Path.id); p.(Path.generation); p.(Path.source); p.(Path.destination); p.(Path.totalPayload)] /\
  small_list p.(Path.stages) /\ Forall stage_fits p.(Path.stages) /\ cost_fits p.(Path.cost) /\
  small_str p.(Path.failureDomain) /\ small_str p.(Path.reason).

(** A list of integers that fits. *)
Definition ids_fit (l : list Z) : Prop := small_list l /\ Forall is_u64 l.
Definition pairs_fit (l : list (Z * Z)) : Prop := small_list l /\ Forall (fun pr => is_u64 pr.1 /\ is_u64 pr.2) l.

Definition plan_fits (p : CommunicationPlan) : Prop :=
  Forall is_u64 [p.(Plan.id); p.(Plan.generation); p.(Plan.requestId); p.(Plan.requestGeneration); p.(Plan.primaryPath);
    p.(Plan.topologyGeneration); p.(Plan.capacityGeneration); p.(Plan.reservationGeneration); p.(Plan.congestionGeneration);
    p.(Plan.capabilityGeneration); p.(Plan.healthGeneration); p.(Plan.placementGeneration); p.(Plan.authorityGeneration);
    p.(Plan.revalidationGeneration)] /\
  small_list p.(Plan.candidatePaths) /\ Forall path_fits p.(Plan.candidatePaths) /\
  small_list p.(Plan.orderedStages) /\ Forall stage_fits p.(Plan.orderedStages) /\
  ids_fit p.(Plan.fallbackPaths) /\ ids_fit p.(Plan.requiredStagingResources) /\ ids_fit p.(Plan.requiredResourceClaims) /\
  ids_fit p.(Plan.multicastDestinations) /\ ids_fit p.(Plan.collectiveParticipants) /\
  pairs_fit p.(Plan.endpointGenerations) /\ pairs_fit p.(Plan.linkGenerations) /\ cost_fits p.(Plan.cost) /\
  small_list p.(Plan.explanations) /\ Forall small_str p.(Plan.explanations) /\
  Forall small_str [p.(Plan.provenance); p.(Plan.handoffRequirement); p.(Plan.description); p.(Plan.createdProvenance)].

Definition request_fits (r : CommunicationRequest) : Prop :=
  Forall is_u64 [r.(Request.id); r.(Request.generation); r.(Request.source); r.(Request.payloadSize)] /\
  is_u32 r.(Request.collectiveCount) /\ ids_fit r.(Request.destinations).

Record store_typed (s : StoreState) : Prop := {
  sf_epoch : is_u64 s.(StoreState.epoch);
  sf_plans : small_list s.(StoreState.plans) /\ Forall (fun rec => plan_fits rec.(StoreRecord.plan)) s.(StoreState.plans);
  sf_named : Forall (fun rec => rec.(StoreRecord.plan).(Plan.id) <> 0) s.(StoreState.plans);
  sf_distinct : NoDup ((fun rec => rec.(StoreRecord.plan).(Plan.id)) <$> s.(StoreState.plans));
  sf_supersessions : small_list s.(StoreState.supersessions) /\
    Forall (fun r => is_u64 r.(SupersessionRecord.superseded) /\ is_u64 r.(SupersessionRecord.newer)) s.(StoreState.supersessions);
  sf_requests : small_list s.(StoreState.requests) /\ Forall request_fits s.(StoreState.requests);
}.

Definition store_fits (s : StoreState) : Prop := store_typed s /\ is_u64 (Z.of_nat (length (storeBody s))).

#[export] Instance cost_fits_dec c : Decision (cost_fits c).
Proof. unfold cost_fits, small_list. apply _. Defined.
#[export] Instance stage_fits_dec s : Decision (stage_fits s).
Proof. unfold stage_fits, is_u64, small_str. apply _. Defined.
#[export] Instance path_fits_dec p : Decision (path_fits p).
Proof. unfold path_fits, is_u64, small_str, small_list. apply _. Defined.
#[export] Instance plan_fits_dec p : Decision (plan_fits p).
Proof. unfold plan_fits, ids_fit, pairs_fit, is_u64, small_str, small_list. apply _. Defined.
#[export] Instance request_fits_dec r : Decision (request_fits r).
Proof. unfold request_fits, ids_fit, is_u32, is_u64, small_list. apply _. Defined.
Lemma store_typed_iff s : store_typed s <->
  is_u64 s.(StoreState.epoch) /\
  (small_list s.(StoreState.plans) /\ Forall (fun rec => plan_fits rec.(StoreRecord.plan)) s.(StoreState.plans)) /\
  Forall (fun rec => rec.(StoreRecord.plan).(Plan.id) <> 0) s.(StoreState.plans) /\
  NoDup ((fun rec => rec.(StoreRecord.plan).(Plan.id)) <$> s.(StoreState.plans)) /\
  (small_list s.(StoreState.supersessions) /\
    Forall (fun r => is_u64 r.(SupersessionRecord.superseded) /\ is_u64 r.(SupersessionRecord.newer)) s.(StoreState.supersessions)) /\
  (small_list s.(StoreState.requests) /\ Forall request_fits s.(StoreState.requests)).
Proof. split; [intros [? ? ? ? ? ?]; auto 10|intros (? & ? & ? & ? & ? & ?); by split]. Qed.

#[export] Instance store_typed_dec s : Decision (store_typed s).
Proof.
  match type of (store_typed_iff s) with _ <-> ?Q => assert (D : Decision Q) by (unfold is_u64, small_list; apply _) end.
  destruct D as [H|H]; [left|right]; by rewrite store_typed_iff.
Defined.

(** What the format keeps of a request, and of a store. *)
Definition persistedRequest (r : CommunicationRequest) : CommunicationRequest :=
  restoredRequest r.(Request.id) r.(Request.generation) r.(Request.shape) r.(Request.source) r.(Request.payloadSize)
    r.(Request.direction) r.(Request.collectiveShape) r.(Request.collectiveCount) r.(Request.destinations).

Definition persistedStore (s : StoreState) : StoreState := {|
  StoreState.epoch := s.(StoreState.epoch); StoreState.plans := s.(StoreState.plans);
  StoreState.supersessions := s.(StoreState.supersessions); StoreState.requests := persistedRequest <$> s.(StoreState.requests) |}.

Lemma get64_reads w v : is_u64 v -> reads (get64 w) (u64 v) v.
Proof. intros. by apply reads_need, rd_u64_reads. Qed.

Lemma getStr_reads w s : small_str s -> reads (getStr w) (str s) s.
Proof. intros. by apply reads_need, rd_str_reads. Qed.

Lemma getEnum_reads `{CppEnum A} w i (a : A) : reads (getEnum w i) (enum a) a.
Proof. intros rest. unfold getEnum, enum, need, mbind, P_bind, rd_u8, u8. cbn. by rewrite enum_of_u8_u8. Qed.

Lemma getList_reads {A} w o (m : P PersistError A) (write : A -> list Z) l :
  small_list l -> Forall (fun x => reads m (write x) x) l -> reads (getList w o m) (counted write l) l.
Proof. apply rd_counted_same. Qed.

Lemma getIds_reads w o i l : ids_fit l -> reads (getList w o (get64 i)) (counted u64 l) l.
Proof. intros [Hs Hl]. apply getList_reads; [done|]. eapply Forall_impl; [exact Hl|]. intros. by apply get64_reads. Qed.

#[local] Hint Resolve get64_reads getStr_reads getEnum_reads getIds_reads : codec.

Lemma getPair_reads a b pr : is_u64 pr.1 /\ is_u64 pr.2 -> reads (getPair a b) (writePair pr) pr.
Proof. intros [H1 H2]. unfold getPair, writePair. reads_fields. Qed.

Lemma getPairs_reads w o a b l : pairs_fit l -> reads (getList w o (getPair a b)) (counted writePair l) l.
Proof. intros [Hs Hl]. apply getList_reads; [done|]. eapply Forall_impl; [exact Hl|]. intros. by apply getPair_reads. Qed.

Lemma readCost_reads c : cost_fits c -> reads readCost (writeCost c) c.
Proof.
  intros (Hs & Ht & Hc). unfold readCost, writeCost. eapply reads_field; [apply rd_counted_same; [done|]|reads_fields].
  eapply Forall_impl; [exact Hc|]. intros x [Hw Hv]. unfold writeComponent. reads_fields.
Qed.

Ltac split_fits := repeat match goal with
  | H : Forall _ (_ :: _) |- _ => apply Forall_cons in H as [? H]
  | H : _ /\ _ |- _ => destruct H
  end.

Lemma readStage_reads s : stage_fits s -> reads readStage (writeStage s) s.
Proof. intros H. unfold stage_fits in H. split_fits. unfold readStage, writeStage. reads_fields. Qed.

Lemma readStages_reads {E} (e1 e2 : E) (m : P E Stage) l :
  (forall s, stage_fits s -> reads m (writeStage s) s) -> small_list l -> Forall stage_fits l ->
  reads (rd_counted e1 e2 kMaxCount m) (counted writeStage l) l.
Proof. intros Hm Hs Hl. apply rd_counted_same; [done|]. by eapply Forall_impl; [exact Hl|]. Qed.

#[local] Hint Resolve getPairs_reads readCost_reads readStage_reads readStages_reads : codec.

Lemma readPath_reads p : path_fits p -> reads readPath (writePath p) p.
Proof. intros H. unfold path_fits in H. split_fits. unfold readPath, writePath. reads_fields. Qed.

#[local] Hint Resolve readPath_reads : codec.

Lemma getStages_reads w o l : small_list l -> Forall stage_fits l -> reads (getList w o (need (corrupt "stage") readStage)) (counted writeStage l) l.
Proof. apply readStages_reads. auto with codec. Qed.

Lemma getPaths_reads w o l : small_list l -> Forall path_fits l -> reads (getList w o (need (corrupt "path") readPath)) (counted writePath l) l.
Proof. intros Hs Hl. apply getList_reads; [done|]. eapply Forall_impl; [exact Hl|]. auto with codec. Qed.

Lemma getStrs_reads w o i l : small_list l -> Forall small_str l -> reads (getList w o (getStr i)) (counted str l) l.
Proof. intros Hs Hl. apply getList_reads; [done|]. eapply Forall_impl; [exact Hl|]. auto with codec. Qed.

#[local] Hint Resolve getStages_reads getPaths_reads getStrs_reads : codec.

(** A record is its identity and the rest. *)
Lemma parsePlan_reads rec : plan_fits rec.(StoreRecord.plan) ->
  exists fields, writeRecord rec = concat (u64 rec.(StoreRecord.plan).(Plan.id) :: fields) /\
    reads (parsePlan rec.(StoreRecord.plan).(Plan.id)) (concat fields) rec.
Proof.
  intros H. unfold plan_fits in H. split_fits. eexists. split; [reflexivity|]. unfold parsePlan. reads_fields.
  apply reads_record. destruct rec as [[] ?]. reflexivity.
Qed.

Lemma parsePlans_reads (seen : gset Z) recs :
  Forall (fun rec => plan_fits rec.(StoreRecord.plan)) recs -> Forall (fun rec => rec.(StoreRecord.plan).(Plan.id) <> 0) recs ->
  NoDup ((fun rec => rec.(StoreRecord.plan).(Plan.id)) <$> recs) ->
  (forall rec, rec ∈ recs -> rec.(StoreRecord.plan).(Plan.id) ∉ seen) ->
  reads (parsePlans (length recs) seen) (concat (writeRecord <$> recs)) recs.
Proof.
  intros Hf. revert seen; induction Hf as [|rec recs Hr Hf IH]; intros seen Hn Hd Hs; [apply reads_ret|].
  apply Forall_cons in Hn as [Hn0 Hn]. csimpl in Hd. apply NoDup_cons in Hd as [Hd0 Hd].
  destruct (parsePlan_reads rec Hr) as (fields & Ew & Hp). cbn [length parsePlans].
  change (concat (writeRecord <$> rec :: recs)) with (writeRecord rec ++ concat (writeRecord <$> recs)).
  rewrite Ew. cbn [concat]. rewrite <- app_assoc.
  eapply reads_bind; [apply get64_reads; unfold plan_fits in Hr; split_fits; done|].
  apply reads_check; [by apply negb_true_iff, Z.eqb_neq|].
  apply reads_check; [apply negb_true_iff, bool_decide_eq_false, Hs; set_solver|].
  eapply reads_bind; [exact Hp|]. rewrite <- (app_nil_r (concat (writeRecord <$> recs))). eapply reads_bind; [|apply reads_ret].
  apply IH; [done|done|]. intros r Hin. assert (r.(StoreRecord.plan).(Plan.id) ∉ seen) by (apply Hs; set_solver).
  rewrite not_elem_of_union, not_elem_of_singleton. split; [|done]. intros Heq. apply Hd0. apply list_elem_of_fmap. by exists r.
Qed.

Lemma parseRequest_reads r : request_fits r -> reads parseRequest (writeRequest r) (persistedRequest r).
Proof.
  intros H. unfold request_fits in H. split_fits. unfold parseRequest, writeRequest, persistedRequest.
  assert (is_u64 r.(Request.collectiveCount)) by (unfold is_u32, u32_max, is_u64, u64_max in *; lia).
  assert ((r.(Request.collectiveCount) <=? u32_max) = true) by (apply Z.leb_le; unfold is_u32 in *; lia).
  reads_fields.
Qed.

Lemma parseSupersession_reads r :
  is_u64 r.(SupersessionRecord.superseded) /\ is_u64 r.(SupersessionRecord.newer) -> reads parseSupersession (writeSupersession r) r.
Proof. intros [H1 H2]. unfold parseSupersession, writeSupersession. reads_fields. Qed.

Lemma parseBody_reads s : store_typed s -> reads parseBody (storeBody s) (persistedStore s).
Proof.
  intros [He [Hps Hpf] Hn Hd [Hss Hsf] [Hrs Hrf]]. unfold parseBody, storeBody.
  eapply reads_field; [by apply get64_reads|].
  assert (Hw : is_u32 (Z.of_nat (length s.(StoreState.plans)))) by (unfold small_list, is_u32, u32_max, kMaxCount in *; lia).
  assert (Hwr : wrap32 (Z.of_nat (length s.(StoreState.plans))) = Z.of_nat (length s.(StoreState.plans)))
    by (unfold wrap32, is_u32, u32_max in *; apply Z.mod_small; lia).
  cbn [concat]. unfold counted at 1. rewrite Hwr, <- app_assoc.
  eapply reads_bind; [by apply reads_need, rd_u32_reads|]. apply reads_check; [by apply Z.leb_le|]. rewrite Nat2Z.id.
  eapply reads_bind; [apply parsePlans_reads; [done|done|done|set_solver]|].
  eapply reads_bind; [apply getList_reads; [done|]; eapply Forall_impl; [exact Hsf|]; intros; by apply parseSupersession_reads|].
  eapply reads_bind; [apply rd_counted_reads; [exact Hrs|lia|]; eapply Forall_impl; [exact Hrf|]; intros; by apply parseRequest_reads|].
  apply reads_ret.
Qed.

(** Validation reads nothing of a request but its identity. *)
Lemma validateStore_persisted s : validateStore (persistedStore s) = validateStore s.
Proof.
  unfold validateStore, persistedStore. cbn [StoreState.plans StoreState.requests].
  replace (duplicate Request.id ∅ (persistedRequest <$> s.(StoreState.requests))) with (duplicate Request.id ∅ s.(StoreState.requests)); [done|].
  generalize (∅ : gset Z). induction (StoreState.requests s) as [|r l IH]; intros seen; [done|]. csimpl.
  destruct (bool_decide _); [done|]. apply IH.
Qed.

Lemma parseHeader_reads sum len :
  is_u64 sum -> is_u64 len -> reads parseHeader (concat [u32 kMagic; u32 kFormatVersion; u64 sum; u64 len]) (sum, len).
Proof.
  intros Hs Hl. unfold parseHeader.
  eapply reads_field; [apply reads_need, rd_u32_reads; split; vm_compute; discriminate|]. apply reads_check; [done|].
  eapply reads_field; [apply reads_need, rd_u32_reads; split; vm_compute; discriminate|]. apply reads_check; [done|].
  eapply reads_field; [by apply get64_reads|]. eapply reads_field; [by apply get64_reads|]. by apply reads_record.
Qed.

(** The frame of a store: its header, then its body. *)
Lemma serializeStore_frame s :
  serializeStore s = concat [u32 kMagic; u32 kFormatVersion; u64 (fnv (storeBody s)); u64 (Z.of_nat (length (storeBody s)))] ++ storeBody s.
Proof. unfold serializeStore. cbn [concat]. by rewrite !app_nil_r, <- !app_assoc. Qed.

(** Reading back a store that fits the format. *)
Lemma parseStore_serialize s :
  store_fits s ->
  parseStore (serializeStore s) =
    if bool_decide ((validateStore s).(PersistError.code) = PersistErrorCode.OK) then inr (persistedStore s) else inl (validateStore s).
Proof.
  intros [Hf Hl]. rewrite serializeStore_frame. unfold parseStore. rewrite parseHeader_reads by (done || apply fnv_u64).
  destruct (Z.ltb_spec (Z.of_nat (length (storeBody s))) (Z.of_nat (length (storeBody s)))); [lia|].
  rewrite Nat2Z.id, firstn_all, Z.eqb_refl. cbn [negb].
  pose proof (parseBody_reads s Hf []) as Hb. rewrite app_nil_r in Hb. rewrite Hb.
  rewrite bool_decide_eq_true_2 by done. rewrite skipn_all. cbn [negb]. rewrite bool_decide_eq_true_2 by done. cbn [negb].
  by rewrite validateStore_persisted.
Qed.

(** C10: the store format is lossless for plans: reading back a store that fits the
    format gives its epoch, plans with their states, supersessions and the stored fields
    of its requests, if the store is consistent, and the error of its validation
    otherwise.  The other fields of a request come back as their defaults. *)
Theorem store_roundtrip s :
  store_fits s ->
  (consistent_store s -> parseStore (serializeStore s) = inr (persistedStore s)) /\
  (~ consistent_store s -> parseStore (serializeStore s) = inl (validateStore s)).
Proof.
  intros Hf. rewrite parseStore_serialize, <- validateStore_consistent by done.
  split; intros H; [by rewrite bool_decide_eq_true_2|by rewrite bool_decide_eq_false_2].
Qed.

(** ** A stored plan

    A store holding the plan of the two-GPU scenario, ready to be committed. *)

Definition demoPlan : CommunicationPlan :=
  default Plan_default (plan_of (planCommunication basicRequest basicSnapshot ∅ basicBounds initialCounters)).

Definition demoStore : StoreState := {|
  StoreState.epoch := 3;
  StoreState.plans := [{| StoreRecord.plan := demoPlan; StoreRecord.state := PlanState.PLAN_READY |}];
  StoreState.supersessions := [{| SupersessionRecord.superseded := 7; SupersessionRecord.newer := demoPlan.(Plan.id) |}];
  StoreState.requests := [basicRequest] |}.

Lemma demoStore_fits : store_fits demoStore.
Proof. split; [apply (bool_decide_unpack _); vm_compute; exact I|apply (bool_decide_unpack _); vm_compute; exact I]. Qed.

Lemma store_roundtrip_witness : store_fits demoStore /\ parseStore (serializeStore demoStore) = inr (persistedStore demoStore).
Proof.
  split; [exact demoStore_fits|]. apply (proj1 (store_roundtrip demoStore demoStore_fits)), validateStore_consistent.
  vm_compute. reflexivity.
Defined.
