(* ===== verification/Integrity.v ===== *)
(** * The integrity of the store

    What [parseStore] of src/persistence.cpp promises about bytes that were not written
    as they are read: a truncated or damaged store is refused, and a store that is
    accepted is well typed and consistent. *)

From S2P Require Import Prelude Core Enums Double Rounding Model Scenario Feasibility Ranking Cost Enumerate Assembly.
From S2P Require Import PointToPoint Multicast Collective Planner Message Codec Store Persistence.

(** ** The bytes of a store *)

Lemma writePair_bytes pr : Forall is_u8 (writePair pr).
Proof. unfold writePair. all_bytes. Qed.
Lemma writeComponent_bytes c : Forall is_u8 (writeComponent c).
Proof. unfold writeComponent. all_bytes. Qed.
#[local] Hint Resolve writePair_bytes writeComponent_bytes : codec.
Lemma writeCost_bytes c : Forall is_u8 (writeCost c).
Proof. unfold writeCost. all_bytes. Qed.
Lemma writeStage_bytes s : Forall is_u8 (writeStage s).
Proof. unfold writeStage. all_bytes. Qed.
#[local] Hint Resolve writeCost_bytes writeStage_bytes : codec.
Lemma writePath_bytes p : Forall is_u8 (writePath p).
Proof. unfold writePath. all_bytes. Qed.
#[local] Hint Resolve writePath_bytes : codec.
Lemma writeRecord_bytes rec : Forall is_u8 (writeRecord rec).
Proof. unfold writeRecord. all_bytes. Qed.
Lemma writeSupersession_bytes r : Forall is_u8 (writeSupersession r).
Proof. unfold writeSupersession. all_bytes. Qed.
Lemma writeRequest_bytes r : Forall is_u8 (writeRequest r).
Proof. unfold writeRequest. all_bytes. Qed.
#[local] Hint Resolve writeRecord_bytes writeSupersession_bytes writeRequest_bytes : codec.
Lemma storeBody_bytes s : Forall is_u8 (storeBody s).
Proof. unfold storeBody. all_bytes. Qed.

Lemma serializeStore_bytes s : Forall is_u8 (serializeStore s).
Proof. pose proof (storeBody_bytes s). unfold serializeStore. all_bytes. Qed.

Definition storeHeader (s : StoreState) : list Z :=
  concat [u32 kMagic; u32 kFormatVersion; u64 (fnv (storeBody s)); u64 (Z.of_nat (length (storeBody s)))].

Lemma storeHeader_length s : length (storeHeader s) = 24%nat.
Proof. unfold storeHeader. cbn [concat]. rewrite !length_app. unfold u32, u64. by rewrite !length_le_bytes. Qed.

(** ** Truncation *)

Definition is_truncation (e : PersistError) : Prop := e.(PersistError.code) = PersistErrorCode.TRUNCATION.

Lemma parseHeader_cut s : is_u64 (Z.of_nat (length (storeBody s))) -> cut_short is_truncation parseHeader (storeHeader s).
Proof.
  intros Hl. unfold parseHeader, storeHeader. cbn [concat].
  assert (Hm : reads rd_u32 (u32 kMagic) kMagic) by (apply rd_u32_reads; split; vm_compute; discriminate).
  assert (Hv : reads rd_u32 (u32 kFormatVersion) kFormatVersion) by (apply rd_u32_reads; split; vm_compute; discriminate).
  eapply cut_short_bind; [apply cut_short_need; [done|apply rd_u32_cut]|apply reads_need, Hm|]. apply cut_short_check; [done|].
  eapply cut_short_bind; [apply cut_short_need; [done|apply rd_u32_cut]|apply reads_need, Hv|]. apply cut_short_check; [done|].
  eapply cut_short_bind; [apply cut_short_need; [done|apply rd_u64_cut]|apply get64_reads, fnv_u64|].
  eapply cut_short_bind; [apply cut_short_need; [done|apply rd_u64_cut]|by apply get64_reads|apply cut_short_ret].
Qed.

(** A store that was not written to its end is refused as truncated, wherever the
    writing stopped. *)
Theorem truncated_store_refused s k :
  is_u64 (Z.of_nat (length (storeBody s))) -> (k < length (serializeStore s))%nat ->
  exists e, parseStore (take k (serializeStore s)) = inl e /\ e.(PersistError.code) = PersistErrorCode.TRUNCATION.
Proof.
  intros Hl Hk. rewrite serializeStore_frame in *. fold (storeHeader s) in *. rewrite length_app, storeHeader_length in Hk.
  unfold parseStore. rewrite take_app, storeHeader_length.
  destruct (decide (k < 24)%nat) as [Hlt|Hge].
  - replace (k - 24)%nat with 0%nat by lia. rewrite take_0, app_nil_r.
    destruct (parseHeader_cut s Hl k) as (e & -> & He); [rewrite storeHeader_length; lia|]. by exists e.
  - rewrite take_ge by (rewrite storeHeader_length; lia).
    unfold storeHeader. rewrite parseHeader_reads; [|apply fnv_u64|done].
    destruct (Z.ltb_spec (Z.of_nat (length (take (k - 24) (storeBody s)))) (Z.of_nat (length (storeBody s)))) as [_|H]; [by eexists|].
    exfalso. rewrite length_take in H. lia.
Qed.

Lemma truncated_store_refused_witness :
  (100 < length (serializeStore demoStore))%nat /\
  exists e, parseStore (take 100 (serializeStore demoStore)) = inl e /\ e.(PersistError.code) = PersistErrorCode.TRUNCATION.
Proof.
  assert (Hk : (100 < length (serializeStore demoStore))%nat) by (apply Nat.ltb_lt; vm_compute; reflexivity).
  split; [exact Hk|]. exact (truncated_store_refused demoStore 100 (proj2 demoStore_fits) Hk).
Defined.

(** ** Damage *)

(** The header is read in four fields of fixed width. *)
Lemma parseHeader_fields m v c n rest :
  length m = 4%nat -> length v = 4%nat -> length c = 8%nat -> length n = 8%nat ->
  parseHeader (m ++ v ++ c ++ n ++ rest) =
    if negb (le_value m =? kMagic) then inl (perror PersistErrorCode.BAD_MAGIC "bad magic")
    else if negb (le_value v =? kFormatVersion) then inl (perror PersistErrorCode.UNSUPPORTED_VERSION "unsupported version")
    else inr ((le_value c, le_value n), rest).
Proof.
  intros Hm Hv Hc Hn. unfold parseHeader, get64. unfold mbind, P_bind. unfold need at 1. rewrite rd_u32_any by done.
  destruct (Z.eqb_spec (le_value m) kMagic); [|done]. cbn [check negb]. unfold mret, P_ret. unfold need at 1.
  rewrite rd_u32_any by done. destruct (Z.eqb_spec (le_value v) kFormatVersion); [|done]. cbn [check negb]. unfold mret, P_ret.
  unfold need. by rewrite !rd_u64_any by done.
Qed.

(** A store read field by field; [n] is the length its body has. *)
Lemma parseStore_fields m v c n body :
  length m = 4%nat -> length v = 4%nat -> length c = 8%nat -> length n = 8%nat -> le_value n = Z.of_nat (length body) ->
  le_value m <> kMagic \/ le_value v <> kFormatVersion \/ fnv body <> le_value c ->
  exists e, parseStore (m ++ v ++ c ++ n ++ body) = inl e /\
    e.(PersistError.code) ∈ [PersistErrorCode.BAD_MAGIC; PersistErrorCode.UNSUPPORTED_VERSION; PersistErrorCode.CHECKSUM_MISMATCH].
Proof.
  intros Hm Hv Hc Hn Hl Hbad. unfold parseStore. rewrite parseHeader_fields by done.
  destruct (Z.eqb_spec (le_value m) kMagic); [|eexists; split; [done|set_solver]].
  destruct (Z.eqb_spec (le_value v) kFormatVersion); [|eexists; split; [done|set_solver]].
  cbn [negb]. rewrite Hl, Z.ltb_irrefl, Nat2Z.id, firstn_all.
  destruct (Z.eqb_spec (fnv body) (le_value c)); [naive_solver|]. eexists; split; [done|set_solver].
Qed.

(** C17: damage is detected: changing any single byte of a stored history, other than in
    the length of its body, makes it unreadable, as a wrong magic number, version or
    checksum. *)
Theorem damaged_store_refused s i x y :
  is_u64 (Z.of_nat (length (storeBody s))) -> serializeStore s !! i = Some x -> is_u8 y -> y <> x ->
  ~ (16 <= i < 24)%nat ->
  exists e, parseStore (<[i:=y]> (serializeStore s)) = inl e /\
    e.(PersistError.code) ∈ [PersistErrorCode.BAD_MAGIC; PersistErrorCode.UNSUPPORTED_VERSION; PersistErrorCode.CHECKSUM_MISMATCH].
Proof.
  intros Hl Hx Hy Hne Hi. unfold serializeStore in *. cbv zeta in *. cbn [concat] in *. rewrite app_nil_r in *.
  assert (L4 : forall v, length (u32 v) = 4%nat) by (intros; apply length_le_bytes).
  assert (L8 : forall v, length (u64 v) = 8%nat) by (intros; apply length_le_bytes).
  pose proof (le_value_u64 _ Hl) as Hlen. pose proof (le_value_u64 _ (fnv_u64 (storeBody s))) as Hsum.
  destruct (decide (i < 4)%nat) as [H4|H4]; [|destruct (decide (i < 8)%nat) as [H8|H8]; [|destruct (decide (i < 16)%nat) as [H16|H16]]].
  - rewrite lookup_app_l in Hx by (rewrite L4; lia). rewrite insert_app_l by (rewrite L4; lia).
    apply parseStore_fields; try (rewrite ?length_insert; auto; done). left. eapply (le_bytes_changed 4); [done|done|exact Hx|done].
  - rewrite lookup_app_r, L4 in Hx by (rewrite L4; lia). rewrite lookup_app_l in Hx by (rewrite L4; lia).
    replace i with (length (u32 kMagic) + (i - 4))%nat by (rewrite L4; lia). rewrite insert_app_r, insert_app_l by (rewrite L4; lia).
    apply parseStore_fields; try (rewrite ?length_insert; auto; done). right; left.
    eapply (le_bytes_changed 4); [done|done|exact Hx|done].
  - rewrite lookup_app_r, L4 in Hx by (rewrite L4; lia). rewrite lookup_app_r, L4 in Hx by (rewrite L4; lia).
    rewrite lookup_app_l in Hx by (rewrite L8; lia).
    replace i with (length (u32 kMagic) + (length (u32 kFormatVersion) + (i - 8)))%nat by (rewrite !L4; lia).
    rewrite !insert_app_r, insert_app_l by (rewrite L8; lia).
    apply parseStore_fields; try (rewrite ?length_insert; auto; done). right; right. intros Hc. symmetry in Hc. revert Hc.
    replace (i - 4 - 4)%nat with (i - 8)%nat in Hx by lia.
    eapply (le_bytes_changed 8); [apply u64_width, fnv_u64|done|exact Hx|done].
  - rewrite lookup_app_r, L4 in Hx by (rewrite L4; lia). rewrite lookup_app_r, L4 in Hx by (rewrite L4; lia).
    rewrite lookup_app_r, L8 in Hx by (rewrite L8; lia). rewrite lookup_app_r, L8 in Hx by (rewrite L8; lia).
    replace i with (length (u32 kMagic) + (length (u32 kFormatVersion) + (length (u64 (fnv (storeBody s))) +
      (length (u64 (Z.of_nat (length (storeBody s)))) + (i - 24)))))%nat by (rewrite !L4, !L8; lia).
    rewrite !insert_app_r. apply parseStore_fields; try (rewrite ?length_insert; auto; done). right; right. rewrite Hsum.
    replace (i - 4 - 4 - 8 - 8)%nat with (i - 24)%nat in Hx by lia. eapply fnv_changed; [apply storeBody_bytes|done|exact Hx|done].
Qed.

Lemma damaged_store_refused_witness :
  serializeStore demoStore !! 32%nat = Some 1 /\
  exists e, parseStore (<[32%nat := 2]> (serializeStore demoStore)) = inl e /\
    e.(PersistError.code) ∈ [PersistErrorCode.BAD_MAGIC; PersistErrorCode.UNSUPPORTED_VERSION; PersistErrorCode.CHECKSUM_MISMATCH].
Proof.
  assert (Hx : serializeStore demoStore !! 32%nat = Some 1) by (vm_compute; reflexivity). split; [exact Hx|].
  apply (damaged_store_refused demoStore 32 1 2 (proj2 demoStore_fits) Hx); [split; discriminate|discriminate|lia].
Defined.

(** ** Accepted stores *)

Lemma yields_get64 w : yields (get64 w) is_u64.
Proof. apply yields_need, yields_u64. Qed.
Lemma yields_getStr w : yields (getStr w) small_str.
Proof. apply yields_need, yields_str. Qed.
Lemma yields_getEnum `{CppEnum A} w i : yields (getEnum (A:=A) w i) (fun _ => True).
Proof. eapply yields_bind; [apply yields_need, yields_u8|]. intros k _. destruct (enum_of_u8 k); [by apply yields_ret|apply yields_fail]. Qed.
Lemma yields_getList {A} w o (m : P PersistError A) Q : yields m Q -> yields (getList w o m) (fun l => small_list l /\ Forall Q l).
Proof. apply yields_counted. Qed.
#[local] Hint Resolve yields_get64 yields_getStr yields_getEnum yields_getList : codec.

Lemma yields_getPair a b : yields (getPair a b) (fun pr => is_u64 pr.1 /\ is_u64 pr.2).
Proof. unfold getPair. yields_fields. by split. Qed.

Lemma yields_readCost : yields readCost cost_fits.
Proof.
  unfold readCost. eapply yields_bind; [apply (yields_counted _ _ _ _ (fun x =>
    double_wf x.(CostComponent.weight) = true /\ double_wf x.(CostComponent.value) = true)); yields_fields; by split|].
  intros comps [Hs Hc]. yields_fields. by split_and!.
Qed.

(** A record of fields that were read is well typed. *)
Ltac typed_record :=
  repeat match goal with
    | H : _ /\ _ |- _ => destruct H
    | |- _ /\ _ => split
    | |- Forall _ (_ :: _) => apply Forall_cons_2
    | |- Forall _ [] => apply Forall_nil_2
    end; assumption.

Lemma yields_readStage : yields readStage stage_fits.
Proof. unfold readStage. yields_fields. unfold stage_fits. cbn. typed_record. Qed.
#[local] Hint Resolve yields_getPair yields_readCost yields_readStage : codec.

Lemma yields_readPath : yields readPath path_fits.
Proof. unfold readPath. yields_fields. unfold path_fits. cbn. typed_record. Qed.
#[local] Hint Resolve yields_readPath : codec.

Lemma yields_parsePlan id :
  is_u64 id -> yields (parsePlan id) (fun rec => plan_fits rec.(StoreRecord.plan) /\ rec.(StoreRecord.plan).(Plan.id) = id).
Proof. intros Hid. unfold parsePlan. yields_fields. split; [|done]. unfold plan_fits, ids_fit, pairs_fit. cbn. typed_record. Qed.

Lemma yields_parsePlans n seen :
  yields (parsePlans n seen) (fun recs => length recs = n /\ Forall (fun rec => plan_fits rec.(StoreRecord.plan)) recs /\
    Forall (fun rec => rec.(StoreRecord.plan).(Plan.id) <> 0) recs /\
    NoDup ((fun rec => rec.(StoreRecord.plan).(Plan.id)) <$> recs) /\
    Forall (fun rec => rec.(StoreRecord.plan).(Plan.id) ∉ seen) recs).
Proof.
  revert seen; induction n as [|n IH]; intros seen; cbn [parsePlans]; [apply yields_ret; by repeat constructor|].
  eapply yields_bind; [apply yields_get64|]. intros id Hid.
  eapply yields_bind; [apply yields_check|]. intros _ Hn%negb_true_iff%Z.eqb_neq.
  eapply yields_bind; [apply yields_check|]. intros _ Hs%negb_true_iff%bool_decide_eq_false.
  eapply yields_bind; [by apply yields_parsePlan|]. intros rec [Hr <-].
  eapply yields_bind; [apply IH|]. intros recs (Hl & Hf & Hnn & Hnd & Hfr). apply yields_ret. csimpl.
  split_and!; [by rewrite Hl|by constructor|by constructor| |constructor; [done|]].
  - apply NoDup_cons. split; [|done]. rewrite list_elem_of_fmap. intros (r & E & Hr'). rewrite Forall_forall in Hfr.
    specialize (Hfr r Hr'). set_solver.
  - eapply Forall_impl; [exact Hfr|]. set_solver.
Qed.

Lemma yields_parseSupersession :
  yields parseSupersession (fun r => is_u64 r.(SupersessionRecord.superseded) /\ is_u64 r.(SupersessionRecord.newer)).
Proof. unfold parseSupersession. yields_fields. by split. Qed.

(** A request that was read has the fields of the format and no others. *)
Lemma yields_parseRequest : yields parseRequest (fun r => request_fits r /\ persistedRequest r = r).
Proof.
  unfold parseRequest. yields_fields. split; [|done]. unfold request_fits, ids_fit, is_u32. cbn.
  match goal with H : (_ <=? u32_max) = true |- _ => apply Z.leb_le in H end.
  split; [typed_record|]. split; [|typed_record]. unfold is_u64, u64_max in *. lia.
Qed.
#[local] Hint Resolve yields_parsePlans yields_parseSupersession yields_parseRequest : codec.

Lemma yields_parseBody : yields parseBody (fun s => store_typed s /\ persistedStore s = s).
Proof.
  unfold parseBody. eapply yields_bind; [apply yields_get64|]. intros epoch He.
  eapply yields_bind; [apply yields_need, yields_u32|]. intros n [Hn _]. eapply yields_bind; [apply yields_check|]. intros _ Hk%Z.leb_le.
  eapply yields_bind; [apply yields_parsePlans|]. intros plans (Hl & Hp & Hz & Hd & _).
  eapply yields_bind; [apply yields_getList, yields_parseSupersession|]. intros sups [Hsl Hs].
  eapply yields_bind; [apply yields_getList, yields_parseRequest|]. intros reqs [Hrl Hr]. apply yields_ret.
  apply Forall_and in Hr as [Hr Hpr]. split; [split; cbn; auto|].
  - split; [unfold small_list; lia|done].
  - unfold persistedStore. cbn. f_equal. rewrite <- (list_fmap_id reqs) at 2. apply list_fmap_ext. intros i r Hi. rewrite Forall_lookup in Hpr. by apply (Hpr i).
Qed.

Lemma parseHeader_yields : yields parseHeader (fun _ => True).
Proof.
  unfold parseHeader. eapply yields_bind; [apply yields_need, yields_u32|]. intros m _. eapply yields_bind; [apply yields_check|]. intros _ _.
  eapply yields_bind; [apply yields_need, yields_u32|]. intros v _. eapply yields_bind; [apply yields_check|]. intros _ _. by yields_fields.
Qed.

(** C18: an accepted store is well typed: whatever the bytes, what [parseStore] accepts has
    every integer within its width, every string and list within the format's limit,
    every double in canonical form, named and distinct plans, is a consistent store, and
    holds of each request only the fields of the format. *)
Theorem parseStore_typed data s :
  Forall is_u8 data -> parseStore data = inr s -> store_typed s /\ consistent_store s /\ persistedStore s = s.
Proof.
  intros Hd H. unfold parseStore in H. destruct (parseHeader data) as [|[[sum len] rest]] eqn:Eh; [done|].
  destruct (parseHeader_yields _ _ _ Hd Eh) as [_ Hrest].
  destruct (_ <? _); [done|]. destruct (negb _); [done|]. destruct (parseBody _) as [|[st rem]] eqn:Eb; [done|].
  destruct (negb _); [done|]. destruct (negb _); [done|]. case_bool_decide as Hv; [|done]. injection H as <-.
  destruct (yields_parseBody _ _ _ (Forall_take _ _ _ Hrest) Eb) as [[Ht Hp] _]. split; [done|]. split; [by apply validateStore_consistent|done].
Qed.

Lemma parseStore_typed_witness :
  parseStore (serializeStore demoStore) = inr (persistedStore demoStore) /\ store_typed (persistedStore demoStore).
Proof.
  assert (Hp : parseStore (serializeStore demoStore) = inr (persistedStore demoStore)) by (vm_compute; reflexivity).
  assert (Hb : Forall is_u8 (serializeStore demoStore)) by (apply serializeStore_bytes).
  split; [exact Hp|]. exact (proj1 (parseStore_typed _ _ Hb Hp)).
Defined.
