(* ===== verification/Errors.v ===== *)
(** * The errors of the store reader

    Which of the codes of persistence/persistence.hpp [parseStore] can return: the codes of
    its own checks, those of validation, and no others. *)

From S2P Require Import Prelude Core Enums Double Model Scenario Feasibility Ranking Cost Enumerate Assembly.
From S2P Require Import PointToPoint Multicast Collective Planner Message Codec Store Persistence Integrity.

Definition reader_codes : list PersistErrorCode := [
  PersistErrorCode.BAD_MAGIC; PersistErrorCode.UNSUPPORTED_VERSION; PersistErrorCode.TRUNCATION; PersistErrorCode.CORRUPTION;
  PersistErrorCode.CHECKSUM_MISMATCH; PersistErrorCode.OVERSIZED_COUNT; PersistErrorCode.INVALID_ENUM;
  PersistErrorCode.DUPLICATE_ID; PersistErrorCode.CP_OVERFLOW; PersistErrorCode.TRAILING_GARBAGE].

(** [m] fails only with codes of the reader. *)
Definition reports {A} (m : P PersistError A) : Prop := forall l e, m l = inl e -> e.(PersistError.code) ∈ reader_codes.

Lemma reports_bind {A B} (m : P PersistError A) (f : A -> P PersistError B) :
  reports m -> (forall a, reports (f a)) -> reports (m ≫= f).
Proof.
  intros Hm Hf l e H. unfold mbind, P_bind in H. destruct (m l) as [e'|[a l']] eqn:E; [injection H as <-; by apply Hm in E|by apply Hf in H].
Qed.
Lemma reports_ret {A} (a : A) : reports (mret a : P PersistError A).
Proof. by intros l e H. Qed.
Lemma reports_need {E A} (e : PersistError) (m : P E A) : e.(PersistError.code) ∈ reader_codes -> reports (need e m).
Proof. intros He l e' H. unfold need in H. destruct (m l); [by injection H as <-|done]. Qed.
Lemma reports_fail {A} (e : PersistError) : e.(PersistError.code) ∈ reader_codes -> reports (fail e : P PersistError A).
Proof. by intros He l e' [= <-]. Qed.
Lemma reports_check (e : PersistError) b : e.(PersistError.code) ∈ reader_codes -> reports (check e b).
Proof. intros He. destruct b; [apply reports_ret|by apply reports_fail]. Qed.
Lemma reports_repeated {A} n (m : P PersistError A) : reports m -> reports (repeated n m).
Proof. intros Hm. induction n as [|n IH]; [apply reports_ret|]. apply reports_bind; [done|]. intros a. apply reports_bind; [done|]. intros. apply reports_ret. Qed.

Create HintDb reports.
#[local] Hint Resolve reports_bind reports_ret reports_need reports_fail reports_check reports_repeated : reports.
#[local] Hint Extern 1 (_ ∈ reader_codes) => code_in : reports.

Lemma reports_getEnum `{CppEnum A} w i : reports (getEnum (A:=A) w i).
Proof. apply reports_bind; [auto with reports|]. intros k. destruct (enum_of_u8 k); auto with reports. Qed.
Lemma reports_get64 w : reports (get64 w).
Proof. unfold get64. auto with reports. Qed.
Lemma reports_getStr w : reports (getStr w).
Proof. unfold getStr. auto with reports. Qed.
Lemma reports_getList {A} w o (m : P PersistError A) : reports m -> reports (getList w o m).
Proof. intros Hm. unfold getList, rd_counted. auto with reports. Qed.
Lemma reports_getPair a b : reports (getPair a b).
Proof. unfold getPair. auto using reports_get64 with reports. Qed.
#[local] Hint Resolve reports_getEnum reports_get64 reports_getStr reports_getList reports_getPair : reports.

Ltac reports_fields := repeat (apply reports_bind; [auto with reports|intros ?]); auto with reports.

Lemma reports_parsePlan id : reports (parsePlan id).
Proof. unfold parsePlan. reports_fields. Qed.

Lemma reports_parsePlans n seen : reports (parsePlans n seen).
Proof.
  revert seen; induction n as [|n IH]; intros seen; cbn [parsePlans]; [apply reports_ret|].
  repeat (apply reports_bind; [auto using reports_parsePlan with reports|intros ?]). apply reports_ret.
Qed.

Lemma reports_parseSupersession : reports parseSupersession.
Proof. unfold parseSupersession. reports_fields. Qed.
Lemma reports_parseRequest : reports parseRequest.
Proof. unfold parseRequest. reports_fields. Qed.
#[local] Hint Resolve reports_parsePlans reports_parseSupersession reports_parseRequest : reports.

Lemma reports_parseBody : reports parseBody.
Proof. unfold parseBody. reports_fields. Qed.

Lemma reports_parseHeader : reports parseHeader.
Proof. unfold parseHeader. reports_fields. Qed.

Lemma validateStore_codes s e : validateStore s = e -> e.(PersistError.code) = PersistErrorCode.OK \/ e.(PersistError.code) ∈ validation_codes.
Proof.
  unfold validateStore. intros <-. destruct (validate_records ∅ _) as [e|] eqn:E; [right; by apply (validate_records_errs _ _ _ E)|].
  destruct (duplicate _ _ _); [right; code_in|by left].
Qed.

Lemma parseStore_codes data e : parseStore data = inl e -> e.(PersistError.code) ∈ reader_codes ++ validation_codes.
Proof.
  unfold parseStore. rewrite elem_of_app. destruct (parseHeader data) as [e'|[[sum len] rest]] eqn:Eh.
  { intros [= <-]. left. by apply reports_parseHeader in Eh. }
  destruct (_ <? _); [intros [= <-]; left; code_in|]. destruct (negb (_ =? sum)); [intros [= <-]; left; code_in|].
  destruct (parseBody _) as [e'|[st remaining]] eqn:Eb; [intros [= <-]; left; by apply reports_parseBody in Eb|].
  destruct (negb _); [intros [= <-]; left; code_in|]. destruct (negb _); [intros [= <-]; left; code_in|].
  case_bool_decide as Hc; [done|]. intros [= <-]. destruct (validateStore_codes st _ eq_refl); [done|by right].
Qed.

(** ** A file for every code *)

Definition framed (body : list Z) : list Z :=
  concat [u32 kMagic; u32 kFormatVersion; u64 (fnv body); u64 (Z.of_nat (length body)); body].

Definition sampleStage (source destination payload : Z) : Stage := {|
  Stage.id := 1; Stage.generation := 1; Stage.source := source; Stage.destination := destination; Stage.link := 1;
  Stage.transport := Transport.CUDA; Stage.payload := payload; Stage.expectedBandwidth := 1; Stage.expectedLatency := 1;
  Stage.stagingResource := 0; Stage.requiresAuthority := false; Stage.provenance := Provenance.MEASURED; Stage.description := "" |}.

(** The plans of tests/test_adversarial.cpp: a path from 1 to 2 of 1000 bytes over [stages]. *)
Definition sampleStore (primary : Z) (stages : list Stage) (total : double) (state : PlanState) (requests : list CommunicationRequest)
    : StoreState := {|
  StoreState.epoch := 1; StoreState.supersessions := []; StoreState.requests := requests;
  StoreState.plans := [{| StoreRecord.state := state; StoreRecord.plan := {|
    Plan.id := 1; Plan.generation := 1; Plan.requestId := 1; Plan.requestGeneration := 1; Plan.shape := RequestShape.POINT_TO_POINT;
    Plan.primaryPath := primary; Plan.fallbackPaths := []; Plan.candidatePaths := [{|
      Path.id := 1; Path.generation := 1; Path.source := 1; Path.destination := 2; Path.stages := stages; Path.totalPayload := 1000;
      Path.cost := CostSummary_default; Path.provenance := Provenance.MEASURED; Path.failureDomain := ""; Path.reason := "" |}];
    Plan.orderedStages := []; Plan.feasibility := Feasibility.FEASIBLE; Plan.topologyGeneration := 1; Plan.capacityGeneration := 1;
    Plan.reservationGeneration := 1; Plan.congestionGeneration := 1; Plan.capabilityGeneration := 1; Plan.healthGeneration := 1;
    Plan.placementGeneration := 1; Plan.authorityGeneration := 1; Plan.endpointGenerations := [(1, 1); (2, 1)];
    Plan.linkGenerations := []; Plan.requiredStagingResources := []; Plan.requiredResourceClaims := [];
    Plan.cost := {| CostSummary.components := []; CostSummary.total := total |}; Plan.explanations := []; Plan.provenance := "";
    Plan.revalidationGeneration := 0; Plan.revalidateBeforeExecute := true; Plan.handoffRequirement := ""; Plan.createdProvenance := "";
    Plan.multicastDestinations := []; Plan.collectiveShape := CollectiveShape.UNKNOWN; Plan.collectiveParticipants := [];
    Plan.description := "" |} |}] |}.

Definition soundStages : list Stage := [sampleStage 1 2 1000].

(** A file that is refused with the code. *)
Definition faulty (c : PersistErrorCode) : list Z :=
  match c with
  | PersistErrorCode.BAD_MAGIC => u32 0
  | PersistErrorCode.UNSUPPORTED_VERSION => u32 kMagic ++ u32 2
  | PersistErrorCode.CHECKSUM_MISMATCH => concat [u32 kMagic; u32 kFormatVersion; u64 0; u64 0]
  | PersistErrorCode.CORRUPTION => framed (concat [u64 1; u32 1; u64 0])
  | PersistErrorCode.OVERSIZED_COUNT => framed (concat [u64 1; u32 (kMaxCount + 1)])
  | PersistErrorCode.INVALID_ENUM => framed (concat [u64 1; u32 1; u64 1; u64 1; u64 1; u64 1; u8 255])
  | PersistErrorCode.CP_OVERFLOW =>
      framed (concat [u64 1; u32 0; u32 0; u32 1; u64 1; u64 1; u8 0; u64 1; u64 1; u8 0; u8 0; u64 (2 ^ 32); u32 0])
  | PersistErrorCode.TRAILING_GARBAGE => framed (concat [u64 1; u32 0; u32 0; u32 0; u8 0])
  | PersistErrorCode.DUPLICATE_ID => serializeStore (sampleStore 1 soundStages dzero PlanState.PLAN_READY [basicRequest; basicRequest])
  | PersistErrorCode.NAN_INF_COST => serializeStore (sampleStore 1 soundStages dinf PlanState.PLAN_READY [])
  | PersistErrorCode.PAYLOAD_MISMATCH => serializeStore (sampleStore 1 [sampleStage 1 2 999] dzero PlanState.PLAN_READY [])
  | PersistErrorCode.INVALID_STAGE_ORDER => serializeStore (sampleStore 1 [sampleStage 2 1 1000] dzero PlanState.PLAN_READY [])
  | PersistErrorCode.CYCLE_FORBIDDEN =>
      serializeStore (sampleStore 1 [sampleStage 1 2 1000; sampleStage 2 1 1000; sampleStage 1 2 1000] dzero PlanState.PLAN_READY [])
  | PersistErrorCode.PATH_MISSING_ENDPOINT => serializeStore (sampleStore 1 [sampleStage 1 3 1000] dzero PlanState.PLAN_READY [])
  | PersistErrorCode.SELECTED_PLAN_NOT_IN_CANDIDATE_SET => serializeStore (sampleStore 7 soundStages dzero PlanState.PLAN_READY [])
  | PersistErrorCode.COMMITTED_PLAN_NO_EVIDENCE => serializeStore (sampleStore 1 soundStages dzero PlanState.COMMITTED [])
  | _ => []
  end.

Definition refused_with (c : PersistErrorCode) (data : list Z) : bool :=
  forallb (fun b => (0 <=? b) && (b <? 256)) data &&
  match parseStore data with inl e => bool_decide (e.(PersistError.code) = c) | inr _ => false end.

Lemma refused_with_iff c data :
  refused_with c data = true -> Forall is_u8 data /\ exists e, parseStore data = inl e /\ e.(PersistError.code) = c.
Proof.
  intros [Hb Hp]%andb_true_iff. split.
  - apply Forall_forall. intros b Hin%list_elem_of_In. rewrite forallb_forall in Hb. specialize (Hb b Hin).
    apply andb_true_iff in Hb as [H1%Z.leb_le H2%Z.ltb_lt]. unfold is_u8. lia.
  - destruct (parseStore data) as [e|]; [|done]. exists e. split; [done|by apply bool_decide_eq_true in Hp].
Qed.

Lemma faulty_refused : forallb (fun c => refused_with c (faulty c)) (reader_codes ++ validation_codes) = true.
Proof. vm_compute. reflexivity. Qed.


(** The codes that are never returned. *)
Lemma unreported_codes :
  Forall (fun c => c ∉ reader_codes ++ validation_codes) [PersistErrorCode.GENERATION_REGRESSION; PersistErrorCode.IMPOSSIBLE_LIFECYCLE;
    PersistErrorCode.MALFORMED_LENGTH; PersistErrorCode.DUPLICATE_CURRENT_AUTHORITY].
Proof. repeat constructor; apply (bool_decide_unpack _); exact I. Qed.
