(* ===== verification/Coordinator.v ===== *)
(** * The coordinator

    Models src/coordinator.cpp: the server's state, one handler per message type, the
    three phases of a commit (the broker is called between two critical sections), the
    disconnection of a worker, and the recovery from a store.  The broker is reached
    through its interface only.  A handler is a function of the state, the socket the
    message came from and the message; it yields the messages sent and the new state,
    or the exception that leaves the handler. *)

From S2P Require Import Prelude Core Enums Double Model Scenario Feasibility Ranking Cost Enumerate Assembly.
From S2P Require Import PointToPoint Multicast Collective Planner Revalidation Broker Message Codec Store Persistence.

(** ** State *)

Module WorkerInfo.
Record WorkerInfo := {
  id : WorkerId;
  boot : WorkerBootId;
  name : string;
  sock : Z;                    (* SOCKET *)
  endpoints : list EndpointId;
  links : list LinkId;
  alive : bool;
}.
End WorkerInfo.
Abbreviation WorkerInfo := WorkerInfo.WorkerInfo.

Module PlanRecord.
Record PlanRecord := {
  plan : CommunicationPlan;
  state : PlanState;
  worker : WorkerId;
  boot : WorkerBootId;
}.
End PlanRecord.
Abbreviation PlanRecord := PlanRecord.PlanRecord.

Definition set_state (v : PlanState) (r : PlanRecord) : PlanRecord := {|
  PlanRecord.plan := r.(PlanRecord.plan); PlanRecord.state := v;
  PlanRecord.worker := r.(PlanRecord.worker); PlanRecord.boot := r.(PlanRecord.boot) |}.

(** Assignments to single fields of the snapshot. *)
Definition set_endpoints (v : list Endpoint) (s : EvidenceSnapshot) : EvidenceSnapshot := {|
  Snapshot.topologyGeneration := s.(Snapshot.topologyGeneration);
  Snapshot.capacityGeneration := s.(Snapshot.capacityGeneration);
  Snapshot.reservationGeneration := s.(Snapshot.reservationGeneration);
  Snapshot.congestionGeneration := s.(Snapshot.congestionGeneration);
  Snapshot.capabilityGeneration := s.(Snapshot.capabilityGeneration);
  Snapshot.healthGeneration := s.(Snapshot.healthGeneration);
  Snapshot.placementGeneration := s.(Snapshot.placementGeneration);
  Snapshot.policyGeneration := s.(Snapshot.policyGeneration); Snapshot.endpoints := v;
  Snapshot.links := s.(Snapshot.links); Snapshot.reservations := s.(Snapshot.reservations);
  Snapshot.resourceCapacities := s.(Snapshot.resourceCapacities);
  Snapshot.workerBoots := s.(Snapshot.workerBoots); Snapshot.sourceBoots := s.(Snapshot.sourceBoots);
  Snapshot.epoch := s.(Snapshot.epoch); Snapshot.authorityGeneration := s.(Snapshot.authorityGeneration) |}.

Definition set_links (v : list Link) (s : EvidenceSnapshot) : EvidenceSnapshot := {|
  Snapshot.topologyGeneration := s.(Snapshot.topologyGeneration);
  Snapshot.capacityGeneration := s.(Snapshot.capacityGeneration);
  Snapshot.reservationGeneration := s.(Snapshot.reservationGeneration);
  Snapshot.congestionGeneration := s.(Snapshot.congestionGeneration);
  Snapshot.capabilityGeneration := s.(Snapshot.capabilityGeneration);
  Snapshot.healthGeneration := s.(Snapshot.healthGeneration);
  Snapshot.placementGeneration := s.(Snapshot.placementGeneration);
  Snapshot.policyGeneration := s.(Snapshot.policyGeneration); Snapshot.endpoints := s.(Snapshot.endpoints);
  Snapshot.links := v; Snapshot.reservations := s.(Snapshot.reservations);
  Snapshot.resourceCapacities := s.(Snapshot.resourceCapacities);
  Snapshot.workerBoots := s.(Snapshot.workerBoots); Snapshot.sourceBoots := s.(Snapshot.sourceBoots);
  Snapshot.epoch := s.(Snapshot.epoch); Snapshot.authorityGeneration := s.(Snapshot.authorityGeneration) |}.

Definition set_topologyGeneration (v : Z) (s : EvidenceSnapshot) : EvidenceSnapshot := {|
  Snapshot.topologyGeneration := v; Snapshot.capacityGeneration := s.(Snapshot.capacityGeneration);
  Snapshot.reservationGeneration := s.(Snapshot.reservationGeneration);
  Snapshot.congestionGeneration := s.(Snapshot.congestionGeneration);
  Snapshot.capabilityGeneration := s.(Snapshot.capabilityGeneration);
  Snapshot.healthGeneration := s.(Snapshot.healthGeneration);
  Snapshot.placementGeneration := s.(Snapshot.placementGeneration);
  Snapshot.policyGeneration := s.(Snapshot.policyGeneration); Snapshot.endpoints := s.(Snapshot.endpoints);
  Snapshot.links := s.(Snapshot.links); Snapshot.reservations := s.(Snapshot.reservations);
  Snapshot.resourceCapacities := s.(Snapshot.resourceCapacities);
  Snapshot.workerBoots := s.(Snapshot.workerBoots); Snapshot.sourceBoots := s.(Snapshot.sourceBoots);
  Snapshot.epoch := s.(Snapshot.epoch); Snapshot.authorityGeneration := s.(Snapshot.authorityGeneration) |}.

Definition set_capacityGeneration (v : Z) (s : EvidenceSnapshot) : EvidenceSnapshot := {|
  Snapshot.topologyGeneration := s.(Snapshot.topologyGeneration); Snapshot.capacityGeneration := v;
  Snapshot.reservationGeneration := s.(Snapshot.reservationGeneration);
  Snapshot.congestionGeneration := s.(Snapshot.congestionGeneration);
  Snapshot.capabilityGeneration := s.(Snapshot.capabilityGeneration);
  Snapshot.healthGeneration := s.(Snapshot.healthGeneration);
  Snapshot.placementGeneration := s.(Snapshot.placementGeneration);
  Snapshot.policyGeneration := s.(Snapshot.policyGeneration); Snapshot.endpoints := s.(Snapshot.endpoints);
  Snapshot.links := s.(Snapshot.links); Snapshot.reservations := s.(Snapshot.reservations);
  Snapshot.resourceCapacities := s.(Snapshot.resourceCapacities);
  Snapshot.workerBoots := s.(Snapshot.workerBoots); Snapshot.sourceBoots := s.(Snapshot.sourceBoots);
  Snapshot.epoch := s.(Snapshot.epoch); Snapshot.authorityGeneration := s.(Snapshot.authorityGeneration) |}.

Definition set_congestionGeneration (v : Z) (s : EvidenceSnapshot) : EvidenceSnapshot := {|
  Snapshot.topologyGeneration := s.(Snapshot.topologyGeneration);
  Snapshot.capacityGeneration := s.(Snapshot.capacityGeneration);
  Snapshot.reservationGeneration := s.(Snapshot.reservationGeneration); Snapshot.congestionGeneration := v;
  Snapshot.capabilityGeneration := s.(Snapshot.capabilityGeneration);
  Snapshot.healthGeneration := s.(Snapshot.healthGeneration);
  Snapshot.placementGeneration := s.(Snapshot.placementGeneration);
  Snapshot.policyGeneration := s.(Snapshot.policyGeneration); Snapshot.endpoints := s.(Snapshot.endpoints);
  Snapshot.links := s.(Snapshot.links); Snapshot.reservations := s.(Snapshot.reservations);
  Snapshot.resourceCapacities := s.(Snapshot.resourceCapacities);
  Snapshot.workerBoots := s.(Snapshot.workerBoots); Snapshot.sourceBoots := s.(Snapshot.sourceBoots);
  Snapshot.epoch := s.(Snapshot.epoch); Snapshot.authorityGeneration := s.(Snapshot.authorityGeneration) |}.

Definition set_workerBoots (v : gmap Z Z) (s : EvidenceSnapshot) : EvidenceSnapshot := {|
  Snapshot.topologyGeneration := s.(Snapshot.topologyGeneration);
  Snapshot.capacityGeneration := s.(Snapshot.capacityGeneration);
  Snapshot.reservationGeneration := s.(Snapshot.reservationGeneration);
  Snapshot.congestionGeneration := s.(Snapshot.congestionGeneration);
  Snapshot.capabilityGeneration := s.(Snapshot.capabilityGeneration);
  Snapshot.healthGeneration := s.(Snapshot.healthGeneration);
  Snapshot.placementGeneration := s.(Snapshot.placementGeneration);
  Snapshot.policyGeneration := s.(Snapshot.policyGeneration); Snapshot.endpoints := s.(Snapshot.endpoints);
  Snapshot.links := s.(Snapshot.links); Snapshot.reservations := s.(Snapshot.reservations);
  Snapshot.resourceCapacities := s.(Snapshot.resourceCapacities); Snapshot.workerBoots := v;
  Snapshot.sourceBoots := s.(Snapshot.sourceBoots); Snapshot.epoch := s.(Snapshot.epoch);
  Snapshot.authorityGeneration := s.(Snapshot.authorityGeneration) |}.

Definition set_sourceBoots (v : gmap Z Z) (s : EvidenceSnapshot) : EvidenceSnapshot := {|
  Snapshot.topologyGeneration := s.(Snapshot.topologyGeneration);
  Snapshot.capacityGeneration := s.(Snapshot.capacityGeneration);
  Snapshot.reservationGeneration := s.(Snapshot.reservationGeneration);
  Snapshot.congestionGeneration := s.(Snapshot.congestionGeneration);
  Snapshot.capabilityGeneration := s.(Snapshot.capabilityGeneration);
  Snapshot.healthGeneration := s.(Snapshot.healthGeneration);
  Snapshot.placementGeneration := s.(Snapshot.placementGeneration);
  Snapshot.policyGeneration := s.(Snapshot.policyGeneration); Snapshot.endpoints := s.(Snapshot.endpoints);
  Snapshot.links := s.(Snapshot.links); Snapshot.reservations := s.(Snapshot.reservations);
  Snapshot.resourceCapacities := s.(Snapshot.resourceCapacities);
  Snapshot.workerBoots := s.(Snapshot.workerBoots); Snapshot.sourceBoots := v;
  Snapshot.epoch := s.(Snapshot.epoch); Snapshot.authorityGeneration := s.(Snapshot.authorityGeneration) |}.

Definition set_epoch (v : Z) (s : EvidenceSnapshot) : EvidenceSnapshot := {|
  Snapshot.topologyGeneration := s.(Snapshot.topologyGeneration);
  Snapshot.capacityGeneration := s.(Snapshot.capacityGeneration);
  Snapshot.reservationGeneration := s.(Snapshot.reservationGeneration);
  Snapshot.congestionGeneration := s.(Snapshot.congestionGeneration);
  Snapshot.capabilityGeneration := s.(Snapshot.capabilityGeneration);
  Snapshot.healthGeneration := s.(Snapshot.healthGeneration);
  Snapshot.placementGeneration := s.(Snapshot.placementGeneration);
  Snapshot.policyGeneration := s.(Snapshot.policyGeneration); Snapshot.endpoints := s.(Snapshot.endpoints);
  Snapshot.links := s.(Snapshot.links); Snapshot.reservations := s.(Snapshot.reservations);
  Snapshot.resourceCapacities := s.(Snapshot.resourceCapacities);
  Snapshot.workerBoots := s.(Snapshot.workerBoots); Snapshot.sourceBoots := s.(Snapshot.sourceBoots);
  Snapshot.epoch := v; Snapshot.authorityGeneration := s.(Snapshot.authorityGeneration) |}.

(** The members of [CoordinatorServer::Impl] that handlers read and write, the atomic
    counters of the process, and the bytes of the store file once it was written. *)
Module Coord.
Record CoordState {B : Type} := {
  snap : EvidenceSnapshot;
  epoch : CoordinatorEpoch;
  broker : B;
  plans : gmap Z PlanRecord;
  currentByRequest : gmap Z Z;
  cancelled : gset Z;
  supersessions : list SupersessionRecord;
  requests : list CommunicationRequest;
  socketToWorker : gmap Z Z;
  workers : gmap Z WorkerInfo;
  fenced : gset (Z * Z);
  activeSockets : gset Z;
  stopping : bool;
  counters : Counters;
  store : option (list Z);
}.
Arguments CoordState : clear implicits.
End Coord.
Abbreviation CoordState := Coord.CoordState.

(** What a commit carries from its first critical section to its second. *)
Module Pending.
Record PendingCommit := {
  sock : Z;
  planId : CommunicationPlanId;
  resources : list ResourceId;
  sizes : list Bytes;
}.
End Pending.

Section coordinator.
Context {B : Type} `{HB : ResourceBroker B}.
Context (weights : gmap CostFactor double) (bounds : Bounds).

Definition set_snap (v : EvidenceSnapshot) (s : CoordState B) : CoordState B := {|
  Coord.snap := v; Coord.epoch := s.(Coord.epoch); Coord.broker := s.(Coord.broker);
  Coord.plans := s.(Coord.plans); Coord.currentByRequest := s.(Coord.currentByRequest);
  Coord.cancelled := s.(Coord.cancelled); Coord.supersessions := s.(Coord.supersessions);
  Coord.requests := s.(Coord.requests); Coord.socketToWorker := s.(Coord.socketToWorker);
  Coord.workers := s.(Coord.workers); Coord.fenced := s.(Coord.fenced);
  Coord.activeSockets := s.(Coord.activeSockets); Coord.stopping := s.(Coord.stopping);
  Coord.counters := s.(Coord.counters); Coord.store := s.(Coord.store) |}.

Definition set_coordEpoch (v : CoordinatorEpoch) (s : CoordState B) : CoordState B := {|
  Coord.snap := s.(Coord.snap); Coord.epoch := v; Coord.broker := s.(Coord.broker);
  Coord.plans := s.(Coord.plans); Coord.currentByRequest := s.(Coord.currentByRequest);
  Coord.cancelled := s.(Coord.cancelled); Coord.supersessions := s.(Coord.supersessions);
  Coord.requests := s.(Coord.requests); Coord.socketToWorker := s.(Coord.socketToWorker);
  Coord.workers := s.(Coord.workers); Coord.fenced := s.(Coord.fenced);
  Coord.activeSockets := s.(Coord.activeSockets); Coord.stopping := s.(Coord.stopping);
  Coord.counters := s.(Coord.counters); Coord.store := s.(Coord.store) |}.

Definition set_broker (v : B) (s : CoordState B) : CoordState B := {|
  Coord.snap := s.(Coord.snap); Coord.epoch := s.(Coord.epoch); Coord.broker := v;
  Coord.plans := s.(Coord.plans); Coord.currentByRequest := s.(Coord.currentByRequest);
  Coord.cancelled := s.(Coord.cancelled); Coord.supersessions := s.(Coord.supersessions);
  Coord.requests := s.(Coord.requests); Coord.socketToWorker := s.(Coord.socketToWorker);
  Coord.workers := s.(Coord.workers); Coord.fenced := s.(Coord.fenced);
  Coord.activeSockets := s.(Coord.activeSockets); Coord.stopping := s.(Coord.stopping);
  Coord.counters := s.(Coord.counters); Coord.store := s.(Coord.store) |}.

Definition set_plans (v : gmap Z PlanRecord) (s : CoordState B) : CoordState B := {|
  Coord.snap := s.(Coord.snap); Coord.epoch := s.(Coord.epoch); Coord.broker := s.(Coord.broker);
  Coord.plans := v; Coord.currentByRequest := s.(Coord.currentByRequest); Coord.cancelled := s.(Coord.cancelled);
  Coord.supersessions := s.(Coord.supersessions); Coord.requests := s.(Coord.requests);
  Coord.socketToWorker := s.(Coord.socketToWorker); Coord.workers := s.(Coord.workers);
  Coord.fenced := s.(Coord.fenced); Coord.activeSockets := s.(Coord.activeSockets);
  Coord.stopping := s.(Coord.stopping); Coord.counters := s.(Coord.counters); Coord.store := s.(Coord.store) |}.

Definition set_currentByRequest (v : gmap Z Z) (s : CoordState B) : CoordState B := {|
  Coord.snap := s.(Coord.snap); Coord.epoch := s.(Coord.epoch); Coord.broker := s.(Coord.broker);
  Coord.plans := s.(Coord.plans); Coord.currentByRequest := v; Coord.cancelled := s.(Coord.cancelled);
  Coord.supersessions := s.(Coord.supersessions); Coord.requests := s.(Coord.requests);
  Coord.socketToWorker := s.(Coord.socketToWorker); Coord.workers := s.(Coord.workers);
  Coord.fenced := s.(Coord.fenced); Coord.activeSockets := s.(Coord.activeSockets);
  Coord.stopping := s.(Coord.stopping); Coord.counters := s.(Coord.counters); Coord.store := s.(Coord.store) |}.

Definition set_cancelled (v : gset Z) (s : CoordState B) : CoordState B := {|
  Coord.snap := s.(Coord.snap); Coord.epoch := s.(Coord.epoch); Coord.broker := s.(Coord.broker);
  Coord.plans := s.(Coord.plans); Coord.currentByRequest := s.(Coord.currentByRequest); Coord.cancelled := v;
  Coord.supersessions := s.(Coord.supersessions); Coord.requests := s.(Coord.requests);
  Coord.socketToWorker := s.(Coord.socketToWorker); Coord.workers := s.(Coord.workers);
  Coord.fenced := s.(Coord.fenced); Coord.activeSockets := s.(Coord.activeSockets);
  Coord.stopping := s.(Coord.stopping); Coord.counters := s.(Coord.counters); Coord.store := s.(Coord.store) |}.

Definition set_supersessions (v : list SupersessionRecord) (s : CoordState B) : CoordState B := {|
  Coord.snap := s.(Coord.snap); Coord.epoch := s.(Coord.epoch); Coord.broker := s.(Coord.broker);
  Coord.plans := s.(Coord.plans); Coord.currentByRequest := s.(Coord.currentByRequest);
  Coord.cancelled := s.(Coord.cancelled); Coord.supersessions := v; Coord.requests := s.(Coord.requests);
  Coord.socketToWorker := s.(Coord.socketToWorker); Coord.workers := s.(Coord.workers);
  Coord.fenced := s.(Coord.fenced); Coord.activeSockets := s.(Coord.activeSockets);
  Coord.stopping := s.(Coord.stopping); Coord.counters := s.(Coord.counters); Coord.store := s.(Coord.store) |}.

Definition set_requests (v : list CommunicationRequest) (s : CoordState B) : CoordState B := {|
  Coord.snap := s.(Coord.snap); Coord.epoch := s.(Coord.epoch); Coord.broker := s.(Coord.broker);
  Coord.plans := s.(Coord.plans); Coord.currentByRequest := s.(Coord.currentByRequest);
  Coord.cancelled := s.(Coord.cancelled); Coord.supersessions := s.(Coord.supersessions); Coord.requests := v;
  Coord.socketToWorker := s.(Coord.socketToWorker); Coord.workers := s.(Coord.workers);
  Coord.fenced := s.(Coord.fenced); Coord.activeSockets := s.(Coord.activeSockets);
  Coord.stopping := s.(Coord.stopping); Coord.counters := s.(Coord.counters); Coord.store := s.(Coord.store) |}.

Definition set_socketToWorker (v : gmap Z Z) (s : CoordState B) : CoordState B := {|
  Coord.snap := s.(Coord.snap); Coord.epoch := s.(Coord.epoch); Coord.broker := s.(Coord.broker);
  Coord.plans := s.(Coord.plans); Coord.currentByRequest := s.(Coord.currentByRequest);
  Coord.cancelled := s.(Coord.cancelled); Coord.supersessions := s.(Coord.supersessions);
  Coord.requests := s.(Coord.requests); Coord.socketToWorker := v; Coord.workers := s.(Coord.workers);
  Coord.fenced := s.(Coord.fenced); Coord.activeSockets := s.(Coord.activeSockets);
  Coord.stopping := s.(Coord.stopping); Coord.counters := s.(Coord.counters); Coord.store := s.(Coord.store) |}.

Definition set_workers (v : gmap Z WorkerInfo) (s : CoordState B) : CoordState B := {|
  Coord.snap := s.(Coord.snap); Coord.epoch := s.(Coord.epoch); Coord.broker := s.(Coord.broker);
  Coord.plans := s.(Coord.plans); Coord.currentByRequest := s.(Coord.currentByRequest);
  Coord.cancelled := s.(Coord.cancelled); Coord.supersessions := s.(Coord.supersessions);
  Coord.requests := s.(Coord.requests); Coord.socketToWorker := s.(Coord.socketToWorker); Coord.workers := v;
  Coord.fenced := s.(Coord.fenced); Coord.activeSockets := s.(Coord.activeSockets);
  Coord.stopping := s.(Coord.stopping); Coord.counters := s.(Coord.counters); Coord.store := s.(Coord.store) |}.

Definition set_fenced (v : gset (Z * Z)) (s : CoordState B) : CoordState B := {|
  Coord.snap := s.(Coord.snap); Coord.epoch := s.(Coord.epoch); Coord.broker := s.(Coord.broker);
  Coord.plans := s.(Coord.plans); Coord.currentByRequest := s.(Coord.currentByRequest);
  Coord.cancelled := s.(Coord.cancelled); Coord.supersessions := s.(Coord.supersessions);
  Coord.requests := s.(Coord.requests); Coord.socketToWorker := s.(Coord.socketToWorker);
  Coord.workers := s.(Coord.workers); Coord.fenced := v; Coord.activeSockets := s.(Coord.activeSockets);
  Coord.stopping := s.(Coord.stopping); Coord.counters := s.(Coord.counters); Coord.store := s.(Coord.store) |}.

Definition set_activeSockets (v : gset Z) (s : CoordState B) : CoordState B := {|
  Coord.snap := s.(Coord.snap); Coord.epoch := s.(Coord.epoch); Coord.broker := s.(Coord.broker);
  Coord.plans := s.(Coord.plans); Coord.currentByRequest := s.(Coord.currentByRequest);
  Coord.cancelled := s.(Coord.cancelled); Coord.supersessions := s.(Coord.supersessions);
  Coord.requests := s.(Coord.requests); Coord.socketToWorker := s.(Coord.socketToWorker);
  Coord.workers := s.(Coord.workers); Coord.fenced := s.(Coord.fenced); Coord.activeSockets := v;
  Coord.stopping := s.(Coord.stopping); Coord.counters := s.(Coord.counters); Coord.store := s.(Coord.store) |}.

Definition set_stopping (v : bool) (s : CoordState B) : CoordState B := {|
  Coord.snap := s.(Coord.snap); Coord.epoch := s.(Coord.epoch); Coord.broker := s.(Coord.broker);
  Coord.plans := s.(Coord.plans); Coord.currentByRequest := s.(Coord.currentByRequest);
  Coord.cancelled := s.(Coord.cancelled); Coord.supersessions := s.(Coord.supersessions);
  Coord.requests := s.(Coord.requests); Coord.socketToWorker := s.(Coord.socketToWorker);
  Coord.workers := s.(Coord.workers); Coord.fenced := s.(Coord.fenced);
  Coord.activeSockets := s.(Coord.activeSockets); Coord.stopping := v; Coord.counters := s.(Coord.counters);
  Coord.store := s.(Coord.store) |}.

Definition set_counters (v : Counters) (s : CoordState B) : CoordState B := {|
  Coord.snap := s.(Coord.snap); Coord.epoch := s.(Coord.epoch); Coord.broker := s.(Coord.broker);
  Coord.plans := s.(Coord.plans); Coord.currentByRequest := s.(Coord.currentByRequest);
  Coord.cancelled := s.(Coord.cancelled); Coord.supersessions := s.(Coord.supersessions);
  Coord.requests := s.(Coord.requests); Coord.socketToWorker := s.(Coord.socketToWorker);
  Coord.workers := s.(Coord.workers); Coord.fenced := s.(Coord.fenced);
  Coord.activeSockets := s.(Coord.activeSockets); Coord.stopping := s.(Coord.stopping); Coord.counters := v;
  Coord.store := s.(Coord.store) |}.

Definition set_store (v : option (list Z)) (s : CoordState B) : CoordState B := {|
  Coord.snap := s.(Coord.snap); Coord.epoch := s.(Coord.epoch); Coord.broker := s.(Coord.broker);
  Coord.plans := s.(Coord.plans); Coord.currentByRequest := s.(Coord.currentByRequest);
  Coord.cancelled := s.(Coord.cancelled); Coord.supersessions := s.(Coord.supersessions);
  Coord.requests := s.(Coord.requests); Coord.socketToWorker := s.(Coord.socketToWorker);
  Coord.workers := s.(Coord.workers); Coord.fenced := s.(Coord.fenced);
  Coord.activeSockets := s.(Coord.activeSockets); Coord.stopping := s.(Coord.stopping);
  Coord.counters := s.(Coord.counters); Coord.store := v |}.

(** The constructor of [Impl], with the broker it holds. *)
Definition initialSnapshot : EvidenceSnapshot := {|
  Snapshot.topologyGeneration := 1; Snapshot.capacityGeneration := 1; Snapshot.reservationGeneration := 1;
  Snapshot.congestionGeneration := 1; Snapshot.capabilityGeneration := 1; Snapshot.healthGeneration := 1;
  Snapshot.placementGeneration := 1; Snapshot.policyGeneration := 1; Snapshot.endpoints := [];
  Snapshot.links := []; Snapshot.reservations := []; Snapshot.resourceCapacities := [];
  Snapshot.workerBoots := ∅; Snapshot.sourceBoots := ∅; Snapshot.epoch := 1;
  Snapshot.authorityGeneration := currentAuthority |}.

Definition initialCoordinator (broker : B) : CoordState B := {|
  Coord.snap := initialSnapshot; Coord.epoch := 1; Coord.broker := broker; Coord.plans := ∅;
  Coord.currentByRequest := ∅; Coord.cancelled := ∅; Coord.supersessions := []; Coord.requests := [];
  Coord.socketToWorker := ∅; Coord.workers := ∅; Coord.fenced := ∅; Coord.activeSockets := ∅;
  Coord.stopping := false; Coord.counters := initialCounters; Coord.store := None |}.

(** ** Evidence *)

(** [for (auto& x : v) if (x.id == e.id) { x = e; replaced = true; break; }
    if (!replaced) v.push_back(e);] *)
Fixpoint replace_or_push {A} (key : A -> Z) (e : A) (l : list A) : list A :=
  match l with
  | [] => [e]
  | x :: l' => if key x =? key e then e :: l' else x :: replace_or_push key e l'
  end.

Definition publishEndpoint (e : Endpoint) (snap : EvidenceSnapshot) : EvidenceSnapshot :=
  set_endpoints (replace_or_push Endpoint.id e snap.(Snapshot.endpoints)) snap.

Definition publishLink (l : Link) (snap : EvidenceSnapshot) : EvidenceSnapshot :=
  set_topologyGeneration (Generation_next snap.(Snapshot.topologyGeneration))
    (set_links (replace_or_push Link.id l snap.(Snapshot.links)) snap).

Definition unreachable (e : Endpoint) : Endpoint := {|
  Endpoint.id := e.(Endpoint.id); Endpoint.generation := e.(Endpoint.generation); Endpoint.kind := e.(Endpoint.kind);
  Endpoint.node := e.(Endpoint.node); Endpoint.device := e.(Endpoint.device); Endpoint.location := e.(Endpoint.location);
  Endpoint.address := e.(Endpoint.address); Endpoint.protocol := e.(Endpoint.protocol);
  Endpoint.version := e.(Endpoint.version); Endpoint.name := e.(Endpoint.name);
  Endpoint.capability := e.(Endpoint.capability); Endpoint.health := e.(Endpoint.health);
  Endpoint.reachable := false; Endpoint.ready := false;
  Endpoint.worker := e.(Endpoint.worker); Endpoint.workerBoot := e.(Endpoint.workerBoot);
  Endpoint.source := e.(Endpoint.source); Endpoint.sourceBoot := e.(Endpoint.sourceBoot);
  Endpoint.failureDomain := e.(Endpoint.failureDomain); Endpoint.provenance := e.(Endpoint.provenance) |}.

Definition published_by (worker boot : Z) (e : Endpoint) : Endpoint := {|
  Endpoint.id := e.(Endpoint.id); Endpoint.generation := e.(Endpoint.generation); Endpoint.kind := e.(Endpoint.kind);
  Endpoint.node := e.(Endpoint.node); Endpoint.device := e.(Endpoint.device); Endpoint.location := e.(Endpoint.location);
  Endpoint.address := e.(Endpoint.address); Endpoint.protocol := e.(Endpoint.protocol);
  Endpoint.version := e.(Endpoint.version); Endpoint.name := e.(Endpoint.name);
  Endpoint.capability := e.(Endpoint.capability); Endpoint.health := e.(Endpoint.health);
  Endpoint.reachable := e.(Endpoint.reachable); Endpoint.ready := e.(Endpoint.ready);
  Endpoint.worker := worker; Endpoint.workerBoot := boot;
  Endpoint.source := e.(Endpoint.source); Endpoint.sourceBoot := e.(Endpoint.sourceBoot);
  Endpoint.failureDomain := e.(Endpoint.failureDomain); Endpoint.provenance := e.(Endpoint.provenance) |}.

(** A link with its publisher's boot, its capacity evidence or its congestion replaced. *)
Definition update_link (boot : Z) (cap : Capacity) (cong : Congestion) (l : Link) : Link := {|
  Link.id := l.(Link.id); Link.generation := l.(Link.generation); Link.source := l.(Link.source);
  Link.destination := l.(Link.destination); Link.kind := l.(Link.kind); Link.transport := l.(Link.transport);
  Link.directed := l.(Link.directed); Link.capacity := l.(Link.capacity);
  Link.effectiveBandwidth := l.(Link.effectiveBandwidth); Link.latency := l.(Link.latency);
  Link.health := l.(Link.health); Link.congestion := cong; Link.capacityEvidence := cap;
  Link.topologyGeneration := l.(Link.topologyGeneration); Link.capabilityGeneration := l.(Link.capabilityGeneration);
  Link.failureDomain := l.(Link.failureDomain); Link.workerBoot := boot; Link.provenance := l.(Link.provenance) |}.

(** ** Workers *)

Definition fenceWorker (id : WorkerId) (st : CoordState B) : CoordState B :=
  let snap := st.(Coord.snap) in
  let snap := set_sourceBoots (delete id snap.(Snapshot.sourceBoots)) (set_workerBoots (delete id snap.(Snapshot.workerBoots)) snap) in
  match st.(Coord.workers) !! id with
  | None => set_snap snap st
  | Some w =>
      let w' := {| WorkerInfo.id := w.(WorkerInfo.id); WorkerInfo.boot := w.(WorkerInfo.boot);
                   WorkerInfo.name := w.(WorkerInfo.name); WorkerInfo.sock := w.(WorkerInfo.sock);
                   WorkerInfo.endpoints := w.(WorkerInfo.endpoints); WorkerInfo.links := w.(WorkerInfo.links);
                   WorkerInfo.alive := false |} in
      let snap := set_endpoints ((fun e => if bool_decide (e.(Endpoint.id) ∈ w.(WorkerInfo.endpoints)) then unreachable e else e)
                                   <$> snap.(Snapshot.endpoints)) snap in
      let snap := set_links (filter (fun l => l.(Link.id) ∉ w.(WorkerInfo.links)) snap.(Snapshot.links)) snap in
      let snap := set_topologyGeneration (Generation_next snap.(Snapshot.topologyGeneration)) snap in
      set_snap snap (set_workers (<[id := w']> st.(Coord.workers))
        (set_fenced ({[(id, w.(WorkerInfo.boot))]} ∪ st.(Coord.fenced)) st))
  end.

(** A connection is accepted. *)
Definition acceptSocket (s : Z) (st : CoordState B) : CoordState B :=
  set_activeSockets ({[s]} ∪ st.(Coord.activeSockets)) st.

(** [closeSock(s); activeSockets.erase(s)] at the end of every connection: [closeSock] sets
    its argument to INVALID_SOCKET, so what is erased is INVALID_SOCKET. *)
Definition INVALID_SOCKET : Z := 2 ^ 64 - 1.

Definition closeConnection (s : Z) (st : CoordState B) : CoordState B :=
  let s := INVALID_SOCKET in
  set_activeSockets (st.(Coord.activeSockets) ∖ {[s]}) st.

(** The end of a connection on which [recvFrame] failed. *)
Definition disconnectSocket (s : Z) (st : CoordState B) : CoordState B :=
  let st := match st.(Coord.socketToWorker) !! s with
            | Some w => let st := fenceWorker w st in set_socketToWorker (delete s st.(Coord.socketToWorker)) st
            | None => st
            end in
  closeConnection s st.

(** The publisher check: the worker is registered, alive and of this boot. *)
Definition currentPublisher (worker boot : Z) (st : CoordState B) : option WorkerInfo :=
  match st.(Coord.workers) !! worker with
  | Some w => if negb w.(WorkerInfo.alive) || negb (w.(WorkerInfo.boot) =? boot) then None else Some w
  | None => None
  end.

(** ** Handlers *)

(** What a handler leaves: the messages it sent, or the exception it let out. *)
Definition Handled : Type := result (list (Z * Message)) * CoordState B.

Definition reply (s : Z) (m : Message) (st : CoordState B) : Handled := (Ok [(s, m)], st).
Definition sendError (s : Z) (e : string) (st : CoordState B) : Handled := reply s (errorMessage e) st.
Definition sendOk (s : Z) (id : Z) (st : CoordState B) : Handled := reply s (okMessage id) st.

Definition handleRegister (s : Z) (m : Message) (st : CoordState B) : Handled :=
  let worker := m.(Message.worker) in
  let boot := m.(Message.boot) in
  if isNull worker || isNull boot then sendError s "null worker/boot" st
  else if bool_decide ((worker, boot) ∈ st.(Coord.fenced)) then sendError s "fenced boot authority" st
  else
    let w := {| WorkerInfo.id := worker; WorkerInfo.boot := boot; WorkerInfo.name := m.(Message.name);
                WorkerInfo.sock := s; WorkerInfo.endpoints := []; WorkerInfo.links := []; WorkerInfo.alive := true |} in
    let snap := st.(Coord.snap) in
    let snap := set_sourceBoots (<[worker := boot]> snap.(Snapshot.sourceBoots))
                  (set_workerBoots (<[worker := boot]> snap.(Snapshot.workerBoots)) snap) in
    sendOk s worker (set_snap snap (set_socketToWorker (<[s := worker]> st.(Coord.socketToWorker))
                                      (set_workers (<[worker := w]> st.(Coord.workers)) st))).

Definition handlePublishEndpoint (s : Z) (m : Message) (st : CoordState B) : Handled :=
  match currentPublisher m.(Message.worker) m.(Message.boot) st with
  | None => sendError s "stale publisher authority" st
  | Some w =>
      let e := published_by m.(Message.worker) m.(Message.boot) m.(Message.endpoint) in
      let w' := {| WorkerInfo.id := w.(WorkerInfo.id); WorkerInfo.boot := w.(WorkerInfo.boot);
                   WorkerInfo.name := w.(WorkerInfo.name); WorkerInfo.sock := w.(WorkerInfo.sock);
                   WorkerInfo.endpoints := w.(WorkerInfo.endpoints) ++ [e.(Endpoint.id)];
                   WorkerInfo.links := w.(WorkerInfo.links); WorkerInfo.alive := w.(WorkerInfo.alive) |} in
      sendOk s e.(Endpoint.id) (set_workers (<[m.(Message.worker) := w']> st.(Coord.workers))
                                  (set_snap (publishEndpoint e st.(Coord.snap)) st))
  end.

Definition handlePublishLink (s : Z) (m : Message) (st : CoordState B) : Handled :=
  match currentPublisher m.(Message.worker) m.(Message.boot) st with
  | None => sendError s "stale publisher authority" st
  | Some w =>
      let l := update_link m.(Message.boot) m.(Message.link).(Link.capacityEvidence) m.(Message.link).(Link.congestion) m.(Message.link) in
      let w' := {| WorkerInfo.id := w.(WorkerInfo.id); WorkerInfo.boot := w.(WorkerInfo.boot);
                   WorkerInfo.name := w.(WorkerInfo.name); WorkerInfo.sock := w.(WorkerInfo.sock);
                   WorkerInfo.endpoints := w.(WorkerInfo.endpoints);
                   WorkerInfo.links := w.(WorkerInfo.links) ++ [l.(Link.id)]; WorkerInfo.alive := w.(WorkerInfo.alive) |} in
      sendOk s l.(Link.id) (set_workers (<[m.(Message.worker) := w']> st.(Coord.workers))
                              (set_snap (publishLink l st.(Coord.snap)) st))
  end.

(** The publisher check of the dynamic evidence is made only for a named worker. *)
Definition stalePublisher (m : Message) (st : CoordState B) : bool :=
  negb (isNull m.(Message.worker)) &&
  match currentPublisher m.(Message.worker) m.(Message.boot) st with Some _ => false | None => true end.

Definition handlePublishCapacity (s : Z) (m : Message) (st : CoordState B) : Handled :=
  if stalePublisher m st then sendError s "stale publisher authority" st
  else
    let snap := st.(Coord.snap) in
    let snap := set_capacityGeneration (Generation_next snap.(Snapshot.capacityGeneration)) snap in
    let upd l := if l.(Link.id) =? m.(Message.linkId)
                 then update_link l.(Link.workerBoot) m.(Message.capacity) l.(Link.congestion) l else l in
    sendOk s m.(Message.linkId) (set_snap (set_links (upd <$> snap.(Snapshot.links)) snap) st).

Definition handlePublishCongestion (s : Z) (m : Message) (st : CoordState B) : Handled :=
  if stalePublisher m st then sendError s "stale publisher authority" st
  else
    let snap := st.(Coord.snap) in
    let snap := set_congestionGeneration (Generation_next snap.(Snapshot.congestionGeneration)) snap in
    let upd l := if l.(Link.id) =? m.(Message.linkId)
                 then update_link l.(Link.workerBoot) l.(Link.capacityEvidence) m.(Message.congestion) l else l in
    sendOk s m.(Message.linkId) (set_snap (set_links (upd <$> snap.(Snapshot.links)) snap) st).

Definition handleQueryPlan (s : Z) (m : Message) (st : CoordState B) : Handled :=
  reply s (match st.(Coord.plans) !! m.(Message.planId) with
           | Some rec => resultMessage true (PlanState_u8 rec.(PlanRecord.state))
           | None => resultMessage false 0
           end) st.

(** The executor of a plan: worker and boot of the first endpoint that is the source of
    its first stage. *)
Definition executorOf (plan : CommunicationPlan) (snap : EvidenceSnapshot) : WorkerId * WorkerBootId :=
  match plan.(Plan.orderedStages) with
  | [] => (0, 0)
  | st :: _ =>
      match first_return (fun e => if e.(Endpoint.id) =? st.(Stage.source)
                                   then Some (e.(Endpoint.worker), e.(Endpoint.workerBoot)) else None)
              snap.(Snapshot.endpoints) with
      | Some x => x
      | None => (0, 0)
      end
  end.

Definition handleSubmit (s : Z) (m : Message) (st : CoordState B) : Handled :=
  let request := m.(Message.request) in
  if isNull request.(Request.id) then sendError s "null request" st
  else if bool_decide (request.(Request.id) ∈ st.(Coord.cancelled)) then sendError s "request already cancelled" st
  else
    let st := set_requests (st.(Coord.requests) ++ [request]) st in
    let '(r, cs) := planCommunication request st.(Coord.snap) weights bounds st.(Coord.counters) in
    let st := set_counters cs st in
    match r with
    | Throw e => (Throw e, st)
    | Ok po =>
        let plan_reply plan := makeMessage MessageType.PLAN_RESULT 0 0 0 plan 0 po.(PlanOutcome.success) 0 "" in
        match po.(PlanOutcome.success), po.(PlanOutcome.plan) with
        | true, Some plan =>
            let '(worker, boot) := executorOf plan st.(Coord.snap) in
            let rec := {| PlanRecord.plan := plan; PlanRecord.state := PlanState.PLAN_READY;
                          PlanRecord.worker := worker; PlanRecord.boot := boot |} in
            reply s (plan_reply plan)
              (set_currentByRequest (<[request.(Request.id) := plan.(Plan.id)]> st.(Coord.currentByRequest))
                 (set_plans (<[plan.(Plan.id) := rec]> st.(Coord.plans)) st))
        | _, _ => reply s (plan_reply Plan_default) st
        end
    end.

Definition update_state (id : Z) (rec : PlanRecord) (v : PlanState) (st : CoordState B) : CoordState B :=
  set_plans (<[id := set_state v rec]> st.(Coord.plans)) st.

Definition handleRevalidate (s : Z) (m : Message) (st : CoordState B) : Handled :=
  let id := m.(Message.planId) in
  match st.(Coord.plans) !! id with
  | None => reply s (resultMessage false id) st
  | Some rec =>
      if (revalidatePlan rec.(PlanRecord.plan) st.(Coord.snap)).(RevalidationResult.ok)
      then reply s (resultMessage true id) (update_state id rec PlanState.AWAITING_EXECUTION st)
      else reply s (resultMessage false id) (update_state id rec PlanState.REVALIDATION_REQUIRED st)
  end.

(** The order to execute a plan, for its executor. *)
Definition executeMessage (rec : PlanRecord) : Message :=
  makeMessage MessageType.EXECUTE 0 rec.(PlanRecord.worker) rec.(PlanRecord.boot) Plan_default rec.(PlanRecord.plan).(Plan.id) false
    (match rec.(PlanRecord.plan).(Plan.orderedStages) with [] => 0 | x :: _ => x.(Stage.payload) end) "".

Definition handleHandoff (s : Z) (m : Message) (st : CoordState B) : Handled :=
  let id := m.(Message.planId) in
  match st.(Coord.plans) !! id with
  | None => reply s (resultMessage false id) st
  | Some rec =>
      if (revalidatePlan rec.(PlanRecord.plan) st.(Coord.snap)).(RevalidationResult.ok) then
        let handoff :=
          if isNull rec.(PlanRecord.worker) then []
          else match st.(Coord.workers) !! rec.(PlanRecord.worker) with
               | Some w => if w.(WorkerInfo.alive) then [(w.(WorkerInfo.sock), executeMessage rec)] else []
               | None => []
               end in
        (Ok (handoff ++ [(s, resultMessage true id)]), update_state id rec PlanState.ACTIVE st)
      else reply s (resultMessage false id) (update_state id rec PlanState.REVALIDATION_REQUIRED st)
  end.

Definition handleResult (s : Z) (m : Message) (st : CoordState B) : Handled :=
  let id := m.(Message.planId) in
  match st.(Coord.plans) !! id with
  | Some rec =>
      if bool_decide (rec.(PlanRecord.state) = PlanState.ACTIVE) then
        if negb (isNull m.(Message.worker)) &&
           (negb (rec.(PlanRecord.worker) =? m.(Message.worker)) || negb (rec.(PlanRecord.boot) =? m.(Message.boot)))
        then sendError s "stale result authority" st
        else reply s (resultMessage true id)
               (update_state id rec (if m.(Message.ok) then PlanState.COMPLETED else PlanState.FAILED) st)
      else reply s (makeMessage MessageType.COMMIT_RESULT 0 0 0 Plan_default id false 0 "stale result") st
  | None => reply s (makeMessage MessageType.COMMIT_RESULT 0 0 0 Plan_default id false 0 "stale result") st
  end.

(** States in which a plan may hold staging resources. *)
Definition may_hold (s : PlanState) : bool :=
  match s with
  | PlanState.COMMITTED | PlanState.AWAITING_EXECUTION | PlanState.ACTIVE | PlanState.AWAITING_RESOURCE_COMMIT => true
  | _ => false
  end.

Definition closed (s : PlanState) : bool :=
  match s with PlanState.COMPLETED | PlanState.CANCELLED => true | _ => false end.

Definition releaseClaims (plan : CommunicationPlan) (st : CoordState B) : CoordState B :=
  set_broker (release st.(Coord.broker) plan.(Plan.requiredResourceClaims)) st.

Definition handleCancel (s : Z) (m : Message) (st : CoordState B) : Handled :=
  let id := m.(Message.planId) in
  let st := set_cancelled ({[m.(Message.requestId)]} ∪ st.(Coord.cancelled)) st in
  let st := match st.(Coord.plans) !! id with
            | None => st
            | Some rec =>
                let st := if may_hold rec.(PlanRecord.state) then releaseClaims rec.(PlanRecord.plan) st else st in
                if closed rec.(PlanRecord.state) then st else update_state id rec PlanState.CANCELLED st
            end in
  reply s (resultMessage true id) st.

Definition handleSupersede (s : Z) (m : Message) (st : CoordState B) : Handled :=
  let id := m.(Message.planId) in
  let st := match st.(Coord.plans) !! id with
            | Some rec => if closed rec.(PlanRecord.state) then st
                          else releaseClaims rec.(PlanRecord.plan) (update_state id rec PlanState.SUPERSEDED st)
            | None => st
            end in
  let st := match st.(Coord.currentByRequest) !! m.(Message.requestId) with
            | Some cur =>
                if cur =? id then st
                else match st.(Coord.plans) !! cur with
                     | Some old => set_supersessions (st.(Coord.supersessions) ++
                           [{| SupersessionRecord.superseded := cur; SupersessionRecord.newer := id |}])
                           (update_state cur old PlanState.SUPERSEDED st)
                     | None => st
                     end
            | None => st
            end in
  reply s (resultMessage true id) st.

(** The plans in the order of their identities, as [std::map] iterates. *)
Definition plansInOrder (plans : gmap Z PlanRecord) : list PlanRecord :=
  snd <$> stable_sort (fun a b : Z * PlanRecord => a.1 <? b.1) (map_to_list plans).

Definition storeOf (st : CoordState B) : StoreState := {|
  StoreState.epoch := st.(Coord.epoch);
  StoreState.plans := (fun rec => {| StoreRecord.plan := rec.(PlanRecord.plan); StoreRecord.state := rec.(PlanRecord.state) |})
                        <$> plansInOrder st.(Coord.plans);
  StoreState.supersessions := st.(Coord.supersessions);
  StoreState.requests := st.(Coord.requests) |}.

Definition saveStore (st : CoordState B) : CoordState B := set_store (Some (serializeStore (storeOf st))) st.

Definition handleSave (s : Z) (st : CoordState B) : Handled := reply s (resultMessage true 0) (saveStore st).

Definition handleShutdown (s : Z) (st : CoordState B) : Handled := reply s (resultMessage true 0) (set_stopping true st).

(** [stop]: the sockets it closes end their connections. *)
Definition stopServer (st : CoordState B) : CoordState B := set_stopping true st.

(** ** Commit: two critical sections around the broker *)

(** The first critical section: [inl] the reply that ends the commit, or the claims. *)
Definition commitBegin (s : Z) (m : Message) (st : CoordState B) : (list (Z * Message) + Pending.PendingCommit) * CoordState B :=
  let id := m.(Message.planId) in
  match st.(Coord.plans) !! id with
  | None => (inl [(s, errorMessage "plan not found")], st)
  | Some rec =>
      if negb (bool_decide (rec.(PlanRecord.state) = PlanState.PLAN_READY)) &&
         negb (bool_decide (rec.(PlanRecord.state) = PlanState.AWAITING_RESOURCE_COMMIT))
      then (inl [(s, errorMessage "plan not committable")], st)
      else if bool_decide (rec.(PlanRecord.plan).(Plan.requestId) ∈ st.(Coord.cancelled))
      then (inl [(s, errorMessage "request cancelled")], st)
      else
        let resources := rec.(PlanRecord.plan).(Plan.requiredResourceClaims) in
        let payload := match rec.(PlanRecord.plan).(Plan.orderedStages) with [] => 1024 | x :: _ => x.(Stage.payload) end in
        (inr {| Pending.sock := s; Pending.planId := id; Pending.resources := resources;
                Pending.sizes := replicate (length resources) payload |},
         update_state id rec PlanState.AWAITING_RESOURCE_COMMIT st)
  end.

(** The acquisition, outside the lock. *)
Definition commitAcquire (p : Pending.PendingCommit) (st : CoordState B) : result Acquired * CoordState B :=
  let '(a, b) := acquire st.(Coord.broker) p.(Pending.resources) p.(Pending.sizes) in (a, set_broker b st).

(** States that ended while the broker was called. *)
Definition overtaken (s : PlanState) : bool :=
  match s with PlanState.CANCELLED | PlanState.SUPERSEDED | PlanState.RETIRED => true | _ => false end.

(** The second critical section. *)
Definition commitFinish (p : Pending.PendingCommit) (a : Acquired) (st : CoordState B) : list (Z * Message) * CoordState B :=
  let id := p.(Pending.planId) in
  let undo st := match a with
                 | Granted => set_broker (release st.(Coord.broker) p.(Pending.resources)) st
                 | Denied _ => st
                 end in
  match st.(Coord.plans) !! id with
  | None => ([(p.(Pending.sock), errorMessage "plan missing after commit")], undo st)
  | Some rec =>
      if bool_decide (rec.(PlanRecord.plan).(Plan.requestId) ∈ st.(Coord.cancelled)) || overtaken rec.(PlanRecord.state)
      then ([(p.(Pending.sock), errorMessage "cancelled during commit")], update_state id rec PlanState.CANCELLED (undo st))
      else match a with
           | Denied berr => ([(p.(Pending.sock), errorMessage ("resource commit failed: " +:+ berr))],
                             update_state id rec PlanState.FAILED st)
           | Granted => ([(p.(Pending.sock), okMessage id)], update_state id rec PlanState.COMMITTED st)
           end
  end.

(** [handleCommit] run without interruption. *)
Definition handleCommit (s : Z) (m : Message) (st : CoordState B) : Handled :=
  match commitBegin s m st with
  | (inl out, st) => (Ok out, st)
  | (inr p, st) =>
      match commitAcquire p st with
      | (Ok a, st) => let '(out, st) := commitFinish p a st in (Ok out, st)
      | (Throw e, st) => (Throw e, st)
      end
  end.

Definition handleMessage (s : Z) (m : Message) (st : CoordState B) : Handled :=
  match m.(Message.type) with
  | MessageType.REGISTER => handleRegister s m st
  | MessageType.PUBLISH_ENDPOINT => handlePublishEndpoint s m st
  | MessageType.PUBLISH_LINK => handlePublishLink s m st
  | MessageType.PUBLISH_CAPACITY => handlePublishCapacity s m st
  | MessageType.PUBLISH_CONGESTION => handlePublishCongestion s m st
  | MessageType.QUERY_PLAN => handleQueryPlan s m st
  | MessageType.SUBMIT_REQUEST => handleSubmit s m st
  | MessageType.COMMIT_REQUEST => handleCommit s m st
  | MessageType.REVALIDATE => handleRevalidate s m st
  | MessageType.EXECUTION_HANDOFF => handleHandoff s m st
  | MessageType.EXECUTION_RESULT => handleResult s m st
  | MessageType.CANCEL => handleCancel s m st
  | MessageType.SUPERSEDE => handleSupersede s m st
  | MessageType.SAVE => handleSave s st
  | MessageType.SHUTDOWN => handleShutdown s st
  | _ => sendError s "unsupported message" st
  end.

(** ** Recovery *)

(** The part of [loadStoreIfAny] after the store was parsed. *)
Definition loadStore (parsed : option StoreState) (st : CoordState B) : CoordState B :=
  match parsed with
  | None => st
  | Some stored =>
      let epoch := Generation_next stored.(StoreState.epoch) in
      let st := set_coordEpoch epoch st in
      let st := set_snap (set_epoch epoch st.(Coord.snap)) st in
      let stored := conservativeRecovery stored in
      let load st rec :=
        let plan := rec.(StoreRecord.plan) in
        let r := {| PlanRecord.plan := plan; PlanRecord.state := rec.(StoreRecord.state);
                    PlanRecord.worker := 0; PlanRecord.boot := 0 |} in
        set_currentByRequest (<[plan.(Plan.requestId) := plan.(Plan.id)]> st.(Coord.currentByRequest))
          (set_plans (<[plan.(Plan.id) := r]> st.(Coord.plans)) st) in
      let st := foldl load st stored.(StoreState.plans) in
      set_requests stored.(StoreState.requests) (set_supersessions stored.(StoreState.supersessions) st)
  end.

(** [loadStoreIfAny], given the bytes of the store file if there is one: a file that is
    empty or does not parse is passed over. *)
Definition parsedFile (file : option (list Z)) : option StoreState :=
  match file with
  | None | Some [] => None
  | Some data => match parseStore data with inl _ => None | inr stored => Some stored end
  end.

Definition loadStoreIfAny (file : option (list Z)) (st : CoordState B) : CoordState B := loadStore (parsedFile file) st.

(** [CoordinatorServer::planState], [hasRevalidatedPlans] and [currentPlanCount]. *)
Definition planState (id : CommunicationPlanId) (st : CoordState B) : PlanState :=
  match st.(Coord.plans) !! id with Some rec => rec.(PlanRecord.state) | None => PlanState.RETIRED end.

Definition hasRevalidatedPlans (st : CoordState B) : bool :=
  existsb (fun rec => bool_decide (rec.(PlanRecord.state) = PlanState.REVALIDATION_REQUIRED)) (plansInOrder st.(Coord.plans)).

Definition currentPlanCount (st : CoordState B) : nat := size st.(Coord.plans).
End coordinator.
