(* ===== verification/Suite.v ===== *)
(** * The test harness

    Models tests/framework.hpp: a test is a program that calls the library, whose process
    counters it shares with the tests before it, and records failed assertions.  [CHECK]
    goes on after a failure, [REQUIRE] ends the test, an exception ends the program.  The
    suites of tests/ follow in files of their own, where every one of them is proved to
    pass. *)

From S2P Require Import Prelude Core Enums Double Model Scenario Feasibility Ranking Cost Enumerate Assembly.
From S2P Require Import PointToPoint Multicast Collective Planner Revalidation Broker Message Codec Store Persistence Coordinator.

Inductive verdict (A : Type) :=
  | Value (a : A)
  | Returned                 (* a [REQUIRE] failed *)
  | Thrown (e : exn).
Arguments Value {A} _.
Arguments Returned {A}.
Arguments Thrown {A} _.

(** The process: the library's counters and the number of failed assertions. *)
Definition Process : Type := Counters * nat.
Definition T (A : Type) : Type := Process -> verdict A * Process.

Definition tret {A} (a : A) : T A := fun p => (Value a, p).
Definition tbind {A B} (m : T A) (f : A -> T B) : T B := fun p =>
  match m p with
  | (Value a, p') => f a p'
  | (Returned, p') => (Returned, p')
  | (Thrown e, p') => (Thrown e, p')
  end.

Declare Scope suite_scope.
Delimit Scope suite_scope with suite.
Notation "'do' x <- m ; k" := (tbind m (fun x => k)) (at level 200, x name, m at level 100, k at level 200) : suite_scope.
Notation "'do!' m ; k" := (tbind m (fun _ => k)) (at level 200, m at level 100, k at level 200) : suite_scope.
Open Scope suite_scope.

Definition CHECK (cond : bool) : T () := fun '(cs, failures) => (Value (), (cs, if cond then failures else S failures)).
Definition REQUIRE (cond : bool) : T () := fun '(cs, failures) => if cond then (Value (), (cs, failures)) else (Returned, (cs, S failures)).

(** A call of the library, on the process's counters. *)
Definition library {A} (m : M A) : T A := fun '(cs, failures) =>
  match m cs with
  | (Ok a, cs') => (Value a, (cs', failures))
  | (Throw e, cs') => (Thrown e, (cs', failures))
  end.

(** [*o] of an optional, undefined when it is empty. *)
Definition deref {A} (o : option A) : T A := match o with Some a => tret a | None => fun p => (Thrown undefined_index, p) end.

Fixpoint for_each {A} (l : list A) (body : A -> T ()) : T () :=
  match l with
  | [] => tret ()
  | x :: l' => do! body x; for_each l' body
  end.

(** [CP_MAIN]: the registered tests in order; [Some] of the exit code, [None] when an
    exception is not caught. *)
Fixpoint runTests (tests : list (T ())) (p : Process) : option Process :=
  match tests with
  | [] => Some p
  | t :: tests' =>
      match t p with
      | (Thrown _, _) => None
      | (_, p') => runTests tests' p'
      end
  end.

Definition CP_MAIN (tests : list (T ())) : option Z :=
  match runTests tests (initialCounters, 0%nat) with
  | Some (_, failures) => Some (if (failures =? 0)%nat then 0 else 1)
  | None => None
  end.

(** ** Changing one field of an evidence *)

Definition edit_endpoint (generation : EndpointGeneration) (kind : EndpointKind) (worker boot : Z) (e : Endpoint) : Endpoint := {|
  Endpoint.id := e.(Endpoint.id); Endpoint.generation := generation; Endpoint.kind := kind; Endpoint.node := e.(Endpoint.node);
  Endpoint.device := e.(Endpoint.device); Endpoint.location := e.(Endpoint.location); Endpoint.address := e.(Endpoint.address);
  Endpoint.protocol := e.(Endpoint.protocol); Endpoint.version := e.(Endpoint.version); Endpoint.name := e.(Endpoint.name);
  Endpoint.capability := e.(Endpoint.capability); Endpoint.health := e.(Endpoint.health); Endpoint.reachable := e.(Endpoint.reachable);
  Endpoint.ready := e.(Endpoint.ready); Endpoint.worker := worker; Endpoint.workerBoot := boot; Endpoint.source := e.(Endpoint.source);
  Endpoint.sourceBoot := e.(Endpoint.sourceBoot); Endpoint.failureDomain := e.(Endpoint.failureDomain);
  Endpoint.provenance := e.(Endpoint.provenance) |}.

Definition set_endpointGeneration (g : EndpointGeneration) (e : Endpoint) : Endpoint :=
  edit_endpoint g e.(Endpoint.kind) e.(Endpoint.worker) e.(Endpoint.workerBoot) e.
Definition set_kind (k : EndpointKind) (e : Endpoint) : Endpoint :=
  edit_endpoint e.(Endpoint.generation) k e.(Endpoint.worker) e.(Endpoint.workerBoot) e.
Definition set_worker (worker boot : Z) (e : Endpoint) : Endpoint := edit_endpoint e.(Endpoint.generation) e.(Endpoint.kind) worker boot e.

Definition edit_link (generation : LinkGeneration) (healthy : bool) (congestion : Congestion) (failureDomain : string) (l : Link) : Link := {|
  Link.id := l.(Link.id); Link.generation := generation; Link.source := l.(Link.source); Link.destination := l.(Link.destination);
  Link.kind := l.(Link.kind); Link.transport := l.(Link.transport); Link.directed := l.(Link.directed); Link.capacity := l.(Link.capacity);
  Link.effectiveBandwidth := l.(Link.effectiveBandwidth); Link.latency := l.(Link.latency);
  Link.health := {| Health.generation := l.(Link.health).(Health.generation); Health.healthy := healthy;
                    Health.message := l.(Link.health).(Health.message) |};
  Link.congestion := congestion; Link.capacityEvidence := l.(Link.capacityEvidence);
  Link.topologyGeneration := l.(Link.topologyGeneration); Link.capabilityGeneration := l.(Link.capabilityGeneration);
  Link.failureDomain := failureDomain; Link.workerBoot := l.(Link.workerBoot); Link.provenance := l.(Link.provenance) |}.

Definition set_linkGeneration (g : LinkGeneration) (l : Link) : Link :=
  edit_link g l.(Link.health).(Health.healthy) l.(Link.congestion) l.(Link.failureDomain) l.
Definition set_healthy (b : bool) (l : Link) : Link := edit_link l.(Link.generation) b l.(Link.congestion) l.(Link.failureDomain) l.
Definition set_congestion (c : Congestion) (l : Link) : Link :=
  edit_link l.(Link.generation) l.(Link.health).(Health.healthy) c l.(Link.failureDomain) l.
Definition set_failureDomain (d : string) (l : Link) : Link :=
  edit_link l.(Link.generation) l.(Link.health).(Health.healthy) l.(Link.congestion) d l.

(** [s.links[i]] and [s.endpoints[i]] changed in place. *)
Definition at_link (i : nat) (f : Link -> Link) (s : EvidenceSnapshot) : EvidenceSnapshot := set_links (alter f i s.(Snapshot.links)) s.
Definition at_endpoint (i : nat) (f : Endpoint -> Endpoint) (s : EvidenceSnapshot) : EvidenceSnapshot :=
  set_endpoints (alter f i s.(Snapshot.endpoints)) s.

(** The snapshots of the suites but the first: the reservation generation is left null. *)
Definition suiteSnapshot (es : list Endpoint) (ls : list Link) (rs : list Reservation) : EvidenceSnapshot := {|
  Snapshot.topologyGeneration := 1; Snapshot.capacityGeneration := 1; Snapshot.reservationGeneration := 0;
  Snapshot.congestionGeneration := 1; Snapshot.capabilityGeneration := 1; Snapshot.healthGeneration := 1;
  Snapshot.placementGeneration := 1; Snapshot.policyGeneration := 1; Snapshot.endpoints := es; Snapshot.links := ls;
  Snapshot.reservations := rs; Snapshot.resourceCapacities := []; Snapshot.workerBoots := ∅; Snapshot.sourceBoots := ∅;
  Snapshot.epoch := 0; Snapshot.authorityGeneration := currentAuthority |}.

(** The default bounds with another depth and other counts. *)
Definition suiteBounds (maxPathDepth maxCandidates maxFallbacks : Z) : Bounds := {|
  Bounds.maxEndpoints := defaultBounds.(Bounds.maxEndpoints); Bounds.maxLinks := defaultBounds.(Bounds.maxLinks);
  Bounds.maxCandidates := maxCandidates; Bounds.maxPathDepth := maxPathDepth;
  Bounds.maxRelayCount := defaultBounds.(Bounds.maxRelayCount); Bounds.maxMulticastFanout := defaultBounds.(Bounds.maxMulticastFanout);
  Bounds.maxCollectiveParticipants := defaultBounds.(Bounds.maxCollectiveParticipants); Bounds.maxFallbacks := maxFallbacks;
  Bounds.maxHistory := defaultBounds.(Bounds.maxHistory); Bounds.maxStagingPerPlan := defaultBounds.(Bounds.maxStagingPerPlan);
  Bounds.maxExplanationSize := defaultBounds.(Bounds.maxExplanationSize); Bounds.maxPayloadBytes := defaultBounds.(Bounds.maxPayloadBytes) |}.

(** A plan that has to succeed, dereferenced. *)
Definition plannedWith (bounds : Bounds) (req : CommunicationRequest) (s : EvidenceSnapshot) : T CommunicationPlan :=
  do po <- library (planCommunication req s ∅ bounds); do! REQUIRE po.(PlanOutcome.success); deref po.(PlanOutcome.plan).

(** ** Running suites *)

Lemma runTests_app t1 t2 p :
  runTests (t1 ++ t2) p = match runTests t1 p with Some p' => runTests t2 p' | None => None end.
Proof. revert p; induction t1 as [|t t1 IH]; intros p; cbn [app runTests]; [done|]. by destruct (t p) as [[] ?]. Qed.

Lemma runTests_ext before t t' after p : (forall q, t q = t' q) -> runTests (before ++ t :: after) p = runTests (before ++ t' :: after) p.
Proof. intros H. rewrite !runTests_app. destruct (runTests before p) as [q|]; [|done]. cbn [runTests]. by rewrite H. Qed.

Lemma tbind_ext {A B} (m1 m2 : T A) (f g : A -> T B) p :
  m1 p = m2 p -> (forall a p', f a p' = g a p') -> tbind m1 f p = tbind m2 g p.
Proof. intros Hm Hf. unfold tbind. rewrite Hm. destruct (m2 p) as [[] ?]; auto. Qed.

Lemma for_each_ext {A} (l : list A) (f g : A -> T ()) p :
  (forall a p', a ∈ l -> f a p' = g a p') -> for_each l f p = for_each l g p.
Proof.
  revert p; induction l as [|x l IH]; intros p H; cbn [for_each]; [done|]. unfold tbind.
  rewrite (H x p) by left. destruct (g x p) as [[] p']; [|done..]. apply IH. intros; apply H. by right.
Qed.

(** A program that fails no assertion, raises nothing and keeps the counters well formed. *)
Definition passes {A} (m : T A) (Q : A -> Prop) : Prop := forall cs n, counters_wf cs ->
  exists a cs', m (cs, n) = (Value a, (cs', n)) /\ counters_wf cs' /\ Q a.

Lemma passes_ret {A} (a : A) (Q : A -> Prop) : Q a -> passes (tret a) Q.
Proof. intros H cs n Hcs. exists a, cs. done. Qed.

Lemma passes_bind {A B} (m : T A) (f : A -> T B) Q R :
  passes m Q -> (forall a, Q a -> passes (f a) R) -> passes (tbind m f) R.
Proof.
  intros Hm Hf cs n Hcs. destruct (Hm cs n Hcs) as (a & cs1 & Ea & Hcs1 & Ha).
  destruct (Hf a Ha cs1 n Hcs1) as (b & cs2 & Eb & Hcs2 & Hb). exists b, cs2. unfold tbind. by rewrite Ea.
Qed.

Lemma passes_CHECK cond : cond = true -> passes (CHECK cond) (fun _ => True).
Proof. intros -> cs n Hcs. by exists (), cs. Qed.

Lemma passes_for_each {A} (l : list A) body : (forall x, x ∈ l -> passes (body x) (fun _ => True)) -> passes (for_each l body) (fun _ => True).
Proof.
  induction l as [|x l IH]; intros H; cbn [for_each]; [by apply passes_ret|].
  eapply passes_bind; [apply H; left|]. intros _ _. apply IH. intros; apply H. by right.
Qed.

Lemma passes_weaken {A} (m : T A) (Q R : A -> Prop) : passes m Q -> (forall a, Q a -> R a) -> passes m R.
Proof. intros Hm HQ cs n Hcs. destruct (Hm cs n Hcs) as (a & cs1 & ? & ? & ?). exists a, cs1. auto. Qed.

Lemma runTests_passes tests p :
  Forall (fun t => passes t (fun _ => True)) tests -> counters_wf p.1 -> exists cs, runTests tests p = Some (cs, p.2).
Proof.
  intros H. revert p. induction H as [|t tests Ht _ IH]; intros [cs n] Hcs; [by exists cs|]. cbn [runTests].
  destruct (Ht cs n Hcs) as ([] & cs1 & -> & Hcs1 & _). apply (IH (cs1, n) Hcs1).
Qed.

Lemma CP_MAIN_passes tests : Forall (fun t => passes t (fun _ => True)) tests -> CP_MAIN tests = Some 0.
Proof. intros H. unfold CP_MAIN. destruct (runTests_passes tests (initialCounters, 0%nat) H) as [cs ->]; [apply initialCounters_wf|done]. Qed.
