(* ===== verification/CoreTests.v ===== *)
(** * The core test suite

    Models tests/test_core.cpp: every test over the modelled library, from the validation
    of requests to the broker.  [std::shuffle] is any permutation. *)

From S2P Require Import Prelude Core Enums Double Model Scenario Feasibility Ranking Cost Enumerate Assembly.
From S2P Require Import PointToPoint Multicast Collective Planner Determinism Lifecycle Revalidation Broker Message Client.
From S2P Require Import Codec Framing Protocol Store Persistence Coordinator Suite.

(** The request of the first test, in its successive states. *)
Definition validationReq (payload maxHops : Z) (allowed forbidden : gset Transport) (shape : RequestShape) : CommunicationRequest := {|
  Request.id := 1; Request.generation := 1; Request.shape := shape; Request.source := 1; Request.destinations := [2];
  Request.payloadSize := payload; Request.direction := Request_default.(Request.direction);
  Request.latencySensitive := Request_default.(Request.latencySensitive);
  Request.throughputTarget := Request_default.(Request.throughputTarget);
  Request.requireOrdering := Request_default.(Request.requireOrdering);
  Request.requireReliability := Request_default.(Request.requireReliability); Request.allowRetry := Request_default.(Request.allowRetry);
  Request.allowStaging := Request_default.(Request.allowStaging); Request.allowHostStaging := Request_default.(Request.allowHostStaging);
  Request.allowStorageStaging := Request_default.(Request.allowStorageStaging); Request.allowRelay := Request_default.(Request.allowRelay);
  Request.allowMulticast := Request_default.(Request.allowMulticast); Request.allowed := allowed; Request.forbidden := forbidden;
  Request.requiredFailureDomain := Request_default.(Request.requiredFailureDomain);
  Request.preferredLocality := Request_default.(Request.preferredLocality); Request.maxHops := maxHops;
  Request.maxStages := Request_default.(Request.maxStages); Request.maxMovementCost := Request_default.(Request.maxMovementCost);
  Request.reservationBinding := Request_default.(Request.reservationBinding);
  Request.externalPriority := Request_default.(Request.externalPriority);
  Request.policyGeneration := Request_default.(Request.policyGeneration); Request.collectiveShape := CollectiveShape.UNKNOWN;
  Request.participants := Request_default.(Request.participants); Request.collectiveCount := Request_default.(Request.collectiveCount);
  Request.provenance := Request_default.(Request.provenance) |}.

Definition valid (r : CommunicationRequest) : bool := bool_decide (validate r = None).

Definition request_validation : T () :=
  let hops := Request_default.(Request.maxHops) in
  let pcie : gset Transport := {[Transport.PCIE]} in
  do! REQUIRE (negb (valid (validationReq 0 hops ∅ ∅ RequestShape.POINT_TO_POINT)));
  do! REQUIRE (valid (validationReq 100 hops ∅ ∅ RequestShape.POINT_TO_POINT));
  do! REQUIRE (negb (valid (validationReq 100 0 ∅ ∅ RequestShape.POINT_TO_POINT)));
  do! REQUIRE (negb (valid (validationReq 100 16 pcie pcie RequestShape.POINT_TO_POINT)));
  REQUIRE (negb (valid (validationReq 100 16 pcie ∅ RequestShape.COLLECTIVE))).

(** [mkRequest] between the two GPUs of [buildBasic]. *)
Definition coreReq (id payload : Z) (forbidden : gset Transport) : CommunicationRequest :=
  mkRequest id 10 11 payload RequestShape.POINT_TO_POINT forbidden.

Definition plans (req : CommunicationRequest) (s : EvidenceSnapshot) : T PlanOutcome := library (planCommunication req s ∅ basicBounds).

Definition planned (req : CommunicationRequest) (s : EvidenceSnapshot) : T CommunicationPlan := plannedWith basicBounds req s.

Definition equality_deterministic_ranking_direct_first : T () :=
  let req := coreReq 5 4096 ∅ in
  do! library (lift (requireValid req));
  do po <- plans req basicSnapshot;
  do! REQUIRE po.(PlanOutcome.success);
  do! REQUIRE (bool_decide (is_Some po.(PlanOutcome.plan)));
  do plan <- deref po.(PlanOutcome.plan);
  do! REQUIRE (length plan.(Plan.orderedStages) =? 1)%nat;
  do st <- deref (head plan.(Plan.orderedStages));
  do l <- deref (linkMap basicSnapshot !! st.(Stage.link));
  do! REQUIRE ((l.(Link.source) =? 10) && (l.(Link.destination) =? 11));
  CHECK (bool_decide (plan.(Plan.feasibility) = Feasibility.FEASIBLE)).

Definition hard_filter_forces_staged : T () :=
  do po <- plans (coreReq 6 4096 {[Transport.HOST_MEMORY]}) basicSnapshot;
  do! REQUIRE po.(PlanOutcome.success);
  do! REQUIRE (bool_decide (is_Some po.(PlanOutcome.plan)));
  do plan <- deref po.(PlanOutcome.plan);
  CHECK (length plan.(Plan.orderedStages) =? 2)%nat.

Definition hard_invalid_never_wins : T () :=
  do plan <- planned (coreReq 7 4096 ∅) (at_link 0 (set_healthy false) basicSnapshot);
  CHECK (length plan.(Plan.orderedStages) =? 2)%nat.

Definition unknown_endpoint_not_feasible : T () :=
  do po <- plans (coreReq 8 4096 ∅) (at_endpoint 0 (set_kind EndpointKind.UNKNOWN) basicSnapshot);
  CHECK (negb po.(PlanOutcome.success)).

Definition linkSequence (plan : CommunicationPlan) : list LinkId := Stage.link <$> plan.(Plan.orderedStages).

Section shuffled.
(** [std::shuffle] of the links and of the endpoints in each trial. *)
Context (shuffleLinks : nat -> list Link -> list Link) (shuffleEndpoints : nat -> list Endpoint -> list Endpoint).

Definition shuffledSnapshot (trial : nat) : EvidenceSnapshot :=
  set_endpoints (shuffleEndpoints trial basicSnapshot.(Snapshot.endpoints)) (set_links (shuffleLinks trial basicSnapshot.(Snapshot.links)) basicSnapshot).

Fixpoint trials (todo : list nat) : T (list (list LinkId)) :=
  match todo with
  | [] => tret []
  | trial :: todo' =>
      do plan <- planned (coreReq (Z.of_nat trial + 1) 4096 ∅) (shuffledSnapshot trial);
      do results <- trials todo';
      tret (linkSequence plan :: results)
  end.

Definition insertion_order_does_not_change_result : T () :=
  do results <- trials (seq 0 20);
  match results with
  | [] => tret ()
  | firstSeq :: rest => for_each rest (fun seq => CHECK (bool_decide (seq = firstSeq)))
  end.
End shuffled.

Definition cost_never_nan_inf : T () :=
  do po <- plans (coreReq 9 (2 ^ 30) ∅) basicSnapshot;
  do! REQUIRE po.(PlanOutcome.success);
  for_each po.(PlanOutcome.candidates) (fun cr =>
    if feasible cr.(CandidateReport.feasibility) then
      do! CHECK (totalValid cr.(CandidateReport.cost));
      for_each cr.(CandidateReport.cost).(CostSummary.components) (fun c => CHECK (isValid c))
    else tret ()).

Definition lifecycle_illegal_transitions : T () :=
  do! CHECK (negb (canTransition PlanState.REQUESTED PlanState.ACTIVE));
  do! CHECK (negb (canTransition PlanState.COMPLETED PlanState.ACTIVE));
  do! CHECK (negb (canTransition PlanState.CANCELLED PlanState.ACTIVE));
  do! CHECK (canTransition PlanState.REQUESTED PlanState.DISCOVERING);
  do! CHECK (canTransition PlanState.PLAN_READY PlanState.AWAITING_RESOURCE_COMMIT);
  do! CHECK (canTransition PlanState.AWAITING_RESOURCE_COMMIT PlanState.COMMITTED);
  do! CHECK (canTransition PlanState.COMMITTED PlanState.AWAITING_EXECUTION);
  do! CHECK (canTransition PlanState.AWAITING_EXECUTION PlanState.ACTIVE);
  CHECK (canTransition PlanState.ACTIVE PlanState.COMPLETED).

Definition revalidation_generation_change : T () :=
  do plan <- planned (coreReq 10 4096 ∅) basicSnapshot;
  do! CHECK (revalidatePlan plan basicSnapshot).(RevalidationResult.ok);
  let changed := revalidatePlan plan (at_link 0 (set_linkGeneration 2) basicSnapshot) in
  do! CHECK (negb changed.(RevalidationResult.ok));
  do! CHECK (bool_decide (changed.(RevalidationResult.feasibility) = Feasibility.REVALIDATION_REQUIRED));
  CHECK (negb (revalidatePlan plan (set_topologyGeneration 0 basicSnapshot)).(RevalidationResult.ok)).

(** The error code of a [parseStore]. *)
Definition parseCode (data : list Z) : PersistErrorCode :=
  match parseStore data with inl e => e.(PersistError.code) | inr _ => PersistErrorCode.OK end.

Definition persistence_roundtrip_and_corruption : T () :=
  let req := coreReq 11 4096 ∅ in
  do plan <- planned req basicSnapshot;
  let st := {| StoreState.epoch := 3; StoreState.plans := [{| StoreRecord.plan := plan; StoreRecord.state := PlanState.PLAN_READY |}];
               StoreState.supersessions := []; StoreState.requests := [req] |} in
  let bytes := serializeStore st in
  do! CHECK (bool_decide (parseCode bytes = PersistErrorCode.OK));
  do out <- deref (match parseStore bytes with inl _ => None | inr out => Some out end);
  do! CHECK (length out.(StoreState.plans) =? 1)%nat;
  do rec <- deref (out.(StoreState.plans) !! 0%nat);
  do! CHECK (rec.(StoreRecord.plan).(Plan.id) =? plan.(Plan.id));
  do! CHECK (length rec.(StoreRecord.plan).(Plan.orderedStages) =? length plan.(Plan.orderedStages))%nat;
  let bad := alter (fun b => Z.lxor b 64) (length bytes / 2)%nat bytes in
  do! CHECK (bool_decide (parseCode bad = PersistErrorCode.CHECKSUM_MISMATCH));
  do! CHECK (negb (bool_decide (parseCode (take (length bytes - 3) bytes) = PersistErrorCode.OK)));
  do! CHECK (bool_decide (parseCode (<[0%nat := 0]> bytes) = PersistErrorCode.BAD_MAGIC));
  do! CHECK (bool_decide (parseCode (bytes ++ [127]) = PersistErrorCode.TRAILING_GARBAGE));
  let sr := conservativeRecovery {| StoreState.epoch := 3;
    StoreState.plans := [{| StoreRecord.plan := plan; StoreRecord.state := PlanState.COMMITTED |}];
    StoreState.supersessions := []; StoreState.requests := [req] |} in
  do rec <- deref (sr.(StoreState.plans) !! 0%nat);
  CHECK (bool_decide (rec.(StoreRecord.state) = PlanState.REVALIDATION_REQUIRED)).

(** Whether [decodeFrame] returns an error. *)
Definition frameRefused (data : list Z) : bool := match decodeFrame data with inl _ => true | inr _ => false end.

Definition protocol_frame_roundtrip : T () :=
  let m := makeMessage MessageType.HELLO 9 0 0 Plan_default 0 false 0 "" in
  do frame <- deref (match encodeFrame {| Frame.type := m.(Message.type); Frame.payload := encodeMessage m |} with
                     | inl _ => None | inr frame => Some frame end);
  do! CHECK (negb (frameRefused frame));
  do f2 <- deref (match decodeFrame frame with inl _ => None | inr f2 => Some f2 end);
  do! CHECK (bool_decide (f2.(Frame.type) = MessageType.HELLO));
  do m2 <- deref (match decodeMessage f2.(Frame.type) f2.(Frame.payload) with inl _ => None | inr m2 => Some m2 end);
  do! CHECK (m2.(Message.epoch) =? 9);
  do! CHECK (frameRefused (alter (fun b => Z.lxor b 1) (length frame - 1)%nat frame));
  do! CHECK (frameRefused (take (length frame - 2) frame));
  CHECK (frameRefused (<[8%nat := 255]> frame)).

(** One hop from 1 to 3, and the cost of both candidates. *)
Definition tiePath (link : LinkId) : CandidatePath := {|
  CandidatePath.source := 1; CandidatePath.destination := 3; CandidatePath.hops := [{| Hop.link := link; Hop.from := 1; Hop.to := 3 |}] |}.
Definition tieCost : CostSummary := {|
  CostSummary.components := [{| CostComponent.factor := CostFactor.HOP_COUNT; CostComponent.weight := done_;
    CostComponent.value := done_; CostComponent.provenance := Provenance.MEASURED |}];
  CostSummary.total := done_ |}.

Definition rankable_tiebreak_and_provenance : T () :=
  let order := rankFeasible ((fun link => {| Rankable.path := tiePath link; Rankable.feasibility := FeasibilityResult_ok;
                                             Rankable.cost := tieCost |}) <$> [1; 2]) in
  do! REQUIRE (length order =? 2)%nat;
  do first <- deref (order !! 0%nat);
  CHECK (first =? 0)%nat.

(** [brk.acquire], an index beyond the sizes being undefined. *)
Definition acquires (b : MemoryResourceBroker) (res : list ResourceId) (sz : list Bytes) : T (bool * MemoryResourceBroker) :=
  match memory_acquire b res sz with
  | (Ok Granted, b') => tret (true, b')
  | (Ok (Denied _), b') => tret (false, b')
  | (Throw e, _) => fun p => (Thrown e, p)
  end.

Definition broker_all_or_nothing : T () :=
  do r1 <- acquires (MemoryResourceBroker_init 1024) [1] [600];
  do! CHECK r1.1;
  do r2 <- acquires r1.2 [1] [600];
  do! CHECK (negb r2.1);
  do r3 <- acquires (memory_release r2.2 [1]) [1] [600];
  CHECK r3.1.

Definition core_tests (shuffleLinks : nat -> list Link -> list Link) (shuffleEndpoints : nat -> list Endpoint -> list Endpoint) : list (T ()) := [
  request_validation; equality_deterministic_ranking_direct_first; hard_filter_forces_staged; hard_invalid_never_wins;
  unknown_endpoint_not_feasible; insertion_order_does_not_change_result shuffleLinks shuffleEndpoints; cost_never_nan_inf;
  lifecycle_illegal_transitions; revalidation_generation_change; persistence_roundtrip_and_corruption; protocol_frame_roundtrip;
  rankable_tiebreak_and_provenance; broker_all_or_nothing].

(** ** The suite passes *)

Section passes.
Context (shuffleLinks : nat -> list Link -> list Link) (shuffleEndpoints : nat -> list Endpoint -> list Endpoint).
Hypothesis shuffleLinks_permutes : forall n l, shuffleLinks n l ≡ₚ l.
Hypothesis shuffleEndpoints_permutes : forall n l, shuffleEndpoints n l ≡ₚ l.

Lemma shuffledSnapshot_equiv n : snapshot_equiv (shuffledSnapshot shuffleLinks shuffleEndpoints n) basicSnapshot.
Proof using shuffleLinks_permutes shuffleEndpoints_permutes.
  split; try reflexivity; cbn [shuffledSnapshot set_endpoints set_links Snapshot.endpoints Snapshot.links].
  - apply shuffleEndpoints_permutes.
  - rewrite (shuffleEndpoints_permutes n (Snapshot.endpoints basicSnapshot)). apply (bool_decide_unpack _). reflexivity.
  - apply shuffleLinks_permutes.
  - rewrite (shuffleLinks_permutes n (Snapshot.links basicSnapshot)). apply (bool_decide_unpack _). reflexivity.
Qed.

Lemma planned_shuffled req n p : planned req (shuffledSnapshot shuffleLinks shuffleEndpoints n) p = planned req basicSnapshot p.
Proof using shuffleLinks_permutes shuffleEndpoints_permutes.
  apply tbind_ext; [|done]. destruct p as [cs f]. unfold library.
  by rewrite (planCommunication_equiv req ∅ basicBounds _ _ cs (shuffledSnapshot_equiv n)).
Qed.

Lemma trials_shuffled todo p : trials shuffleLinks shuffleEndpoints todo p = trials (fun _ l => l) (fun _ l => l) todo p.
Proof using shuffleLinks_permutes shuffleEndpoints_permutes.
  revert p; induction todo as [|n todo IH]; intros p; cbn [trials]; [done|].
  apply tbind_ext; [by rewrite planned_shuffled|]. intros plan p1. by apply tbind_ext.
Qed.

(** The core test suite passes: whatever the shuffles, none of its assertions fails and
    none of its calls raises an exception or is undefined, so its program exits with 0. *)
Theorem core_suite_passes : CP_MAIN (core_tests shuffleLinks shuffleEndpoints) = Some 0.
Proof using shuffleLinks_permutes shuffleEndpoints_permutes.
  assert (E : forall p, insertion_order_does_not_change_result shuffleLinks shuffleEndpoints p =
    insertion_order_does_not_change_result (fun _ l => l) (fun _ l => l) p).
  { intros p. apply tbind_ext; [apply trials_shuffled|done]. }
  unfold CP_MAIN. replace (runTests (core_tests shuffleLinks shuffleEndpoints) (initialCounters, 0%nat))
    with (runTests (core_tests (fun _ l => l) (fun _ l => l)) (initialCounters, 0%nat)); [vm_compute; reflexivity|].
  apply (runTests_ext [_; _; _; _; _] _ _ [_; _; _; _; _; _; _]). intros p. symmetry. apply E.
Qed.
End passes.

Lemma core_suite_passes_witness : CP_MAIN (core_tests (fun n l => if (n mod 2 =? 0)%nat then l else reverse l) (fun _ l => reverse l)) = Some 0.
Proof.
  apply (core_suite_passes (fun n l => if (n mod 2 =? 0)%nat then l else reverse l) (fun _ l => reverse l)).
  - intros n l. destruct (n mod 2 =? 0)%nat; [reflexivity|apply reverse_Permutation].
  - intros n l. apply reverse_Permutation.
Defined.
