(* ===== verification/AdversarialTests.v ===== *)
(** * The adversarial test suite

    Models tests/test_adversarial.cpp: stale generations and fenced boots against
    revalidation, and forged stores against the persistence layer. *)

From S2P Require Import Prelude Core Enums Double Model Scenario Feasibility Ranking Cost Enumerate Assembly.
From S2P Require Import PointToPoint Multicast Collective Planner Revalidation Broker Message Client.
From S2P Require Import Codec Framing Protocol Store Persistence Coordinator Suite.

Definition baseSnap : EvidenceSnapshot :=
  let gpu id := mkEndpoint id 1 EndpointKind.GPU_DEVICE id true true [Transport.HOST_MEMORY; Transport.PCIE] Provenance.MEASURED 0 in
  suiteSnapshot [gpu 1; gpu 2] [mkLink 1 1 1 2 Transport.HOST_MEMORY 1000000 true dzero Provenance.MEASURED] [].

Definition adversarialReq (id : Z) : CommunicationRequest := mkRequest id 1 2 4096 RequestShape.POINT_TO_POINT ∅.
Definition adversarialBounds : Bounds := suiteBounds 4 32 defaultBounds.(Bounds.maxFallbacks).

Definition adversarial_stale_endpoint_generation : T () :=
  do plan <- plannedWith adversarialBounds (adversarialReq 1) baseSnap;
  let rr := revalidatePlan plan (at_endpoint 0 (set_endpointGeneration 2) baseSnap) in
  do! CHECK (negb rr.(RevalidationResult.ok));
  CHECK (bool_decide (rr.(RevalidationResult.feasibility) = Feasibility.REVALIDATION_REQUIRED)).

Definition adversarial_stale_worker_boot_rejected : T () :=
  let s := set_workerBoots {[1 := 100]} (at_endpoint 1 (set_worker 1 100) (at_endpoint 0 (set_worker 1 100) baseSnap)) in
  do plan <- plannedWith adversarialBounds (adversarialReq 2) s;
  let s' := set_workerBoots {[1 := 200]} s in
  do! CHECK (negb (revalidatePlan plan s').(RevalidationResult.ok));
  let cand := {| CandidatePath.source := 1; CandidatePath.destination := 2;
                 CandidatePath.hops := [{| Hop.link := 1; Hop.from := 1; Hop.to := 2 |}] |} in
  CHECK (negb (feasible (evaluateCandidateFeasibility (adversarialReq 2) s' cand adversarialBounds))).

(** The forged plan [id], all other fields as default-constructed, with one candidate path
    from 1 to 2 of 1000 bytes. *)
Definition forgedPlan (id : Z) (stages ordered : list Stage) (total : double) (endpointGenerations : list (Z * Z)) : CommunicationPlan := {|
  Plan.id := id; Plan.generation := 1; Plan.requestId := id; Plan.requestGeneration := 1; Plan.shape := Plan_default.(Plan.shape);
  Plan.primaryPath := 1; Plan.fallbackPaths := [];
  Plan.candidatePaths := [{| Path.id := 1; Path.generation := Path_default.(Path.generation); Path.source := 1; Path.destination := 2;
    Path.stages := stages; Path.totalPayload := 1000; Path.cost := Path_default.(Path.cost);
    Path.provenance := Path_default.(Path.provenance); Path.failureDomain := ""; Path.reason := "" |}];
  Plan.orderedStages := ordered; Plan.feasibility := Feasibility.FEASIBLE;
  Plan.topologyGeneration := 0; Plan.capacityGeneration := 0; Plan.reservationGeneration := 0; Plan.congestionGeneration := 0;
  Plan.capabilityGeneration := 0; Plan.healthGeneration := 0; Plan.placementGeneration := 0; Plan.authorityGeneration := 0;
  Plan.endpointGenerations := endpointGenerations; Plan.linkGenerations := []; Plan.requiredStagingResources := [];
  Plan.requiredResourceClaims := []; Plan.cost := {| CostSummary.components := []; CostSummary.total := total |};
  Plan.explanations := []; Plan.provenance := ""; Plan.revalidationGeneration := Plan_default.(Plan.revalidationGeneration);
  Plan.revalidateBeforeExecute := Plan_default.(Plan.revalidateBeforeExecute); Plan.handoffRequirement := "";
  Plan.createdProvenance := ""; Plan.multicastDestinations := []; Plan.collectiveShape := Plan_default.(Plan.collectiveShape);
  Plan.collectiveParticipants := []; Plan.description := "" |}.

(** The code with which the forged store is refused. *)
Definition forgedCode (plan : CommunicationPlan) (state : PlanState) : PersistErrorCode :=
  let st := {| StoreState.epoch := 1; StoreState.plans := [{| StoreRecord.plan := plan; StoreRecord.state := state |}];
               StoreState.supersessions := []; StoreState.requests := [] |} in
  match parseStore (serializeStore st) with inl e => e.(PersistError.code) | inr _ => PersistErrorCode.OK end.

(** [CHECK(!e.ok()); CHECK(e.code == ...)]. *)
Definition refusedAs (codes : list PersistErrorCode) (c : PersistErrorCode) : T () :=
  do! CHECK (negb (bool_decide (c = PersistErrorCode.OK))); CHECK (existsb (fun d => bool_decide (c = d)) codes).

Definition adversarial_payload_mismatch_rejected_by_persistence : T () :=
  let stages := [wireStage 1 1 2 999] in
  refusedAs [PersistErrorCode.PAYLOAD_MISMATCH] (forgedCode (forgedPlan 1 stages stages dzero []) PlanState.PLAN_READY).

Definition adversarial_nan_cost_rejected : T () :=
  let stages := [wireStage 1 1 2 1000] in
  refusedAs [PersistErrorCode.NAN_INF_COST] (forgedCode (forgedPlan 2 stages stages dinf []) PlanState.PLAN_READY).

Definition adversarial_stage_cycle_rejected : T () :=
  let s1 := wireStage 1 1 2 1000 in
  refusedAs [PersistErrorCode.CYCLE_FORBIDDEN; PersistErrorCode.INVALID_STAGE_ORDER]
    (forgedCode (forgedPlan 3 [s1; wireStage 2 2 1 1000; wireStage 3 1 2 1000] [s1] dzero []) PlanState.PLAN_READY).

Definition adversarial_committed_plan_without_evidence_rejected : T () :=
  let stages := [wireStage 1 1 2 1000] in
  refusedAs [PersistErrorCode.COMMITTED_PLAN_NO_EVIDENCE]
    (forgedCode (forgedPlan 4 stages stages dzero [(1, 1); (2, 1)]) PlanState.COMMITTED).

Definition adversarial_hard_invalid_never_wins_due_to_score : T () :=
  do po <- library (planCommunication (adversarialReq 5) (at_link 0 (set_healthy false) baseSnap) ∅ adversarialBounds);
  CHECK (negb po.(PlanOutcome.success)).

Definition adversarial_generation_regression_rejected : T () :=
  do plan <- plannedWith adversarialBounds (adversarialReq 6) baseSnap;
  CHECK (negb (revalidatePlan plan (set_topologyGeneration 0 baseSnap)).(RevalidationResult.ok)).

Definition adversarial_tests : list (T ()) := [
  adversarial_stale_endpoint_generation; adversarial_stale_worker_boot_rejected; adversarial_payload_mismatch_rejected_by_persistence;
  adversarial_nan_cost_rejected; adversarial_stage_cycle_rejected; adversarial_committed_plan_without_evidence_rejected;
  adversarial_hard_invalid_never_wins_due_to_score; adversarial_generation_regression_rejected].

(** The adversarial suite passes: stale endpoints, boots and generations do not
    revalidate, and each forged store is refused with the code of its forgery. *)
Theorem adversarial_suite_passes : CP_MAIN adversarial_tests = Some 0.
Proof. vm_compute. reflexivity. Qed.
