(* ===== verification/PropertyTests.v ===== *)
(** * The property test suite

    Models tests/test_property.cpp: random topologies, and what planning promises on all
    of them.  The random engine is a class, and so is [std::shuffle], whose algorithm the
    standard leaves open; the two draws for the arguments of one call come in either
    order, as the language leaves open.  The suite is proved to pass with every engine, so
    what it samples holds throughout; std::mt19937_64 is an instance. *)

From S2P Require Import Prelude Core Enums Double Rounding Model Scenario Feasibility Ranking Cost Totals Enumerate Assembly.
From S2P Require Import PointToPoint Planner Determinism Coordinator Suite.

(** ** Random engines *)

Class RandomEngine := {
  Engine : Type;
  seeded : Z -> Engine;
  draw : Engine -> Z * Engine;
  shuffle : forall {A}, list A -> Engine -> list A * Engine;
}.

Class RandomLaws (R : RandomEngine) := {
  draw_range : forall e, is_u64 (draw e).1;
  shuffle_permutes : forall A (l : list A) e, (shuffle l e).1 ≡ₚ l;
}.

Section suite.
Context {R : RandomEngine}.
(** Whether the transport argument of [mkLink] is evaluated before its capacity. *)
Context (leftFirst : bool).

Definition rngFor (seed : Z) : Engine := seeded seed.

(** ** Random topologies *)

Record Topology := { linkId : Z; added : list Link; rng : Engine }.

Definition addLink (a b : EndpointId) (prov : Provenance) (t : Topology) : Topology :=
  let '(r1, e1) := draw t.(rng) in
  let '(r2, e2) := draw e1 in
  let '(r3, e3) := draw e2 in
  let '(r4, e4) := draw e3 in
  let '(pick, extra) := if leftFirst then (r1, r2) else (r2, r1) in
  let l := mkLink t.(linkId) 1 a b (if pick mod 2 =? 0 then Transport.HOST_MEMORY else Transport.NETWORK)
             (1000000 + extra mod 10000000) true dzero prov in
  let l := if r3 mod 10 =? 0 then set_healthy false l else l in
  let l := if r4 mod 10 =? 0 then set_congestion {|
             Congestion.generation := l.(Link.congestion).(Congestion.generation); Congestion.load := l.(Link.congestion).(Congestion.load);
             Congestion.penalty := l.(Link.congestion).(Congestion.penalty); Congestion.hardLimitExceeded := true;
             Congestion.provenance := l.(Link.congestion).(Congestion.provenance) |} l else l in
  {| linkId := t.(linkId) + 1; added := t.(added) ++ [l]; rng := e4 |}.

Definition randomEndpoint (i : nat) : Endpoint :=
  let kind := match (i mod 3)%nat with 0%nat => EndpointKind.GPU_DEVICE | 1%nat => EndpointKind.CPU_MEMORY | _ => EndpointKind.NIC end in
  let cap := match (i mod 4)%nat with
    | 0%nat => Transport.CUDA | 1%nat => Transport.HOST_MEMORY | 2%nat => Transport.PCIE | _ => Transport.NETWORK end in
  mkEndpoint (Z.of_nat i + 1) 1 kind (Z.of_nat (i mod 4) + 1) true true [cap] Provenance.MEASURED 0.

(** The indices of [ids] are below [n]. *)
Definition ids (n : nat) : list EndpointId := (fun i : nat => Z.of_nat i + 1) <$> seq 0 n.

Definition ringLink (n : nat) (t : Topology) (i : nat) : Topology :=
  addLink (ids n !!! i) (ids n !!! ((i + 1) mod n)%nat) Provenance.MEASURED t.

Definition chord (n : nat) (t : Topology) (i : nat) : Topology :=
  let '(r1, e1) := draw t.(rng) in
  let '(r2, e2) := draw e1 in
  let a := ids n !!! Z.to_nat (r1 mod Z.of_nat n) in
  let b := ids n !!! Z.to_nat (r2 mod Z.of_nat n) in
  let t := {| linkId := t.(linkId); added := t.(added); rng := e2 |} in
  if negb (a =? b) then addLink a b Provenance.ESTIMATED t else t.

Definition buildRandom (seed : Z) (n : nat) : EvidenceSnapshot :=
  let t := {| linkId := 1; added := []; rng := rngFor seed |} in
  let t := foldl (ringLink n) t (seq 0 n) in
  let t := foldl (chord n) t (seq 0 (n / 2)) in
  mkSnapshot (randomEndpoint <$> seq 0 n) t.(added) [] [] ∅.

(** ** The tests *)

Definition randomRequest (id dst payload : Z) : CommunicationRequest := mkRequest id 1 dst payload RequestShape.POINT_TO_POINT ∅.

(** The path that the stages of a plan describe. *)
Definition stagesPath (stages : list Stage) : CandidatePath := {|
  CandidatePath.source := default 0 (Stage.source <$> head stages);
  CandidatePath.destination := default 0 (Stage.destination <$> last stages);
  CandidatePath.hops := hop_of_stage <$> stages |}.

Definition winnerBounds : Bounds := suiteBounds 6 512 4.
Definition randomBounds : Bounds := suiteBounds 6 256 defaultBounds.(Bounds.maxFallbacks).

Definition property_winner_satisfies_hard_constraints : T () :=
  for_each [1; 2; 3; 42; 12345; 999; 777; 0xbeef; 0xdead; 0xfeed] (fun seed =>
    let s := buildRandom seed 12 in
    let req := randomRequest (seed + 1000) 12 8192 in
    do po <- library (planCommunication req s ∅ winnerBounds);
    if po.(PlanOutcome.success) then
      do plan <- deref po.(PlanOutcome.plan);
      do! for_each plan.(Plan.orderedStages) (fun st => CHECK (st.(Stage.payload) =? req.(Request.payloadSize)));
      do! for_each plan.(Plan.candidatePaths) (fun p =>
        do! CHECK (p.(Path.totalPayload) =? req.(Request.payloadSize));
        for_each p.(Path.stages) (fun st => CHECK (st.(Stage.payload) =? p.(Path.totalPayload))));
      CHECK (feasible (evaluateCandidateFeasibility req s (stagesPath plan.(Plan.orderedStages)) winnerBounds))
    else tret ()).

Definition property_cost_finite_and_no_overflow : T () :=
  for_each (seqZ 1 8) (fun seed =>
    let s := buildRandom (seed * 13) 10 in
    let req := randomRequest (seed + 5000) 10 (2 ^ 33) in
    do po <- library (planCommunication req s ∅ randomBounds);
    for_each po.(PlanOutcome.candidates) (fun cr =>
      if feasible cr.(CandidateReport.feasibility) then
        do! CHECK (totalValid cr.(CandidateReport.cost));
        do! for_each cr.(CandidateReport.cost).(CostSummary.components) (fun c =>
          do! CHECK (isValid c); CHECK (dge c.(CostComponent.value) dzero));
        CHECK (negb (isnan cr.(CandidateReport.cost).(CostSummary.total)) && negb (isinf cr.(CandidateReport.cost).(CostSummary.total)))
      else tret ())).

(** The evidence of one round, shuffled. *)
Definition shuffledEvidence (seed perm : Z) : EvidenceSnapshot :=
  let s := buildRandom seed 10 in
  let '(ls, e) := shuffle s.(Snapshot.links) (rngFor (seed + perm)) in
  let '(es, _) := shuffle s.(Snapshot.endpoints) e in
  set_endpoints es (set_links ls s).

(** The loop over the permutations, with the sequence of the first success. *)
Fixpoint permutations (seed : Z) (firstSeq : list LinkId) (perms : list Z) : T () :=
  match perms with
  | [] => tret ()
  | perm :: perms' =>
      do po <- library (planCommunication (randomRequest (perm + 100) 10 4096) (shuffledEvidence seed perm) ∅ randomBounds);
      if po.(PlanOutcome.success) then
        do plan <- deref po.(PlanOutcome.plan);
        let seq := Stage.link <$> plan.(Plan.orderedStages) in
        if bool_decide (firstSeq = []) then permutations seed seq perms'
        else do! CHECK (bool_decide (seq = firstSeq)); permutations seed firstSeq perms'
      else permutations seed firstSeq perms'
  end.

Definition property_determinism_and_insertion_permutation : T () :=
  for_each [10; 20; 30] (fun seed => permutations seed [] (seqZ 0 8)).

Definition property_ranking_matches_reference_minimum : T () :=
  for_each [5; 6; 7] (fun seed =>
    let s := buildRandom seed 8 in
    let req := randomRequest (seed + 300) 8 4096 in
    do po <- library (planCommunication req s ∅ randomBounds);
    if po.(PlanOutcome.success) && (1 <=? length po.(PlanOutcome.rankedIndices))%nat then
      do best <- deref (po.(PlanOutcome.rankedIndices) !! 0%nat);
      do bestRep <- deref (po.(PlanOutcome.candidates) !! best);
      do! CHECK (feasible bestRep.(CandidateReport.feasibility));
      for_each po.(PlanOutcome.rankedIndices) (fun idx =>
        do rep <- deref (po.(PlanOutcome.candidates) !! idx);
        if feasible rep.(CandidateReport.feasibility) then
          CHECK (dge rep.(CandidateReport.cost).(CostSummary.total)
                     (dsub bestRep.(CandidateReport.cost).(CostSummary.total) (dlit 1 (10 ^ 9))))
        else tret ())
    else tret ()).

Definition property_generation_never_moves_backward : T () :=
  let g := 5 in
  let g2 := Generation_next g in
  do! CHECK (g <? g2);
  do! CHECK (negb (g2 <? g));
  CHECK (g =? 5).

Definition property_tests : list (T ()) := [
  property_winner_satisfies_hard_constraints; property_cost_finite_and_no_overflow;
  property_determinism_and_insertion_permutation; property_ranking_matches_reference_minimum;
  property_generation_never_moves_backward].
End suite.

(** ** Every random topology is well formed *)

Section topologies.
Context {R : RandomEngine} (leftFirst : bool).

(** Links are numbered in order and have canonical penalties. *)
Definition numbered (t : Topology) : Prop :=
  t.(linkId) = Z.of_nat (length t.(added)) + 1 /\
  Link.id <$> t.(added) = seqZ 1 (Z.of_nat (length t.(added))) /\
  Forall (fun l => double_wf l.(Link.congestion).(Congestion.penalty) = true) t.(added).

Lemma addLink_numbered a b prov t : numbered t -> numbered (addLink leftFirst a b prov t).
Proof.
  intros (Hi & Hl & Hp). unfold addLink.
  destruct (draw (rng t)) as [r1 e1], (draw e1) as [r2 e2], (draw e2) as [r3 e3], (draw e3) as [r4 e4].
  destruct (if leftFirst then (r1, r2) else (r2, r1)) as [pick extra]. unfold numbered. cbn [linkId added rng].
  rewrite length_app, fmap_app, Hl, Hi. cbn [length]. split; [lia|]. split.
  - rewrite Nat2Z.inj_add, seqZ_app by lia. f_equal. transitivity [Z.of_nat (length (added t)) + 1]; [by destruct (r3 mod 10 =? 0), (r4 mod 10 =? 0)|].
    rewrite seqZ_cons by lia. f_equal. lia.
  - apply Forall_app_2; [done|]. apply Forall_singleton. by destruct (r3 mod 10 =? 0), (r4 mod 10 =? 0).
Qed.

Lemma chord_numbered n t i : numbered t -> numbered (chord leftFirst n t i).
Proof.
  intros H. unfold chord. destruct (draw (rng t)) as [r1 e1], (draw e1) as [r2 e2]. case_match; [by apply addLink_numbered|done].
Qed.

Lemma foldl_keeps {S X} (P : S -> Prop) (f : S -> X -> S) st l : (forall s x, P s -> P (f s x)) -> P st -> P (foldl f st l).
Proof. intros Hf. revert st; induction l as [|x l IH]; intros st; cbn [foldl]; auto. Qed.

Lemma buildRandom_links seed n :
  exists t, numbered t /\ buildRandom leftFirst seed n = mkSnapshot (randomEndpoint <$> seq 0 n) t.(added) [] [] ∅.
Proof.
  eexists. split; [|reflexivity].
  apply foldl_keeps; [intros; by apply chord_numbered|]. apply foldl_keeps; [intros; by apply addLink_numbered|].
  split; [done|]. split; [done|constructor].
Qed.

Lemma buildRandom_ids seed n :
  NoDup (Link.id <$> (buildRandom leftFirst seed n).(Snapshot.links)) /\
  NoDup (Endpoint.id <$> (buildRandom leftFirst seed n).(Snapshot.endpoints)).
Proof.
  destruct (buildRandom_links seed n) as (t & (_ & Hl & _) & ->). cbn. rewrite Hl. split; [apply NoDup_seqZ|].
  rewrite <- list_fmap_compose. apply NoDup_fmap_2; [|apply NoDup_seq]. intros i j E. cbn in E. lia.
Qed.

Lemma buildRandom_penalties seed n : penalties_wf (buildRandom leftFirst seed n).
Proof. destruct (buildRandom_links seed n) as (t & (_ & _ & Hp) & ->). exact Hp. Qed.

Lemma shuffledEvidence_equiv {L : RandomLaws R} seed perm :
  snapshot_equiv (shuffledEvidence leftFirst seed perm) (buildRandom leftFirst seed 10).
Proof.
  unfold shuffledEvidence. destruct (buildRandom_ids seed 10) as [Hl He].
  pose proof (shuffle_permutes _ (Snapshot.links (buildRandom leftFirst seed 10)) (rngFor (seed + perm))) as Pl.
  destruct (shuffle _ _) as [ls e]. cbn [fst] in Pl.
  pose proof (shuffle_permutes _ (Snapshot.endpoints (buildRandom leftFirst seed 10)) e) as Pe.
  destruct (shuffle _ e) as [es e']. cbn [fst] in Pe.
  split; try reflexivity; cbn [set_endpoints set_links Snapshot.endpoints Snapshot.links];
    first [exact Pe|exact Pl|by rewrite Pe|by rewrite Pl].
Qed.
End topologies.

(** ** What a call of the planner answers *)

Definition reports_between (req : CommunicationRequest) (s : EvidenceSnapshot) (bounds : Bounds) (dst : EndpointId) : list CandidateReport :=
  reports_of req s ∅ bounds (enumerateCandidatePaths s req.(Request.source) dst bounds).

Record planned_outcome (req : CommunicationRequest) (s : EvidenceSnapshot) (bounds : Bounds) (dst : EndpointId) (o : PlanOutcome) : Prop := {
  po_candidates : o.(PlanOutcome.candidates) = reports_between req s bounds dst;
  po_ranked : o.(PlanOutcome.rankedIndices) = (ranked_items (reports_between req s bounds dst)).*1;
  po_plan : o.(PlanOutcome.success) = true -> exists plan rep,
    o.(PlanOutcome.plan) = Some plan /\ assembled_plan req s bounds plan /\
    best_report req s ∅ bounds req.(Request.source) dst = Some rep /\
    hop_of_stage <$> plan.(Plan.orderedStages) = report_hops rep;
}.

Lemma stages_for_payload snap req hops stages :
  stages_for snap req hops stages -> Forall (fun st => st.(Stage.payload) = req.(Request.payloadSize)) stages.
Proof. revert stages; induction hops as [|h hops IH]; intros [|st stages]; try done. intros [(l & id & _ & ->) H]. constructor; auto. Qed.

Lemma feasible_path_hops req snap c1 c2 bounds :
  c1.(CandidatePath.hops) = c2.(CandidatePath.hops) -> feasible_path req snap c1 bounds -> feasible_path req snap c2 bounds.
Proof. intros E []. by split; rewrite <- ?E. Qed.

Lemma random_plan_passes id dst payload s bounds :
  validate (randomRequest id dst payload) = None ->
  passes (library (planCommunication (randomRequest id dst payload) s ∅ bounds)) (planned_outcome (randomRequest id dst payload) s bounds dst).
Proof.
  intros Hv cs n Hcs. set (req := randomRequest id dst payload) in *. pose proof (proj1 (validate_iff req) Hv) as Hval.
  assert (Hd : firstDestination req = Ok dst) by done.
  assert (E : planCommunication req s ∅ bounds cs = planPointToPoint req s ∅ bounds cs) by (by rewrite planCommunication_valid).
  destruct (decide (ranked_reports (reports_between req s bounds dst) = [])) as [En|En].
  - pose proof (planPointToPoint_fails _ _ ∅ bounds _ Hd cs En) as Hf. unfold returns in Hf. rewrite <- E in Hf.
    unfold library. rewrite Hf. eexists _, cs. split; [reflexivity|]. split; [done|]. split; [done| |done].
    cbn. apply fmap_nil_inv in En. fold (reports_between req s bounds dst). by rewrite En.
  - destruct (planPointToPoint_succeeds _ _ ∅ bounds _ Hd cs Hcs En) as (paths & Hp & Hf). unfold returns in Hf. rewrite <- E in Hf.
    unfold library. rewrite Hf. eexists _, _. split; [reflexivity|]. split; [auto using after_plan_id_wf with planner|].
    split; [done|done|]. intros _.
    assert (Hb := proj2 (planned_is_assembled _ _ _ _ _ _ _ _ Hcs Hf eq_refl eq_refl)).
    destruct (retained req s ∅ bounds dst) as [|rep reps] eqn:Er; [exfalso; by apply En, (retained_nil req s ∅ bounds dst)|].
    destruct paths as [|p paths]; [done|]. destruct Hp as [Hp _]. eexists _, rep. split; [reflexivity|]. split; [exact Hb|].
    split; [by rewrite <- head_retained, Er|]. cbn. by eapply stages_for_hops, pf_stages.
Qed.

Lemma passes_deref {A} (o : option A) a (Q : A -> Prop) : o = Some a -> Q a -> passes (deref o) Q.
Proof. intros -> H. by apply passes_ret. Qed.

Lemma passes_if (b : bool) (m1 m2 : T ()) :
  (b = true -> passes m1 (fun _ => True)) -> (b = false -> passes m2 (fun _ => True)) -> passes (if b then m1 else m2) (fun _ => True).
Proof. destruct b; auto. Qed.

Section tests_pass.
Context {R : RandomEngine} {L : RandomLaws R} (leftFirst : bool).

(** The payloads of a path. *)
Lemma path_payloads_pass req s bounds plan p :
  assembled_plan req s bounds plan -> p ∈ plan.(Plan.candidatePaths) ->
  p.(Path.totalPayload) = req.(Request.payloadSize) /\
  Forall (fun st => st.(Stage.payload) = req.(Request.payloadSize)) p.(Path.stages).
Proof.
  intros [Hpaths _ _ _ _ _ _] Hp. rewrite Forall_forall in Hpaths. destruct (Hpaths p Hp) as (c & cost & Hpf & _).
  split; [exact (pf_payload _ _ _ _ _ _ Hpf)|exact (stages_for_payload _ _ _ _ (pf_stages _ _ _ _ _ _ Hpf))].
Qed.

Lemma winner_passes : passes (property_winner_satisfies_hard_constraints leftFirst) (fun _ => True).
Proof.
  apply passes_for_each. intros seed Hseed. set (req := randomRequest (seed + 1000) 12 8192).
  eapply passes_bind; [apply random_plan_passes; revert seed Hseed req; apply Forall_forall; apply (bool_decide_unpack _); vm_compute; exact I|].
  intros o [_ _ Ho]. apply passes_if; [intros Es|intros _; by apply passes_ret].
  destruct (Ho Es) as (plan & rep & Ep & Ha & Hb & Eh).
  eapply passes_bind; [by apply (passes_deref _ plan (fun p => p = plan))|]. intros ? ->.
  eapply passes_bind; [|intros _ _; eapply passes_bind; [|intros _ _]].
  - apply passes_for_each. intros st Hst. apply passes_CHECK, Z.eqb_eq. rewrite (ap_ordered _ _ _ _ Ha) in Hst.
    destruct (Plan.candidatePaths plan) as [|p ps] eqn:Eps; [by apply not_elem_of_nil in Hst|].
    destruct (path_payloads_pass _ _ _ _ p Ha) as [_ Hall]; [rewrite Eps; left|]. rewrite Forall_forall in Hall. by apply Hall.
  - apply passes_for_each. intros p Hp. destruct (path_payloads_pass _ _ _ _ p Ha Hp) as [Et Hall]. rewrite Et, Forall_forall in *.
    eapply passes_bind; [apply passes_CHECK, Z.eqb_refl|]. intros _ _.
    apply passes_for_each. intros st Hst. apply passes_CHECK, Z.eqb_eq, Hall, Hst.
  - apply passes_CHECK, evaluateCandidateFeasibility_iff. apply best_report_Some, bp_feasible in Hb.
    by apply (feasible_path_hops _ _ (CandidateReport.path rep)).
Qed.

(** The costs of the enumerated candidates: valid components and a finite total. *)
Lemma report_cost seed n req bounds dst rep :
  rep ∈ reports_between req (buildRandom leftFirst seed n) bounds dst -> feasible_report rep = true ->
  Forall moderate_component rep.(CandidateReport.cost).(CostSummary.components) /\
  upto 19 901 rep.(CandidateReport.cost).(CostSummary.total).
Proof.
  intros (c & -> & _)%list_elem_of_fmap Hf. unfold feasible_report, reportOf in *. cbn in *. rewrite Hf.
  split; [apply evaluateCandidateCost_moderate|apply evaluateCandidateCost_upto]; first [apply buildRandom_penalties|apply moderate_default].
Qed.

Lemma upto_finite n k a : upto n k a -> isnan a = false /\ isinf a = false.
Proof. intros (_ & Hn & Hi & _). split; [by apply nonneg_numeric in Hn|done]. Qed.

Lemma cost_passes : passes (property_cost_finite_and_no_overflow leftFirst) (fun _ => True).
Proof.
  apply passes_for_each. intros seed Hseed.
  eapply passes_bind; [apply random_plan_passes; revert seed Hseed; apply Forall_forall; apply (bool_decide_unpack _); vm_compute; exact I|].
  intros o [Ec _ _]. rewrite Ec. apply passes_for_each. intros cr Hcr. apply passes_if; [intros Hf|intros _; by apply passes_ret].
  destruct (report_cost _ _ _ _ _ _ Hcr Hf) as [Hc Ht%upto_finite]. rewrite Forall_forall in Hc.
  eapply passes_bind; [|intros _ _; eapply passes_bind; [|intros _ _]].
  - apply passes_CHECK. unfold totalValid. by destruct Ht as [-> ->].
  - apply passes_for_each. intros c Hin. pose proof (moderate_isValid c (Hc c Hin)) as Hv.
    eapply passes_bind; [by apply passes_CHECK|]. intros _ _. apply passes_CHECK. unfold isValid in Hv. by bsplit.
  - apply passes_CHECK. by destruct Ht as [-> ->].
Qed.

(** The winner does not depend on the identity of the request. *)
Lemma best_report_identity id1 id2 dst payload s bounds :
  best_report (randomRequest id1 dst payload) s ∅ bounds 1 dst = best_report (randomRequest id2 dst payload) s ∅ bounds 1 dst.
Proof. reflexivity. Qed.

Lemma passes_ext {A} (m1 m2 : T A) Q : (forall p, m1 p = m2 p) -> passes m2 Q -> passes m1 Q.
Proof. intros E H cs n Hcs. rewrite E. by apply H. Qed.

Lemma shuffled_plan_passes id seed perm :
  validate (randomRequest id 10 4096) = None ->
  passes (library (planCommunication (randomRequest id 10 4096) (shuffledEvidence leftFirst seed perm) ∅ randomBounds))
    (planned_outcome (randomRequest id 10 4096) (buildRandom leftFirst seed 10) randomBounds 10).
Proof.
  intros Hv. apply (passes_ext _ (library (planCommunication (randomRequest id 10 4096) (buildRandom leftFirst seed 10) ∅ randomBounds)));
    [|by apply random_plan_passes].
  intros [cs n]. unfold library. by rewrite (planCommunication_equiv _ _ _ _ _ cs (shuffledEvidence_equiv leftFirst seed perm)).
Qed.

(** Every successful round plans the links of one winner. *)
Lemma permutations_pass seed firstSeq perms :
  (firstSeq = [] \/ Some firstSeq =
    (fun rep => Hop.link <$> report_hops rep) <$> best_report (randomRequest 100 10 4096) (buildRandom leftFirst seed 10) ∅ randomBounds 1 10) ->
  Forall (fun perm => validate (randomRequest (perm + 100) 10 4096) = None) perms ->
  passes (permutations leftFirst seed firstSeq perms) (fun _ => True).
Proof.
  intros Hf Hv. revert firstSeq Hf. induction Hv as [|perm perms Hv _ IH]; intros firstSeq Hf; cbn [permutations]; [by apply passes_ret|].
  eapply passes_bind; [by apply (shuffled_plan_passes _ seed perm)|].
  intros o [_ _ Ho]. apply passes_if; [intros Es|intros _; by apply IH].
  destruct (Ho Es) as (plan & rep & Ep & _ & Hb & Eh).
  eapply passes_bind; [by apply (passes_deref _ plan (fun p => p = plan))|]. intros ? ->.
  assert (El : Stage.link <$> Plan.orderedStages plan = Hop.link <$> report_hops rep) by (rewrite <- Eh, <- list_fmap_compose; done).
  rewrite (best_report_identity _ 100) in Hb. rewrite Hb in IH, Hf. rewrite El.
  apply passes_if; [intros _; apply IH; by right|]. intros Hne%bool_decide_eq_false.
  destruct Hf as [->|[= ->]]; [done|].
  eapply passes_bind; [by apply passes_CHECK, bool_decide_eq_true|]. intros _ _. apply IH. by right.
Qed.

Lemma determinism_passes : passes (property_determinism_and_insertion_permutation leftFirst) (fun _ => True).
Proof.
  apply passes_for_each. intros seed _. apply permutations_pass; [by left|]. apply (bool_decide_unpack _). vm_compute. exact I.
Qed.

(** The key of a finite total is the total itself. *)
Lemma rankKey_total rep :
  totalValid rep.(CandidateReport.cost) = true -> (rankKey (reportRankable rep)).(Key.total) = rep.(CandidateReport.cost).(CostSummary.total).
Proof. intros H. cbn. by rewrite H. Qed.

Lemma keyLess_total a b :
  numeric a.(Key.total) -> numeric b.(Key.total) -> keyLess b a = false -> dle a.(Key.total) b.(Key.total) = true.
Proof.
  intros Ha Hb. unfold keyLess. destruct (dne (Key.total b) (Key.total a)) eqn:E; [intros Hl; by rewrite dle_not_gt, Hl|].
  intros _. rewrite dne_rank in E by done. apply negb_false_iff, bool_decide_eq_true in E.
  by rewrite dle_not_gt, dlt_rank, E, lexb_irrefl by done.
Qed.

(** No ranked report has a smaller total than the first. *)
Lemma first_total_least seed n req bounds dst j best items :
  ranked_items (reports_between req (buildRandom leftFirst seed n) bounds dst) = (j, best) :: items ->
  forall i rep, (i, rep) ∈ (j, best) :: items ->
    dle best.(CandidateReport.cost).(CostSummary.total) rep.(CandidateReport.cost).(CostSummary.total) = true.
Proof.
  intros E i rep Hin.
  assert (Hup : forall i' r, (i', r) ∈ (j, best) :: items -> isnan r.(CandidateReport.cost).(CostSummary.total) = false /\
    isinf r.(CandidateReport.cost).(CostSummary.total) = false).
  { intros i' r Hr. rewrite <- E in Hr. apply elem_of_ranked_items in Hr as [Hr Hf].
    by destruct (report_cost _ _ _ _ _ _ (list_elem_of_lookup_2 _ _ _ Hr) Hf) as [_ Ht%upto_finite]. }
  pose proof (ranked_reports_sorted req (buildRandom leftFirst seed n) ∅ bounds (enumerateCandidatePaths (buildRandom leftFirst seed n) (Request.source req) dst bounds)) as Hs.
  unfold ranked_reports in Hs. fold (reports_between req (buildRandom leftFirst seed n) bounds dst) in Hs. rewrite E in Hs.
  destruct (Hup j best) as [Nb Ib]; [left|]. apply elem_of_cons in Hin as [[= -> ->]|Hin]; [by apply dle_refl|].
  destruct (Hup i rep) as [Nr Ir]; [by right|].
  inversion_clear Hs as [|? ? _ Hall]. rewrite Forall_forall in Hall.
  assert (Hless : reportLess rep best = false) by (apply Hall, list_elem_of_fmap; by exists (i, rep)).
  apply keyLess_total in Hless; rewrite !rankKey_total in *; unfold totalValid, numeric; rewrite ?Nb, ?Nr, ?Ib, ?Ir; done.
Qed.

Lemma ranking_passes : passes (property_ranking_matches_reference_minimum leftFirst) (fun _ => True).
Proof.
  apply passes_for_each. intros seed Hseed. set (req := randomRequest (seed + 300) 8 4096).
  eapply passes_bind; [apply random_plan_passes; revert seed Hseed req; apply Forall_forall; apply (bool_decide_unpack _); vm_compute; exact I|].
  intros o [Ec Er _]. rewrite Ec, Er. apply passes_if; [|intros _; by apply passes_ret]. intros [_ Hlen]%andb_true_iff.
  fold req in Ec, Er, Hlen |- *.
  pose proof (elem_of_ranked_items (reports_between req (buildRandom leftFirst seed 8) randomBounds 8)) as Hmem.
  destruct (ranked_items _) as [|[j best] items] eqn:E; [done|]. pose proof (first_total_least _ _ _ _ _ _ _ _ E) as Hleast.
  destruct (proj1 (Hmem j best)) as [Hj Hf]; [left|].
  eapply passes_bind; [by apply (passes_deref _ j (fun i => i = j))|]. intros ? ->.
  eapply passes_bind; [by apply (passes_deref _ best (fun r => r = best))|]. intros ? ->.
  eapply passes_bind; [by apply passes_CHECK|]. intros _ _. apply passes_for_each. intros i ([i' rep] & -> & Hi)%list_elem_of_fmap.
  destruct (proj1 (Hmem i' rep) Hi) as [Hi' _]. cbn [fst].
  eapply passes_bind; [by apply (passes_deref _ rep (fun r => r = rep))|]. intros ? ->.
  apply passes_if; [intros _; apply passes_CHECK|intros _; by apply passes_ret].
  unfold dge. eapply dle_trans; [|by apply (Hleast i')].
  destruct (report_cost _ _ _ _ _ _ (list_elem_of_lookup_2 _ _ _ Hj) Hf) as [_ (Wb & Nb & Ib & _)].
  by apply dsub_le.
Qed.

Lemma generation_passes : passes property_generation_never_moves_backward (fun _ => True).
Proof. do 2 (eapply passes_bind; [by apply passes_CHECK|]; intros _ _). by apply passes_CHECK. Qed.

End tests_pass.

(** ** The engine of the suite: std::mt19937_64 *)

(** The last 312 words of the sequence, oldest first. *)
Definition mt_seed (seed : Z) : list Z :=
  reverse (foldl (fun ws i => match ws with
    | w :: _ => wrap64 (6364136223846793005 * Z.lxor w (Z.shiftr w 62) + i) :: ws
    | [] => [wrap64 seed] end) [wrap64 seed] (seqZ 1 311)).

Definition mt_word (ws : list Z) : Z :=
  let y := Z.lor (Z.shiftl (Z.shiftr (ws !!! 0%nat) 31) 31) (Z.land (ws !!! 1%nat) (2 ^ 31 - 1)) in
  Z.lxor (Z.lxor (ws !!! 156%nat) (Z.shiftr y 1)) (if Z.odd y then 0xB5026F5AA96619E9 else 0).

Definition mt_temper (x : Z) : Z :=
  let x := Z.lxor x (Z.land (Z.shiftr x 29) 0x5555555555555555) in
  let x := Z.lxor x (Z.land (wrap64 (Z.shiftl x 17)) 0x71D67FFFEDA60000) in
  let x := Z.lxor x (Z.land (wrap64 (Z.shiftl x 37)) 0xFFF7EEE000000000) in
  Z.lxor x (Z.shiftr x 43).

Definition mt_draw (ws : list Z) : Z * list Z := let x := mt_word ws in (wrap64 (mt_temper x), tail ws ++ [x]).

(** A shuffle that draws each next element among those left. *)
Fixpoint selection_shuffle {A} (todo : nat) (l : list A) (ws : list Z) : list A * list Z :=
  match todo with
  | O => (l, ws)
  | S todo' =>
      let '(r, ws) := mt_draw ws in
      let i := Z.to_nat (r mod Z.of_nat (length l)) in
      match l !! i with
      | Some x => let '(rest, ws) := selection_shuffle todo' (delete i l) ws in (x :: rest, ws)
      | None => (l, ws)
      end
  end.

#[export] Instance mt19937_64 : RandomEngine := {|
  Engine := list Z; seeded := mt_seed; draw := mt_draw; shuffle _ l ws := selection_shuffle (length l) l ws |}.

#[export] Instance mt19937_64_laws : RandomLaws mt19937_64.
Proof.
  split; [intros; apply wrap64_range|]. intros A l ws. cbn [shuffle mt19937_64]. generalize (length l) as n. intros n. revert l ws.
  induction n as [|n IH]; intros l ws; cbn [selection_shuffle]; [done|].
  destruct (mt_draw ws) as [r ws']. destruct (l !! _) as [x|] eqn:E; [|done].
  specialize (IH (delete (Z.to_nat (r mod Z.of_nat (length l))) l) ws'). destruct (selection_shuffle n _ ws') as [rest ws''].
  cbn [fst] in *. rewrite IH. symmetry. by apply delete_Permutation.
Qed.

(** The value the standard requires of the 10000th draw of an engine of the default seed. *)
Example mt19937_64_10000 : (draw (Nat.iter 9999 (fun ws => (draw ws).2) (seeded 5489))).1 = 9981545732273789042.
Proof. vm_compute. reflexivity. Qed.

