(* ===== verification/LiveTests.v ===== *)
(** * The live test suite

    Models tests/test_live.cpp: its six synthetic topologies, planned as in the other
    suites, the loops of its loopback transfer over the sockets of Transport.v, and its
    copies of a buffer in memory and through a file.  What it times is not modelled. *)

From S2P Require Import Prelude Core Enums Double Model Scenario Feasibility Ranking Cost Enumerate Assembly.
From S2P Require Import PointToPoint Multicast Collective Planner Broker Message Codec Framing Transport Store Persistence Coordinator Suite.

(** ** [host_memory_proof] and [storage_staging_proof] *)

(** [(char)v]. *)
Definition to_char (v : Z) : Z := (v + 2 ^ 7) mod 2 ^ 8 - 2 ^ 7.

(** A buffer of [n] bytes filled by the index, and one of zeros. *)
Definition filled (f : Z -> Z) (n : nat) : list Z := f <$> seqZ 0 (Z.of_nat n).
Definition memcpy (dst src : list Z) (n : nat) : list Z := take n src ++ drop n dst.

(** The comparing loop, which stops at the first difference. *)
Fixpoint sameBytes (n : nat) (a b : list Z) : bool :=
  match n, a, b with
  | O, _, _ => true
  | S n', x :: a', y :: b' => if x =? y then sameBytes n' a' b' else false
  | _, _, _ => false
  end.

Definition host_memory_proof (bytes : nat) : T () :=
  let src := filled (fun i => to_char (Z.land i 255)) bytes in
  CHECK (sameBytes bytes src (memcpy (replicate bytes 0) src bytes)).

(** The files by name: an output stream that was closed leaves its bytes, an input stream
    reads at most what is there. *)
Definition writeFile (name : string) (data : list Z) (fs : gmap string (list Z)) : gmap string (list Z) := <[name := data]> fs.
Definition readFile (name : string) (buf : list Z) (n : nat) (fs : gmap string (list Z)) : list Z :=
  memcpy buf (default [] (fs !! name)) (Nat.min n (length (default [] (fs !! name)))).

Definition storage_staging_proof (bytes : nat) (fs : gmap string (list Z)) : T (gmap string (list Z)) :=
  let file := "proof_storage.bin" in
  let data := filled (fun i => to_char (Z.land (i * 31) 255)) bytes in
  let fs := writeFile file data fs in
  let staged := readFile file (replicate bytes 0) bytes fs in
  do! CHECK (sameBytes bytes data staged);
  tret (delete file fs).

Lemma length_filled f n : length (filled f n) = n.
Proof. unfold filled. rewrite length_fmap, length_seqZ. lia. Qed.

Lemma sameBytes_refl l : sameBytes (length l) l l = true.
Proof. induction l as [|x l IH]; [done|]. cbn. by rewrite Z.eqb_refl. Qed.

Lemma sameBytes_eq n a b : length a = n -> length b = n -> sameBytes n a b = true -> a = b.
Proof.
  revert a b; induction n as [|n IH]; intros [|x a] [|y b] Ha Hb H; simplify_eq/=; [done|].
  destruct (Z.eqb_spec x y) as [->|]; [|done]. f_equal. by apply IH.
Qed.

Lemma memcpy_all dst src : length dst = length src -> memcpy dst src (length src) = src.
Proof. intros H. unfold memcpy. rewrite firstn_all, drop_ge by lia. apply app_nil_r. Qed.

(** The copies agree for every size, and the file is gone afterwards. *)
Theorem copies_agree bytes fs p :
  host_memory_proof bytes p = (Value (), p) /\ storage_staging_proof bytes fs p = (Value (delete "proof_storage.bin" fs), p).
Proof.
  destruct p as [cs failures]. split.
  - unfold host_memory_proof. set (src := filled _ _). assert (Hl : length src = bytes) by apply length_filled.
    rewrite <- Hl at 1 3. rewrite memcpy_all by (by rewrite length_replicate). rewrite sameBytes_refl. done.
  - unfold storage_staging_proof, writeFile, readFile. set (src := filled _ _). assert (Hl : length src = bytes) by apply length_filled.
    rewrite lookup_insert_eq. change (default [] (Some src)) with src. rewrite Hl, Nat.min_id, <- Hl, memcpy_all by (by rewrite length_replicate).
    unfold tbind, CHECK, tret, id. by rewrite sameBytes_refl, delete_insert_eq.
Qed.

(** ** [loopback_tcp_proof] *)

Section loopback.
Context {Sock : Type} `{HS : Socket Sock}.
Implicit Types s : Sock.

(** The server thread's loop with [n] bytes to go: what it stored of them. *)
Fixpoint recvLoop (fuel n : nat) (s : Sock) : option (list Z * Sock) :=
  match n with
  | O => Some ([], s)
  | _ =>
      match fuel with
      | O => None
      | S fuel' =>
          match recv n s with
          | (None, s') | (Some [], s') => Some ([], s')
          | (Some bs, s') =>
              match recvLoop fuel' (n - length bs) s' with
              | Some (rest, s'') => Some (bs ++ rest, s'')
              | None => None
              end
          end
      end
  end.

(** The client's loop with the bytes that remain: how many it sent. *)
Fixpoint sendLoop (fuel : nat) (bs : list Z) (s : Sock) : option (nat * Sock) :=
  match bs with
  | [] => Some (0%nat, s)
  | _ =>
      match fuel with
      | O => None
      | S fuel' =>
          match send bs s with
          | (None, s') | (Some O, s') => Some (0%nat, s')
          | (Some w, s') =>
              match sendLoop fuel' (drop w bs) s' with
              | Some (sent, s'') => Some ((w + sent)%nat, s'')
              | None => None
              end
          end
      end
  end.

(** [recvBuf] and the comparison with 'X'. *)
Definition received (payload : nat) (got : list Z) : list Z := got ++ replicate (payload - length got) 0.
Definition allX (buf : list Z) : bool := forallb (Z.eqb 88) buf.

Lemma recvLoop_ends fuel n s : (n <= fuel)%nat -> is_Some (recvLoop fuel n s).
Proof.
  revert n s; induction fuel as [|fuel IH]; intros [|n] s Hn; cbn [recvLoop]; [by eauto|lia|by eauto|].
  destruct (recv (S n) s) as [[[|b bs]|] s']; [by eauto| |by eauto].
  destruct (IH (S n - length (b :: bs))%nat s') as [[rest s''] ->]; [cbn [length]; lia|eauto].
Qed.

Lemma sendLoop_ends fuel bs s : (length bs <= fuel)%nat -> is_Some (sendLoop fuel bs s).
Proof.
  revert bs s; induction fuel as [|fuel IH]; intros [|b bs] s Hn; cbn [sendLoop length] in *; [by eauto|lia|by eauto|].
  destruct (send (b :: bs) s) as [[[|w]|] s']; [by eauto| |by eauto].
  destruct (IH (drop (S w) (b :: bs)) s') as [[k s''] ->]; [rewrite length_drop; cbn [length]; lia|eauto].
Qed.

(** What comes in is stored, in order. *)
Lemma recvLoop_incoming fuel n s :
  (n <= fuel)%nat -> (n <= length (incoming s))%nat -> exists s', recvLoop fuel n s = Some (take n (incoming s), s').
Proof.
  revert n s; induction fuel as [|fuel IH]; intros [|n] s Hn Hl; cbn [recvLoop]; [by eauto|lia|by eauto|].
  destruct (recv_ready (S n) s) as (bs & s' & E & Hne); [lia|by intros H; rewrite H in Hl; simpl in Hl; lia|].
  rewrite E. pose proof (recv_bound _ _ _ _ E) as Hb. pose proof (recv_order _ _ _ _ E) as Ho.
  destruct bs as [|b bs]; [done|]. rewrite Ho, length_app in Hl.
  destruct (IH (S n - length (b :: bs))%nat s') as (s'' & ->); [cbn [length] in *; lia|lia|]. exists s''. by rewrite Ho, take_app_ge by lia.
Qed.

(** The client's count is right: when it is complete everything went out, in order. *)
Lemma sendLoop_sent fuel bs s sent s' : sendLoop fuel bs s = Some (sent, s') -> (sent <= length bs)%nat.
Proof.
  revert bs s sent; induction fuel as [|fuel IH]; intros [|b bs] s sent H; cbn [sendLoop] in H; simplify_eq; [lia..|].
  destruct (send (b :: bs) s) as [[[|w]|] s1] eqn:E; simplify_eq; [lia| |lia]. apply send_bound in E.
  destruct (sendLoop fuel _ s1) as [[k s2]|] eqn:E2; simplify_eq. apply IH in E2. rewrite length_drop in E2. lia.
Qed.

Lemma sendLoop_outgoing fuel bs s s' : sendLoop fuel bs s = Some (length bs, s') -> outgoing s' = outgoing s ++ bs.
Proof.
  revert bs s; induction fuel as [|fuel IH]; intros [|b bs] s H; cbn [sendLoop] in H; simplify_eq; [by rewrite app_nil_r..|].
  destruct (send (b :: bs) s) as [[[|w]|] s1] eqn:E; try done. pose proof (send_bound _ _ _ _ E) as Hb.
  destruct (sendLoop fuel (drop (S w) (b :: bs)) s1) as [[k s2]|] eqn:E2; [|done].
  assert (Hk : k = length (drop (S w) (b :: bs))) by (injection H as Hk _; rewrite length_drop; cbn [length] in *; lia).
  injection H as _ <-. rewrite Hk in E2. rewrite (IH _ _ E2), (send_order _ _ _ _ E), <- app_assoc. by rewrite take_drop.
Qed.

(** Both loops of the loopback test end, and if the client sent its whole buffer and the
    server's end of the connection delivers what the client's end took, the buffers agree. *)
Theorem loopback_proof_passes payload (client server : Sock) sent client' got server' :
  sendLoop payload (replicate payload 88) client = Some (sent, client') -> recvLoop payload payload server = Some (got, server') ->
  sent = payload -> outgoing client' = outgoing client ++ incoming server -> allX (received payload got) = true.
Proof.
  intros Hs Hr -> Ho. rewrite <- (length_replicate payload 88) in Hs at 3. apply sendLoop_outgoing in Hs. rewrite Hs in Ho. apply app_inv_head in Ho.
  destruct (recvLoop_incoming payload payload server) as (s' & E); [done|by rewrite <- Ho, length_replicate|].
  rewrite E, <- Ho, take_ge in Hr by by rewrite length_replicate. injection Hr as <- _.
  unfold received, allX. rewrite length_replicate, Nat.sub_diag, app_nil_r. apply forallb_forall. intros x Hx%list_elem_of_In.
  by apply elem_of_replicate in Hx as [-> _].
Qed.
End loopback.

(** ** The synthetic topologies *)

Definition liveBounds : Bounds := suiteBounds 6 64 defaultBounds.(Bounds.maxFallbacks).
Definition livePlans (req : CommunicationRequest) (s : EvidenceSnapshot) : T PlanOutcome := library (planCommunication req s ∅ liveBounds).

Definition synthetic (id : Z) (kind : EndpointKind) (node : Z) (ts : list Transport) : Endpoint :=
  mkEndpoint id 1 kind node true true ts Provenance.SYNTHETIC 0.
Definition syntheticLink (id src dst : Z) (t : Transport) (capacity : Z) : Link := mkLink id 1 src dst t capacity true dzero Provenance.SYNTHETIC.

(** A block under [if (po.success)], of the plan. *)
Definition ifPlanned (po : PlanOutcome) (body : CommunicationPlan -> T ()) : T () :=
  if po.(PlanOutcome.success) then do plan <- deref po.(PlanOutcome.plan); body plan else tret ().

(** [req.requiredFailureDomain] and [req.provenance] set. *)
Definition labelled (domain provenance : string) (r : CommunicationRequest) : CommunicationRequest := {|
  Request.id := r.(Request.id); Request.generation := r.(Request.generation); Request.shape := r.(Request.shape);
  Request.source := r.(Request.source); Request.destinations := r.(Request.destinations);
  Request.payloadSize := r.(Request.payloadSize); Request.direction := r.(Request.direction);
  Request.latencySensitive := r.(Request.latencySensitive); Request.throughputTarget := r.(Request.throughputTarget);
  Request.requireOrdering := r.(Request.requireOrdering); Request.requireReliability := r.(Request.requireReliability);
  Request.allowRetry := r.(Request.allowRetry); Request.allowStaging := r.(Request.allowStaging);
  Request.allowHostStaging := r.(Request.allowHostStaging); Request.allowStorageStaging := r.(Request.allowStorageStaging);
  Request.allowRelay := r.(Request.allowRelay); Request.allowMulticast := r.(Request.allowMulticast);
  Request.allowed := r.(Request.allowed); Request.forbidden := r.(Request.forbidden); Request.requiredFailureDomain := domain;
  Request.preferredLocality := r.(Request.preferredLocality); Request.maxHops := r.(Request.maxHops);
  Request.maxStages := r.(Request.maxStages); Request.maxMovementCost := r.(Request.maxMovementCost);
  Request.reservationBinding := r.(Request.reservationBinding); Request.externalPriority := r.(Request.externalPriority);
  Request.policyGeneration := r.(Request.policyGeneration); Request.collectiveShape := r.(Request.collectiveShape);
  Request.participants := r.(Request.participants); Request.collectiveCount := r.(Request.collectiveCount);
  Request.provenance := provenance |}.

(** A default request with the fields the fan-outs set. *)
Definition fanOutRequest (id : Z) (shape : RequestShape) (source : EndpointId) (dests : list EndpointId) (payload : Z) (multicast : bool)
    (collective : CollectiveShape) (parts : list EndpointId) (count : Z) : CommunicationRequest := {|
  Request.id := id; Request.generation := 1; Request.shape := shape; Request.source := source; Request.destinations := dests;
  Request.payloadSize := payload; Request.direction := Request_default.(Request.direction);
  Request.latencySensitive := Request_default.(Request.latencySensitive);
  Request.throughputTarget := Request_default.(Request.throughputTarget);
  Request.requireOrdering := Request_default.(Request.requireOrdering);
  Request.requireReliability := Request_default.(Request.requireReliability);
  Request.allowRetry := Request_default.(Request.allowRetry); Request.allowStaging := Request_default.(Request.allowStaging);
  Request.allowHostStaging := Request_default.(Request.allowHostStaging);
  Request.allowStorageStaging := Request_default.(Request.allowStorageStaging);
  Request.allowRelay := Request_default.(Request.allowRelay); Request.allowMulticast := multicast;
  Request.allowed := Request_default.(Request.allowed); Request.forbidden := Request_default.(Request.forbidden);
  Request.requiredFailureDomain := Request_default.(Request.requiredFailureDomain);
  Request.preferredLocality := Request_default.(Request.preferredLocality);
  Request.maxHops := Request_default.(Request.maxHops); Request.maxStages := Request_default.(Request.maxStages);
  Request.maxMovementCost := Request_default.(Request.maxMovementCost);
  Request.reservationBinding := Request_default.(Request.reservationBinding);
  Request.externalPriority := Request_default.(Request.externalPriority);
  Request.policyGeneration := Request_default.(Request.policyGeneration); Request.collectiveShape := collective;
  Request.participants := parts; Request.collectiveCount := count;
  Request.provenance := Request_default.(Request.provenance) |}.

Definition gpuPair (ts : list Transport) : list Endpoint :=
  [synthetic 1 EndpointKind.GPU_DEVICE 1 ts; synthetic 2 EndpointKind.GPU_DEVICE 2 ts;
   synthetic 3 EndpointKind.PINNED_HOST_MEMORY 1 [Transport.HOST_MEMORY; Transport.PCIE]].
Definition pairLinks : list Link :=
  [syntheticLink 1 1 2 Transport.HOST_MEMORY 1000000; syntheticLink 2 1 3 Transport.PCIE 2000000; syntheticLink 3 3 2 Transport.PCIE 2000000].

Definition synthetic_twogpu_direct_vs_staged : T () :=
  let s := suiteSnapshot (gpuPair [Transport.NVLINK; Transport.HOST_MEMORY; Transport.PCIE]) pairLinks [] in
  do po <- livePlans (labelled "" "SYNTHETIC two-GPU" (mkRequest 1 1 2 8192 RequestShape.POINT_TO_POINT ∅)) s;
  do! CHECK po.(PlanOutcome.success);
  ifPlanned po (fun plan =>
    do path <- deref (plan.(Plan.candidatePaths) !! 0%nat);
    do stage <- deref (path.(Path.stages) !! 0%nat);
    CHECK (bool_decide (stage.(Stage.transport) = Transport.HOST_MEMORY) || (length plan.(Plan.orderedStages) =? 1)%nat)).

(** The GPUs [1..4], one per node. *)
Definition fourGpus : list Endpoint :=
  (fun i => synthetic i EndpointKind.GPU_DEVICE i [Transport.HOST_MEMORY; Transport.PCIE]) <$> [1; 2; 3; 4].

Definition synthetic_multicast_relay_tree : T () :=
  let s := suiteSnapshot fourGpus ((fun i => syntheticLink i 1 (i + 1) Transport.HOST_MEMORY 1000000) <$> [1; 2; 3]) [] in
  let req := fanOutRequest 2 RequestShape.MULTICAST 1 [2; 3; 4] 4096 true Request_default.(Request.collectiveShape) [] 0 in
  do! library (lift (requireValid req));
  do po <- library (planMulticast req s ∅ liveBounds);
  CHECK po.(PlanOutcome.success).

Definition synthetic_collective_shape : T () :=
  let s := suiteSnapshot fourGpus ((fun i => syntheticLink i i (i + 1) Transport.HOST_MEMORY 1000000) <$> [1; 2; 3]) [] in
  let req := fanOutRequest 3 RequestShape.COLLECTIVE 0 [] 8192 false CollectiveShape.ALL_REDUCE [1; 2; 3; 4] 4 in
  do! library (lift (requireValid req));
  do po <- library (planCollective req s ∅ liveBounds);
  do! CHECK po.(PlanOutcome.success);
  ifPlanned po (fun plan =>
    do! CHECK (bool_decide (plan.(Plan.collectiveShape) = CollectiveShape.ALL_REDUCE));
    CHECK (length plan.(Plan.collectiveParticipants) =? 4)%nat).

(** Two GPUs with a direct link and a detour over two NICs. *)
Definition nicSnapshot : EvidenceSnapshot := suiteSnapshot
  [synthetic 1 EndpointKind.GPU_DEVICE 1 [Transport.HOST_MEMORY; Transport.PCIE]; synthetic 2 EndpointKind.GPU_DEVICE 2 [Transport.HOST_MEMORY; Transport.PCIE];
   synthetic 3 EndpointKind.NIC 1 [Transport.NETWORK; Transport.HOST_MEMORY]; synthetic 4 EndpointKind.NIC 2 [Transport.NETWORK; Transport.HOST_MEMORY]]
  [syntheticLink 1 1 2 Transport.HOST_MEMORY 1000000; syntheticLink 2 1 3 Transport.HOST_MEMORY 2000000;
   syntheticLink 3 3 4 Transport.NETWORK 2000000; syntheticLink 4 4 2 Transport.HOST_MEMORY 2000000] [].

(** [load = 0.99], [penalty = 1e12], reported; the limit is not exceeded. *)
Definition congested (c : Congestion) : Congestion := {|
  Congestion.generation := c.(Congestion.generation); Congestion.load := dlit 99 100; Congestion.penalty := dofZ (10 ^ 12);
  Congestion.hardLimitExceeded := c.(Congestion.hardLimitExceeded); Congestion.provenance := Provenance.REPORTED |}.

Definition synthetic_congestion_alternate_route : T () :=
  let req := mkRequest 4 1 2 4096 RequestShape.POINT_TO_POINT ∅ in
  do po <- livePlans req nicSnapshot;
  do! CHECK po.(PlanOutcome.success);
  do! ifPlanned po (fun plan => CHECK (length plan.(Plan.orderedStages) =? 1)%nat);
  do po2 <- livePlans req (at_link 0 (fun l => set_congestion (congested l.(Link.congestion)) l) nicSnapshot);
  do! CHECK po2.(PlanOutcome.success);
  ifPlanned po2 (fun plan => CHECK (2 <=? length plan.(Plan.orderedStages))%nat).

Definition synthetic_reservation_blocks_preferred : T () :=
  let s := suiteSnapshot (gpuPair [Transport.HOST_MEMORY; Transport.PCIE]) pairLinks
    [{| Reservation.resource := 1; Reservation.reserved := 2000000; Reservation.provenance := Provenance.REPORTED |}] in
  do po <- livePlans (mkRequest 5 1 2 4096 RequestShape.POINT_TO_POINT ∅) s;
  do! CHECK po.(PlanOutcome.success);
  ifPlanned po (fun plan => CHECK (length plan.(Plan.orderedStages) =? 2)%nat).

Definition synthetic_failure_domain_route : T () :=
  let s := suiteSnapshot (gpuPair [Transport.HOST_MEMORY; Transport.PCIE])
    (zip_with set_failureDomain ["rackB"; "rackA"; "rackA"] pairLinks) [] in
  let req := mkRequest 6 1 2 4096 RequestShape.POINT_TO_POINT ∅ in
  do po <- livePlans (labelled "rackA" req.(Request.provenance) req) s;
  do! CHECK po.(PlanOutcome.success);
  ifPlanned po (fun plan => CHECK (negb (existsb (fun st => st.(Stage.link) =? 1) plan.(Plan.orderedStages)))).

Definition synthetic_tests : list (T ()) := [
  synthetic_twogpu_direct_vs_staged; synthetic_multicast_relay_tree; synthetic_collective_shape; synthetic_congestion_alternate_route;
  synthetic_reservation_blocks_preferred; synthetic_failure_domain_route].

(** The synthetic tests pass, one after the other. *)
Theorem synthetic_tests_pass : CP_MAIN synthetic_tests = Some 0.
Proof. vm_compute. reflexivity. Qed.
