(* ===== verification/Examples.v ===== *)
(** * The tools and the examples

    Models tools/cp_inspect.cpp, examples/basic.cpp and downstream/main.cpp: programs that
    print what the library answers.  An output is a list of lines, one for each printf,
    with the exit code; [fixed3] is the "%.3f" of the C library. *)

From S2P Require Import Prelude Core Enums Double Model Scenario Feasibility Ranking Cost Enumerate Assembly.
From S2P Require Import PointToPoint Multicast Collective Planner Message Codec Protocol Store Persistence Suite.

Definition Output : Type := Z * list string.

(** "%llu" and "%zu". *)
Definition llu (v : Z) : string := Id_str v.
Definition zu (n : nat) : string := Id_str (Z.of_nat n).

Section tools.
Context (fixed3 : double -> string).
(** The number of plans that [parseStore] leaves in its output when it refuses a store. *)
Context (leftover : nat).

(** ** cp_inspect *)

Definition storeLine (st : StoreState) : string :=
  "CommunicationPlanner store: epoch=" +:+ llu st.(StoreState.epoch) +:+ " plans=" +:+ zu (length st.(StoreState.plans)) +:+
  " requests=" +:+ zu (length st.(StoreState.requests)) +:+ " supersessions=" +:+ zu (length st.(StoreState.supersessions)).

Definition stageLine (stg : Stage) : string :=
  "    stage tr=" +:+ Transport_toString stg.(Stage.transport) +:+ " " +:+ Id_str stg.(Stage.source) +:+ "->" +:+
  Id_str stg.(Stage.destination) +:+ " payload=" +:+ llu stg.(Stage.payload).

Definition planLine (rec : StoreRecord) : string :=
  let p := rec.(StoreRecord.plan) in
  "  plan " +:+ llu p.(Plan.id) +:+ "/" +:+ llu p.(Plan.generation) +:+ " req=" +:+ llu p.(Plan.requestId) +:+
  " state=" +:+ PlanState_toString rec.(StoreRecord.state) +:+ " shape=" +:+ RequestShape_toString p.(Plan.shape) +:+
  " stages=" +:+ zu (length p.(Plan.orderedStages)) +:+ " primary=" +:+ llu p.(Plan.primaryPath) +:+
  " cost=" +:+ fixed3 p.(Plan.cost).(CostSummary.total).

Definition inspectPlan (rec : StoreRecord) : list string := planLine rec :: (stageLine <$> rec.(StoreRecord.plan).(Plan.orderedStages)).

(** [main], with the arguments after the program's name and the files by name. *)
Definition cp_inspect (args : list string) (files : string -> option (list Z)) : Output :=
  match args with
  | [] => (2, ["usage: cp_inspect <store-file>"])
  | name :: _ =>
      match files name with
      | None => (1, ["cannot open store: " +:+ name])
      | Some buf =>
          match parseStore buf with
          | inl pe => (1, ["store parse error: " +:+ PersistErrorCode_toString pe.(PersistError.code) +:+ " (" +:+ pe.(PersistError.detail) +:+ ")"])
          | inr st => (0, storeLine st :: concat (inspectPlan <$> st.(StoreState.plans)))
          end
      end
  end.

(** ** examples/basic.cpp *)

Definition exampleEndpoint (id : EndpointId) (kind : EndpointKind) (node : NodeId) (caps : list Transport) : Endpoint := {|
  Endpoint.id := id; Endpoint.generation := 1; Endpoint.kind := kind; Endpoint.node := node;
  Endpoint.device := Endpoint_default.(Endpoint.device); Endpoint.location := Endpoint_default.(Endpoint.location);
  Endpoint.address := ""; Endpoint.protocol := ""; Endpoint.version := ""; Endpoint.name := "";
  Endpoint.capability := {| Capability.generation := 1; Capability.transports := list_to_set caps;
    Capability.features := Capability_default.(Capability.features); Capability.provenance := Provenance.MEASURED;
    Capability.computeArch := Capability_default.(Capability.computeArch) |};
  Endpoint.health := {| Health.generation := Health_default.(Health.generation); Health.healthy := true; Health.message := "" |};
  Endpoint.reachable := true; Endpoint.ready := true; Endpoint.worker := 0; Endpoint.workerBoot := 0; Endpoint.source := 0;
  Endpoint.sourceBoot := 0; Endpoint.failureDomain := ""; Endpoint.provenance := Endpoint_default.(Endpoint.provenance) |}.

Definition exampleLink (id : LinkId) (src dst : EndpointId) (t : Transport) (cap : Z) (evidence : Capacity) : Link := {|
  Link.id := id; Link.generation := 1; Link.source := src; Link.destination := dst; Link.kind := Link_default.(Link.kind);
  Link.transport := t; Link.directed := true; Link.capacity := cap; Link.effectiveBandwidth := cap; Link.latency := 1000;
  Link.health := {| Health.generation := Health_default.(Health.generation); Health.healthy := true; Health.message := "" |};
  Link.congestion := Link_default.(Link.congestion); Link.capacityEvidence := evidence;
  Link.topologyGeneration := 1; Link.capabilityGeneration := 1; Link.failureDomain := ""; Link.workerBoot := 0;
  Link.provenance := Provenance.MEASURED |}.

Definition reportedCapacity (cap : Z) : Capacity := {|
  Capacity.generation := 1; Capacity.usable := cap; Capacity.headroom := cap; Capacity.provenance := Provenance.REPORTED |}.

Definition basicExampleSnapshot : EvidenceSnapshot :=
  suiteSnapshot
    [exampleEndpoint 1 EndpointKind.GPU_DEVICE 1 [Transport.HOST_MEMORY; Transport.PCIE; Transport.CUDA];
     exampleEndpoint 2 EndpointKind.GPU_DEVICE 2 [Transport.HOST_MEMORY; Transport.PCIE; Transport.CUDA];
     exampleEndpoint 3 EndpointKind.PINNED_HOST_MEMORY 1 [Transport.HOST_MEMORY; Transport.PCIE]]
    [exampleLink 1 1 2 Transport.HOST_MEMORY 1000000 (reportedCapacity 1000000);
     exampleLink 2 1 3 Transport.PCIE 2000000 (reportedCapacity 2000000);
     exampleLink 3 3 2 Transport.PCIE 2000000 (reportedCapacity 2000000)] [].

Definition exampleRequest (id : Z) (forbidden : gset Transport) : CommunicationRequest := {|
  Request.id := id; Request.generation := 1; Request.shape := RequestShape.POINT_TO_POINT; Request.source := 1;
  Request.destinations := [2]; Request.payloadSize := 4096; Request.direction := Request_default.(Request.direction);
  Request.latencySensitive := Request_default.(Request.latencySensitive);
  Request.throughputTarget := Request_default.(Request.throughputTarget);
  Request.requireOrdering := Request_default.(Request.requireOrdering);
  Request.requireReliability := Request_default.(Request.requireReliability);
  Request.allowRetry := Request_default.(Request.allowRetry); Request.allowStaging := true; Request.allowHostStaging := true;
  Request.allowStorageStaging := Request_default.(Request.allowStorageStaging);
  Request.allowRelay := Request_default.(Request.allowRelay);
  Request.allowMulticast := Request_default.(Request.allowMulticast); Request.allowed := Request_default.(Request.allowed);
  Request.forbidden := forbidden;
  Request.requiredFailureDomain := Request_default.(Request.requiredFailureDomain);
  Request.preferredLocality := Request_default.(Request.preferredLocality); Request.maxHops := Request_default.(Request.maxHops);
  Request.maxStages := Request_default.(Request.maxStages); Request.maxMovementCost := Request_default.(Request.maxMovementCost);
  Request.reservationBinding := Request_default.(Request.reservationBinding);
  Request.externalPriority := Request_default.(Request.externalPriority);
  Request.policyGeneration := Request_default.(Request.policyGeneration);
  Request.collectiveShape := Request_default.(Request.collectiveShape); Request.participants := Request_default.(Request.participants);
  Request.collectiveCount := Request_default.(Request.collectiveCount); Request.provenance := Request_default.(Request.provenance) |}.

(** "%d" of a bool; the number of stages if the plan succeeded. *)
Definition flag (b : bool) : string := if b then "1" else "0".
Definition planStages (po : PlanOutcome) : list Stage :=
  match po.(PlanOutcome.plan) with Some plan => if po.(PlanOutcome.success) then plan.(Plan.orderedStages) else [] | None => [] end.

(** [main]; the first exception or undefined dereference ends it. *)
Definition basicExample : result Output :=
  match planCommunication (exampleRequest 1 ∅) basicExampleSnapshot ∅ (suiteBounds 6 256 4) initialCounters with
  | (Throw e, _) => Throw e
  | (Ok po, cs) =>
      match planCommunication (exampleRequest 2 {[Transport.HOST_MEMORY]}) basicExampleSnapshot ∅ (suiteBounds 6 256 4) cs with
      | (Throw e, _) => Throw e
      | (Ok po2, _) =>
          let store := {| StoreState.epoch := 1;
            StoreState.plans := match po.(PlanOutcome.plan) with
              | Some plan => if po.(PlanOutcome.success) then [{| StoreRecord.plan := plan; StoreRecord.state := PlanState.PLAN_READY |}] else []
              | None => [] end;
            StoreState.supersessions := []; StoreState.requests := [] |} in
          let '(pe, loaded) := match parseStore (serializeStore store) with inl _ => (false, leftover) | inr l => (true, length l.(StoreState.plans)) end in
          Ok (0, ["Example: host<->GPU plan success=" +:+ flag po.(PlanOutcome.success) +:+ " stages=" +:+ zu (length (planStages po))] ++
                 ((fun st => "  stage " +:+ Transport_toString st.(Stage.transport) +:+ " " +:+ Id_str st.(Stage.source) +:+ "->" +:+
                             Id_str st.(Stage.destination)) <$> planStages po) ++
                 ["Example: forbidden direct transport -> success=" +:+ flag po2.(PlanOutcome.success) +:+ " stages=" +:+ zu (length (planStages po2));
                  "Example: persistence round-trip ok=" +:+ flag pe +:+ " plans=" +:+ zu loaded])
      end
  end.

(** ** downstream/main.cpp *)

Definition downstreamSnapshot : EvidenceSnapshot :=
  suiteSnapshot
    [exampleEndpoint 1 EndpointKind.GPU_DEVICE 1 [Transport.HOST_MEMORY; Transport.CUDA];
     exampleEndpoint 2 EndpointKind.GPU_DEVICE 2 [Transport.HOST_MEMORY; Transport.CUDA]]
    [exampleLink 1 1 2 Transport.HOST_MEMORY 1000000 Link_default.(Link.capacityEvidence)] [].

Definition downstreamMain : result Output :=
  match planCommunication (exampleRequest 1 ∅) downstreamSnapshot ∅ (suiteBounds 4 64 2) initialCounters with
  | (Throw e, _) => Throw e
  | (Ok po, _) =>
      if negb po.(PlanOutcome.success) then Ok (1, ["downstream: plan failed"])
      else
        match po.(PlanOutcome.plan) with
        | None => Throw undefined_index
        | Some plan =>
            Ok (0, ["downstream: deterministic plan success, stages=" +:+ zu (length plan.(Plan.orderedStages));
                    "downstream: primary path id=" +:+ llu plan.(Plan.primaryPath) +:+ " cost=" +:+
                    fixed3 plan.(Plan.cost).(CostSummary.total) +:+ " provenance=" +:+ plan.(Plan.provenance)])
        end
  end.

(** ** What they show *)

(** Cp_inspect shows what was saved: of the file of a store that fits the format it
    prints the counts and every plan with its state, cost and stages, if the store is
    consistent, and otherwise the error of its validation with exit code 1. *)
Theorem cp_inspect_shows_saved name args files s :
  store_fits s -> files name = Some (serializeStore s) ->
  (consistent_store s -> cp_inspect (name :: args) files = (0, storeLine s :: concat (inspectPlan <$> s.(StoreState.plans)))) /\
  (~ consistent_store s -> (cp_inspect (name :: args) files).1 = 1).
Proof.
  intros Hf E. pose proof (parseStore_serialize s Hf) as Hp. rewrite <- validateStore_consistent. unfold cp_inspect. rewrite E, Hp.
  split; intros H; [rewrite bool_decide_eq_true_2 by done|by rewrite bool_decide_eq_false_2 by done].
  unfold storeLine. cbn [persistedStore StoreState.epoch StoreState.plans StoreState.requests StoreState.supersessions].
  by rewrite ?length_fmap.
Qed.

(** The direct path of the downstream program. *)
Definition downstreamPath : CandidatePath := {|
  CandidatePath.source := 1; CandidatePath.destination := 2;
  CandidatePath.hops := [{| Hop.link := 1; Hop.from := 1; Hop.to := 2 |}] |}.

(** The shipped programs print that they succeed: basic.cpp goes over the direct link
    and, when that is forbidden, in two stages, and reads its store back; the downstream
    program plans its direct path. *)
Theorem shipped_programs_succeed :
  basicExample = Ok (0, ["Example: host<->GPU plan success=1 stages=1"; "  stage HOST_MEMORY 1->2";
    "Example: forbidden direct transport -> success=1 stages=2"; "Example: persistence round-trip ok=1 plans=1"]) /\
  downstreamMain = Ok (0, ["downstream: deterministic plan success, stages=1";
    "downstream: primary path id=1 cost=" +:+
      fixed3 (evaluateCandidateCost (exampleRequest 1 ∅) downstreamSnapshot downstreamPath ∅ (suiteBounds 4 64 2)).(CostSummary.total) +:+
      " provenance=DERIVED"]).
Proof. split; vm_compute; reflexivity. Qed.
End tools.

Lemma cp_inspect_shows_saved_witness :
  store_fits demoStore /\
  cp_inspect (fun _ => "%f") ["store.bin"] (fun _ => Some (serializeStore demoStore)) =
  (0, storeLine demoStore :: concat (inspectPlan (fun _ => "%f") <$> demoStore.(StoreState.plans))).
Proof.
  split; [exact demoStore_fits|].
  apply (cp_inspect_shows_saved (fun _ => "%f") "store.bin" [] (fun _ => Some (serializeStore demoStore))
    demoStore demoStore_fits eq_refl).
  apply validateStore_consistent. vm_compute. reflexivity.
Defined.
