(* ===== verification/Benchmark.v ===== *)
(** * The benchmark

    Models benchmarks/bench.cpp: the evidence it builds, the plan it makes and the store it
    writes and reads back.  The times it prints are a parameter, a text for each of them. *)

From S2P Require Import Prelude Core Enums Double Model Scenario Feasibility Ranking Cost Enumerate Assembly.
From S2P Require Import PointToPoint Multicast Collective Planner Message Codec Protocol Store Persistence Suite Examples.

(** [e] of the first loop. *)
Definition benchEndpoint (i : Z) : Endpoint :=
  exampleEndpoint (i + 1) EndpointKind.GPU_DEVICE (i mod 4 + 1) [Transport.HOST_MEMORY; Transport.PCIE].

Definition benchLink (linkId src dst : Z) (t : Transport) (bandwidth latency : Z) : Link := {|
  Link.id := linkId; Link.generation := 1; Link.source := src; Link.destination := dst; Link.kind := Link_default.(Link.kind);
  Link.transport := t; Link.directed := true; Link.capacity := bandwidth; Link.effectiveBandwidth := bandwidth; Link.latency := latency;
  Link.health := {| Health.generation := Health_default.(Health.generation); Health.healthy := true; Health.message := "" |};
  Link.congestion := Link_default.(Link.congestion);
  Link.capacityEvidence := {| Capacity.generation := 1; Capacity.usable := bandwidth;
    Capacity.headroom := Capacity_default.(Capacity.headroom); Capacity.provenance := Provenance.REPORTED |};
  Link.topologyGeneration := 1; Link.capabilityGeneration := 1; Link.failureDomain := ""; Link.workerBoot := 0;
  Link.provenance := Provenance.MEASURED |}.

(** The ring takes the link identities [1..ringSize], the chords those up to [nLinks]. *)
Definition ringSize (nEndpoints nLinks : Z) : Z := Z.min nEndpoints nLinks.

Definition benchRing (nEndpoints nLinks : Z) : list Link :=
  (fun i => benchLink (i + 1) (i + 1) ((i + 1) mod nEndpoints + 1) Transport.HOST_MEMORY 1000000 100) <$> seqZ 0 (ringSize nEndpoints nLinks).

Definition benchChord (nEndpoints nLinks i : Z) : Link :=
  let a := wrap64 (i * 7) mod nEndpoints + 1 in
  let bb := wrap64 (i * 3) mod nEndpoints + 1 in
  let bb := if a =? bb then bb mod nEndpoints + 1 else bb in
  benchLink (ringSize nEndpoints nLinks + 1 + i) a bb Transport.PCIE 2000000 200.

Definition benchSnapshot (nEndpoints nLinks : Z) : EvidenceSnapshot := suiteSnapshot
  (benchEndpoint <$> seqZ 0 nEndpoints)
  (benchRing nEndpoints nLinks ++ (benchChord nEndpoints nLinks <$> seqZ 0 (nLinks - ringSize nEndpoints nLinks))) [].

Definition benchBounds : Bounds := suiteBounds 4 64 4.

(** [runScale]: the line it prints, [times] being the texts of its three durations. *)
Definition runScale (times : string * string * string) (nEndpoints nLinks : Z) : M string :=
  po ← planCommunication (exampleRequest 1 ∅) (benchSnapshot nEndpoints nLinks) ∅ benchBounds;
  let rec := match po.(PlanOutcome.plan) with
             | Some plan => if po.(PlanOutcome.success) then [{| StoreRecord.plan := plan; StoreRecord.state := PlanState.PLAN_READY |}] else []
             | None => [] end in
  let st := {| StoreState.epoch := 1; StoreState.plans := rec; StoreState.supersessions := []; StoreState.requests := [] |} in
  let ok := match parseStore (serializeStore st) with inl _ => false | inr _ => true end in
  let '(ingest, plan, persist) := times in
  mret ("scale: endpoints=" +:+ llu nEndpoints +:+ " links=" +:+ llu nLinks +:+ " ingest=" +:+ ingest +:+ "ms plan=" +:+ plan +:+
    "ms success=" +:+ flag po.(PlanOutcome.success) +:+ " candidates=" +:+ zu (length po.(PlanOutcome.candidates)) +:+
    " save/load=" +:+ persist +:+ "ms err=" +:+ flag ok).

(** [main] with the arguments after the program's name; [times] gives the texts for the
    call of [runScale] with so many endpoints. *)
Definition benchMain (args : list string) (times : Z -> string * string * string) : M (list string) :=
  first ← runScale (times 100) 100 1000;
  second ← runScale (times 1000) 1000 10000;
  let big := match args with arg :: _ => String.eqb arg "big" | [] => false end in
  rest ← (if big then third ← runScale (times 10000) 10000 100000; mret [third] else mret []);
  mret ("Communication Planner benchmark (Release)" :: first :: second :: rest).

(** Both scales plan a transfer, from ten candidates each, and the plan's store is read
    back without an error, which the program prints as [err=1]. *)
Theorem benchmark_succeeds args times :
  head args <> Some "big" ->
  let line n links := let '(ingest, plan, persist) := times n in
    "scale: endpoints=" +:+ llu n +:+ " links=" +:+ llu links +:+ " ingest=" +:+ ingest +:+ "ms plan=" +:+ plan +:+
    "ms success=1 candidates=10 save/load=" +:+ persist +:+ "ms err=1" in
  exists cs, benchMain args times initialCounters = (Ok ["Communication Planner benchmark (Release)"; line 100 1000; line 1000 10000], cs).
Proof.
  intros Ha. assert (Hb : match args with arg :: _ => String.eqb arg "big" | [] => false end = false).
  { destruct args as [|arg args]; [done|]. apply String.eqb_neq. intros ->. done. }
  unfold benchMain. rewrite Hb. destruct (times 100) as [[i1 p1] s1]; destruct (times 1000) as [[i2 p2] s2].
  eexists. vm_compute. reflexivity.
Qed.
