(* ===== verification/WorkerLog.v ===== *)
(** * Text between processes

    Models the text that the processes of apps/ and cuda/ exchange: the evidence log that
    cuda/cuda_worker_main.cu writes with fprintf and apps/cuda_worker_death_proof.cpp reads
    with fscanf, and the numbers in the command lines of the processes they start, printed
    with std::to_string and read with atoi and strtoull.  The C functions are modelled as
    the C standard says; where it leaves the behaviour undefined the result is [None]. *)

From S2P Require Import Prelude Core Client Examples.

(** ** Reading numbers *)

(** [isspace] and [isdigit]. *)
Definition is_space (c : ascii) : bool := (char_code c =? 32) || ((9 <=? char_code c) && (char_code c <=? 13)).
Definition is_digit (c : ascii) : bool := (48 <=? char_code c) && (char_code c <=? 57).

Fixpoint skip_spaces (s : string) : string :=
  match s with
  | String c s' => if is_space c then skip_spaces s' else s
  | EmptyString => s
  end.

(** The longest prefix of digits, as the number it denotes after [v], and the rest. *)
Fixpoint read_digits (s : string) (v : Z) : Z * string :=
  match s with
  | String c s' => if is_digit c then read_digits s' (v * 10 + (char_code c - 48)) else (v, s)
  | EmptyString => (v, s)
  end.

(** An optional sign. *)
Definition read_sign (s : string) : bool * string :=
  match s with
  | String c s' => if char_code c =? 45 then (true, s') else if char_code c =? 43 then (false, s') else (false, s)
  | EmptyString => (false, s)
  end.

(** The number at the start of [s], after blanks, without any width; [None] if there is
    no digit. *)
Definition read_number (s : string) : option (Z * string) :=
  let '(negative, s) := read_sign (skip_spaces s) in
  match s with
  | String c _ =>
      if is_digit c then let '(v, rest) := read_digits s 0 in Some (if negative then - v else v, rest) else None
  | EmptyString => None
  end.

(** [strtoull(s, nullptr, 10)]: out of range is ULLONG_MAX, a minus sign negates in the
    unsigned type. *)
Definition unsigned_value (v : Z) : Z := if u64_max <? Z.abs v then u64_max else wrap64 v.
Definition strtoull (s : string) : Z := match read_number s with Some (v, _) => unsigned_value v | None => 0 end.

(** [atoi]. *)
Definition is_int (v : Z) : bool := (- 2 ^ 31 <=? v) && (v <? 2 ^ 31).
Definition atoi (s : string) : option Z :=
  match read_number s with
  | Some (v, _) => if is_int v then Some v else None
  | None => Some 0
  end.

(** ** fscanf *)

(** The directives of a format. *)
Inductive Directive :=
  | White
  | Literal (c : ascii)
  | Llu
  | Dec.

Fixpoint directives (fmt : string) : list Directive :=
  match fmt with
  | EmptyString => []
  | String c rest =>
      if char_code c =? 37 then
        match rest with
        | String c1 rest1 =>
            if char_code c1 =? 100 then Dec :: directives rest1
            else
              match rest1 with
              | String _ (String _ rest3) => Llu :: directives rest3
              | _ => []
              end
        | EmptyString => []
        end
      else (if is_space c then White else Literal c) :: directives rest
  end.

(** The values assigned, in order, up to the first directive that fails. *)
Fixpoint scan (ds : list Directive) (s : string) : option (list Z) :=
  match ds with
  | [] => Some []
  | White :: ds' => scan ds' (skip_spaces s)
  | Literal c :: ds' =>
      match s with
      | String c' s' => if Ascii.eqb c c' then scan ds' s' else Some []
      | EmptyString => Some []
      end
  | Llu :: ds' =>
      match read_number s with
      | Some (v, rest) => cons (unsigned_value v) <$> scan ds' rest
      | None => Some []
      end
  | Dec :: ds' =>
      match read_number s with
      | Some (v, rest) => if is_int v then cons v <$> scan ds' rest else None
      | None => Some []
      end
  end.

Definition fscanf (fmt : string) (s : string) : option (list Z) := scan (directives fmt) s.

(** ** The worker's evidence log *)

Definition logFormat : string := "freeBefore=%llu freeAfter=%llu parity=%d clean=%d baseline=%d".

(** The line break. *)
Definition newline : string := String (ascii_of_nat 10) EmptyString.

(** The line that the worker prints. *)
Definition logLine (freeBefore freeAfter : Z) (parity clean baseline : bool) : string :=
  "freeBefore=" +:+ llu freeBefore +:+ " freeAfter=" +:+ llu freeAfter +:+ " parity=" +:+ flag parity +:+
  " clean=" +:+ flag clean +:+ " baseline=" +:+ flag baseline +:+ newline.

Definition logPath (boot : Z) : string := "cuda_worker_log_" +:+ llu boot +:+ ".txt".

Definition writeLog (boot freeBefore freeAfter : Z) (parity clean baseline : bool) (files : gmap string string) : gmap string string :=
  <[logPath boot := logLine freeBefore freeAfter parity clean baseline]> files.

(** [workerLogOk]: the result, [freeAfter] and [parity]; the out parameters keep the
    values given when there is no file. *)
Definition workerLogOk (boot freeAfter parity : Z) (files : gmap string string) : option (bool * Z * Z) :=
  match files !! logPath boot with
  | None => Some (false, freeAfter, parity)
  | Some text =>
      match fscanf logFormat text with
      | None => None
      | Some vs =>
          let at_ i := default 0 (vs !! i) in
          Some ((length vs =? 5)%nat && (at_ 3%nat =? 1) && (at_ 4%nat =? 1), at_ 1%nat, at_ 2%nat)
      end
  end.

(** ** Command lines *)

Definition quote : string := String (ascii_of_nat 34) EmptyString.

(** [cmdline] of [spawn]. *)
Definition cmdline (exe args : string) : string := quote +:+ exe +:+ quote +:+ " " +:+ args.

(** The arguments that the controllers give to the processes they start. *)
Definition coordinatorArgs (port : Z) (store : string) : string := " " +:+ Id_str port +:+ " " +:+ store.
Definition workerArgs (port : Z) (role boot : string) : string := " " +:+ Id_str port +:+ " " +:+ role +:+ " " +:+ boot.

(** [argv] of the started process, for arguments without quotes and backslashes: the
    program up to the closing quote, then the words between blanks and tabs. *)
Definition is_blank (c : ascii) : bool := (char_code c =? 32) || (char_code c =? 9).

Fixpoint until_quote (s : string) : string * string :=
  match s with
  | EmptyString => (EmptyString, EmptyString)
  | String c s' => if char_code c =? 34 then (EmptyString, s') else let '(w, rest) := until_quote s' in (String c w, rest)
  end.

(** [words s w]: the words of [s], where [w] is the word that was begun, if any. *)
Fixpoint words (s : string) (w : option string) : list string :=
  match s with
  | EmptyString => match w with Some w => [w] | None => [] end
  | String c s' =>
      if is_blank c then match w with Some w => w :: words s' None | None => words s' None end
      else words s' (Some (default EmptyString w +:+ String c EmptyString))
  end.

Definition argv (line : string) : list string :=
  match line with
  | String c s' => if char_code c =? 34 then let '(exe, rest) := until_quote s' in exe :: words rest None else words line None
  | EmptyString => []
  end.

(** What [main] of coordinator_main.cpp takes from its arguments: the port and the store,
    or the exit code; [None] is undefined. *)
Definition wrap16 (v : Z) : Z := v mod 2 ^ 16.

Definition coordinatorArguments (args : list string) : option (Z + Z * string) :=
  match args with
  | _ :: port :: store :: _ => (fun p => inr (wrap16 p, store)) <$> atoi port
  | _ => Some (inl 2)
  end.

(** Those of worker_main.cpp and cuda_worker_main.cu: port, role and boot. *)
Definition workerArguments (args : list string) : option (Z + Z * string * Z) :=
  match args with
  | _ :: port :: role :: boot :: _ => (fun p => inr (wrap16 p, role, strtoull boot)) <$> atoi port
  | _ => Some (inl 2)
  end.

(** ** What is printed is read *)

Lemma char_code_digit_range d : 0 <= d <= 9 -> is_digit (digit_char d) = true /\ char_code (digit_char d) - 48 = d.
Proof. intros H. unfold is_digit. rewrite char_code_digit by done. split; [|lia]. apply andb_true_iff. split; apply Z.leb_le; lia. Qed.

Lemma digits_app fuel v acc rest : decimal_digits fuel v acc +:+ rest = decimal_digits fuel v (acc +:+ rest).
Proof. revert v acc; induction fuel as [|fuel IH]; intros v acc; [done|]. cbn [decimal_digits]. destruct (_ =? 0); [done|apply IH]. Qed.

Lemma read_digits_digits fuel v acc :
  0 <= v < 10 ^ Z.of_nat fuel -> (0 < fuel)%nat -> read_digits (decimal_digits fuel v acc) 0 = read_digits acc v.
Proof.
  revert v acc; induction fuel as [|fuel IH]; intros v acc Hv Hf; [lia|]. cbn [decimal_digits].
  pose proof (Z.div_mod v 10 ltac:(lia)) as Hdm. pose proof (Z.mod_pos_bound v 10 ltac:(lia)) as Hm.
  destruct (char_code_digit_range (v mod 10)) as [Hd Hc]; [lia|].
  assert (Hs : forall w, read_digits (String (digit_char (v mod 10)) acc) w = read_digits acc (w * 10 + v mod 10))
    by (intros w; cbn [read_digits]; by rewrite Hd, Hc).
  destruct (Z.eqb_spec (v / 10) 0) as [E|E]; [rewrite Hs; f_equal; lia|].
  assert (Hq : 0 <= v / 10 < 10 ^ Z.of_nat fuel).
  { split; [apply Z.div_pos; lia|]. apply Z.div_lt_upper_bound; [lia|]. rewrite Nat2Z.inj_succ, Z.pow_succ_r in Hv; lia. }
  destruct fuel as [|fuel]; [simpl in Hq; lia|]. rewrite IH, Hs by lia. f_equal. lia.
Qed.

Lemma digits_start fuel v acc : 0 <= v -> (0 < fuel)%nat -> exists c s, decimal_digits fuel v acc = String c s /\ is_digit c = true.
Proof.
  revert v acc; induction fuel as [|fuel IH]; intros v acc Hv Hf; [lia|]. cbn [decimal_digits].
  pose proof (Z.mod_pos_bound v 10 ltac:(lia)). destruct (char_code_digit_range (v mod 10)) as [Hd _]; [lia|].
  destruct (v / 10 =? 0); [eauto|]. destruct fuel as [|fuel]; [cbn; eauto|]. apply IH; [apply Z.div_pos; lia|lia].
Qed.

(** A text that no digit starts. *)
Definition no_digit (s : string) : Prop := match s with String c _ => is_digit c = false | EmptyString => True end.

Lemma read_digits_stop s v : no_digit s -> read_digits s v = (v, s).
Proof. destruct s as [|c s]; [done|]. cbn. by intros ->. Qed.

Lemma digit_not_special c : is_digit c = true -> is_space c = false /\ char_code c <> 45 /\ char_code c <> 43.
Proof.
  unfold is_digit, is_space. rewrite andb_true_iff, !Z.leb_le. intros [H1 H2].
  split; [|lia]. apply orb_false_iff. split; [apply Z.eqb_neq; lia|]. apply andb_false_iff. right. apply Z.leb_gt. lia.
Qed.

Lemma read_number_str v rest : is_u64 v -> no_digit rest -> read_number (Id_str v +:+ rest) = Some (v, rest).
Proof.
  intros Hv Hr. unfold read_number, Id_str. rewrite digits_app.
  unfold is_u64, u64_max in Hv.
  assert (Hd : read_digits (decimal_digits 20 v ("" +:+ rest)) 0 = read_digits rest v)
    by (apply read_digits_digits; [change (Z.of_nat 20) with 20; lia|lia]).
  destruct (digits_start 20 v ("" +:+ rest)) as (c & s & E & Hc); [lia|lia|]. rewrite E in *.
  destruct (digit_not_special c Hc) as (Hs & Hm & Hp). cbn [skip_spaces]. rewrite Hs. unfold read_sign.
  rewrite (proj2 (Z.eqb_neq _ _) Hm), (proj2 (Z.eqb_neq _ _) Hp), Hc. by rewrite Hd, read_digits_stop.
Qed.

Lemma unsigned_value_u64 v : is_u64 v -> unsigned_value v = v.
Proof. intros Hv. unfold unsigned_value. rewrite wrap64_small by done. unfold is_u64 in Hv. destruct (Z.ltb_spec u64_max (Z.abs v)); lia. Qed.

Lemma scan_Llu v rest ds : is_u64 v -> no_digit rest -> scan (Llu :: ds) (Id_str v +:+ rest) = cons v <$> scan ds rest.
Proof. intros Hv Hr. cbn [scan]. by rewrite read_number_str, unsigned_value_u64. Qed.

Lemma flag_str b : flag b = Id_str (Z.b2z b).
Proof. by destruct b. Qed.

Lemma scan_Dec (b : bool) rest ds : no_digit rest -> scan (Dec :: ds) (flag b +:+ rest) = cons (Z.b2z b) <$> scan ds rest.
Proof. intros Hr. rewrite flag_str. cbn [scan]. rewrite read_number_str; [|by destruct b|done]. by destruct b. Qed.

Lemma string_app_assoc (a b c : string) : (a +:+ b) +:+ c = a +:+ (b +:+ c).
Proof. induction a as [|x a IH]; [done|]. change (String x ((a +:+ b) +:+ c) = String x (a +:+ (b +:+ c))). by rewrite IH. Qed.

(** The directives for a text without blanks and percent signs. *)
Definition lits (l : string) : list Directive := Literal <$> String.list_ascii_of_string l.

Lemma logDirectives : directives logFormat =
  lits "freeBefore=" ++ Llu :: White :: lits "freeAfter=" ++ Llu :: White :: lits "parity=" ++ Dec :: White ::
  lits "clean=" ++ Dec :: White :: lits "baseline=" ++ [Dec].
Proof. vm_compute. reflexivity. Qed.

Lemma scan_lits l ds rest : scan (lits l ++ ds) (l +:+ rest) = scan ds rest.
Proof.
  induction l as [|c l IH]; [done|]. change (lits (String c l) ++ ds) with (Literal c :: lits l ++ ds).
  change (String c l +:+ rest) with (String c (l +:+ rest)). cbn [scan]. by rewrite Ascii.eqb_refl, IH.
Qed.

Lemma scan_logLine freeBefore freeAfter parity clean baseline :
  is_u64 freeBefore -> is_u64 freeAfter ->
  fscanf logFormat (logLine freeBefore freeAfter parity clean baseline) =
    Some [freeBefore; freeAfter; Z.b2z parity; Z.b2z clean; Z.b2z baseline].
Proof.
  intros Hb Ha. unfold fscanf, logLine, llu. rewrite logDirectives.
  rewrite scan_lits, scan_Llu by done. cbn [scan]. change (skip_spaces (" freeAfter=" +:+ ?x)) with ("freeAfter=" +:+ x).
  rewrite scan_lits, scan_Llu by done. cbn [scan]. change (skip_spaces (" parity=" +:+ ?x)) with ("parity=" +:+ x).
  rewrite scan_lits, scan_Dec by done. cbn [scan]. change (skip_spaces (" clean=" +:+ ?x)) with ("clean=" +:+ x).
  rewrite scan_lits, scan_Dec by done. cbn [scan]. change (skip_spaces (" baseline=" +:+ ?x)) with ("baseline=" +:+ x).
  rewrite scan_lits, scan_Dec by done. done.
Qed.

Lemma prefix_inj p a b : p +:+ a = p +:+ b -> a = b.
Proof. induction p as [|c p IH]; [done|]. intros [= H]. auto. Qed.

(** Logs of different boots are different files. *)
Lemma logPath_inj b1 b2 : is_u64 b1 -> is_u64 b2 -> logPath b1 = logPath b2 -> b1 = b2.
Proof.
  intros H1 H2 E. unfold logPath in E. apply prefix_inj in E. unfold llu in E.
  pose proof (read_number_str b1 ".txt" H1 eq_refl) as R1. pose proof (read_number_str b2 ".txt" H2 eq_refl) as R2. congruence.
Qed.

(** C32: the controller reads what the worker logged: of a log that the worker of [boot]
    wrote, [workerLogOk] for that boot assigns all five numbers, answers whether the
    cleanup and the baseline were good, and gives the free memory and the parity that were
    written, whatever was in the file before; the log of any other boot is read as if it
    had not been written. *)
Theorem worker_log_roundtrip boot freeBefore freeAfter parity clean baseline files fa p :
  is_u64 boot -> is_u64 freeBefore -> is_u64 freeAfter ->
  let files' := writeLog boot freeBefore freeAfter parity clean baseline files in
  workerLogOk boot fa p files' = Some (clean && baseline, freeAfter, Z.b2z parity) /\
  forall boot', is_u64 boot' -> boot' <> boot -> workerLogOk boot' fa p files' = workerLogOk boot' fa p files.
Proof.
  intros Hboot Hb Ha files'. unfold files', writeLog, workerLogOk. split.
  - rewrite lookup_insert_eq, scan_logLine by done. by destruct clean, baseline.
  - intros boot' Hboot' Hne. rewrite lookup_insert_ne; [done|]. intros E. by apply Hne, logPath_inj.
Qed.

Lemma worker_log_roundtrip_witness :
  let files := writeLog 3000 (2 ^ 33) (2 ^ 34) true true false (writeLog 1000 (2 ^ 33) (2 ^ 33) true true true ∅) in
  workerLogOk 3000 0 0 files = Some (false, 2 ^ 34, 1) /\ workerLogOk 1000 0 0 files = Some (true, 2 ^ 33, 1).
Proof.
  assert (H : forall v, 0 <= v <= 2 ^ 34 -> is_u64 v) by (unfold is_u64, u64_max; lia).
  destruct (worker_log_roundtrip 3000 (2 ^ 33) (2 ^ 34) true true false (writeLog 1000 (2 ^ 33) (2 ^ 33) true true true ∅) 0 0) as [H1 H2];
    [apply H; lia..|].
  split; [exact H1|]. rewrite H2 by (first [apply H|idtac]; lia). vm_compute. reflexivity.
Defined.

(** A truncated log is refused. *)
Example partial_log : workerLogOk 7 5 6 {[logPath 7 := "freeBefore=12 freeAfter=13 parity=1 clean=1 base"]} = Some (false, 13, 1).
Proof. vm_compute. reflexivity. Qed.

(** ** What is passed is received *)

Lemma string_app_nil_r (s : string) : s +:+ "" = s.
Proof. induction s as [|c s IH]; [done|]. change (String c (s +:+ "") = String c s). by rewrite IH. Qed.

Fixpoint all_chars (P : ascii -> bool) (s : string) : bool :=
  match s with String c s' => P c && all_chars P s' | EmptyString => true end.

(** One argument: not empty, without blanks. *)
Definition plain_word (w : string) : Prop := w <> EmptyString /\ all_chars (fun c => negb (is_blank c)) w = true.

Lemma words_word w rest acc :
  all_chars (fun c => negb (is_blank c)) w = true -> words (w +:+ rest) (Some acc) = words rest (Some (acc +:+ w)).
Proof.
  revert acc; induction w as [|c w IH]; intros acc H; cbn [all_chars] in H.
  { by rewrite string_app_nil_r. }
  apply andb_true_iff in H as [Hc H]. change (String c w +:+ rest) with (String c (w +:+ rest)). cbn [words].
  destruct (is_blank c); [done|]. cbn [default]. rewrite IH by done. by rewrite string_app_assoc.
Qed.

Lemma words_start w rest : plain_word w -> words (w +:+ rest) None = words rest (Some w).
Proof.
  intros [Hne H]. destruct w as [|c w]; [done|]. cbn [all_chars] in H. apply andb_true_iff in H as [Hc H].
  change (String c w +:+ rest) with (String c (w +:+ rest)). cbn [words]. destruct (is_blank c); [done|]. rewrite words_word by done. done.
Qed.

Lemma words_next w rest : plain_word w -> words (w +:+ " " +:+ rest) None = w :: words rest None.
Proof. intros H. by rewrite words_start. Qed.

Lemma words_last w : plain_word w -> words w None = [w].
Proof. intros H. pose proof (words_start w "" H) as E. by rewrite string_app_nil_r in E. Qed.

Lemma digits_all fuel v acc : 0 <= v -> all_chars is_digit acc = true -> all_chars is_digit (decimal_digits fuel v acc) = true.
Proof.
  revert v acc; induction fuel as [|fuel IH]; intros v acc Hv H; [done|]. cbn [decimal_digits].
  pose proof (Z.mod_pos_bound v 10 ltac:(lia)). destruct (char_code_digit_range (v mod 10)) as [Hd _]; [lia|].
  assert (Ha : all_chars is_digit (String (digit_char (v mod 10)) acc) = true) by (cbn [all_chars]; by rewrite Hd).
  destruct (v / 10 =? 0); [done|]. apply IH; [apply Z.div_pos; lia|done].
Qed.

Lemma all_chars_impl P Q s : (forall c, P c = true -> Q c = true) -> all_chars P s = true -> all_chars Q s = true.
Proof. intros H. induction s as [|c s IH]; [done|]. cbn. rewrite !andb_true_iff. naive_solver. Qed.

Lemma Id_str_word v : 0 <= v -> plain_word (Id_str v).
Proof.
  intros Hv. split; [by apply decimal_digits_nonempty; lia|]. apply (all_chars_impl is_digit); [|by apply digits_all].
  intros c. unfold is_digit, is_blank. rewrite andb_true_iff, !Z.leb_le. intros [H1 H2].
  by rewrite !(proj2 (Z.eqb_neq _ _)) by lia.
Qed.

Lemma until_quote_word exe rest : all_chars (fun c => negb (char_code c =? 34)) exe = true -> until_quote (exe +:+ quote +:+ rest) = (exe, rest).
Proof.
  induction exe as [|c exe IH]; [done|]. cbn [all_chars]. intros [Hc H]%andb_true_iff.
  change (String c exe +:+ quote +:+ rest) with (String c (exe +:+ quote +:+ rest)). cbn [until_quote].
  apply negb_true_iff in Hc. by rewrite Hc, IH.
Qed.

Lemma argv_cmdline exe args : all_chars (fun c => negb (char_code c =? 34)) exe = true -> argv (cmdline exe args) = exe :: words args None.
Proof.
  intros H. unfold cmdline. change (quote +:+ exe +:+ quote +:+ " " +:+ args) with (String (ascii_of_nat 34) (exe +:+ quote +:+ " " +:+ args)).
  unfold argv. change (char_code (ascii_of_nat 34) =? 34) with true. cbv iota. by rewrite until_quote_word.
Qed.

Lemma read_number_Id v : is_u64 v -> read_number (Id_str v) = Some (v, "").
Proof. intros H. pose proof (read_number_str v "" H I) as E. by rewrite string_app_nil_r in E. Qed.

Lemma atoi_port port : 0 <= port < 2 ^ 16 -> wrap16 <$> atoi (Id_str port) = Some port.
Proof.
  intros H. unfold atoi. rewrite read_number_Id by (unfold is_u64, u64_max; lia). unfold is_int.
  rewrite (proj2 (Z.leb_le _ _)), (proj2 (Z.ltb_lt _ _)) by lia. cbn. unfold wrap16. by rewrite Z.mod_small by lia.
Qed.

(** The processes that the controllers start receive what was meant: for every path of
    an executable without quotes and every port, the coordinator's main gets that port
    and the store's name, and a worker's main that port, its role and its boot. *)
Theorem children_receive_arguments exe port store role boot :
  all_chars (fun c => negb (char_code c =? 34)) exe = true -> 0 <= port < 2 ^ 16 -> plain_word store -> plain_word role -> is_u64 boot ->
  coordinatorArguments (argv (cmdline exe (coordinatorArgs port store))) = Some (inr (port, store)) /\
  workerArguments (argv (cmdline exe (workerArgs port role (Id_str boot)))) = Some (inr (port, role, boot)).
Proof.
  intros He Hp Hs Hr Hb. pose proof (atoi_port port Hp) as Ha. unfold coordinatorArgs, workerArgs.
  rewrite !argv_cmdline by done. change (words (" " +:+ ?s) None) with (words s None).
  rewrite !words_next by (done || apply Id_str_word; lia).
  rewrite words_last by done. rewrite words_last by (apply Id_str_word; unfold is_u64 in Hb; lia).
  unfold coordinatorArguments, workerArguments, strtoull. rewrite (read_number_Id boot), unsigned_value_u64 by done.
  destruct (atoi (Id_str port)) as [p|]; [|done]. injection Ha as Ha. cbn [fmap option_fmap option_map]. by rewrite Ha.
Qed.

Lemma children_receive_arguments_witness :
  coordinatorArguments (argv (cmdline "C:/tools/cp_coordinator.exe" (coordinatorArgs 50123 "proof_store.bin"))) = Some (inr (50123, "proof_store.bin")).
Proof. apply (children_receive_arguments "C:/tools/cp_coordinator.exe" 50123 "proof_store.bin" "A" 1000); try (vm_compute; (reflexivity || (split; discriminate))); [lia|split; [discriminate|reflexivity]..]. Defined.
