(* ===== verification/Machine.v ===== *)
(** * The coordinator as a state machine

    The threads of src/coordinator.cpp interleave at the critical sections of its mutex:
    a connection is accepted, a message is handled, a frame that does not decode is
    answered, a commit passes through its three phases, a connection ends, the server is
    told to stop.  A step of the machine is one of these; between the first and the second
    critical section of a commit any other step may happen.  An exception that leaves a
    handler ends the process, so it has no successor. *)

From S2P Require Import Prelude Core Enums Double Model Scenario Feasibility Ranking Cost Enumerate Assembly.
From S2P Require Import PointToPoint Multicast Collective Planner Revalidation Broker Message Client Codec Store Persistence Coordinator.

Inductive event :=
  | Accept (s : Z)
  | Receive (s : Z) (m : Message)
  | Acquire (s : Z)
  | Finish (s : Z)
  | Disconnect (s : Z)
  | Close (s : Z)
  | Undecodable (s : Z) (detail : string)
  | Stop.

(** The server's state, the sockets whose connection thread runs and, for each socket whose
    thread is inside [handleCommit], the commit and the broker's answer once it is there. *)
Module World.
Record World {B : Type} := {
  coord : CoordState B;
  connections : gset Z;
  commits : gmap Z (Pending.PendingCommit * option Acquired);
}.
Arguments World : clear implicits.
End World.
Abbreviation World := World.World.

Definition helloMessage (epoch : CoordinatorEpoch) : Message :=
  makeMessage MessageType.HELLO epoch 0 0 Plan_default 0 false 0 "".

Section machine.
Context {B : Type} `{HB : ResourceBroker B}.
Context (weights : gmap CostFactor double) (bounds : Bounds).

Definition with_coord (st : CoordState B) (w : World B) : World B :=
  {| World.coord := st; World.connections := w.(World.connections); World.commits := w.(World.commits) |}.

Definition with_connections (cs : gset Z) (w : World B) : World B :=
  {| World.coord := w.(World.coord); World.connections := cs; World.commits := w.(World.commits) |}.

(** The thread of [s] waits for a message: connected and not inside a commit. *)
Definition idle (s : Z) (w : World B) : bool :=
  bool_decide (s ∈ w.(World.connections)) && bool_decide (w.(World.commits) !! s = None).

Definition step (ev : event) (w : World B) : option (list (Z * Message) * World B) :=
  let st := w.(World.coord) in
  match ev with
  | Accept s =>
      if bool_decide (s ∈ w.(World.connections)) then None
      else Some ([(s, helloMessage st.(Coord.epoch))], with_connections ({[s]} ∪ w.(World.connections)) (with_coord (acceptSocket s st) w))
  | Receive s m =>
      if negb (idle s w) then None
      else match m.(Message.type) with
           | MessageType.COMMIT_REQUEST =>
               match commitBegin s m st with
               | (inl out, st') => Some (out, with_coord st' w)
               | (inr p, st') => Some ([], {| World.coord := st'; World.connections := w.(World.connections); World.commits := <[s := (p, None)]> w.(World.commits) |})
               end
           | _ => match handleMessage weights bounds s m st with
                  | (Ok out, st') => Some (out, with_coord st' w)
                  | (Throw _, _) => None
                  end
           end
  | Acquire s =>
      match w.(World.commits) !! s with
      | Some (p, None) =>
          match commitAcquire p st with
          | (Ok a, st') => Some ([], {| World.coord := st'; World.connections := w.(World.connections); World.commits := <[s := (p, Some a)]> w.(World.commits) |})
          | (Throw _, _) => None
          end
      | _ => None
      end
  | Finish s =>
      match w.(World.commits) !! s with
      | Some (p, Some a) =>
          let '(out, st') := commitFinish p a st in
          Some (out, {| World.coord := st'; World.connections := w.(World.connections); World.commits := delete s w.(World.commits) |})
      | _ => None
      end
  | Disconnect s => if idle s w then Some ([], with_connections (w.(World.connections) ∖ {[s]}) (with_coord (disconnectSocket s st) w)) else None
  | Close s => if idle s w && st.(Coord.stopping) then Some ([], with_connections (w.(World.connections) ∖ {[s]}) (with_coord (closeConnection s st) w)) else None
  | Undecodable s detail => if idle s w then Some ([(s, errorMessage detail)], w) else None
  | Stop => Some ([], with_coord (stopServer st) w)
  end.

(** Runs of the machine. *)
Fixpoint run (evs : list event) (w : World B) : option (World B) :=
  match evs with
  | [] => Some w
  | ev :: evs' => match step ev w with Some (_, w') => run evs' w' | None => None end
  end.

Lemma run_app evs1 evs2 w :
  run (evs1 ++ evs2) w = match run evs1 w with Some w' => run evs2 w' | None => None end.
Proof. revert w; induction evs1 as [|ev evs1 IH]; intros w; cbn [run app]; [done|]. by destruct (step ev w) as [[]|]. Qed.

(** The server after [start], with the store file it finds. *)
Definition start (file : option (list Z)) (broker : B) : World B :=
  {| World.coord := loadStoreIfAny file (initialCoordinator broker); World.connections := ∅; World.commits := ∅ |}.

(** The worlds a server can get into. *)
Inductive reachable (w0 : World B) : World B -> Prop :=
  | reachable_start : reachable w0 w0
  | reachable_step w ev out w' : reachable w0 w -> step ev w = Some (out, w') -> reachable w0 w'.

Lemma run_reachable w0 evs w w' : reachable w0 w -> run evs w = Some w' -> reachable w0 w'.
Proof.
  revert w; induction evs as [|ev evs IH]; simpl; intros w Hw Hr; [by simplify_eq|].
  destruct (step ev w) as [[out w1]|] eqn:E; [|done]. eapply IH; [|exact Hr]. by eapply reachable_step.
Qed.

Lemma reachable_trans w0 w w' : reachable w0 w -> reachable w w' -> reachable w0 w'.
Proof. intros H. induction 1 as [|w1 ev out w2 _ IH Hs]; [done|by eapply reachable_step]. Qed.

(** ** How one plan may change in one step *)

(** [plan_move w ev id r r']: event [ev] in world [w] takes the record of plan [id] from
    [r] to [r'].  The rules are the state machine the coordinator runs on each plan. *)
Inductive plan_move (w : World B) (id : CommunicationPlanId) : event -> option PlanRecord -> option PlanRecord -> Prop :=
  | move_same ev r : plan_move w id ev r r
  | move_submitted s m r plan cs po :
      m.(Message.type) = MessageType.SUBMIT_REQUEST -> m.(Message.request).(Request.id) <> 0 ->
      m.(Message.request).(Request.id) ∉ w.(World.coord).(Coord.cancelled) ->
      returns (planCommunication m.(Message.request) w.(World.coord).(Coord.snap) weights bounds) w.(World.coord).(Coord.counters) po cs ->
      po.(PlanOutcome.success) = true -> po.(PlanOutcome.plan) = Some plan -> plan.(Plan.id) = id ->
      plan_move w id (Receive s m) r (Some {| PlanRecord.plan := plan; PlanRecord.state := PlanState.PLAN_READY;
        PlanRecord.worker := (executorOf plan w.(World.coord).(Coord.snap)).1;
        PlanRecord.boot := (executorOf plan w.(World.coord).(Coord.snap)).2 |})
  | move_revalidated s m r :
      m.(Message.type) = MessageType.REVALIDATE -> m.(Message.planId) = id ->
      current_plan r.(PlanRecord.plan) w.(World.coord).(Coord.snap) ->
      plan_move w id (Receive s m) (Some r) (Some (set_state PlanState.AWAITING_EXECUTION r))
  | move_handed_over s m r :
      m.(Message.type) = MessageType.EXECUTION_HANDOFF -> m.(Message.planId) = id ->
      current_plan r.(PlanRecord.plan) w.(World.coord).(Coord.snap) ->
      plan_move w id (Receive s m) (Some r) (Some (set_state PlanState.ACTIVE r))
  | move_stale s m r :
      m.(Message.type) = MessageType.REVALIDATE \/ m.(Message.type) = MessageType.EXECUTION_HANDOFF -> m.(Message.planId) = id ->
      ~ current_plan r.(PlanRecord.plan) w.(World.coord).(Coord.snap) ->
      plan_move w id (Receive s m) (Some r) (Some (set_state PlanState.REVALIDATION_REQUIRED r))
  | move_reported s m r :
      m.(Message.type) = MessageType.EXECUTION_RESULT -> m.(Message.planId) = id -> r.(PlanRecord.state) = PlanState.ACTIVE ->
      m.(Message.worker) = 0 \/ (m.(Message.worker) = r.(PlanRecord.worker) /\ m.(Message.boot) = r.(PlanRecord.boot)) ->
      plan_move w id (Receive s m) (Some r)
        (Some (set_state (if m.(Message.ok) then PlanState.COMPLETED else PlanState.FAILED) r))
  | move_cancelled s m r :
      m.(Message.type) = MessageType.CANCEL -> m.(Message.planId) = id -> closed r.(PlanRecord.state) = false ->
      plan_move w id (Receive s m) (Some r) (Some (set_state PlanState.CANCELLED r))
  | move_superseded s m r :
      m.(Message.type) = MessageType.SUPERSEDE ->
      (m.(Message.planId) = id /\ closed r.(PlanRecord.state) = false) \/
      (m.(Message.planId) <> id /\ w.(World.coord).(Coord.currentByRequest) !! m.(Message.requestId) = Some id) ->
      plan_move w id (Receive s m) (Some r) (Some (set_state PlanState.SUPERSEDED r))
  | move_commit_begun s m r :
      m.(Message.type) = MessageType.COMMIT_REQUEST -> m.(Message.planId) = id ->
      r.(PlanRecord.state) = PlanState.PLAN_READY \/ r.(PlanRecord.state) = PlanState.AWAITING_RESOURCE_COMMIT ->
      r.(PlanRecord.plan).(Plan.requestId) ∉ w.(World.coord).(Coord.cancelled) ->
      plan_move w id (Receive s m) (Some r) (Some (set_state PlanState.AWAITING_RESOURCE_COMMIT r))
  | move_commit_overtaken s p a r :
      w.(World.commits) !! s = Some (p, Some a) -> p.(Pending.planId) = id ->
      r.(PlanRecord.plan).(Plan.requestId) ∈ w.(World.coord).(Coord.cancelled) \/ overtaken r.(PlanRecord.state) = true ->
      plan_move w id (Finish s) (Some r) (Some (set_state PlanState.CANCELLED r))
  | move_commit_denied s p e r :
      w.(World.commits) !! s = Some (p, Some (Denied e)) -> p.(Pending.planId) = id ->
      plan_move w id (Finish s) (Some r) (Some (set_state PlanState.FAILED r))
  | move_committed s p r :
      w.(World.commits) !! s = Some (p, Some Granted) -> p.(Pending.planId) = id ->
      r.(PlanRecord.plan).(Plan.requestId) ∉ w.(World.coord).(Coord.cancelled) -> overtaken r.(PlanRecord.state) = false ->
      plan_move w id (Finish s) (Some r) (Some (set_state PlanState.COMMITTED r)).

Create HintDb moves.
#[local] Hint Constructors plan_move : moves.

(** An update of one record moves that plan and leaves the others. *)
Lemma move_update (w : World B) ev k r v id (st : CoordState B) :
  w.(World.coord).(Coord.plans) !! k = Some r -> st.(Coord.plans) = w.(World.coord).(Coord.plans) ->
  (k = id -> plan_move w id ev (Some r) (Some (set_state v r))) ->
  plan_move w id ev (w.(World.coord).(Coord.plans) !! id) ((update_state k r v st).(Coord.plans) !! id).
Proof.
  intros Hr Hst Hm. unfold update_state. cbn [Coord.plans set_plans]. rewrite Hst, lookup_insert.
  case_decide; [subst; rewrite Hr; auto|constructor].
Qed.

Lemma revalidate_ok_iff plan snap :
  if (revalidatePlan plan snap).(RevalidationResult.ok) then current_plan plan snap else ~ current_plan plan snap.
Proof. by destruct (revalidatePlan_cases plan snap) as [[H ->]|[H ->]]. Qed.

(** Each handler moves every plan by the rules. *)
Lemma handleSubmit_moves w s m out st id :
  m.(Message.type) = MessageType.SUBMIT_REQUEST ->
  handleSubmit weights bounds s m w.(World.coord) = (Ok out, st) ->
  plan_move w id (Receive s m) (w.(World.coord).(Coord.plans) !! id) (st.(Coord.plans) !! id).
Proof.
  intros Ht H. unfold handleSubmit in H. destruct (isNull _) eqn:Hn; [injection H as _ <-; constructor|]. apply Z.eqb_neq in Hn.
  case_bool_decide as Hc; [injection H as _ <-; constructor|]. cbv zeta in H.
  cbn [Coord.snap Coord.counters set_requests] in H.
  destruct (planCommunication _ _ _ _ _) as [[po|e] cs] eqn:E; [|done].
  destruct (PlanOutcome.success po) eqn:Hs, (PlanOutcome.plan po) as [plan|] eqn:Hp; try (injection H as _ <-; constructor).
  destruct (executorOf plan _) as [wk boot] eqn:Ex. injection H as _ <-.
  cbn [Coord.plans set_currentByRequest set_plans set_counters set_requests]. rewrite lookup_insert. case_decide as Hid; [|constructor].
  cbn [Coord.snap set_counters set_requests] in Ex.
  replace wk with (executorOf plan (Coord.snap (World.coord w))).1 by (by rewrite Ex).
  replace boot with (executorOf plan (Coord.snap (World.coord w))).2 by (by rewrite Ex).
  by eapply move_submitted.
Qed.

Lemma handleRevalidate_moves w s m out st id :
  m.(Message.type) = MessageType.REVALIDATE -> handleRevalidate s m w.(World.coord) = (Ok out, st) ->
  plan_move w id (Receive s m) (w.(World.coord).(Coord.plans) !! id) (st.(Coord.plans) !! id).
Proof.
  intros Ht H. unfold handleRevalidate in H. destruct (_ !! Message.planId m) as [r|] eqn:Er; [|injection H as _ <-; constructor].
  pose proof (revalidate_ok_iff r.(PlanRecord.plan) w.(World.coord).(Coord.snap)) as Hrv.
  destruct (RevalidationResult.ok _); injection H as _ <-; apply move_update; auto with moves.
Qed.

Lemma handleHandoff_moves w s m out st id :
  m.(Message.type) = MessageType.EXECUTION_HANDOFF -> handleHandoff s m w.(World.coord) = (Ok out, st) ->
  plan_move w id (Receive s m) (w.(World.coord).(Coord.plans) !! id) (st.(Coord.plans) !! id).
Proof.
  intros Ht H. unfold handleHandoff in H. destruct (_ !! Message.planId m) as [r|] eqn:Er; [|injection H as _ <-; constructor].
  pose proof (revalidate_ok_iff r.(PlanRecord.plan) w.(World.coord).(Coord.snap)) as Hrv.
  destruct (RevalidationResult.ok _); injection H as _ <-; apply move_update; auto with moves.
Qed.

Lemma handleResult_moves w s m out st id :
  m.(Message.type) = MessageType.EXECUTION_RESULT -> handleResult s m w.(World.coord) = (Ok out, st) ->
  plan_move w id (Receive s m) (w.(World.coord).(Coord.plans) !! id) (st.(Coord.plans) !! id).
Proof.
  intros Ht H. unfold handleResult in H. destruct (_ !! Message.planId m) as [r|] eqn:Er; [|injection H as _ <-; constructor].
  case_bool_decide as Ha; [|injection H as _ <-; constructor].
  destruct (negb (isNull (Message.worker m)) && _) eqn:Ew; injection H as _ <-; [constructor|].
  apply move_update; [done|done|]. intros Hid. apply move_reported; [done|done|done|].
  unfold isNull in Ew. destruct (Z.eqb_spec (Message.worker m) 0); [auto|].
  destruct (Z.eqb_spec (PlanRecord.worker r) (Message.worker m)), (Z.eqb_spec (PlanRecord.boot r) (Message.boot m)); naive_solver.
Qed.

Lemma handleCancel_moves w s m out st id :
  m.(Message.type) = MessageType.CANCEL -> handleCancel s m w.(World.coord) = (Ok out, st) ->
  plan_move w id (Receive s m) (w.(World.coord).(Coord.plans) !! id) (st.(Coord.plans) !! id).
Proof.
  intros Ht H. unfold handleCancel in H. injection H as _ <-. cbn [Coord.plans set_cancelled].
  destruct (_ !! Message.planId m) as [r|] eqn:Er; [|constructor].
  destruct (closed _) eqn:Ec, (may_hold _); try constructor; apply move_update; auto with moves.
Qed.

Lemma handleSupersede_moves w s m out st id :
  m.(Message.type) = MessageType.SUPERSEDE -> handleSupersede s m w.(World.coord) = (Ok out, st) ->
  plan_move w id (Receive s m) (w.(World.coord).(Coord.plans) !! id) (st.(Coord.plans) !! id).
Proof.
  intros Ht H. unfold handleSupersede in H. injection H as _ <-.
  set (st1 := match Coord.plans (World.coord w) !! Message.planId m with Some _ => _ | None => _ end).
  assert (Hcur : st1.(Coord.currentByRequest) = w.(World.coord).(Coord.currentByRequest))
    by (unfold st1; repeat case_match; done).
  assert (Hne : forall k, k <> m.(Message.planId) -> st1.(Coord.plans) !! k = w.(World.coord).(Coord.plans) !! k).
  { intros k Hk. unfold st1. repeat case_match; try done. cbn. by rewrite lookup_insert_ne. }
  assert (Hpid : plan_move w id (Receive s m) (w.(World.coord).(Coord.plans) !! id) (st1.(Coord.plans) !! id)).
  { unfold st1. destruct (_ !! Message.planId m) as [r|] eqn:Er; [|constructor].
    destruct (closed _) eqn:Ec; [constructor|]. apply move_update; auto with moves. }
  clearbody st1. rewrite Hcur. destruct (_ !! Message.requestId m) as [cur|] eqn:Ecur; [|done].
  destruct (Z.eqb_spec cur (Message.planId m)) as [|Hcp]; [done|].
  destruct (Coord.plans st1 !! cur) as [old|] eqn:Eo; [|done].
  unfold update_state. cbn [Coord.plans set_supersessions set_plans]. rewrite lookup_insert. case_decide as Hid; [|done].
  subst cur. rewrite <- Hne, Eo by done. apply move_superseded; auto.
Qed.

Lemma commitBegin_moves w s m out st id :
  m.(Message.type) = MessageType.COMMIT_REQUEST -> commitBegin s m w.(World.coord) = (out, st) ->
  plan_move w id (Receive s m) (w.(World.coord).(Coord.plans) !! id) (st.(Coord.plans) !! id).
Proof.
  intros Ht H. unfold commitBegin in H. destruct (_ !! Message.planId m) as [r|] eqn:Er; [|injection H as _ <-; constructor].
  destruct (negb _ && _) eqn:Es; [injection H as _ <-; constructor|].
  case_bool_decide as Hc; [injection H as _ <-; constructor|]. injection H as _ <-.
  apply move_update; [done|done|]. intros Hid. apply move_commit_begun; [done|done| |done].
  apply andb_false_iff in Es as [Es|Es]; apply negb_false_iff, bool_decide_eq_true in Es; auto.
Qed.

Lemma commitFinish_moves w s p a out st id :
  w.(World.commits) !! s = Some (p, Some a) -> commitFinish p a w.(World.coord) = (out, st) ->
  plan_move w id (Finish s) (w.(World.coord).(Coord.plans) !! id) (st.(Coord.plans) !! id).
Proof.
  intros Hp H. unfold commitFinish in H. destruct (_ !! Pending.planId p) as [r|] eqn:Er.
  - destruct (bool_decide _ || _) eqn:Eo.
    + injection H as _ <-. apply move_update; [done|by destruct a|]. intros Hid.
      apply orb_true_iff in Eo as [Eo|Eo]; [apply bool_decide_eq_true in Eo|]; eapply move_commit_overtaken; eauto.
    + apply orb_false_iff in Eo as [Eo1 Eo2]. apply bool_decide_eq_false in Eo1.
      destruct a; injection H as _ <-; (apply move_update; [done|done|]); intros Hid;
        [eapply move_committed|eapply move_commit_denied]; eauto.
  - injection H as _ <-. destruct a; constructor.
Qed.

(** Messages that do not concern plans leave them alone. *)
Definition plan_message (t : MessageType) : bool :=
  match t with
  | MessageType.SUBMIT_REQUEST | MessageType.COMMIT_REQUEST | MessageType.REVALIDATE | MessageType.EXECUTION_HANDOFF
  | MessageType.EXECUTION_RESULT | MessageType.CANCEL | MessageType.SUPERSEDE => true
  | _ => false
  end.

Lemma other_messages_keep_plans s m st out st' :
  plan_message m.(Message.type) = false -> handleMessage weights bounds s m st = (Ok out, st') ->
  st'.(Coord.plans) = st.(Coord.plans) /\ st'.(Coord.counters) = st.(Coord.counters).
Proof.
  unfold handleMessage. intros Ht H. destruct (Message.type m); try discriminate Ht;
    unfold handleRegister, handlePublishEndpoint, handlePublishLink, handlePublishCapacity, handlePublishCongestion,
      handleQueryPlan, handleSave, handleShutdown, sendError, sendOk, reply in H;
    repeat case_match; injection H as _ <-; done.
Qed.

(** Every step moves every plan by the rules. *)
Lemma step_moves_plans ev w out w' id :
  step ev w = Some (out, w') ->
  plan_move w id ev (w.(World.coord).(Coord.plans) !! id) (w'.(World.coord).(Coord.plans) !! id).
Proof.
  intros H. destruct ev as [s|s m|s|s|s|s|s d|]; simpl in H.
  - case_bool_decide; [done|]. simplify_eq/=. constructor.
  - destruct (idle s w); [simpl in H|done].
    destruct (decide (m.(Message.type) = MessageType.COMMIT_REQUEST)) as [Ht|Ht].
    + rewrite Ht in H. destruct (commitBegin s m _) as [[o|p] st'] eqn:E; simplify_eq/=; by eapply commitBegin_moves.
    + destruct (handleMessage weights bounds s m (World.coord w)) as [[o|e] st'] eqn:E;
        [|by destruct (Message.type m)].
      assert (st' = World.coord w') as -> by (by destruct (Message.type m); simplify_eq/=).
      destruct (plan_message (Message.type m)) eqn:Hp.
      * unfold handleMessage in E. destruct (Message.type m) eqn:Et; try discriminate Hp; try done.
        -- by eapply handleSubmit_moves.
        -- by eapply handleRevalidate_moves.
        -- by eapply handleSupersede_moves.
        -- by eapply handleCancel_moves.
        -- by eapply handleHandoff_moves.
        -- by eapply handleResult_moves.
      * apply other_messages_keep_plans in E as [-> _]; [constructor|done].
  - destruct (_ !! s) as [[p [a|]]|]; [done| |done]. unfold commitAcquire in H.
    destruct (acquire _ _ _) as [[a|e] b]; simplify_eq/=. constructor.
  - destruct (_ !! s) as [[p [a|]]|] eqn:Ep; [|done..]. destruct (commitFinish _ _ _) as [o st'] eqn:E.
    simplify_eq/=. by eapply commitFinish_moves.
  - destruct (idle s w); [|done]. simplify_eq/=. unfold disconnectSocket, fenceWorker. repeat case_match; constructor.
  - destruct (idle s w && _); [|done]. simplify_eq/=. constructor.
  - destruct (idle s w); [|done]. simplify_eq. constructor.
  - simplify_eq/=. constructor.
Qed.

(** The abstract machine of plan [id]: its rules, applied in worlds of this server. *)
Definition plan_machine (w0 : World B) (id : CommunicationPlanId) (r r' : option PlanRecord) : Prop :=
  exists w ev, reachable w0 w /\ plan_move w id ev r r'.

End machine.

(** ** A session of the demonstration scenario

    A worker registers over socket 1 and publishes the two GPUs, the pinned host memory
    and the links between them; a controller talks over socket 2. *)

Definition demoBroker : MemoryResourceBroker := MemoryResourceBroker_init (2 ^ 30).
Definition demoStart : World MemoryResourceBroker := start None demoBroker.

Definition publishing (links : list Link) : list event :=
  [Accept 1; Accept 2; Receive 1 (registerWorker 10 7 "w")] ++
  (Receive 1 ∘ publishEndpointCall 10 7 <$> [gpuA; gpuB; hostMem]) ++ (Receive 1 ∘ publishLinkCall 10 7 <$> links).

Definition demoRun (evs : list event) : option (World MemoryResourceBroker) := run ∅ basicBounds evs demoStart.

Definition demoPlanState (id : CommunicationPlanId) (evs : list event) : option PlanState :=
  match demoRun evs with Some w => Some (planState id w.(World.coord)) | None => None end.

Lemma demoRun_reachable evs w : demoRun evs = Some w -> reachable ∅ basicBounds demoStart w.
Proof. apply run_reachable. constructor. Qed.

(** The usual life of a plan over the direct link. *)
Example demo_life :
  (fun evs => demoPlanState 1 (publishing [directLink; upLink; downLink] ++ Receive 2 (submitRequest basicRequest) :: evs)) <$>
    [[]; [Receive 2 (commitPlan 1)]; [Receive 2 (commitPlan 1); Acquire 2; Finish 2];
     [Receive 2 (commitPlan 1); Acquire 2; Finish 2; Receive 2 (executionHandoff 1)];
     [Receive 2 (commitPlan 1); Acquire 2; Finish 2; Receive 2 (executionHandoff 1); Receive 2 (executionResult 1 true)]]
  = Some <$> [PlanState.PLAN_READY; PlanState.AWAITING_RESOURCE_COMMIT; PlanState.COMMITTED; PlanState.ACTIVE; PlanState.COMPLETED].
Proof. vm_compute. reflexivity. Qed.
