(* ===== verification/Authority.v ===== *)
(** * Worker authority

    What the coordinator keeps true about workers, their boots and the evidence they
    published, in every world it can get into: a registered worker is alive exactly
    while its boot is not fenced, the snapshot knows exactly the boots of living
    workers, and every endpoint carries the authority that published it. *)

From S2P Require Import Prelude Core Enums Double Model Scenario Feasibility Ranking Cost Enumerate Assembly.
From S2P Require Import PointToPoint Multicast Collective Planner Revalidation Broker Message Client Codec Store Persistence Coordinator Machine.

Record authority_inv {B} (st : CoordState B) : Prop := {
  ai_boots : forall k b, st.(Coord.snap).(Snapshot.workerBoots) !! k = Some b <->
    exists i, st.(Coord.workers) !! k = Some i /\ i.(WorkerInfo.alive) = true /\ i.(WorkerInfo.boot) = b;
  ai_alive : forall k i, st.(Coord.workers) !! k = Some i ->
    (i.(WorkerInfo.alive) = true <-> (k, i.(WorkerInfo.boot)) ∉ st.(Coord.fenced));
  ai_sources : st.(Coord.snap).(Snapshot.sourceBoots) = st.(Coord.snap).(Snapshot.workerBoots);
  ai_named : forall k i, st.(Coord.workers) !! k = Some i -> k <> 0 /\ i.(WorkerInfo.boot) <> 0;
  ai_fenced : forall k b, (k, b) ∈ st.(Coord.fenced) -> k <> 0 /\ b <> 0;
}.

Record evidence_inv (snap : EvidenceSnapshot) : Prop := {
  ei_published : Forall (fun e => e.(Endpoint.worker) <> 0 /\ e.(Endpoint.workerBoot) <> 0) snap.(Snapshot.endpoints);
  ei_endpoints : NoDup (Endpoint.id <$> snap.(Snapshot.endpoints));
  ei_links : NoDup (Link.id <$> snap.(Snapshot.links));
  ei_reservations : snap.(Snapshot.reservations) = [];
  ei_resources : snap.(Snapshot.resourceCapacities) = [];
}.

Definition coord_inv {B} (st : CoordState B) : Prop :=
  authority_inv st /\ evidence_inv st.(Coord.snap) /\ counters_wf st.(Coord.counters).

(** ** Lists keyed by an identity *)

Lemma elem_of_replace_or_push {A} (key : A -> Z) e l x : x ∈ replace_or_push key e l -> x = e \/ x ∈ l.
Proof.
  induction l as [|y l IH]; simpl; [set_solver|]. destruct (_ =? _); rewrite !elem_of_cons; naive_solver.
Qed.

Lemma replace_or_push_has {A} (key : A -> Z) e l : e ∈ replace_or_push key e l.
Proof. induction l as [|y l IH]; simpl; [set_solver|]. destruct (_ =? _); set_solver. Qed.

Lemma replace_or_push_keys {A} (key : A -> Z) e l :
  key <$> replace_or_push key e l = (key <$> l) ++ (if bool_decide (key e ∈ key <$> l) then [] else [key e]).
Proof.
  induction l as [|y l IH]; csimpl; [done|].
  destruct (Z.eqb_spec (key y) (key e)) as [Hk|Hk]; csimpl.
  - rewrite bool_decide_eq_true_2 by (rewrite Hk; set_solver). by rewrite Hk, app_nil_r.
  - rewrite IH. f_equal. f_equal. rewrite (bool_decide_ext (key e ∈ key y :: _) (key e ∈ key <$> l)); [done|]. set_solver.
Qed.

Lemma replace_or_push_NoDup {A} (key : A -> Z) e l : NoDup (key <$> l) -> NoDup (key <$> replace_or_push key e l).
Proof.
  intros H. rewrite replace_or_push_keys. case_bool_decide; [by rewrite app_nil_r|].
  apply NoDup_app. split_and!; [done| |apply NoDup_singleton]. set_solver.
Qed.

(** ** Preservation *)

Section preservation.
Context {B : Type} `{HB : ResourceBroker B}.
Context (weights : gmap CostFactor double) (bounds : Bounds).
Implicit Types st : CoordState B.

(** Steps that leave workers and evidence alone. *)
Definition same_evidence st st' : Prop :=
  st'.(Coord.snap) = st.(Coord.snap) /\ st'.(Coord.workers) = st.(Coord.workers) /\ st'.(Coord.fenced) = st.(Coord.fenced).

Lemma same_evidence_inv st st' :
  same_evidence st st' -> authority_inv st -> evidence_inv st.(Coord.snap) -> authority_inv st' /\ evidence_inv st'.(Coord.snap).
Proof. intros (Es & Ew & Ef) [] He. rewrite Es. split; [|done]. split; rewrite ?Es, ?Ew, ?Ef; done. Qed.

Lemma loadStore_same_evidence parsed (b : B) :
  let st := loadStore parsed (initialCoordinator b) in
  st.(Coord.workers) = ∅ /\ st.(Coord.fenced) = ∅ /\ st.(Coord.counters) = initialCounters /\
  exists e, st.(Coord.snap) = set_epoch e initialSnapshot.
Proof.
  destruct parsed as [stored|]; [|split_and!; [done..|by exists 1]].
  cbn [loadStore]. cbv zeta. set (st0 := set_snap _ _).
  assert (H : forall l st, let st' := foldl (fun st rec => set_currentByRequest
        (<[(StoreRecord.plan rec).(Plan.requestId) := (StoreRecord.plan rec).(Plan.id)]> st.(Coord.currentByRequest))
        (set_plans (<[(StoreRecord.plan rec).(Plan.id) := {| PlanRecord.plan := StoreRecord.plan rec;
          PlanRecord.state := StoreRecord.state rec; PlanRecord.worker := 0; PlanRecord.boot := 0 |}]> st.(Coord.plans)) st)) st l in
      st'.(Coord.workers) = st.(Coord.workers) /\ st'.(Coord.fenced) = st.(Coord.fenced) /\
      st'.(Coord.counters) = st.(Coord.counters) /\ st'.(Coord.snap) = st.(Coord.snap)).
  { induction l as [|r l IH]; intros st; simpl; [done|]. edestruct IH as (-> & -> & -> & ->). done. }
  cbn [Coord.workers Coord.fenced Coord.counters Coord.snap set_requests set_supersessions].
  edestruct H as (-> & -> & -> & ->). split_and!; [done..|]. eexists. reflexivity.
Qed.

Lemma initial_inv parsed (b : B) : coord_inv (loadStore parsed (initialCoordinator b)).
Proof.
  destruct (loadStore_same_evidence parsed b) as (Hw & Hf & Hc & e & Hs). split_and!.
  - split.
    + intros k b'. rewrite Hs, Hw. setoid_rewrite lookup_empty. naive_solver.
    + intros k i. by rewrite Hw.
    + by rewrite Hs.
    + intros k i. by rewrite Hw.
    + rewrite Hf. set_solver.
  - rewrite Hs. split; try constructor.
  - rewrite Hc. apply initialCounters_wf.
Qed.

(** What the authority of a worker depends on. *)
Definition standing (i : WorkerInfo) : bool * Z := (i.(WorkerInfo.alive), i.(WorkerInfo.boot)).

Lemma authority_same_standing st st' :
  standing <$> st'.(Coord.workers) = standing <$> st.(Coord.workers) ->
  st'.(Coord.snap).(Snapshot.workerBoots) = st.(Coord.snap).(Snapshot.workerBoots) ->
  st'.(Coord.snap).(Snapshot.sourceBoots) = st.(Coord.snap).(Snapshot.sourceBoots) ->
  st'.(Coord.fenced) = st.(Coord.fenced) -> authority_inv st -> authority_inv st'.
Proof.
  intros Ew Eb Es Ef [Hb Ha Hs Hn Hf].
  assert (Hst : forall k i', st'.(Coord.workers) !! k = Some i' -> exists i, st.(Coord.workers) !! k = Some i /\ standing i' = standing i).
  { intros k i' Hi. assert (Hl : (standing <$> Coord.workers st) !! k = Some (standing i')) by (by rewrite <- Ew, lookup_fmap, Hi).
    rewrite lookup_fmap in Hl. destruct (Coord.workers st !! k) as [i|]; [|done]. exists i. split; [done|]. by apply (inj Some). }
  assert (Hst' : forall k i, st.(Coord.workers) !! k = Some i -> exists i', st'.(Coord.workers) !! k = Some i' /\ standing i' = standing i).
  { intros k i Hi. assert (Hl : (standing <$> Coord.workers st') !! k = Some (standing i)) by (by rewrite Ew, lookup_fmap, Hi).
    rewrite lookup_fmap in Hl. destruct (Coord.workers st' !! k) as [i'|]; [|done]. exists i'. split; [done|]. by apply (inj Some). }
  split.
  - intros k b. rewrite Eb, Hb. split; intros (i & Hi & Hal & Hbt).
    + destruct (Hst' k i Hi) as (i' & Hi' & E). injection E as E1 E2. exists i'. by rewrite E1, E2.
    + destruct (Hst k i Hi) as (i' & Hi' & E). injection E as E1 E2. exists i'. by rewrite <- E1, <- E2.
  - intros k i' Hi'. destruct (Hst k i' Hi') as (i & Hi & E). injection E as -> ->. rewrite Ef. by apply Ha.
  - by rewrite Es, Eb.
  - intros k i' Hi'. destruct (Hst k i' Hi') as (i & Hi & E). injection E as _ ->. by apply (Hn k i).
  - by rewrite Ef.
Qed.

Lemma standing_insert (m : gmap Z WorkerInfo) k i i' :
  m !! k = Some i -> standing i' = standing i -> standing <$> <[k := i']> m = standing <$> m.
Proof. intros Hi E. rewrite fmap_insert, E. apply insert_id. by rewrite lookup_fmap, Hi. Qed.

Lemma currentPublisher_Some worker boot st i :
  currentPublisher worker boot st = Some i <->
  st.(Coord.workers) !! worker = Some i /\ i.(WorkerInfo.alive) = true /\ i.(WorkerInfo.boot) = boot.
Proof.
  unfold currentPublisher. destruct (_ !! worker) as [j|]; [|naive_solver].
  destruct (WorkerInfo.alive j) eqn:Ea, (Z.eqb_spec (WorkerInfo.boot j) boot); simpl; naive_solver congruence.
Qed.

Lemma handleRegister_inv s m st out st' :
  handleRegister s m st = (Ok out, st') -> authority_inv st -> evidence_inv st.(Coord.snap) ->
  authority_inv st' /\ evidence_inv st'.(Coord.snap).
Proof.
  intros H [Hb Ha Hs Hn Hf] He. unfold handleRegister in H. destruct (isNull _ || _) eqn:E0; [injection H as _ <-; done|].
  case_bool_decide as Hfn; [injection H as _ <-; done|]. injection H as _ <-.
  apply orb_false_iff in E0 as [E1%Z.eqb_neq E2%Z.eqb_neq]. split; [|by destruct He; split].
  split; cbn [Coord.snap Coord.workers Coord.fenced set_snap set_socketToWorker set_workers Snapshot.workerBoots
    Snapshot.sourceBoots set_sourceBoots set_workerBoots]; [| | | |done].
  - intros k b. rewrite !lookup_insert. case_decide as Ek; [|apply Hb]. split.
    + intros [= <-]. eauto.
    + intros (i & [= <-] & _ & <-). done.
  - intros k i. rewrite lookup_insert. case_decide; [|apply Ha]. intros [= <-]. simpl. by subst.
  - by rewrite Hs.
  - intros k i. rewrite lookup_insert. case_decide; [|apply Hn]. intros [= <-]. by subst.
Qed.

Lemma handlePublishEndpoint_inv s m st out st' :
  handlePublishEndpoint s m st = (Ok out, st') -> authority_inv st -> evidence_inv st.(Coord.snap) ->
  authority_inv st' /\ evidence_inv st'.(Coord.snap).
Proof.
  intros H Hau He. unfold handlePublishEndpoint in H. destruct (currentPublisher _ _ st) as [i|] eqn:Ep; [|injection H as _ <-; done].
  injection H as _ <-. apply currentPublisher_Some in Ep as (Hi & Hal & Hbt). split.
  - apply (authority_same_standing st); [|done|done|done|exact Hau]. cbn. by eapply standing_insert.
  - destruct He as [Hp Hn Hl Hr Hc]. split; [| |done|done|done]; cbn.
    + apply Forall_forall. intros e [->|Hin]%elem_of_replace_or_push; [|by rewrite Forall_forall in Hp; apply Hp].
      simpl. rewrite <- Hbt. by apply (ai_named _ Hau _ _ Hi).
    + by apply replace_or_push_NoDup.
Qed.

Lemma handlePublishLink_inv s m st out st' :
  handlePublishLink s m st = (Ok out, st') -> authority_inv st -> evidence_inv st.(Coord.snap) ->
  authority_inv st' /\ evidence_inv st'.(Coord.snap).
Proof.
  intros H Hau He. unfold handlePublishLink in H. destruct (currentPublisher _ _ st) as [i|] eqn:Ep; [|injection H as _ <-; done].
  injection H as _ <-. apply currentPublisher_Some in Ep as (Hi & Hal & Hbt). split.
  - apply (authority_same_standing st); [|done|done|done|exact Hau]. cbn. by eapply standing_insert.
  - destruct He as [Hp Hn Hl Hr Hc]. split; [done|done| |done|done]. cbn. by apply replace_or_push_NoDup.
Qed.

Lemma links_updated_inv st snap (upd : Link -> Link) :
  (forall l, (upd l).(Link.id) = l.(Link.id)) ->
  snap.(Snapshot.endpoints) = st.(Coord.snap).(Snapshot.endpoints) -> snap.(Snapshot.links) = st.(Coord.snap).(Snapshot.links) ->
  snap.(Snapshot.reservations) = st.(Coord.snap).(Snapshot.reservations) ->
  snap.(Snapshot.resourceCapacities) = st.(Coord.snap).(Snapshot.resourceCapacities) ->
  snap.(Snapshot.workerBoots) = st.(Coord.snap).(Snapshot.workerBoots) ->
  snap.(Snapshot.sourceBoots) = st.(Coord.snap).(Snapshot.sourceBoots) ->
  authority_inv st -> evidence_inv st.(Coord.snap) ->
  let st' := set_snap (set_links (upd <$> snap.(Snapshot.links)) snap) st in
  authority_inv st' /\ evidence_inv st'.(Coord.snap).
Proof.
  intros Hu Ee El Er Ec Ew Es Hau [Hp Hn Hl Hr Hc]. split; [by apply (authority_same_standing st)|].
  split; cbn; rewrite ?Ee, ?El, ?Er, ?Ec; try done. rewrite <- list_fmap_compose.
  erewrite list_fmap_ext; [exact Hl|]. intros ? l _. apply Hu.
Qed.

Lemma fenceWorker_inv k st :
  authority_inv st -> evidence_inv st.(Coord.snap) ->
  authority_inv (fenceWorker k st) /\ evidence_inv (fenceWorker k st).(Coord.snap).
Proof.
  intros [Hb Ha Hs Hn Hf] [Hp He Hl Hr Hc]. unfold fenceWorker. destruct (Coord.workers st !! k) as [i|] eqn:Ei.
  - split.
    + split; cbn [Coord.snap Coord.workers Coord.fenced set_snap set_fenced set_workers Snapshot.workerBoots Snapshot.sourceBoots
        set_sourceBoots set_workerBoots set_endpoints set_links set_topologyGeneration].
      * intros k' b. rewrite lookup_delete, lookup_insert. case_decide as Ek; [|apply Hb]. split; [done|]. by intros (j & [= <-] & ? & _).
      * intros k' j. rewrite lookup_insert. case_decide as Ek.
        -- intros [= <-]. subst. simpl. split; [done|]. set_solver.
        -- intros Hj. rewrite (Ha k' j Hj). set_solver.
      * by rewrite Hs.
      * intros k' j. rewrite lookup_insert. case_decide; [|apply Hn]. intros [= <-]. subst. simpl. by apply (Hn k' i).
      * intros k' b [E|H]%elem_of_union; [|by apply Hf]. apply elem_of_singleton in E as [= -> ->]. by apply (Hn k i).
    + split; cbn; [| | |done|done].
      * apply Forall_fmap. eapply Forall_impl; [exact Hp|]. intros e Hx. simpl. by case_bool_decide.
      * rewrite <- list_fmap_compose. erewrite list_fmap_ext; [exact He|]. intros ? e _. simpl. by case_bool_decide.
      * eapply sublist_NoDup; [exact Hl|]. apply fmap_sublist, sublist_filter.
  - assert (Hk : st.(Coord.snap).(Snapshot.workerBoots) !! k = None).
    { apply eq_None_not_Some. intros [b (j & Hj & _)%Hb]. congruence. }
    split; [|by split]. apply (authority_same_standing st); try done; cbn [Coord.snap set_snap set_workerBoots set_sourceBoots
      Snapshot.workerBoots Snapshot.sourceBoots]; by rewrite ?Hs, delete_id.
Qed.

(** The messages about plans, and every other step, leave workers and evidence alone. *)
Lemma plan_messages_same_evidence s m st out st' :
  plan_message m.(Message.type) = true -> handleMessage weights bounds s m st = (Ok out, st') ->
  same_evidence st st' /\ (counters_wf st.(Coord.counters) -> counters_wf st'.(Coord.counters)).
Proof.
  unfold handleMessage. intros Ht H. destruct (Message.type m); try discriminate Ht.
  - unfold handleSubmit in H. destruct (isNull _); [injection H as _ <-; done|].
    case_bool_decide; [injection H as _ <-; done|]. cbv zeta in H.
    destruct (planCommunication _ _ _ _ _) as [[po|e] cs] eqn:E; [|done].
    assert (Hwf : counters_wf st.(Coord.counters) -> counters_wf cs) by (intros Hwf; by eapply planCommunication_counters).
    destruct (PlanOutcome.success po), (PlanOutcome.plan po) as [plan|]; try (injection H as _ <-; done).
    destruct (executorOf plan _). injection H as _ <-. done.
  - unfold handleCommit, commitBegin, commitAcquire, commitFinish in H. repeat case_match; simplify_eq; done.
  - unfold handleRevalidate, reply, update_state in H. repeat case_match; injection H as _ <-; done.
  - unfold handleSupersede in H. injection H as _ <-. repeat case_match; done.
  - unfold handleCancel in H. injection H as _ <-. repeat case_match; done.
  - unfold handleHandoff, reply, update_state in H. repeat case_match; injection H as _ <-; done.
  - unfold handleResult, sendError, reply, update_state in H. repeat case_match; injection H as _ <-; done.
Qed.

Lemma publish_message_inv s m st out st' :
  plan_message m.(Message.type) = false -> handleMessage weights bounds s m st = (Ok out, st') ->
  authority_inv st -> evidence_inv st.(Coord.snap) -> authority_inv st' /\ evidence_inv st'.(Coord.snap).
Proof.
  unfold handleMessage. intros Ht H Ha He.
  assert (Hq : same_evidence st st' -> authority_inv st' /\ evidence_inv st'.(Coord.snap))
    by (intros Hq; by apply (same_evidence_inv st)).
  destruct (Message.type m); try discriminate Ht; try (injection H as _ <-; by apply Hq).
  - by eapply handleRegister_inv.
  - by eapply handlePublishEndpoint_inv.
  - by eapply handlePublishLink_inv.
  - unfold handlePublishCapacity in H. destruct (stalePublisher m st); injection H as _ <-; [done|].
    apply (links_updated_inv st (set_capacityGeneration _ (Coord.snap st))); try done. intros l. by destruct (_ =? _).
  - unfold handlePublishCongestion in H. destruct (stalePublisher m st); injection H as _ <-; [done|].
    apply (links_updated_inv st (set_congestionGeneration _ (Coord.snap st))); try done. intros l. by destruct (_ =? _).
Qed.

Lemma step_inv ev w out w' :
  step weights bounds ev w = Some (out, w') -> coord_inv w.(World.coord) -> coord_inv w'.(World.coord).
Proof.
  intros H (Ha & He & Hc).
  assert (Hq : same_evidence w.(World.coord) w'.(World.coord) -> counters_wf w'.(World.coord).(Coord.counters) -> coord_inv w'.(World.coord)).
  { intros Hq Hc'. destruct (same_evidence_inv _ _ Hq Ha He). by split_and!. }
  destruct ev as [s|s m|s|s|s|s|s d|]; simpl in H.
  - case_bool_decide; [done|]. injection H as _ <-. by apply Hq.
  - destruct (idle s w); [simpl in H|done].
    destruct (decide (m.(Message.type) = MessageType.COMMIT_REQUEST)) as [Ht|Ht].
    + rewrite Ht in H. unfold commitBegin in H. repeat case_match; simplify_eq; by apply Hq.
    + destruct (handleMessage weights bounds s m (World.coord w)) as [[o|e] st'] eqn:E; [|by destruct (Message.type m)].
      assert (st' = World.coord w') as -> by (by destruct (Message.type m); simplify_eq/=).
      destruct (plan_message (Message.type m)) eqn:Hp.
      * destruct (plan_messages_same_evidence _ _ _ _ _ Hp E). by apply Hq; auto.
      * destruct (publish_message_inv _ _ _ _ _ Hp E Ha He). split_and!; [done|done|].
        apply other_messages_keep_plans in E as [_ ->]; done.
  - destruct (_ !! s) as [[p [a|]]|]; [done| |done]. unfold commitAcquire in H.
    destruct (acquire _ _ _) as [[a|e] b]; [|done]. injection H as _ <-. by apply Hq.
  - destruct (_ !! s) as [[p [a|]]|]; [|done..]. unfold commitFinish in H. repeat case_match; simplify_eq; by apply Hq.
  - destruct (idle s w); [|done]. injection H as _ <-. cbn [World.coord with_coord] in *.
    unfold disconnectSocket, closeConnection in *. destruct (_ !! s) as [k|]; [|by apply Hq].
    destruct (fenceWorker_inv k _ Ha He) as [Ha' He']. clear Hq.
    destruct (same_evidence_inv (fenceWorker k (World.coord w)) (set_activeSockets
      (Coord.activeSockets (fenceWorker k (World.coord w)) ∖ {[INVALID_SOCKET]})
      (set_socketToWorker (delete s (Coord.socketToWorker (fenceWorker k (World.coord w)))) (fenceWorker k (World.coord w)))))
      as [Ha2 He2]; [done..|]. split_and!; [exact Ha2|exact He2|]. unfold fenceWorker. by case_match.
  - destruct (idle s w && _); [|done]. injection H as _ <-. by apply Hq.
  - destruct (idle s w); [|done]. injection H as _ <-. by split_and!.
  - injection H as _ <-. by apply Hq.
Qed.

Lemma reachable_inv file (b : B) w : reachable weights bounds (start file b) w -> coord_inv w.(World.coord).
Proof. induction 1 as [|w ev out w' _ IH Hs]; [apply initial_inv|by eapply step_inv]. Qed.
End preservation.

(** ** The invariant *)

(** C37: in every world a server can get into, however its threads interleave: the
    snapshot knows exactly the boots of the living workers, a registered worker is alive
    exactly while its boot is not fenced, no registered or fenced authority is null, every
    endpoint carries a non-null authority, no two endpoints and no two links share an
    identity, and the identity counters stay within 64 bits. *)
Theorem server_invariant {B} `{ResourceBroker B} weights bounds file (b : B) w :
  reachable weights bounds (start file b) w -> coord_inv w.(World.coord).
Proof. apply reachable_inv. Qed.

Lemma server_invariant_witness :
  exists w, demoRun (publishing [directLink; upLink; downLink] ++ [Disconnect 1]) = Some w /\ coord_inv w.(World.coord).
Proof.
  destruct (demoRun (publishing [directLink; upLink; downLink] ++ [Disconnect 1])) as [w|] eqn:E; [|vm_compute in E; discriminate E].
  exists w. split; [reflexivity|]. apply (server_invariant ∅ basicBounds None demoBroker w). exact (demoRun_reachable _ _ E).
Defined.

(** ** Fencing *)

Section fencing.
Context {B : Type} `{HB : ResourceBroker B}.
Context (weights : gmap CostFactor double) (bounds : Bounds).
Implicit Types st : CoordState B.

(** The part of the server a message about plans may change holds no authority. *)
Lemma handleMessage_fenced s m st out st' :
  handleMessage weights bounds s m st = (Ok out, st') -> st'.(Coord.fenced) = st.(Coord.fenced).
Proof.
  intros H. destruct (plan_message (Message.type m)) eqn:Hp.
  - by destruct (plan_messages_same_evidence _ _ _ _ _ _ _ Hp H) as [(_ & _ & ?) _].
  - unfold handleMessage in H. destruct (Message.type m); try discriminate Hp;
      unfold handleRegister, handlePublishEndpoint, handlePublishLink, handlePublishCapacity, handlePublishCongestion,
        handleQueryPlan, handleSave, handleShutdown, sendError, sendOk, reply in H;
      repeat case_match; injection H as _ <-; done.
Qed.

Lemma step_fenced ev (w w' : World B) out :
  step weights bounds ev w = Some (out, w') -> w.(World.coord).(Coord.fenced) ⊆ w'.(World.coord).(Coord.fenced).
Proof.
  intros H. destruct ev as [s|s m|s|s|s|s|s d|]; simpl in H.
  - case_bool_decide; by simplify_eq.
  - destruct (idle s w); [simpl in H|done].
    destruct (decide (m.(Message.type) = MessageType.COMMIT_REQUEST)) as [Ht|Ht].
    + rewrite Ht in H. unfold commitBegin in H. repeat case_match; by simplify_eq.
    + destruct (handleMessage weights bounds s m (World.coord w)) as [[o|e] st'] eqn:E; [|by destruct (Message.type m)].
      assert (st' = World.coord w') as -> by (by destruct (Message.type m); simplify_eq/=).
      by rewrite (handleMessage_fenced _ _ _ _ _ E).
  - destruct (_ !! s) as [[p [a|]]|]; [done| |done]. unfold commitAcquire in H.
    destruct (acquire _ _ _) as [[a|e] b]; by simplify_eq.
  - destruct (_ !! s) as [[p [a|]]|]; [|done..]. unfold commitFinish in H. repeat case_match; by simplify_eq.
  - destruct (idle s w); [|done]. simplify_eq/=. unfold disconnectSocket, fenceWorker. repeat case_match; set_solver.
  - destruct (idle s w && _); by simplify_eq.
  - destruct (idle s w); by simplify_eq.
  - by simplify_eq.
Qed.

Lemma reachable_fenced (w w' : World B) :
  reachable weights bounds w w' -> w.(World.coord).(Coord.fenced) ⊆ w'.(World.coord).(Coord.fenced).
Proof. induction 1 as [|w1 ev out w2 _ IH Hs]; [done|]. etrans; [exact IH|by eapply step_fenced]. Qed.

Lemma fenced_not_current st k boot :
  authority_inv st -> (k, boot) ∈ st.(Coord.fenced) ->
  currentPublisher k boot st = None /\ st.(Coord.snap).(Snapshot.workerBoots) !! k <> Some boot.
Proof.
  intros Ha Hf. split.
  - apply eq_None_not_Some. intros [i (Hi & Hal & <-)%currentPublisher_Some]. by apply (ai_alive _ Ha k i Hi) in Hal.
  - intros (i & Hi & Hal & <-)%(ai_boots _ Ha). by apply (ai_alive _ Ha k i Hi) in Hal.
Qed.

Lemma fenced_not_fresh st k boot e :
  authority_inv st -> (k, boot) ∈ st.(Coord.fenced) -> e.(Endpoint.worker) = k -> e.(Endpoint.workerBoot) = boot ->
  ~ fresh_endpoint e st.(Coord.snap).
Proof.
  intros Ha Hf <- <- [Hc _]. apply (ai_fenced _ Ha) in Hf as Hn. destruct Hn as [_ Hb].
  destruct (Hc Hb) as [_ Hc']. by apply (fenced_not_current st _ _ Ha Hf).
Qed.

(** The messages by which a worker exercises its authority over evidence. *)
Definition authority_messages : list MessageType :=
  [MessageType.REGISTER; MessageType.PUBLISH_ENDPOINT; MessageType.PUBLISH_LINK; MessageType.PUBLISH_CAPACITY;
   MessageType.PUBLISH_CONGESTION].

Lemma fenced_refused s m st :
  authority_inv st -> (m.(Message.worker), m.(Message.boot)) ∈ st.(Coord.fenced) -> m.(Message.type) ∈ authority_messages ->
  exists e, handleMessage weights bounds s m st = (Ok [(s, errorMessage e)], st).
Proof.
  intros Ha Hf Ht. destruct (fenced_not_current _ _ _ Ha Hf) as [Hp _]. destruct (ai_fenced _ Ha _ _ Hf) as [Hk Hb].
  assert (Hnk : isNull (Message.worker m) = false) by (by apply Z.eqb_neq).
  assert (Hnb : isNull (Message.boot m) = false) by (by apply Z.eqb_neq).
  assert (Hs : stalePublisher m st = true) by (unfold stalePublisher; by rewrite Hnk, Hp).
  unfold handleMessage. unfold authority_messages in Ht. rewrite !elem_of_cons, elem_of_nil in Ht.
  destruct Ht as [->|[->|[->|[->|[->|[]]]]]].
  - unfold handleRegister. rewrite Hnk, Hnb. simpl. rewrite bool_decide_eq_true_2 by done. by eexists.
  - unfold handlePublishEndpoint. rewrite Hp. by eexists.
  - unfold handlePublishLink. rewrite Hp. by eexists.
  - unfold handlePublishCapacity. rewrite Hs. by eexists.
  - unfold handlePublishCongestion. rewrite Hs. by eexists.
Qed.

(** C9: fencing is final: once the authority of a worker's boot is fenced, it stays so
    whatever happens later, every attempt to register with it or to publish under its
    name is answered with an error and changes nothing, no endpoint published under it
    is fresh, and no plan that touches such an endpoint revalidates. *)
Theorem fenced_authority_is_final file (b : B) w w' k boot :
  reachable weights bounds (start file b) w -> (k, boot) ∈ w.(World.coord).(Coord.fenced) -> reachable weights bounds w w' ->
  let st := w'.(World.coord) in
  (k, boot) ∈ st.(Coord.fenced) /\
  (forall s m, m.(Message.worker) = k -> m.(Message.boot) = boot -> m.(Message.type) ∈ authority_messages ->
     exists e, handleMessage weights bounds s m st = (Ok [(s, errorMessage e)], st)) /\
  (forall e, e.(Endpoint.worker) = k -> e.(Endpoint.workerBoot) = boot -> endpointFresh e st.(Coord.snap) = false) /\
  (forall plan pr e, current_plan plan st.(Coord.snap) -> pr ∈ plan.(Plan.endpointGenerations) ->
     endpointMap st.(Coord.snap) !! pr.1 = Some e -> (e.(Endpoint.worker), e.(Endpoint.workerBoot)) <> (k, boot)).
Proof.
  intros Hw Hf Hw' st. pose proof (reachable_inv _ _ _ _ _ (reachable_trans _ _ _ _ _ Hw Hw')) as (Ha & _ & _).
  apply (reachable_fenced _ _ Hw') in Hf. split_and!; [done| | |].
  - intros s m <- <- Ht. by apply fenced_refused.
  - intros e He Hb. apply not_true_is_false. rewrite endpointFresh_iff. by eapply fenced_not_fresh.
  - intros plan pr e Hc Hpr He [= Hk Hb]. pose proof (cp_endpoints _ _ Hc) as Hall. rewrite Forall_forall in Hall.
    destruct (Hall pr Hpr) as (e' & He' & _ & Hfr & _). rewrite He in He'. injection He' as <-.
    by eapply (fenced_not_fresh st).
Qed.
End fencing.

Lemma fenced_authority_is_final_witness :
  exists w w', reachable ∅ basicBounds demoStart w /\ (10, 7) ∈ w.(World.coord).(Coord.fenced) /\
    reachable ∅ basicBounds w w' /\
    exists e, handleMessage ∅ basicBounds 3 (registerWorker 10 7 "ghost") w'.(World.coord) = (Ok [(3, errorMessage e)], w'.(World.coord)).
Proof.
  destruct (demoRun (publishing [directLink] ++ [Disconnect 1])) as [w|] eqn:E; [|vm_compute in E; discriminate E].
  destruct (run ∅ basicBounds [Accept 3] w) as [w'|] eqn:E'.
  - assert (Hf : (10, 7) ∈ w.(World.coord).(Coord.fenced)).
    { vm_compute in E. injection E as <-. apply (bool_decide_unpack _). vm_compute. exact I. }
    pose proof (demoRun_reachable _ _ E) as Hr.
    assert (Hr' : reachable ∅ basicBounds w w') by (eapply run_reachable; [constructor|exact E']).
    exists w, w'. split; [exact Hr|]. split; [exact Hf|]. split; [exact Hr'|].
    apply (fenced_authority_is_final ∅ basicBounds None demoBroker w w' 10 7 Hr Hf Hr');
      [reflexivity|reflexivity|apply (bool_decide_unpack _); reflexivity].
  - vm_compute in E. injection E as <-. vm_compute in E'. discriminate E'.
Defined.
