(* ===== verification/Service.v ===== *)
(** * What the coordinator guarantees

    The end-to-end properties of the service: when a plan may run, what a commit and a
    cancellation leave in the broker, what a submitted plan is good for, what a restart
    recovers, and where the server departs from its own documentation. *)

From S2P Require Import Prelude Core Enums Double Model Scenario Feasibility Ranking Cost Enumerate Assembly.
From S2P Require Import PointToPoint Multicast Collective Planner Lifecycle Revalidation Broker Message Client Codec Store Persistence Coordinator Machine Authority.

Section service.
Context {B : Type} `{HB : ResourceBroker B}.
Context (weights : gmap CostFactor double) (bounds : Bounds).
Implicit Types (st : CoordState B) (w : World B).

(** ** Execution *)

(** Only a handover sends EXECUTE, to the living worker the plan was bound to. *)
Lemma handleHandoff_executes s m st out st' t x :
  handleHandoff s m st = (Ok out, st') -> (t, x) ∈ out -> x.(Message.type) = MessageType.EXECUTE ->
  exists r i, st.(Coord.plans) !! m.(Message.planId) = Some r /\ current_plan r.(PlanRecord.plan) st.(Coord.snap) /\
    x.(Message.planId) = r.(PlanRecord.plan).(Plan.id) /\
    x.(Message.worker) = r.(PlanRecord.worker) /\ x.(Message.boot) = r.(PlanRecord.boot) /\
    st.(Coord.workers) !! r.(PlanRecord.worker) = Some i /\ i.(WorkerInfo.alive) = true /\ t = i.(WorkerInfo.sock).
Proof.
  intros H Hin Hx. unfold handleHandoff in H. destruct (_ !! Message.planId m) as [r|].
  2:{ injection H as <- _. apply list_elem_of_singleton in Hin as [= -> ->]. discriminate Hx. }
  pose proof (revalidate_ok_iff r.(PlanRecord.plan) st.(Coord.snap)) as Hrv. destruct (RevalidationResult.ok _).
  2:{ injection H as <- _. apply list_elem_of_singleton in Hin as [= -> ->]. discriminate Hx. }
  injection H as <- _. apply elem_of_app in Hin as [Hin|Hin].
  2:{ apply list_elem_of_singleton in Hin as [= -> ->]. discriminate Hx. }
  destruct (isNull _); [set_solver|]. destruct (Coord.workers st !! _) as [i|] eqn:Ei; [|set_solver].
  destruct (WorkerInfo.alive i) eqn:Ea; [|set_solver]. apply list_elem_of_singleton in Hin as [= -> ->].
  exists r, i. done.
Qed.

(** Every other message is answered without EXECUTE. *)
Lemma other_replies s m st out st' t x :
  m.(Message.type) <> MessageType.EXECUTION_HANDOFF -> handleMessage weights bounds s m st = (Ok out, st') ->
  (t, x) ∈ out -> x.(Message.type) <> MessageType.EXECUTE.
Proof.
  intros Ht H Hin Hx. unfold handleMessage in H.
  assert (Hone : forall y, out = [(s, y)] -> y.(Message.type) = MessageType.EXECUTE).
  { intros y ->. apply list_elem_of_singleton in Hin as [= _ <-]. exact Hx. }
  destruct (Message.type m); try done;
    unfold handleRegister, handlePublishEndpoint, handlePublishLink, handlePublishCapacity, handlePublishCongestion,
      handleQueryPlan, handleSubmit, handleCommit, commitBegin, commitAcquire, commitFinish, handleRevalidate, handleResult,
      handleCancel, handleSupersede, handleSave, handleShutdown, sendError, sendOk, reply in H;
    repeat case_match; simplify_eq;
    match goal with Hone : forall y, _ = _ -> _ |- _ => discriminate (Hone _ eq_refl) end.
Qed.

Lemma step_executes ev w out w' t x :
  step weights bounds ev w = Some (out, w') -> (t, x) ∈ out -> x.(Message.type) = MessageType.EXECUTE ->
  exists s m r i, ev = Receive s m /\ m.(Message.type) = MessageType.EXECUTION_HANDOFF /\
    w.(World.coord).(Coord.plans) !! m.(Message.planId) = Some r /\
    current_plan r.(PlanRecord.plan) w.(World.coord).(Coord.snap) /\
    x.(Message.planId) = r.(PlanRecord.plan).(Plan.id) /\
    x.(Message.worker) = r.(PlanRecord.worker) /\ x.(Message.boot) = r.(PlanRecord.boot) /\
    w.(World.coord).(Coord.workers) !! r.(PlanRecord.worker) = Some i /\ i.(WorkerInfo.alive) = true /\ t = i.(WorkerInfo.sock).
Proof.
  intros H Hin Hx. destruct ev as [s|s m|s|s|s|s|s d|]; simpl in H.
  - case_bool_decide; [done|]. injection H as <- _. apply list_elem_of_singleton in Hin as [= -> ->]. discriminate Hx.
  - destruct (idle s w); [simpl in H|done].
    destruct (decide (m.(Message.type) = MessageType.COMMIT_REQUEST)) as [Ht|Ht].
    + rewrite Ht in H. unfold commitBegin in H. repeat case_match; simplify_eq/=;
        (apply list_elem_of_singleton in Hin as [= -> ->]; discriminate Hx) || set_solver.
    + destruct (handleMessage weights bounds s m (World.coord w)) as [[o|e] st'] eqn:E; [|by destruct (Message.type m)].
      assert (o = out) as -> by (by destruct (Message.type m); simplify_eq/=).
      destruct (decide (m.(Message.type) = MessageType.EXECUTION_HANDOFF)) as [Hh|Hh]; [|by apply (other_replies _ _ _ _ _ _ _ Hh E Hin) in Hx].
      unfold handleMessage in E. rewrite Hh in E. destruct (handleHandoff_executes _ _ _ _ _ _ _ E Hin Hx) as (r & i & ?).
      exists s, m, r, i. done.
  - destruct (_ !! s) as [[p [a|]]|]; [done| |done]. unfold commitAcquire in H.
    destruct (acquire _ _ _) as [[a|e] b]; [|done]. injection H as <- _. set_solver.
  - destruct (_ !! s) as [[p [a|]]|]; [|done..]. unfold commitFinish in H. repeat case_match; simplify_eq/=;
      apply list_elem_of_singleton in Hin as [= -> ->]; discriminate Hx.
  - destruct (idle s w); [|done]. injection H as <- _. set_solver.
  - destruct (idle s w && _); [|done]. injection H as <- _. set_solver.
  - destruct (idle s w); [|done]. injection H as <- _. apply list_elem_of_singleton in Hin as [= -> ->]. discriminate Hx.
  - injection H as <- _. set_solver.
Qed.

(** C8: nothing runs on stale evidence, and nothing is reported by a stranger: a plan
    becomes ACTIVE only in a handover at which it is current; an EXECUTE is only sent in
    the handover of a current plan, to the connection of the worker it is bound to, which
    is alive; a plan becomes COMPLETED only while ACTIVE, by a result that names the
    worker and boot it is bound to or no worker at all. *)
Theorem execution_guarded ev w out w' :
  step weights bounds ev w = Some (out, w') ->
  (forall id r', w'.(World.coord).(Coord.plans) !! id = Some r' -> r'.(PlanRecord.state) = PlanState.ACTIVE ->
     w.(World.coord).(Coord.plans) !! id = Some r' \/
     exists s m r, ev = Receive s m /\ m.(Message.type) = MessageType.EXECUTION_HANDOFF /\ m.(Message.planId) = id /\
       w.(World.coord).(Coord.plans) !! id = Some r /\ r'.(PlanRecord.plan) = r.(PlanRecord.plan) /\
       current_plan r.(PlanRecord.plan) w.(World.coord).(Coord.snap)) /\
  (forall t x, (t, x) ∈ out -> x.(Message.type) = MessageType.EXECUTE ->
     exists s m r i, ev = Receive s m /\ m.(Message.type) = MessageType.EXECUTION_HANDOFF /\
       w.(World.coord).(Coord.plans) !! m.(Message.planId) = Some r /\
       current_plan r.(PlanRecord.plan) w.(World.coord).(Coord.snap) /\
       x.(Message.planId) = r.(PlanRecord.plan).(Plan.id) /\
       x.(Message.worker) = r.(PlanRecord.worker) /\ x.(Message.boot) = r.(PlanRecord.boot) /\
       w.(World.coord).(Coord.workers) !! r.(PlanRecord.worker) = Some i /\ i.(WorkerInfo.alive) = true /\ t = i.(WorkerInfo.sock)) /\
  (forall id r', w'.(World.coord).(Coord.plans) !! id = Some r' -> r'.(PlanRecord.state) = PlanState.COMPLETED ->
     w.(World.coord).(Coord.plans) !! id = Some r' \/
     exists s m r, ev = Receive s m /\ m.(Message.type) = MessageType.EXECUTION_RESULT /\ m.(Message.planId) = id /\
       w.(World.coord).(Coord.plans) !! id = Some r /\ r.(PlanRecord.state) = PlanState.ACTIVE /\ m.(Message.ok) = true /\
       (m.(Message.worker) = 0 \/ (m.(Message.worker) = r.(PlanRecord.worker) /\ m.(Message.boot) = r.(PlanRecord.boot)))).
Proof.
  intros H. split_and!.
  - intros id r' Hr' Hs. pose proof (step_moves_plans _ _ _ _ _ _ id H) as Hm. rewrite Hr' in Hm.
    inversion Hm; subst; simpl in *; try congruence; [by left|right; eauto 12|].
    destruct (Message.ok m); discriminate Hs.
  - intros t x. by apply (step_executes ev w out w').
  - intros id r' Hr' Hs. pose proof (step_moves_plans _ _ _ _ _ _ id H) as Hm. rewrite Hr' in Hm.
    inversion Hm; subst; simpl in *; try congruence; [by left|]. right. destruct (Message.ok m) eqn:Hok; [|done].
    exists s, m, r. auto 10.
Qed.

(** ** Staged plans *)

Definition running (s : PlanState) : bool :=
  match s with PlanState.AWAITING_EXECUTION | PlanState.ACTIVE | PlanState.COMPLETED => true | _ => false end.

Lemma staged_not_current st plan :
  evidence_inv st.(Coord.snap) -> plan.(Plan.requiredStagingResources) <> [] -> ~ current_plan plan st.(Coord.snap).
Proof.
  intros He Hne Hc. pose proof (cp_staging _ _ Hc) as Hs. destruct (Plan.requiredStagingResources plan) as [|r rs]; [done|].
  apply Forall_cons in Hs as [[[c Hin] _] _]. rewrite (ei_resources _ He) in Hin. set_solver.
Qed.

(** A plan that stages through a relay never runs on a fresh server: the evidence
    the coordinator keeps has no capacities of staging resources, so no such plan ever
    passes revalidation, and none becomes AWAITING_EXECUTION, ACTIVE or COMPLETED. *)
Theorem staged_plans_never_run (b : B) w id r :
  reachable weights bounds (start None b) w -> w.(World.coord).(Coord.plans) !! id = Some r ->
  r.(PlanRecord.plan).(Plan.requiredStagingResources) <> [] -> running r.(PlanRecord.state) = false.
Proof.
  intros Hw. revert id r. induction Hw as [|w ev out w' Hw IH Hs]; intros id r Hr Hne; [discriminate Hr|].
  pose proof (step_moves_plans _ _ _ _ _ _ id Hs) as Hm. rewrite Hr in Hm.
  pose proof (reachable_inv _ _ _ _ _ Hw) as (_ & He & _).
  inversion Hm; subst; simpl in *; try done.
  - by apply (IH id).
  - exfalso. by eapply staged_not_current.
  - exfalso. by eapply staged_not_current.
  - match goal with H0 : Some _ = _, H1 : PlanRecord.state _ = _ |- _ =>
      pose proof (IH _ _ (eq_sym H0) Hne) as Hi; by rewrite H1 in Hi end.
Qed.

(** ** From submission to execution *)

(** An accepted submission is a successful planning whose plan is stored as ready. *)
Lemma handleSubmit_accepted s m st out st' x :
  handleSubmit weights bounds s m st = (Ok out, st') -> (s, x) ∈ out -> x.(Message.ok) = true ->
  x.(Message.plan).(Plan.candidatePaths) <> [] ->
  exists po cs, returns (planCommunication m.(Message.request) st.(Coord.snap) weights bounds) st.(Coord.counters) po cs /\
    po.(PlanOutcome.success) = true /\ po.(PlanOutcome.plan) = Some x.(Message.plan) /\
    st'.(Coord.snap) = st.(Coord.snap) /\ st'.(Coord.workers) = st.(Coord.workers) /\
    st'.(Coord.plans) = <[x.(Message.plan).(Plan.id) := {| PlanRecord.plan := x.(Message.plan); PlanRecord.state := PlanState.PLAN_READY;
      PlanRecord.worker := (executorOf x.(Message.plan) st.(Coord.snap)).1;
      PlanRecord.boot := (executorOf x.(Message.plan) st.(Coord.snap)).2 |}]> st.(Coord.plans) /\
    st'.(Coord.currentByRequest) = <[m.(Message.request).(Request.id) := x.(Message.plan).(Plan.id)]> st.(Coord.currentByRequest).
Proof.
  intros H Hin Hok Hne. unfold handleSubmit in H.
  destruct (isNull _); [injection H as <- _; apply list_elem_of_singleton in Hin as [= ->]; discriminate Hok|].
  case_bool_decide; [injection H as <- _; apply list_elem_of_singleton in Hin as [= ->]; discriminate Hok|].
  cbv zeta in H. cbn [Coord.snap Coord.counters set_requests] in H.
  destruct (planCommunication _ _ _ _ _) as [[po|e] cs] eqn:E; [|done].
  destruct (PlanOutcome.success po) eqn:Hs, (PlanOutcome.plan po) as [plan|] eqn:Hp.
  2-4: injection H as <- _; apply list_elem_of_singleton in Hin as [= ->]; exfalso; by (apply Hne || discriminate Hok).
  destruct (executorOf plan _) as [wk boot] eqn:Ex. cbn [Coord.snap set_counters set_requests] in Ex.
  injection H as <- <-. apply list_elem_of_singleton in Hin as [= ->]. cbn [Message.plan makeMessage].
  exists po, cs. rewrite Ex. done.
Qed.

Lemma executor_alive st request plan :
  authority_inv st -> evidence_inv st.(Coord.snap) -> assembled_plan request st.(Coord.snap) bounds plan ->
  plan.(Plan.candidatePaths) <> [] ->
  exists e i, e ∈ st.(Coord.snap).(Snapshot.endpoints) /\ executorOf plan st.(Coord.snap) = (e.(Endpoint.worker), e.(Endpoint.workerBoot)) /\
    e.(Endpoint.worker) <> 0 /\ st.(Coord.workers) !! e.(Endpoint.worker) = Some i /\
    i.(WorkerInfo.alive) = true /\ i.(WorkerInfo.boot) = e.(Endpoint.workerBoot).
Proof.
  intros Ha He Has Hne. pose proof (ap_ordered _ _ _ _ Has) as Ho. pose proof (ap_paths _ _ _ _ Has) as Hps.
  destruct (Plan.candidatePaths plan) as [|p ps] eqn:Ep; [done|]. apply Forall_cons in Hps as [(c & cost & Hc & _ & Hsp) _].
  pose proof (stages_for_hops _ _ _ _ (pf_stages _ _ _ _ _ _ Hc)) as Hh.
  destruct (Path.stages p) as [|sg sgs] eqn:Esg; [destruct Hsp as [Hx]; by rewrite <- Hh in Hx|].
  assert (Hin : hop_of_stage sg ∈ plan_hops plan).
  { unfold plan_hops. rewrite Ep. csimpl. rewrite Esg. csimpl. by left. }
  destruct (feasible_hop_live _ _ _ (assembled_plan_hops _ _ _ _ _ Has Hin)) as (_ & e & _ & _ & _ & Hs & ((Hf & _) & _) & _).
  apply index_by_Some in Hs as [Hel Hid]. simpl in Hid.
  pose proof (ei_published _ He) as Hpub. rewrite Forall_forall in Hpub. destruct (Hpub e Hel) as [Hw Hb].
  destruct (Hf Hb) as [_ Hboot]. apply (ai_boots _ Ha) in Hboot as (i & Hi & Hal & Hib). exists e, i. split_and!; try done.
  unfold executorOf. rewrite Ho. destruct (first_return _ _) as [xy|] eqn:Er.
  - apply first_return_Some in Er as (l1 & e' & l2 & Hl & _ & He'). destruct (Z.eqb_spec e'.(Endpoint.id) sg.(Stage.source)); [|done].
    injection He' as <-. assert (e' = e) as -> by (apply (NoDup_key_inj Endpoint.id (Snapshot.endpoints (Coord.snap st)));
      [apply (ei_endpoints _ He)|rewrite Hl; set_solver|done|congruence]). done.
  - exfalso. apply first_return_None in Er. rewrite Forall_forall in Er. specialize (Er e Hel). simpl in Er.
    by rewrite Hid, Z.eqb_refl in Er.
Qed.

(** C14: a plan the server offered for execution over direct links can be executed: if a
    submission is answered with a plan that has a path and no staging, the plan is
    stored as ready and bound to a living worker under its current boot, and a handover
    that follows makes it ACTIVE and sends the order, with the whole payload, to that
    worker's connection. *)
Theorem submitted_plan_executes file (b : B) w s m out w' x :
  reachable weights bounds (start file b) w -> m.(Message.type) = MessageType.SUBMIT_REQUEST ->
  step weights bounds (Receive s m) w = Some (out, w') -> (s, x) ∈ out -> x.(Message.ok) = true ->
  x.(Message.plan).(Plan.candidatePaths) <> [] -> x.(Message.plan).(Plan.requiredStagingResources) = [] ->
  exists r i, w'.(World.coord).(Coord.plans) !! x.(Message.plan).(Plan.id) = Some r /\
    r.(PlanRecord.plan) = x.(Message.plan) /\ r.(PlanRecord.state) = PlanState.PLAN_READY /\
    w'.(World.coord).(Coord.workers) !! r.(PlanRecord.worker) = Some i /\ i.(WorkerInfo.alive) = true /\
    i.(WorkerInfo.boot) = r.(PlanRecord.boot) /\
    (executeMessage r).(Message.bytes) = m.(Message.request).(Request.payloadSize) /\
    forall s2 m2, m2.(Message.type) = MessageType.EXECUTION_HANDOFF -> m2.(Message.planId) = x.(Message.plan).(Plan.id) ->
      handleMessage weights bounds s2 m2 w'.(World.coord) =
        (Ok [(i.(WorkerInfo.sock), executeMessage r); (s2, resultMessage true m2.(Message.planId))],
         update_state m2.(Message.planId) r PlanState.ACTIVE w'.(World.coord)).
Proof.
  intros Hw Ht H Hin Hok Hne Hst. pose proof (reachable_inv _ _ _ _ _ Hw) as (Ha & He & Hc).
  simpl in H. destruct (idle s w); [simpl in H|done]. rewrite Ht in H. unfold handleMessage in H. rewrite Ht in H.
  destruct (handleSubmit _ _ _ _ _) as [[o|e] st'] eqn:E; [|done]. injection H as -> <-. cbn [World.coord with_coord].
  destruct (handleSubmit_accepted _ _ _ _ _ _ E Hin Hok Hne) as (po & cs & Hr & Hs & Hp & Esnap & Ework & Eplans & _).
  destruct (planned_is_assembled _ _ _ _ _ _ _ _ Hc Hr Hs Hp) as [Hb Has].
  destruct (executor_alive _ _ _ Ha He Has Hne) as (e & i & _ & Hex & Hk & Hi & Hal & Hbt).
  rewrite Hex in Eplans. cbn [fst snd] in Eplans. eexists _, i. rewrite Eplans, lookup_insert_eq. split; [reflexivity|].
  rewrite Ework. cbn [PlanRecord.plan PlanRecord.state PlanRecord.worker PlanRecord.boot]. split_and!; try done.
  - pose proof (ap_ordered _ _ _ _ Has) as Ho. pose proof (ap_paths _ _ _ _ Has) as Hps. cbn. rewrite Ho.
    destruct (Plan.candidatePaths (Message.plan x)) as [|p ps]; [done|]. apply Forall_cons in Hps as [(c & cost & Hcp & _ & Hsp) _].
    pose proof (pf_stages _ _ _ _ _ _ Hcp) as Hsg. destruct (CandidatePath.hops c) as [|h hs]; [by destruct Hsp|].
    destruct (Path.stages p) as [|sg sgs]; [done|]. by destruct Hsg as [(l & id & _ & ->) _].
  - intros s2 m2 Ht2 Hid. unfold handleMessage, handleHandoff. rewrite Ht2, Hid, Eplans, lookup_insert_eq, Esnap, Ework.
    cbn [PlanRecord.plan PlanRecord.worker]. destruct (revalidatePlan_cases (Message.plan x) (Coord.snap (World.coord w))) as [[_ ->]|[Hnc _]].
    + cbn [RevalidationResult.ok current]. assert (Hk0 : isNull e.(Endpoint.worker) = false) by (by apply Z.eqb_neq).
      by rewrite Hk0, Hi, Hal.
    + exfalso. apply Hnc. eapply fresh_plan_current; [exact Hb|exact Has|]. rewrite Hst. constructor.
Qed.
End service.

(** ** Commits and the broker *)

Section commit.
Context {B : Type} `{HL : ResourceBrokerLaws B}.
Context (weights : gmap CostFactor double) (bounds : Bounds).
Implicit Types st : CoordState B.

(** What a commit asks of the broker for each claim. *)
Definition claimSize (plan : CommunicationPlan) : Z :=
  match plan.(Plan.orderedStages) with [] => 1024 | x :: _ => x.(Stage.payload) end.

Definition claimSizes (plan : CommunicationPlan) : list Z :=
  replicate (length plan.(Plan.requiredResourceClaims)) (claimSize plan).

(** C33: an uninterrupted commit of a ready plan is all or nothing: the broker is asked
    for the payload on every claim; if it grants, the plan is COMMITTED, the caller is
    told so and the holdings have grown by exactly the claims; otherwise the plan is
    FAILED, the caller gets the broker's reason and no holding has changed. *)
Theorem commit_all_or_nothing s m st r :
  let id := m.(Message.planId) in
  let claims := r.(PlanRecord.plan).(Plan.requiredResourceClaims) in
  st.(Coord.plans) !! id = Some r -> r.(PlanRecord.state) = PlanState.PLAN_READY ->
  r.(PlanRecord.plan).(Plan.requestId) ∉ st.(Coord.cancelled) ->
  exists a answer st', handleCommit s m st = (Ok [(s, answer)], st') /\
    match a with
    | Granted => answer = okMessage id /\ planState id st' = PlanState.COMMITTED /\
        forall res, held st'.(Coord.broker) res =
          if bool_decide (res ∈ claims) then wrap64 (held st.(Coord.broker) res + requested claims (claimSizes r.(PlanRecord.plan)) res)
          else held st.(Coord.broker) res
    | Denied e => answer = errorMessage ("resource commit failed: " +:+ e) /\ planState id st' = PlanState.FAILED /\
        forall res, held st'.(Coord.broker) res = held st.(Coord.broker) res
    end.
Proof.
  intros id claims Hr Hst Hnc. unfold handleCommit, commitBegin. fold id. rewrite Hr, Hst. simpl.
  rewrite bool_decide_eq_false_2 by done. unfold commitAcquire. cbn [Pending.resources Pending.sizes update_state set_plans Coord.broker].
  destruct (acquire_defined st.(Coord.broker) claims (claimSizes r.(PlanRecord.plan))) as (a & b' & E);
    [unfold claimSizes; by rewrite length_replicate|].
  unfold claimSizes, claimSize in E. fold claims in E. fold claims. rewrite E. unfold commitFinish.
  cbn [Pending.planId Pending.sock set_broker Coord.plans Coord.cancelled]. unfold update_state.
  cbn [Coord.plans set_plans Coord.cancelled set_broker]. rewrite lookup_insert_eq. cbn [set_state PlanRecord.plan PlanRecord.state overtaken].
  rewrite bool_decide_eq_false_2 by done. simpl.
  destruct a as [|e]; [exists Granted|exists (Denied e)]; eexists _, _; (split; [reflexivity|]);
    unfold planState; cbn [Coord.plans set_plans set_broker Coord.broker]; rewrite lookup_insert_eq; (split_and!; [done..|]).
  - intros res. by apply acquire_granted.
  - intros res. by apply (acquire_denied _ _ _ _ _ E).
Qed.

(** C34: a commit that was overtaken leaves nothing behind: if, when the broker has
    answered, the request is cancelled or the plan was cancelled, superseded or retired,
    the plan is CANCELLED, the caller gets an error, and of the claims nothing stays
    held; a refused acquisition changes no holding. *)
Theorem overtaken_commit_leaves_no_claims p a st r :
  st.(Coord.plans) !! p.(Pending.planId) = Some r ->
  r.(PlanRecord.plan).(Plan.requestId) ∈ st.(Coord.cancelled) \/ overtaken r.(PlanRecord.state) = true ->
  exists st', commitFinish p a st = ([(p.(Pending.sock), errorMessage "cancelled during commit")], st') /\
    planState p.(Pending.planId) st' = PlanState.CANCELLED /\
    forall res, held st'.(Coord.broker) res =
      match a with
      | Granted => if bool_decide (res ∈ p.(Pending.resources)) then 0 else held st.(Coord.broker) res
      | Denied _ => held st.(Coord.broker) res
      end.
Proof.
  intros Hr Ho. unfold commitFinish. rewrite Hr.
  replace (_ || _) with true by (symmetry; apply orb_true_iff; rewrite bool_decide_eq_true; tauto).
  eexists. split; [reflexivity|]. unfold planState, update_state. cbn [Coord.plans set_plans]. rewrite lookup_insert_eq. split; [done|].
  intros res. destruct a; cbn; [|done]. apply release_held.
Qed.
End commit.

(** ** Restart *)

Section restart.
Context {B : Type} `{HB : ResourceBroker B}.
Context (weights : gmap CostFactor double) (bounds : Bounds).
Implicit Types (st : CoordState B) (w : World B).

Definition keyed (plans : gmap Z PlanRecord) : Prop := map_Forall (fun k r => r.(PlanRecord.plan).(Plan.id) = k) plans.

(** A record as it is after a restart: not executable, without an executor. *)
Definition recoveredRecord (r : PlanRecord) : PlanRecord := {|
  PlanRecord.plan := r.(PlanRecord.plan); PlanRecord.state := recoveredState r.(PlanRecord.state);
  PlanRecord.worker := 0; PlanRecord.boot := 0 |}.

Definition loadedRecord (r : StoreRecord) : PlanRecord := {|
  PlanRecord.plan := r.(StoreRecord.plan); PlanRecord.state := r.(StoreRecord.state); PlanRecord.worker := 0; PlanRecord.boot := 0 |}.

(** The loop of [loadStoreIfAny] over the stored plans. *)
Lemma loadStore_fields stored st :
  let st' := loadStore (Some stored) st in
  st'.(Coord.plans) = foldl (fun m rec => <[rec.(StoreRecord.plan).(Plan.id) := loadedRecord rec]> m) st.(Coord.plans)
    (conservativeRecovery stored).(StoreState.plans) /\
  st'.(Coord.epoch) = Generation_next stored.(StoreState.epoch) /\
  st'.(Coord.snap).(Snapshot.epoch) = Generation_next stored.(StoreState.epoch) /\
  st'.(Coord.requests) = stored.(StoreState.requests) /\ st'.(Coord.supersessions) = stored.(StoreState.supersessions) /\
  st'.(Coord.cancelled) = st.(Coord.cancelled) /\ st'.(Coord.fenced) = st.(Coord.fenced) /\ st'.(Coord.workers) = st.(Coord.workers).
Proof.
  cbn [loadStore]. cbv zeta. set (st0 := set_snap _ _). set (load := fun _ _ => _).
  assert (H : forall l st, let st' := foldl load st l in
      st'.(Coord.plans) = foldl (fun m rec => <[rec.(StoreRecord.plan).(Plan.id) := loadedRecord rec]> m) st.(Coord.plans) l /\
      st'.(Coord.epoch) = st.(Coord.epoch) /\ st'.(Coord.snap) = st.(Coord.snap) /\ st'.(Coord.cancelled) = st.(Coord.cancelled) /\
      st'.(Coord.fenced) = st.(Coord.fenced) /\ st'.(Coord.workers) = st.(Coord.workers)).
  { induction l as [|x l IH]; intros st1; cbn [foldl]; [done|]. destruct (IH (load st1 x)) as (-> & -> & -> & -> & -> & ->). done. }
  cbn [Coord.plans Coord.epoch Coord.snap Coord.cancelled Coord.fenced Coord.workers Coord.requests Coord.supersessions
    set_requests set_supersessions].
  destruct (H (conservativeRecovery stored).(StoreState.plans) st0) as (-> & -> & -> & -> & -> & ->). done.
Qed.

Lemma foldl_insert_keyed (f : StoreRecord -> PlanRecord) (m : gmap Z PlanRecord) l :
  foldl (fun m rec => <[rec.(StoreRecord.plan).(Plan.id) := f rec]> m) m l =
  list_to_map (reverse ((fun rec => (rec.(StoreRecord.plan).(Plan.id), f rec)) <$> l)) ∪ m.
Proof.
  revert m; induction l as [|x l IH]; intros m; csimpl; [by rewrite (left_id_L ∅ (∪))|].
  rewrite IH, reverse_cons, list_to_map_app. rewrite <- (assoc_L (∪)). f_equal. csimpl. by rewrite insert_empty, insert_union_singleton_l.
Qed.

Lemma plansInOrder_perm (plans : gmap Z PlanRecord) : plansInOrder plans ≡ₚ (map_to_list plans).*2.
Proof. unfold plansInOrder. by rewrite stable_sort_perm. Qed.

Lemma keyed_reload (plans : gmap Z PlanRecord) :
  keyed plans ->
  foldl (fun m rec => <[rec.(StoreRecord.plan).(Plan.id) := loadedRecord rec]> m) ∅
    ((fun rec => {| StoreRecord.plan := rec.(StoreRecord.plan); StoreRecord.state := recoveredState rec.(StoreRecord.state) |}) <$>
     ((fun r => {| StoreRecord.plan := r.(PlanRecord.plan); StoreRecord.state := r.(PlanRecord.state) |}) <$> plansInOrder plans)) =
  recoveredRecord <$> plans.
Proof.
  intros Hk. rewrite foldl_insert_keyed, (right_id_L ∅ (∪)), <- !list_fmap_compose.
  set (g := fun r : PlanRecord => (r.(PlanRecord.plan).(Plan.id), recoveredRecord r)).
  change (list_to_map (reverse (g <$> plansInOrder plans)) = recoveredRecord <$> plans :> gmap Z PlanRecord).
  assert (Hp : reverse (g <$> plansInOrder plans) ≡ₚ map_to_list (recoveredRecord <$> plans)).
  { rewrite reverse_Permutation, plansInOrder_perm, map_to_list_fmap.
    assert (Hl : Forall (fun kr : Z * PlanRecord => kr.2.(PlanRecord.plan).(Plan.id) = kr.1) (map_to_list plans)).
    { apply Forall_forall. intros [k r] Hkr%elem_of_map_to_list. exact (Hk k r Hkr). }
    induction Hl as [|[k r] l Hx Hl IH]; [done|]. csimpl. simpl in Hx. unfold g at 1. rewrite Hx. by apply perm_skip. }
  rewrite <- (list_to_map_to_list (recoveredRecord <$> plans)). apply list_to_map_proper; [|done].
  rewrite Hp. apply NoDup_fst_map_to_list.
Qed.

Lemma step_keyed ev w out w' :
  step weights bounds ev w = Some (out, w') -> keyed w.(World.coord).(Coord.plans) -> keyed w'.(World.coord).(Coord.plans).
Proof.
  intros H Hk id r Hr. pose proof (step_moves_plans _ _ _ _ _ _ id H) as Hm. rewrite Hr in Hm.
  inversion Hm; subst; simpl; try done; try (by apply Hk); by eapply Hk.
Qed.

Lemma start_keyed file (b : B) : keyed (start file b).(World.coord).(Coord.plans).
Proof.
  cbn [start World.coord]. unfold loadStoreIfAny. destruct (parsedFile file) as [stored|]; [|done]. destruct (loadStore_fields stored (initialCoordinator b)) as [-> _].
  cbn [Coord.plans initialCoordinator]. generalize (conservativeRecovery stored).(StoreState.plans). intros l.
  assert (H : forall m, keyed m -> keyed (foldl (fun m rec => <[rec.(StoreRecord.plan).(Plan.id) := loadedRecord rec]> m) m l)).
  { induction l as [|x l IH]; intros m Hm; [done|]. cbn [foldl]. apply IH. by apply map_Forall_insert_2. }
  apply H. done.
Qed.

Lemma reachable_keyed file (b : B) w : reachable weights bounds (start file b) w -> keyed w.(World.coord).(Coord.plans).
Proof. induction 1 as [|w ev out w' _ IH Hs]; [apply start_keyed|by eapply step_keyed]. Qed.

(** What is in the file is what [serializeStore] wrote. *)
Lemma parsedFile_serialize stored : parsedFile (Some (serializeStore stored)) =
  match parseStore (serializeStore stored) with inl _ => None | inr stored' => Some stored' end.
Proof. unfold parsedFile. destruct (serializeStore stored) as [|x l] eqn:E; [|done]. by apply (f_equal length) in E. Qed.

(** C36: a restart recovers the history conservatively: a server started on the file that
    a server saved, whose history fits the format and is consistent, has the same plans,
    supersessions and, as far as the format keeps them, requests, in a newer epoch, and no
    recovered plan is ready, committed, awaiting execution or active: those have to be
    revalidated, and none has an executor.  Cancellations and fenced boots are not part of
    the store: the new server has none. *)
Theorem restart_recovers_conservatively file (b b' : B) w :
  reachable weights bounds (start file b) w ->
  let old := w.(World.coord) in
  store_fits (storeOf old) -> consistent_store (storeOf old) ->
  let new := (start (saveStore old).(Coord.store) b').(World.coord) in
  new.(Coord.plans) = recoveredRecord <$> old.(Coord.plans) /\
  map_Forall (fun _ r => needs_evidence r.(PlanRecord.state) = false /\ r.(PlanRecord.state) <> PlanState.PLAN_READY /\
                         r.(PlanRecord.state) <> PlanState.AWAITING_RESOURCE_COMMIT) new.(Coord.plans) /\
  new.(Coord.requests) = persistedRequest <$> old.(Coord.requests) /\ new.(Coord.supersessions) = old.(Coord.supersessions) /\
  new.(Coord.epoch) = Generation_next old.(Coord.epoch) /\ new.(Coord.snap).(Snapshot.epoch) = new.(Coord.epoch) /\
  new.(Coord.cancelled) = ∅ /\ new.(Coord.fenced) = ∅ /\ new.(Coord.workers) = ∅.
Proof.
  intros Hw old Hfit Hcons new.
  assert (Hparsed : parsedFile (saveStore old).(Coord.store) = Some (persistedStore (storeOf old))).
  { cbn [saveStore set_store Coord.store]. apply validateStore_consistent in Hcons.
    by rewrite parsedFile_serialize, parseStore_serialize, bool_decide_eq_true_2. }
  destruct (loadStore_fields (persistedStore (storeOf old)) (initialCoordinator b')) as (Hp & He & Hs & Hr & Hsu & Hc & Hf & Hwk).
  unfold new. cbn [start World.coord]. unfold loadStoreIfAny. rewrite Hparsed, Hp, He, Hs, Hr, Hsu, Hc, Hf, Hwk.
  cbn [conservativeRecovery persistedStore storeOf StoreState.plans Coord.plans initialCoordinator].
  rewrite keyed_reload by (by eapply reachable_keyed).
  split_and!; try done. intros k r Hk. clear -Hk. rewrite lookup_fmap in Hk. destruct (_ !! k) as [r0|]; [|done]. simplify_eq/=.
  by destruct (PlanRecord.state r0).
Qed.

(** A plan without staging claims cannot be recovered once it is committed: the
    validation demands recorded claims of every committed, awaiting or active plan, but a
    plan over a direct path has none to record, so a server started on the file that holds
    it passes over the file and starts with no history at all. *)
Theorem unclaimed_plan_loses_history st (b' : B) id r :
  store_fits (storeOf st) -> st.(Coord.plans) !! id = Some r -> needs_evidence r.(PlanRecord.state) = true ->
  r.(PlanRecord.plan).(Plan.requiredResourceClaims) = [] ->
  (start (saveStore st).(Coord.store) b').(World.coord) = initialCoordinator b'.
Proof.
  intros Hfit Hr Hn Hc. cbn [start World.coord saveStore set_store Coord.store]. unfold loadStoreIfAny.
  rewrite parsedFile_serialize, parseStore_serialize by done. rewrite bool_decide_eq_false_2; [done|].
  assert (Hin : r ∈ plansInOrder st.(Coord.plans)).
  { rewrite plansInOrder_perm. apply list_elem_of_fmap. exists (id, r). split; [done|]. by apply elem_of_map_to_list. }
  destruct (list_elem_of_split _ _ Hin) as (l1 & l2 & E). unfold storeOf. rewrite E, fmap_app, fmap_cons.
  apply (unclaimed_record_unreadable _ _ _ _ _ r.(PlanRecord.plan) r.(PlanRecord.state)); done.
Qed.
End restart.

(** ** Identities *)

Section identities.
Context {B : Type} `{HB : ResourceBroker B}.
Context (weights : gmap CostFactor double) (bounds : Bounds).
Implicit Types (st : CoordState B) (w : World B).

(** Only a submission uses the counters, and only for its planning. *)
Lemma step_counters ev w out w' :
  step weights bounds ev w = Some (out, w') ->
  w'.(World.coord).(Coord.counters) = w.(World.coord).(Coord.counters) \/
  exists s m po, ev = Receive s m /\
    returns (planCommunication m.(Message.request) w.(World.coord).(Coord.snap) weights bounds) w.(World.coord).(Coord.counters)
      po w'.(World.coord).(Coord.counters).
Proof.
  intros H. destruct ev as [s|s m|s|s|s|s|s d|]; simpl in H.
  - case_bool_decide; simplify_eq; by left.
  - destruct (idle s w); [simpl in H|done].
    destruct (decide (m.(Message.type) = MessageType.COMMIT_REQUEST)) as [Ht|Ht].
    + rewrite Ht in H. unfold commitBegin in H. repeat case_match; simplify_eq; by left.
    + destruct (handleMessage weights bounds s m (World.coord w)) as [[o|e] st'] eqn:E; [|by destruct (Message.type m)].
      assert (st' = World.coord w') as -> by (by destruct (Message.type m); simplify_eq/=).
      destruct (plan_message (Message.type m)) eqn:Hp; [|left; by apply other_messages_keep_plans in E as [_ ->]].
      unfold handleMessage in E. destruct (Message.type m); try discriminate Hp; try done.
      * unfold handleSubmit in E. destruct (isNull _); [injection E as _ <-; by left|].
        case_bool_decide; [injection E as _ <-; by left|]. cbv zeta in E. cbn [Coord.snap Coord.counters set_requests] in E.
        destruct (planCommunication _ _ _ _ _) as [[po|e] cs] eqn:Ep; [|done]. right. exists s, m, po. split; [done|].
        unfold returns. rewrite Ep.
        destruct (PlanOutcome.success po), (PlanOutcome.plan po) as [plan|]; try (injection E as _ <-; done).
        destruct (executorOf plan _). injection E as _ <-. done.
      * unfold handleRevalidate, reply, update_state in E. repeat case_match; injection E as _ <-; by left.
      * unfold handleSupersede in E. injection E as _ <-. left. repeat case_match; done.
      * unfold handleCancel in E. injection E as _ <-. left. repeat case_match; done.
      * unfold handleHandoff, reply, update_state in E. repeat case_match; injection E as _ <-; by left.
      * unfold handleResult, sendError, reply, update_state in E. repeat case_match; injection E as _ <-; by left.
  - destruct (_ !! s) as [[p [a|]]|]; [done| |done]. unfold commitAcquire in H.
    destruct (acquire _ _ _) as [[a|e] b]; simplify_eq; by left.
  - destruct (_ !! s) as [[p [a|]]|]; [|done..]. unfold commitFinish in H. repeat case_match; simplify_eq; by left.
  - destruct (idle s w); [|done]. simplify_eq/=. left. unfold disconnectSocket, fenceWorker. repeat case_match; done.
  - destruct (idle s w && _); simplify_eq; by left.
  - destruct (idle s w); simplify_eq; by left.
  - simplify_eq. by left.
Qed.

Lemma submission_counters s m po cs w out w' :
  m.(Message.type) = MessageType.SUBMIT_REQUEST -> m.(Message.request).(Request.id) <> 0 ->
  m.(Message.request).(Request.id) ∉ w.(World.coord).(Coord.cancelled) ->
  returns (planCommunication m.(Message.request) w.(World.coord).(Coord.snap) weights bounds) w.(World.coord).(Coord.counters) po cs ->
  step weights bounds (Receive s m) w = Some (out, w') -> w'.(World.coord).(Coord.counters) = cs.
Proof.
  intros Ht Hn Hc Hr H. simpl in H. destruct (idle s w); [simpl in H|done]. rewrite Ht in H. unfold handleMessage in H.
  rewrite Ht in H. unfold handleSubmit in H. assert (Hn0 : isNull m.(Message.request).(Request.id) = false) by (by apply Z.eqb_neq).
  rewrite Hn0, bool_decide_eq_false_2 in H by done. cbv zeta in H. cbn [Coord.snap Coord.counters set_requests] in H.
  unfold returns in Hr. rewrite Hr in H.
  destruct (PlanOutcome.success po), (PlanOutcome.plan po) as [plan|]; try (injection H as _ <-; done).
  destruct (executorOf plan _). injection H as _ <-. done.
Qed.

(** Every plan identity in use is below the counter, which has moved at most once per step. *)
Definition ids_below (n : nat) w : Prop :=
  counters_wf w.(World.coord).(Coord.counters) /\ w.(World.coord).(Coord.counters).(Counters.plan) <= 1 + Z.of_nat n /\
  map_Forall (fun id _ => id < w.(World.coord).(Coord.counters).(Counters.plan)) w.(World.coord).(Coord.plans).

Lemma step_ids_below n ev w out w' :
  1 + Z.of_nat n < u64_max -> step weights bounds ev w = Some (out, w') -> ids_below n w -> ids_below (S n) w'.
Proof.
  intros Hn H (Hwf & Hc & Hids).
  assert (Hwrap : wrap64 (w.(World.coord).(Coord.counters).(Counters.plan) + 1) = w.(World.coord).(Coord.counters).(Counters.plan) + 1).
  { apply wrap64_small. destruct Hwf as (_ & Hu & _). unfold is_u64 in *. lia. }
  assert (Hstep : counters_wf w'.(World.coord).(Coord.counters) /\
    w.(World.coord).(Coord.counters).(Counters.plan) <= w'.(World.coord).(Coord.counters).(Counters.plan)
      <= w.(World.coord).(Coord.counters).(Counters.plan) + 1).
  { destruct (step_counters _ _ _ _ H) as [->|(s & m & po & -> & Hr)]; [split; [done|lia]|].
    destruct (planCommunication_counters _ _ _ _ _ _ _ Hwf Hr) as [Hwf' [[_ ->]|(plan & _ & _ & ->)]]; (split; [done|lia]). }
  destruct Hstep as [Hwf' Hc']. split_and!; [done|lia|]. intros id r Hr.
  pose proof (step_moves_plans _ _ _ _ _ _ id H) as Hm. rewrite Hr in Hm.
  assert (Hold : forall r0, w.(World.coord).(Coord.plans) !! id = Some r0 -> id < w'.(World.coord).(Coord.counters).(Counters.plan)).
  { intros r0 Hr0. specialize (Hids id r0 Hr0). simpl in Hids. lia. }
  inversion Hm as [|s m r0 plan cs po Ht Hnn Hnc Hret _ Hplan Hid| | | | | | | | | |]; eauto. subst ev.
  destruct (planCommunication_counters _ _ _ _ _ _ _ Hwf Hret) as [_ [[Hnone _]|(plan' & Hplan' & Hid' & Hcs)]]; [congruence|].
  rewrite Hplan in Hplan'. injection Hplan' as <-. rewrite (submission_counters _ _ _ _ _ _ _ Ht Hnn Hnc Hret H), Hcs. lia.
Qed.

Lemma run_ids_below n evs w w' :
  1 + Z.of_nat (n + length evs) < u64_max -> run weights bounds evs w = Some w' -> ids_below n w -> ids_below (n + length evs) w'.
Proof.
  revert n w; induction evs as [|ev evs IH]; intros n w Hn Hr Hb; cbn [run length] in *.
  - injection Hr as <-. by rewrite Nat.add_0_r.
  - destruct (step weights bounds ev w) as [[out w1]|] eqn:E; [|done]. rewrite <- Nat.add_succ_comm in *.
    eapply IH; [lia|exact Hr|]. eapply step_ids_below; [lia|done|done].
Qed.

Lemma start_ids_below (b : B) : ids_below 0 (start None b).
Proof. split_and!; [apply initialCounters_wf|cbn; lia|apply map_Forall_empty]. Qed.

(** On a server without recovered history no plan is lost to a reused identity: in
    the first 2^64 - 3 steps every plan that a submission offers is stored under an
    identity no other plan has. *)
Theorem plan_ids_are_fresh (b : B) evs w s m out w' x :
  run weights bounds evs (start None b) = Some w -> 2 + Z.of_nat (length evs) < 2 ^ 64 ->
  m.(Message.type) = MessageType.SUBMIT_REQUEST -> step weights bounds (Receive s m) w = Some (out, w') ->
  (s, x) ∈ out -> x.(Message.ok) = true -> x.(Message.plan).(Plan.candidatePaths) <> [] ->
  w.(World.coord).(Coord.plans) !! x.(Message.plan).(Plan.id) = None /\
  exists r, w'.(World.coord).(Coord.plans) = <[x.(Message.plan).(Plan.id) := r]> w.(World.coord).(Coord.plans) /\
    r.(PlanRecord.plan) = x.(Message.plan).
Proof.
  intros Hrun Hlen Ht H Hin Hok Hne.
  destruct (run_ids_below 0 evs _ _ ltac:(unfold u64_max; simpl; lia) Hrun (start_ids_below b)) as (Hwf & _ & Hids).
  simpl in H. destruct (idle s w); [simpl in H|done]. rewrite Ht in H. unfold handleMessage in H. rewrite Ht in H.
  destruct (handleSubmit _ _ _ _ _) as [[o|e] st'] eqn:E; [|done]. injection H as -> <-. cbn [World.coord with_coord].
  destruct (handleSubmit_accepted _ _ _ _ _ _ _ _ E Hin Hok Hne) as (po & cs & Hr & _ & Hp & _ & _ & Eplans & _).
  split; [|eexists; split; [exact Eplans|done]].
  destruct (planCommunication_counters _ _ _ _ _ _ _ Hwf Hr) as [_ [[Hnone _]|(plan & Hplan & Hid & _)]]; [congruence|].
  rewrite Hp in Hplan. injection Hplan as <-. apply eq_None_not_Some. intros [r Hr']. specialize (Hids _ _ Hr'). simpl in Hids. lia.
Qed.
End identities.

(** ** The demonstration scenario *)

Definition session (links : list Link) (evs : list event) : list event :=
  publishing links ++ Receive 2 (submitRequest basicRequest) :: evs.

Definition demoLinks : list Link := [directLink; upLink; downLink].

(** A run and what it ends in, kept apart so that a proof can name the world. *)
Definition demoHolds (evs : list event) (P : World MemoryResourceBroker -> bool) : bool :=
  match demoRun evs with Some w => P w | None => false end.

Lemma demoHolds_run evs P : demoHolds evs P = true -> exists w, demoRun evs = Some w /\ P w = true.
Proof. unfold demoHolds. destruct (demoRun evs) as [w|]; [eauto|done]. Qed.


Lemma execution_guarded_witness :
  exists w w' out r r', demoRun (session demoLinks []) = Some w /\
    step ∅ basicBounds (Receive 2 (executionHandoff 1)) w = Some (out, w') /\
    w.(World.coord).(Coord.plans) !! 1 = Some r /\ w'.(World.coord).(Coord.plans) !! 1 = Some r' /\
    r'.(PlanRecord.state) = PlanState.ACTIVE /\
    (w.(World.coord).(Coord.plans) !! 1 = Some r' \/ current_plan r.(PlanRecord.plan) w.(World.coord).(Coord.snap)).
Proof.
  destruct (demoHolds_run (session demoLinks []) (fun w =>
    match step ∅ basicBounds (Receive 2 (executionHandoff 1)) w, w.(World.coord).(Coord.plans) !! 1 with
    | Some (_, w'), Some _ => bool_decide (PlanRecord.state <$> w'.(World.coord).(Coord.plans) !! 1 = Some PlanState.ACTIVE)
    | _, _ => false end)) as (w & E & Hw); [vm_compute; reflexivity|].
  destruct (step ∅ basicBounds (Receive 2 (executionHandoff 1)) w) as [[out w']|] eqn:Es; [|discriminate Hw].
  destruct (w.(World.coord).(Coord.plans) !! 1) as [r|] eqn:Er; [|discriminate Hw].
  destruct (w'.(World.coord).(Coord.plans) !! 1) as [r'|] eqn:Er'; [|discriminate Hw].
  apply bool_decide_eq_true in Hw. injection Hw as Hs.
  exists w, w', out, r, r'. split; [exact E|]. split; [exact Es|]. split; [exact Er|]. split; [exact Er'|]. split; [exact Hs|].
  destruct (proj1 (execution_guarded ∅ basicBounds _ w out w' Es) 1 r' Er' Hs) as [H|(s & m & r0 & _ & _ & _ & Hr0 & _ & Hc)].
  - left. exact H.
  - right. rewrite Er in Hr0. injection Hr0 as ->. exact Hc.
Defined.

Lemma staged_plans_never_run_witness :
  exists w r, demoRun (session [upLink; downLink] [Receive 2 (commitPlan 1); Acquire 2; Finish 2; Receive 2 (revalidate 1)]) = Some w /\
    w.(World.coord).(Coord.plans) !! 1 = Some r /\ running r.(PlanRecord.state) = false.
Proof.
  destruct (demoHolds_run (session [upLink; downLink] [Receive 2 (commitPlan 1); Acquire 2; Finish 2; Receive 2 (revalidate 1)])
    (fun w => match w.(World.coord).(Coord.plans) !! 1 with
              | Some r => negb (bool_decide (r.(PlanRecord.plan).(Plan.requiredStagingResources) = [])) | None => false end))
    as (w & E & Hw); [vm_compute; reflexivity|].
  destruct (w.(World.coord).(Coord.plans) !! 1) as [r|] eqn:Er; [|discriminate Hw].
  exists w, r. split; [exact E|]. split; [exact Er|].
  apply (staged_plans_never_run ∅ basicBounds demoBroker w 1 r (demoRun_reachable _ _ E) Er).
  intros Hn. rewrite Hn in Hw. discriminate Hw.
Defined.

(** The single answer of a step on socket 2. *)
Definition answered (x : option (list (Z * Message) * World MemoryResourceBroker)) : option Message :=
  match x with Some ([(2, m)], _) => Some m | _ => None end.

Definition demoSubmitted (m : Message) : bool :=
  m.(Message.ok) && negb (bool_decide (m.(Message.plan).(Plan.candidatePaths) = [])) &&
  bool_decide (m.(Message.plan).(Plan.requiredStagingResources) = []).

Lemma demo_submission :
  exists w out w' x, demoRun (publishing demoLinks) = Some w /\
    step ∅ basicBounds (Receive 2 (submitRequest basicRequest)) w = Some (out, w') /\ (2, x) ∈ out /\
    x.(Message.ok) = true /\ x.(Message.plan).(Plan.candidatePaths) <> [] /\ x.(Message.plan).(Plan.requiredStagingResources) = [].
Proof.
  destruct (demoHolds_run (publishing demoLinks) (fun w =>
    match answered (step ∅ basicBounds (Receive 2 (submitRequest basicRequest)) w) with Some m => demoSubmitted m | None => false end))
    as (w & E & Hw); [vm_compute; reflexivity|].
  destruct (step ∅ basicBounds (Receive 2 (submitRequest basicRequest)) w) as [[out w']|] eqn:Es; [|discriminate Hw].
  destruct out as [|[t x] [|? ?]]; [discriminate Hw| |destruct t as [|[|[]|]|]; discriminate Hw].
  destruct t as [|[|[| |]|]|]; try discriminate Hw. cbn [answered] in Hw. unfold demoSubmitted in Hw.
  apply andb_true_iff in Hw as [[Hok Hne]%andb_true_iff Hst]. exists w, [(2, x)], w', x.
  apply negb_true_iff, bool_decide_eq_false in Hne. apply bool_decide_eq_true in Hst.
  split; [exact E|]. split; [exact Es|]. split; [apply list_elem_of_singleton; reflexivity|]. split; [exact Hok|]. split; [exact Hne|exact Hst].
Qed.

Lemma submitted_plan_executes_witness :
  exists w' x r i, demoRun (session demoLinks []) = Some w' /\ w'.(World.coord).(Coord.plans) !! x.(Message.plan).(Plan.id) = Some r /\
    w'.(World.coord).(Coord.workers) !! r.(PlanRecord.worker) = Some i /\ i.(WorkerInfo.alive) = true /\
    (executeMessage r).(Message.bytes) = 4096.
Proof.
  destruct demo_submission as (w & out & w' & x & E & Es & Hin & Hok & Hne & Hst).
  destruct (submitted_plan_executes ∅ basicBounds None demoBroker w 2 (submitRequest basicRequest) out w' x (demoRun_reachable _ _ E)
    eq_refl Es Hin Hok Hne Hst) as (r & i & Hr & _ & _ & Hi & Hal & _ & Hb & _).
  exists w', x, r, i. split; [|split; [exact Hr|split; [exact Hi|split; [exact Hal|exact Hb]]]].
  unfold demoRun, session. unfold demoRun in E. rewrite run_app, E. cbn [run]. rewrite Es. reflexivity.
Defined.

Lemma plan_ids_are_fresh_witness :
  exists w x, demoRun (publishing demoLinks) = Some w /\ w.(World.coord).(Coord.plans) !! x.(Message.plan).(Plan.id) = None.
Proof.
  destruct demo_submission as (w & out & w' & x & E & Es & Hin & Hok & Hne & _). exists w, x. split; [exact E|].
  apply (plan_ids_are_fresh ∅ basicBounds demoBroker (publishing demoLinks) w 2 (submitRequest basicRequest) out w' x E
    eq_refl eq_refl Es Hin Hok Hne).
Defined.

Lemma commit_all_or_nothing_witness :
  exists w r a answer st', demoRun (session [upLink; downLink] []) = Some w /\
    w.(World.coord).(Coord.plans) !! 1 = Some r /\ handleCommit 2 (commitPlan 1) w.(World.coord) = (Ok [(2, answer)], st') /\
    match a with Granted => held st'.(Coord.broker) 25 = 4096 | Denied _ => held st'.(Coord.broker) 25 = 0 end.
Proof.
  destruct (demoHolds_run (session [upLink; downLink] []) (fun w => match w.(World.coord).(Coord.plans) !! 1 with
    | Some r => bool_decide (r.(PlanRecord.state) = PlanState.PLAN_READY) && bool_decide (r.(PlanRecord.plan).(Plan.requiredResourceClaims) = [25]) &&
        bool_decide (claimSize r.(PlanRecord.plan) = 4096) && bool_decide (held w.(World.coord).(Coord.broker) 25 = 0) &&
        bool_decide (w.(World.coord).(Coord.cancelled) = ∅)
    | None => false end)) as (w & E & Hw); [vm_compute; reflexivity|].
  destruct (w.(World.coord).(Coord.plans) !! 1) as [r|] eqn:Er; [|discriminate Hw].
  apply andb_true_iff in Hw as [Hw Hcan%bool_decide_eq_true]. apply andb_true_iff in Hw as [Hw Hheld%bool_decide_eq_true].
  apply andb_true_iff in Hw as [Hw Hsize%bool_decide_eq_true]. apply andb_true_iff in Hw as [Hw%bool_decide_eq_true Hcl%bool_decide_eq_true].
  assert (Hnc : r.(PlanRecord.plan).(Plan.requestId) ∉ w.(World.coord).(Coord.cancelled)) by (rewrite Hcan; apply not_elem_of_empty).
  destruct (commit_all_or_nothing 2 (commitPlan 1) w.(World.coord) r Er Hw Hnc) as (a & answer & st' & Hc & Ha).
  exists w, r, a, answer, st'. split; [exact E|]. split; [exact Er|]. split; [exact Hc|].
  unfold claimSizes in Ha. rewrite Hcl, Hsize in Ha. destruct a; destruct Ha as (_ & _ & Ha); rewrite (Ha 25), Hheld; reflexivity.
Defined.

Lemma overtaken_commit_leaves_no_claims_witness :
  exists w p r st', demoRun (session [upLink; downLink] [Receive 2 (commitPlan 1); Acquire 2; Accept 3; Receive 3 (cancel 5 1)]) = Some w /\
    w.(World.commits) !! 2 = Some (p, Some Granted) /\ w.(World.coord).(Coord.plans) !! p.(Pending.planId) = Some r /\
    commitFinish p Granted w.(World.coord) = ([(p.(Pending.sock), errorMessage "cancelled during commit")], st').
Proof.
  destruct (demoHolds_run (session [upLink; downLink] [Receive 2 (commitPlan 1); Acquire 2; Accept 3; Receive 3 (cancel 5 1)])
    (fun w => match w.(World.commits) !! 2 with
    | Some (p, Some Granted) => match w.(World.coord).(Coord.plans) !! p.(Pending.planId) with
       | Some r => bool_decide (r.(PlanRecord.plan).(Plan.requestId) ∈ w.(World.coord).(Coord.cancelled)) | None => false end
    | _ => false end)) as (w & E & Hw); [vm_compute; reflexivity|].
  destruct (w.(World.commits) !! 2) as [[p [[|e]|]]|] eqn:Ep; try discriminate Hw.
  destruct (w.(World.coord).(Coord.plans) !! p.(Pending.planId)) as [r|] eqn:Er; [|discriminate Hw].
  apply bool_decide_eq_true in Hw.
  destruct (overtaken_commit_leaves_no_claims p Granted w.(World.coord) r Er (or_introl Hw)) as (st' & Hc & _).
  exists w, p, r, st'. split; [exact E|]. split; [exact Ep|]. split; [exact Er|exact Hc].
Defined.

Lemma restart_recovers_conservatively_witness :
  exists w, demoRun (session demoLinks []) = Some w /\
    (start (saveStore w.(World.coord)).(Coord.store) demoBroker).(World.coord).(Coord.plans) = recoveredRecord <$> w.(World.coord).(Coord.plans).
Proof.
  destruct (demoHolds_run (session demoLinks []) (fun w => bool_decide (store_fits (storeOf w.(World.coord))) &&
      bool_decide ((validateStore (storeOf w.(World.coord))).(PersistError.code) = PersistErrorCode.OK)))
    as (w & E & Hw); [vm_compute; reflexivity|].
  apply andb_true_iff in Hw as [Hfit%bool_decide_eq_true Hv%bool_decide_eq_true].
  exists w. split; [exact E|].
  apply (restart_recovers_conservatively ∅ basicBounds None demoBroker demoBroker w (demoRun_reachable _ _ E) Hfit),
    validateStore_consistent, Hv.
Defined.

Lemma unclaimed_plan_loses_history_witness :
  exists w, demoRun (session demoLinks [Receive 2 (executionHandoff 1)]) = Some w /\ planState 1 w.(World.coord) = PlanState.ACTIVE /\
    (start (saveStore w.(World.coord)).(Coord.store) demoBroker).(World.coord) = initialCoordinator demoBroker.
Proof.
  destruct (demoHolds_run (session demoLinks [Receive 2 (executionHandoff 1)]) (fun w => bool_decide (store_fits (storeOf w.(World.coord))) &&
      match w.(World.coord).(Coord.plans) !! 1 with
      | Some r => bool_decide (r.(PlanRecord.state) = PlanState.ACTIVE) && bool_decide (r.(PlanRecord.plan).(Plan.requiredResourceClaims) = [])
      | None => false
      end)) as (w & E & Hw); [vm_compute; reflexivity|].
  apply andb_true_iff in Hw as [Hfit%bool_decide_eq_true Hw]. destruct (_ !! 1) as [r|] eqn:Er; [|discriminate Hw].
  apply andb_true_iff in Hw as [Hs%bool_decide_eq_true Hc%bool_decide_eq_true].
  exists w. split; [exact E|]. split; [unfold planState; rewrite Er; exact Hs|].
  apply (unclaimed_plan_loses_history w.(World.coord) demoBroker 1 r Hfit Er); [rewrite Hs; reflexivity|exact Hc].
Defined.

(** ** Where the server departs from its documentation *)

(** The server does not apply the lifecycle table: a handover revives plans that are
    finished.  A cancelled plan, a completed one and a superseded one all become ACTIVE
    again, although the table allows none of these transitions. *)
Theorem finished_plans_revived :
  (fun evs => demoPlanState 1 (session demoLinks evs)) <$>
    [[Receive 2 (cancel 5 1)]; [Receive 2 (cancel 5 1); Receive 2 (executionHandoff 1)];
     [Receive 2 (executionHandoff 1); Receive 2 (executionResult 1 true)];
     [Receive 2 (executionHandoff 1); Receive 2 (executionResult 1 true); Receive 2 (executionHandoff 1)];
     [Receive 2 (supersede 5 1)]; [Receive 2 (supersede 5 1); Receive 2 (executionHandoff 1)]]
  = Some <$> [PlanState.CANCELLED; PlanState.ACTIVE; PlanState.COMPLETED; PlanState.ACTIVE; PlanState.SUPERSEDED; PlanState.ACTIVE] /\
  forall s, s ∈ [PlanState.CANCELLED; PlanState.COMPLETED; PlanState.SUPERSEDED] -> canTransition s PlanState.ACTIVE = false.
Proof.
  split; [vm_compute; reflexivity|]. intros s Hs. rewrite !elem_of_cons, elem_of_nil in Hs.
  destruct Hs as [->|[->|[->|[]]]]; reflexivity.
Qed.

(** The plan counter restarts with the server: after a restart from a store that
    holds plan 1 of request 5, the first plan made, for request 6, is plan 1 again and
    replaces the recovered one. *)
Theorem recovered_plan_overwritten :
  exists w0 w, demoRun (session demoLinks []) = Some w0 /\
    (fun r => (r.(PlanRecord.plan).(Plan.id), r.(PlanRecord.plan).(Plan.requestId))) <$> plansInOrder w0.(World.coord).(Coord.plans) = [(1, 5)] /\
    run ∅ basicBounds (publishing demoLinks ++ [Receive 2 (submitRequest (mkRequest 6 10 11 4096 RequestShape.POINT_TO_POINT ∅))])
      (start (saveStore w0.(World.coord)).(Coord.store) demoBroker) = Some w /\
    (fun r => (r.(PlanRecord.plan).(Plan.id), r.(PlanRecord.plan).(Plan.requestId))) <$> plansInOrder w.(World.coord).(Coord.plans) = [(1, 6)].
Proof.
  destruct (demoRun (session demoLinks [])) as [w0|] eqn:E0; [|vm_compute in E0; discriminate E0].
  exists w0. eexists. split; [reflexivity|]. split; [vm_compute in E0; injection E0 as <-; vm_compute; reflexivity|].
  split; [vm_compute in E0; injection E0 as <-; vm_compute; reflexivity|vm_compute; reflexivity].
Qed.

(** A connection is remembered by worker, not by boot: if a worker registered again
    over a new connection with a new boot, the end of its old connection fences the new
    boot, whose connection stays open. *)
Theorem old_connection_fences_new_boot :
  demoHolds (publishing demoLinks ++ [Accept 3; Receive 3 (registerWorker 10 8 "w"); Disconnect 1])
    (fun w => bool_decide ((10, 8) ∈ w.(World.coord).(Coord.fenced)) && bool_decide ((10, 7) ∉ w.(World.coord).(Coord.fenced)) &&
              bool_decide (3 ∈ w.(World.connections)) &&
              bool_decide (w.(World.coord).(Coord.snap).(Snapshot.workerBoots) !! 10 = None)) = true.
Proof. vm_compute. reflexivity. Qed.
