(* ===== verification/Connection.v ===== *)
(** * Connections

    Composes the transport, the frames and the messages with the server: the loop body of
    [handleConnection] turns what it receives into a step of the server ([connectionEvent]),
    and [CoordinatorClient::Impl::send] exchanges a message for its reply ([clientSend]),
    both in src/coordinator.cpp. *)

From S2P Require Import Prelude Core Enums Double Model Scenario Feasibility Ranking Cost Enumerate Assembly.
From S2P Require Import PointToPoint Multicast Collective Planner Determinism Revalidation Broker Message Client Codec.
From S2P Require Import Framing Transport Protocol Remote Store Persistence Coordinator Machine Authority Service.

(** [Frame f; f.type = m.type; encodeMessage(m, pl); f.payload = pl;]. *)
Definition frameOf (m : Message) : Frame := {| Frame.type := m.(Message.type); Frame.payload := encodeMessage m |}.

(** What the thread of socket [s] does with the outcome of [recvFrame]. *)
Definition connectionEvent (s : Z) (received : string + Frame) : event :=
  match received with
  | inl _ => Disconnect s
  | inr f =>
      match decodeMessage f.(Frame.type) f.(Frame.payload) with
      | inl detail => Undecodable s detail
      | inr m => Receive s m
      end
  end.

Section connection.
Context {Sock : Type} `{HS : Socket Sock}.

(** [recvFrame] and [decodeMessage], as the client does for every reply. *)
Definition receiveReply (c : Sock) : option Message * Sock :=
  match recvFrame c with
  | (inl _, c') => (None, c')
  | (inr f, c') => (match decodeMessage f.(Frame.type) f.(Frame.payload) with inl _ => None | inr m => Some m end, c')
  end.

Definition clientSend (m : Message) (c : Sock) : option Message * Sock :=
  match sendFrame (frameOf m) c with
  | (inl _, c') => (None, c')
  | (inr _, c') => receiveReply c'
  end.

(** A message that passes both limits of the transport. *)
Definition deliverable (m : Message) : Prop := sendable m /\ receivable (frameOf m).

Lemma frame_decodes m : sendable m -> decodeMessage (frameOf m).(Frame.type) (frameOf m).(Frame.payload) = inr (carriedMessage m).
Proof.
  intros H. cbn [frameOf Frame.type Frame.payload]. unfold decodeMessage.
  pose proof (decodeFields_reads m H []) as Hr. rewrite app_nil_r in Hr. by rewrite Hr.
Qed.

(** C12: a call reaches the server and its answer the client: over a connection that
    delivers what was sent, however it cuts it, the server's thread takes the step
    [Receive] with the fields the message carries, and when the server sends a reply the
    client's call returns the fields the reply carries. *)
Theorem remote_call (c sv c1 : Sock) (m reply : Message) s sent rest rest' :
  deliverable m -> deliverable reply -> sendFrame (frameOf m) c = (inr (), c1) ->
  outgoing c1 = outgoing c ++ sent -> incoming sv = sent ++ rest -> incoming c1 = wireFrame (frameOf reply) ++ rest' ->
  connectionEvent s (recvFrame sv).1 = Receive s (carriedMessage m) /\ incoming (recvFrame sv).2 = rest /\
  (clientSend m c).1 = Some (carriedMessage reply) /\ incoming (clientSend m c).2 = rest'.
Proof.
  intros [Hm Hmr] [Hr Hrr] Hsend Ho Hi Hback. destruct (sendFrame_outgoing _ _ _ Hsend) as [_ Hout].
  rewrite Hout in Ho. apply app_inv_head in Ho as <-.
  destruct (recvFrame_incoming _ _ _ Hmr Hi) as (sv' & -> & Hsv). unfold clientSend, receiveReply. rewrite Hsend.
  destruct (recvFrame_incoming _ _ _ Hrr Hback) as (c' & -> & Hc). cbn [fst snd]. unfold connectionEvent. by rewrite !frame_decodes.
Qed.
End connection.

(** ** What a peer can do with bytes *)

(** The event that bytes of a peer made: a message or a frame that does not decode. *)
Definition from_bytes (ev : event) : Prop :=
  match ev with
  | Receive _ m => exists f, Forall is_u8 f.(Frame.payload) /\ decodeMessage f.(Frame.type) f.(Frame.payload) = inr m
  | _ => True
  end.

Lemma connectionEvent_from_bytes `{Socket Sock} s (sv : Sock) :
  Forall is_u8 (incoming sv) -> from_bytes (connectionEvent s (recvFrame sv).1).
Proof.
  intros Hb. destruct (recvFrame sv) as [[e|f] sv'] eqn:E; [done|]. apply recvFrame_bytes in E; [|done].
  cbn [fst connectionEvent]. destruct (decodeMessage _ _) eqn:Ed; [done|]. by exists f.
Qed.

Lemma from_bytes_sendable s m : from_bytes (Receive s m) -> sendable m.
Proof.
  intros (f & Hf & H). unfold decodeMessage in H. destruct (decodeFields _ _) as [|[m' rest]] eqn:E; [done|]. injection H as ->.
  by apply (yields_decodeFields _ _ _ _ Hf E).
Qed.

Section server.
Context {B : Type} `{HB : ResourceBroker B}.
Context (weights : gmap CostFactor double) (bounds : Bounds).
Implicit Types (st : CoordState B) (w : World B).


(** The worlds a server can get into if its messages are decoded from bytes. *)
Inductive wire_reachable (w0 : World B) : World B -> Prop :=
  | wire_start : wire_reachable w0 w0
  | wire_step w ev out w' : wire_reachable w0 w -> from_bytes ev -> step weights bounds ev w = Some (out, w') -> wire_reachable w0 w'.

Definition typed_evidence (snap : EvidenceSnapshot) : Prop :=
  Forall endpoint_sendable snap.(Snapshot.endpoints) /\ Forall link_sendable snap.(Snapshot.links).

Lemma Forall_replace_or_push {A} (key : A -> Z) (Q : A -> Prop) e l : Q e -> Forall Q l -> Forall Q (replace_or_push key e l).
Proof. intros He Hl. apply Forall_forall. intros x [->|Hx]%elem_of_replace_or_push; [done|]. rewrite Forall_forall in Hl. by apply Hl. Qed.

Lemma published_by_sendable worker boot e : is_u64 worker -> is_u64 boot -> endpoint_sendable e -> endpoint_sendable (published_by worker boot e).
Proof. unfold endpoint_sendable. cbn. rewrite !Forall_cons. naive_solver. Qed.

Lemma update_link_sendable boot cap cong l :
  is_u64 boot -> capacity_sendable cap -> congestion_sendable cong -> link_sendable l -> link_sendable (update_link boot cap cong l).
Proof. unfold link_sendable. cbn. rewrite !Forall_cons. naive_solver. Qed.

Lemma updated_links_sendable (upd : Link -> Link) ls :
  (forall l, link_sendable l -> link_sendable (upd l)) -> Forall link_sendable ls -> Forall link_sendable (upd <$> ls).
Proof. intros Hu Hl. apply Forall_fmap. eapply Forall_impl; [exact Hl|exact Hu]. Qed.

Lemma fenceWorker_typed k st : typed_evidence st.(Coord.snap) -> typed_evidence (fenceWorker k st).(Coord.snap).
Proof.
  intros [He Hl]. unfold fenceWorker. destruct (_ !! k) as [i|]; [|done]. split; cbn.
  - apply Forall_fmap. eapply Forall_impl; [exact He|]. intros e Hx. simpl. by case_bool_decide.
  - rewrite Forall_forall in Hl. apply Forall_forall. intros l [_ Hx]%list_elem_of_filter. by apply Hl.
Qed.

Lemma link_sendable_boot l : link_sendable l -> is_u64 l.(Link.workerBoot) /\ capacity_sendable l.(Link.capacityEvidence) /\ congestion_sendable l.(Link.congestion).
Proof. unfold link_sendable. rewrite !Forall_cons. naive_solver. Qed.

Lemma publish_message_typed s m st out st' :
  plan_message m.(Message.type) = false -> sendable m -> handleMessage weights bounds s m st = (Ok out, st') ->
  typed_evidence st.(Coord.snap) -> typed_evidence st'.(Coord.snap).
Proof.
  intros Ht Hm H [He Hl]. unfold handleMessage in H. unfold sendable in Hm.
  destruct (Message.type m); try discriminate Ht; try (injection H as _ <-; done).
  - unfold handleRegister in H. repeat case_match; injection H as _ <-; done.
  - destruct Hm as (Hw & Hb & Hm). unfold handlePublishEndpoint in H. destruct (currentPublisher _ _ _); injection H as _ <-; [|done].
    split; [|done]. apply Forall_replace_or_push; [by apply published_by_sendable|done].
  - destruct Hm as (Hw & Hb & Hm). unfold handlePublishLink in H. destruct (currentPublisher _ _ _); injection H as _ <-; [|done].
    split; [done|]. destruct (link_sendable_boot _ Hm) as (_ & Hc & Hg).
    apply Forall_replace_or_push; [by apply update_link_sendable|done].
  - destruct Hm as [_ Hm]. unfold handlePublishCapacity in H. destruct (stalePublisher m st); injection H as _ <-; [done|].
    split; [done|]. apply updated_links_sendable; [|done]. intros l Hx. destruct (link_sendable_boot _ Hx) as (Hb & _ & Hg).
    destruct (_ =? _); [by apply update_link_sendable|done].
  - destruct Hm as [_ Hm]. unfold handlePublishCongestion in H. destruct (stalePublisher m st); injection H as _ <-; [done|].
    split; [done|]. apply updated_links_sendable; [|done]. intros l Hx. destruct (link_sendable_boot _ Hx) as (Hb & Hc & _).
    destruct (_ =? _); [by apply update_link_sendable|done].
Qed.

Lemma handleMessage_typed s m st out st' :
  sendable m -> handleMessage weights bounds s m st = (Ok out, st') -> typed_evidence st.(Coord.snap) -> typed_evidence st'.(Coord.snap).
Proof.
  intros Hm H Hty. destruct (plan_message m.(Message.type)) eqn:Ht.
  - destruct (plan_messages_same_evidence _ _ _ _ _ _ _ Ht H) as [(Hs & _ & _) _]. by rewrite Hs.
  - by eapply publish_message_typed.
Qed.

Lemma step_typed ev w out w' :
  from_bytes ev -> step weights bounds ev w = Some (out, w') -> typed_evidence w.(World.coord).(Coord.snap) ->
  typed_evidence w'.(World.coord).(Coord.snap).
Proof.
  intros Hf H Hty. destruct ev as [s|s m|s|s|s|s|s d|]; cbn [step] in H; cbv zeta in H.
  - case_bool_decide; [done|]. by injection H as _ <-.
  - destruct (idle s w); [cbn [negb] in H|done]. apply from_bytes_sendable in Hf.
    destruct (decide (m.(Message.type) = MessageType.COMMIT_REQUEST)) as [Ht|Ht].
    + rewrite Ht in H. unfold commitBegin in H. repeat case_match; simplify_eq; done.
    + destruct (handleMessage weights bounds s m (World.coord w)) as [[o|e] st'] eqn:E; [|by destruct (Message.type m)].
      assert (st' = World.coord w') as -> by (by destruct (Message.type m); simplify_eq/=). by eapply handleMessage_typed.
  - destruct (_ !! s) as [[p [a|]]|]; [done| |done]. unfold commitAcquire in H.
    destruct (acquire _ _ _) as [[a|e] b]; [|done]. by injection H as _ <-.
  - destruct (_ !! s) as [[p [a|]]|]; [|done..]. unfold commitFinish in H. repeat case_match; simplify_eq; done.
  - destruct (idle s w); [|done]. injection H as _ <-. unfold disconnectSocket. cbn [World.coord with_coord].
    destruct (_ !! s) as [k|]; [|done]. cbn. by apply fenceWorker_typed.
  - destruct (idle s w && _); [|done]. by injection H as _ <-.
  - destruct (idle s w); [|done]. by injection H as _ <-.
  - by injection H as _ <-.
Qed.

Lemma wire_typed file (b : B) w :
  wire_reachable (start file b) w -> typed_evidence w.(World.coord).(Coord.snap).
Proof.
  induction 1 as [|w ev out w' _ IH Hf Hs]; [|by eapply step_typed].
  destruct (loadStore_same_evidence (parsedFile file) b) as (_ & _ & _ & e & Hs). cbn [start World.coord]. unfold loadStoreIfAny. rewrite Hs.
  split; constructor.
Qed.


End server.

(** ** A session over the wire *)

(** [s]'s receiving side when the peer sent [m], in segments of 64 bytes. *)
Definition arriving (m : Message) : Pipe :=
  let bytes := wireFrame (frameOf m) in {| Pipe.segments := segmented (length bytes) 64 bytes; Pipe.taken := [] |}.

(** The events a sequence of messages makes on their way over the wire. *)
Definition overWire (calls : list (Z * Message)) : list event :=
  (fun '(s, m) => connectionEvent s (recvFrame (arriving m)).1) <$> calls.

Definition demoCalls : list (Z * Message) :=
  [(1, registerWorker 10 7 "w"); (1, publishEndpointCall 10 7 gpuA); (1, publishEndpointCall 10 7 gpuB);
   (1, publishLinkCall 10 7 directLink); (2, submitRequest basicRequest); (2, executionHandoff 1)].

(** A whole session, byte by byte: the plan is made and handed over. *)
Example wire_session :
  demoPlanState 1 ([Accept 1; Accept 2] ++ overWire demoCalls) = Some PlanState.ACTIVE.
Proof. vm_compute. reflexivity. Qed.

Lemma run_wire_reachable {B} `{ResourceBroker B} weights bounds evs (w0 w w' : World B) :
  wire_reachable weights bounds w0 w -> Forall from_bytes evs -> run weights bounds evs w = Some w' -> wire_reachable weights bounds w0 w'.
Proof.
  intros Hw Hf. revert w Hw; induction Hf as [|ev evs Hev Hf IH]; simpl; intros w Hw Hr; [by simplify_eq|].
  destruct (step weights bounds ev w) as [[out w1]|] eqn:E; [|done]. eapply IH; [|exact Hr]. by eapply wire_step.
Qed.

Lemma demoCalls_bytes : Forall (fun c => Forall is_u8 (incoming (arriving c.2))) demoCalls.
Proof. apply (bool_decide_unpack _). vm_compute. exact I. Qed.

Lemma overWire_from_bytes calls : Forall (fun c => Forall is_u8 (incoming (arriving c.2))) calls -> Forall from_bytes (overWire calls).
Proof. intros H. apply Forall_fmap. eapply Forall_impl; [exact H|]. intros [s m] Hb. by apply connectionEvent_from_bytes. Qed.


Lemma remote_call_witness :
  exists c1, sendFrame (frameOf (commitPlan 1)) {| Pipe.segments := [wireFrame (frameOf (okMessage 1))]; Pipe.taken := [] |} = (inr (), c1) /\
    connectionEvent 2 (recvFrame {| Pipe.segments := [outgoing c1]; Pipe.taken := [] |}).1 = Receive 2 (commitPlan 1) /\
    (clientSend (commitPlan 1) {| Pipe.segments := [wireFrame (frameOf (okMessage 1))]; Pipe.taken := [] |}).1 = Some (okMessage 1).
Proof.
  set (c := {| Pipe.segments := [wireFrame (frameOf (okMessage 1))]; Pipe.taken := [] |}).
  destruct (sendFrame (frameOf (commitPlan 1)) c) as [res c1] eqn:E.
  assert (Hres : res = inr ()) by (vm_compute in E; injection E as <- _; reflexivity). subst res.
  assert (H1 : deliverable (commitPlan 1)) by (split; [apply (bool_decide_unpack _); vm_compute; exact I|vm_compute; discriminate]).
  assert (H2 : deliverable (okMessage 1)) by (split; [apply (bool_decide_unpack _); vm_compute; exact I|vm_compute; discriminate]).
  exists c1. split; [reflexivity|].
  destruct (remote_call c {| Pipe.segments := [outgoing c1]; Pipe.taken := [] |} c1 (commitPlan 1) (okMessage 1) 2 (outgoing c1) [] [] H1 H2 E)
    as (He & _ & Hc & _); [reflexivity|reflexivity|vm_compute in E; injection E as <-; vm_compute; reflexivity|].
  split; [exact He|exact Hc].
Defined.

