(* ===== verification/Sockets.v ===== *)
(** * Socket handles

    Models what src/transport/tcp.hpp and src/coordinator.cpp do with the socket handles
    of the process: connecting to a host, the listener, the client's connection, the port
    that a program of apps/ looks for and its retries to connect, and the sockets of the
    server from [start] to [stop].  Winsock is a class: its operations
    answer as they like, and its laws say which handles are open afterwards. *)

From S2P Require Import Prelude Core Coordinator.

(** ** Winsock *)

(** What of the process's socket state the code depends on: the open handles, whom they
    are connected to, the network-order port they are bound to, the address lists not yet
    freed, and the initialisations not yet undone. *)
Module Kernel.
Record Kernel {Address : Type} := {
  opened : gset Z;
  peers : gmap Z Address;
  ports : gmap Z Z;
  lists : Z;
  startups : Z;
}.
Arguments Kernel : clear implicits.
End Kernel.
Abbreviation Kernel := Kernel.Kernel.

Section kernel.
Context {Address : Type}.
Implicit Types k : Kernel Address.

Definition add_handle (s : Z) k : Kernel Address := {|
  Kernel.opened := {[s]} ∪ k.(Kernel.opened); Kernel.peers := k.(Kernel.peers); Kernel.ports := k.(Kernel.ports);
  Kernel.lists := k.(Kernel.lists); Kernel.startups := k.(Kernel.startups) |}.
Definition remove_handle (s : Z) k : Kernel Address := {|
  Kernel.opened := k.(Kernel.opened) ∖ {[s]}; Kernel.peers := delete s k.(Kernel.peers); Kernel.ports := delete s k.(Kernel.ports);
  Kernel.lists := k.(Kernel.lists); Kernel.startups := k.(Kernel.startups) |}.
Definition add_peer (s : Z) (a : Address) k : Kernel Address := {|
  Kernel.opened := k.(Kernel.opened); Kernel.peers := <[s := a]> k.(Kernel.peers); Kernel.ports := k.(Kernel.ports);
  Kernel.lists := k.(Kernel.lists); Kernel.startups := k.(Kernel.startups) |}.
Definition add_port (s p : Z) k : Kernel Address := {|
  Kernel.opened := k.(Kernel.opened); Kernel.peers := k.(Kernel.peers); Kernel.ports := <[s := p]> k.(Kernel.ports);
  Kernel.lists := k.(Kernel.lists); Kernel.startups := k.(Kernel.startups) |}.
Definition add_lists (n : Z) k : Kernel Address := {|
  Kernel.opened := k.(Kernel.opened); Kernel.peers := k.(Kernel.peers); Kernel.ports := k.(Kernel.ports);
  Kernel.lists := k.(Kernel.lists) + n; Kernel.startups := k.(Kernel.startups) |}.
Definition set_startups (n : Z) k : Kernel Address := {|
  Kernel.opened := k.(Kernel.opened); Kernel.peers := k.(Kernel.peers); Kernel.ports := k.(Kernel.ports);
  Kernel.lists := k.(Kernel.lists); Kernel.startups := n |}.

(** Closed handles have no peer and no port. *)
Definition kernel_wf k : Prop := dom k.(Kernel.peers) ⊆ k.(Kernel.opened) /\ dom k.(Kernel.ports) ⊆ k.(Kernel.opened).
End kernel.

Class Winsock (W : Type) := {
  Address : Type;
  WSAStartup : W -> bool * W;
  WSACleanup : W -> W;
  getaddrinfo : string -> string -> W -> option (list Address) * W;
  freeaddrinfo : W -> W;
  socket : W -> Z * W;
  connect : Z -> Address -> W -> bool * W;
  setsockopt : Z -> W -> W;
  bind : Z -> Z -> W -> bool * W;
  listen : Z -> Z -> W -> bool * W;
  accept : Z -> W -> Z * W;
  getsockname : Z -> W -> option Z;
  closesocket : Z -> W -> W;
  FormatMessage : W -> string;
  kernel : W -> Kernel Address;
}.

(** A call that may make a handle: INVALID_SOCKET, or one that was not open. *)
Definition new_handle {A} (k k' : Kernel A) (s : Z) : Prop :=
  (s = INVALID_SOCKET /\ k' = k) \/ (s <> INVALID_SOCKET /\ s ∉ k.(Kernel.opened) /\ k' = add_handle s k).

Class WinsockLaws {W : Type} (HW : Winsock W) := {
  WSAStartup_law w : kernel (WSAStartup w).2 =
    if (WSAStartup w).1 then set_startups ((kernel w).(Kernel.startups) + 1) (kernel w) else kernel w;
  WSACleanup_law w : kernel (WSACleanup w) = set_startups (Z.max 0 ((kernel w).(Kernel.startups) - 1)) (kernel w);
  getaddrinfo_law h p w : kernel (getaddrinfo h p w).2 =
    match (getaddrinfo h p w).1 with Some _ => add_lists 1 (kernel w) | None => kernel w end;
  freeaddrinfo_law w : kernel (freeaddrinfo w) = add_lists (-1) (kernel w);
  socket_law w : new_handle (kernel w) (kernel (socket w).2) (socket w).1;
  connect_law s a w : kernel (connect s a w).2 = if (connect s a w).1 then add_peer s a (kernel w) else kernel w;
  setsockopt_law s w : kernel (setsockopt s w) = kernel w;
  bind_law s p w : if (bind s p w).1
    then exists q, (p <> 0 -> q = p) /\ kernel (bind s p w).2 = add_port s q (kernel w)
    else kernel (bind s p w).2 = kernel w;
  listen_law s n w : kernel (listen s n w).2 = kernel w;
  accept_law l w : new_handle (kernel w) (kernel (accept l w).2) (accept l w).1;
  getsockname_law s w : getsockname s w = (kernel w).(Kernel.ports) !! s;
  closesocket_law s w : kernel (closesocket s w) = remove_handle s (kernel w);
}.

Section sockets.
Context {W : Type} {HW : Winsock W}.
Implicit Types w : W.

(** ** Connecting *)

Definition libraryInit (w : W) : bool * W := WSAStartup w.
Definition libraryCleanup (w : W) : W := WSACleanup w.

(** The loop of [connectTo] over the addresses. *)
Fixpoint connect_loop (addrs : list Address) (w : W) : Z * W :=
  match addrs with
  | [] => (INVALID_SOCKET, w)
  | p :: addrs' =>
      let '(s, w) := socket w in
      if s =? INVALID_SOCKET then connect_loop addrs' w
      else
        let '(connected, w) := connect s p w in
        if connected then (s, w) else connect_loop addrs' (closesocket s w)
  end.

(** The socket and [err]. *)
Definition connectTo (host : string) (port : Z) (w : W) : Z * string * W :=
  match getaddrinfo host (Id_str port) w with
  | (None, w) => (INVALID_SOCKET, "getaddrinfo failed", w)
  | (Some addrs, w) =>
      let '(s, w) := connect_loop addrs w in
      let w := freeaddrinfo w in
      (s, if s =? INVALID_SOCKET then FormatMessage w else "", w)
  end.

(** [closeSock]: the handle becomes INVALID_SOCKET. *)
Definition closeSock (s : Z) (w : W) : Z * W := if negb (s =? INVALID_SOCKET) then (INVALID_SOCKET, closesocket s w) else (s, w).

(** ** The listener *)

(** [htons] and [ntohs]. *)
Definition swap16 (p : Z) : Z := (p mod 256) * 256 + p / 256.

(** Success, [err] and [listener_]. *)
Definition listenOn (port : Z) (w : W) : bool * string * Z * W :=
  let '(l, w) := socket w in
  if l =? INVALID_SOCKET then (false, FormatMessage w, l, w)
  else
    let w := setsockopt l w in
    let '(bound, w) := bind l (swap16 port) w in
    if negb bound then (false, FormatMessage w, INVALID_SOCKET, closesocket l w)
    else
      let '(ok, w) := listen l 16 w in
      if negb ok then (false, FormatMessage w, INVALID_SOCKET, closesocket l w) else (true, "", l, w).

Definition listenerPort (l : Z) (w : W) : Z := match getsockname l w with Some p => swap16 p | None => 0 end.

(** ** The client's connection *)

(** [CoordinatorClient::Impl]; the client's [impl_] is an optional one. *)
Record ClientImpl := { sock : Z; connected : bool }.

(** [recvFrame] of the HELLO on the new socket. *)
Context (recvHello : Z -> W -> bool * W).

Definition disconnect (impl : option ClientImpl) (w : W) : option ClientImpl * W :=
  match impl with
  | Some c => if c.(connected) then let '(s, w) := closeSock c.(sock) w in (Some {| sock := s; connected := false |}, w) else (impl, w)
  | None => (None, w)
  end.

(** [delete impl_] runs no destructor that closes the socket. *)
Definition clientConnect (host : string) (port : Z) (impl : option ClientImpl) (w : W) : bool * option ClientImpl * W :=
  let '(_, w) := libraryInit w in
  let '(s, _, w) := connectTo host port w in
  if s =? INVALID_SOCKET then (false, Some {| sock := s; connected := false |}, w)
  else
    let c := {| sock := s; connected := true |} in
    let '(hello, w) := recvHello s w in
    if hello then (true, Some c, w) else let '(impl, w) := disconnect (Some c) w in (false, impl, w).

Definition clientDestroy (impl : option ClientImpl) (w : W) : W := (disconnect impl w).2.

(** ** The programs of apps/ *)

(** [waitConnect]: at most [tries] connections. *)
Fixpoint waitConnect (tries : nat) (port : Z) (impl : option ClientImpl) (w : W) : bool * option ClientImpl * W :=
  match tries with
  | O => (false, impl, w)
  | S tries' =>
      match clientConnect "127.0.0.1" port impl w with
      | (true, impl, w) => (true, impl, w)
      | (false, impl, w) => let '(impl, w) := disconnect impl w in waitConnect tries' port impl w
      end
  end.

(** [freePort]: a port the system chose, released again. *)
Definition freePort (w : W) : Z * W :=
  let '(_, w) := WSAStartup w in
  let '(s, w) := socket w in
  if s =? INVALID_SOCKET then (0, w)
  else
    let '(bound, w) := bind s (swap16 0) w in
    if negb bound then (0, closesocket s w)
    else let p := listenerPort s w in (p, WSACleanup (closesocket s w)).

(** ** The server's sockets *)

Record ServerSockets := { listener : Z; active : gset Z; threads : gset Z; stopped : bool }.

Definition serverSockets : ServerSockets := {| listener := INVALID_SOCKET; active := ∅; threads := ∅; stopped := false |}.

Definition startSockets (port : Z) (sv : ServerSockets) (w : W) : bool * ServerSockets * W :=
  let '(_, w) := libraryInit w in
  let '(ok, _, l, w) := listenOn port w in
  (ok, {| listener := l; active := sv.(active); threads := sv.(threads); stopped := sv.(stopped) |}, w).

(** One round of [acceptLoop]: the new socket is active and gets a thread. *)
Definition acceptRound (sv : ServerSockets) (w : W) : ServerSockets * W :=
  let '(s, w) := accept sv.(listener) w in
  if s =? INVALID_SOCKET then (sv, w)
  else ({| listener := sv.(listener); active := {[s]} ∪ sv.(active); threads := {[s]} ∪ sv.(threads); stopped := sv.(stopped) |}, w).

(** The end of [handleConnection]. *)
Definition endConnection (s : Z) (sv : ServerSockets) (w : W) : ServerSockets * W :=
  let '(s', w) := closeSock s w in
  ({| listener := sv.(listener); active := sv.(active) ∖ {[s']}; threads := sv.(threads) ∖ {[s]}; stopped := sv.(stopped) |}, w).

(** [stop]: the loop closes copies of the handles. *)
Definition closeAll (l : list Z) (w : W) : W := foldl (fun w s => (closeSock s w).2) w l.

(** [listener.close()] and the loop over [activeSockets]. *)
Definition closeSockets (sv : ServerSockets) (w : W) : ServerSockets * W :=
  let '(l, w) := closeSock sv.(listener) w in
  ({| listener := l; active := sv.(active); threads := sv.(threads); stopped := true |}, closeAll (elements sv.(active)) w).

(** The threads are joined: each ends its connection. *)
Fixpoint joinThreads (l : list Z) (sv : ServerSockets) (w : W) : ServerSockets * W :=
  match l with
  | [] => (sv, w)
  | s :: l' => let '(sv, w) := endConnection s sv w in joinThreads l' sv w
  end.

Definition stopSockets (sv : ServerSockets) (w : W) : ServerSockets * W :=
  let '(sv, w) := closeSockets sv w in
  let '(sv, w) := joinThreads (elements sv.(threads)) sv w in
  (sv, libraryCleanup w).
End sockets.

(** ** No call leaves a handle behind *)

Section laws.
Context {W : Type} {HW : Winsock W} {LW : WinsockLaws HW}.
Implicit Types (w : W) (k : Kernel Address).

Lemma kernel_eq k1 k2 :
  k1.(Kernel.opened) = k2.(Kernel.opened) -> k1.(Kernel.peers) = k2.(Kernel.peers) -> k1.(Kernel.ports) = k2.(Kernel.ports) ->
  k1.(Kernel.lists) = k2.(Kernel.lists) -> k1.(Kernel.startups) = k2.(Kernel.startups) -> k1 = k2.
Proof. destruct k1, k2. cbn. congruence. Qed.

Lemma not_opened_peer k s : kernel_wf k -> s ∉ k.(Kernel.opened) -> k.(Kernel.peers) !! s = None /\ k.(Kernel.ports) !! s = None.
Proof. intros [Hp Ho] Hs. split; apply not_elem_of_dom; set_solver. Qed.

(** Closing a fresh handle, bound or not, undoes its opening. *)
Lemma remove_fresh k s k' :
  kernel_wf k -> s ∉ k.(Kernel.opened) -> (k' = add_handle s k \/ exists q, k' = add_port s q (add_handle s k)) -> remove_handle s k' = k.
Proof.
  intros Hk Hs Hk'. destruct (not_opened_peer k s Hk Hs) as [Ep Eo].
  destruct Hk' as [->|[q ->]]; apply kernel_eq; cbn; rewrite ?delete_insert_eq, ?delete_id by done; try done; set_solver.
Qed.

Lemma closeSock_opened s w : s <> INVALID_SOCKET -> closeSock s w = (INVALID_SOCKET, closesocket s w).
Proof. intros H. unfold closeSock. by rewrite (proj2 (Z.eqb_neq _ _) H). Qed.

(** What a connecting or listening call may leave: nothing, or one fresh handle. *)
Lemma connect_loop_keeps addrs w s w' :
  kernel_wf (kernel w) -> connect_loop addrs w = (s, w') ->
  (s = INVALID_SOCKET /\ kernel w' = kernel w) \/
  (s <> INVALID_SOCKET /\ s ∉ (kernel w).(Kernel.opened) /\ exists a, a ∈ addrs /\ kernel w' = add_peer s a (add_handle s (kernel w))).
Proof using LW.
  revert w; induction addrs as [|p addrs IH]; intros w Hk; cbn [connect_loop]; [intros [= <- <-]; by left|].
  assert (Hrest : forall w1, kernel w1 = kernel w -> connect_loop addrs w1 = (s, w') ->
    (s = INVALID_SOCKET /\ kernel w' = kernel w) \/
    (s <> INVALID_SOCKET /\ s ∉ (kernel w).(Kernel.opened) /\ exists a, a ∈ p :: addrs /\ kernel w' = add_peer s a (add_handle s (kernel w)))).
  { intros w1 E Hl. destruct (IH w1) as [H|(? & ? & a & ? & ?)]; rewrite ?E in *; [done|done|by left|right].
    split; [done|]. split; [done|]. exists a. split; [by right|done]. }
  pose proof (socket_law w) as Hsock. destruct (socket w) as [s1 w1]. cbn [fst snd] in Hsock.
  destruct Hsock as [[-> E]|(Hs & Hf & E)]; [by apply Hrest|]. rewrite (proj2 (Z.eqb_neq _ _) Hs).
  pose proof (connect_law s1 p w1) as Hc. destruct (connect s1 p w1) as [[] w2]; cbn [fst snd] in Hc.
  - intros [= <- <-]. right. split; [done|]. split; [done|]. exists p. split; [left|]. by rewrite Hc, E.
  - apply Hrest. rewrite closesocket_law, Hc, E. apply (remove_fresh _ _ _ Hk Hf). by left.
Qed.

(** [connectTo] returns a fresh handle connected to an address of the host, or
    INVALID_SOCKET with everything it opened closed; the address list is freed. *)
Lemma connectTo_keeps host port w s err w' :
  kernel_wf (kernel w) -> connectTo host port w = (s, err, w') ->
  (s = INVALID_SOCKET /\ kernel w' = kernel w) \/
  (s <> INVALID_SOCKET /\ s ∉ (kernel w).(Kernel.opened) /\ exists a, kernel w' = add_peer s a (add_handle s (kernel w))).
Proof using LW.
  intros Hk. unfold connectTo. pose proof (getaddrinfo_law host (Id_str port) w) as Hg.
  destruct (getaddrinfo _ _ w) as [[addrs|] w1]; cbn [fst snd] in Hg; [|intros [= <- <- <-]; by left].
  destruct (connect_loop addrs w1) as [s1 w2] eqn:El. intros [= <- <- <-].
  apply connect_loop_keeps in El; [|by rewrite Hg]. rewrite freeaddrinfo_law.
  destruct El as [[-> E]|(Hs & Hf & a & _ & E)]; rewrite E, Hg; [left|right].
  - split; [done|]. apply kernel_eq; cbn; lia || done.
  - rewrite Hg in Hf. split; [done|]. split; [done|]. exists a. apply kernel_eq; cbn; lia || done.
Qed.

Lemma swap16_swap p : 0 <= p < 2 ^ 16 -> swap16 (swap16 p) = p.
Proof. intros H. unfold swap16. Z.div_mod_to_equations. lia. Qed.

(** The listener is one fresh handle bound to the asked port, or INVALID_SOCKET with
    everything closed. *)
Lemma listenOn_keeps port w ok err l w' :
  kernel_wf (kernel w) -> listenOn port w = (ok, err, l, w') ->
  (ok = false /\ l = INVALID_SOCKET /\ kernel w' = kernel w) \/
  (ok = true /\ l <> INVALID_SOCKET /\ l ∉ (kernel w).(Kernel.opened) /\
   exists q, (swap16 port <> 0 -> q = swap16 port) /\ kernel w' = add_port l q (add_handle l (kernel w))).
Proof using LW.
  intros Hk. unfold listenOn. pose proof (socket_law w) as Hsock. destruct (socket w) as [l1 w1]. cbn [fst snd] in Hsock.
  destruct Hsock as [[-> E]|(Hs & Hf & E)]; [intros [= <- <- <- <-]; by left|]. rewrite (proj2 (Z.eqb_neq _ _) Hs).
  pose proof (bind_law l1 (swap16 port) (setsockopt l1 w1)) as Hb. rewrite setsockopt_law, E in Hb.
  destruct (bind _ _ _) as [[] w2]; cbn [fst snd negb] in *.
  - destruct Hb as (q & Hq & E2). pose proof (listen_law l1 16 w2) as E3. destruct (listen l1 16 w2) as [[] w3]; cbn [fst snd negb] in *;
      intros [= <- <- <- <-]; [right|left].
    + split; [done|]. split; [done|]. split; [done|]. exists q. by rewrite E3.
    + split; [done|]. split; [done|]. rewrite closesocket_law, E3, E2. apply (remove_fresh _ _ _ Hk Hf). eauto.
  - intros [= <- <- <- <-]. left. split; [done|]. split; [done|]. rewrite closesocket_law, Hb. apply (remove_fresh _ _ _ Hk Hf). by left.
Qed.
End laws.

(** ** Clients *)

Section client.
Context {W : Type} {HW : Winsock W} {LW : WinsockLaws HW}.
Context (recvHello : Z -> W -> bool * W).
Hypothesis recvHello_law : forall s w, kernel (recvHello s w).2 = kernel w.

Definition same_handles {A} (k k' : Kernel A) : Prop :=
  k'.(Kernel.opened) = k.(Kernel.opened) /\ k'.(Kernel.peers) = k.(Kernel.peers) /\ k'.(Kernel.ports) = k.(Kernel.ports) /\
  k'.(Kernel.lists) = k.(Kernel.lists).

Lemma startup_keeps (w : W) : same_handles (kernel w) (kernel (libraryInit w).2).
Proof using LW. unfold libraryInit. rewrite WSAStartup_law. by destruct (WSAStartup w).1. Qed.

(** What a connected client holds, whatever it was before: one fresh connected handle, or
    nothing. *)
Lemma clientConnect_keeps host port impl (w : W) ok impl' w' :
  kernel_wf (kernel w) -> clientConnect recvHello host port impl w = (ok, impl', w') ->
  exists k, same_handles (kernel w) k /\
    ((ok = false /\ (exists s, impl' = Some {| sock := s; connected := false |}) /\ kernel w' = k) \/
     (ok = true /\ exists s a, impl' = Some {| sock := s; connected := true |} /\ s <> INVALID_SOCKET /\
        s ∉ k.(Kernel.opened) /\ kernel w' = add_peer s a (add_handle s k))).
Proof using LW recvHello_law.
  intros Hk. unfold clientConnect. pose proof (startup_keeps w) as Hs. destruct (libraryInit w) as [b w1]. cbn [snd] in Hs.
  assert (Hk1 : kernel_wf (kernel w1)) by (destruct Hs as (E1 & E2 & E3 & _); unfold kernel_wf; by rewrite E1, E2, E3).
  destruct (connectTo host port w1) as [[s err] w2] eqn:Ec. apply connectTo_keeps in Ec; [|done].
  destruct Ec as [[-> E]|(Hne & Hf & a & E)].
  - intros [= <- <- <-]. exists (kernel w1). split; [done|]. left. eauto.
  - rewrite (proj2 (Z.eqb_neq _ _) Hne). pose proof (recvHello_law s w2) as Hh. destruct (recvHello s w2) as [[] w3]; cbn [snd] in Hh.
    + intros [= <- <- <-]. exists (kernel w1). split; [done|]. right. split; [done|]. exists s, a. by rewrite Hh.
    + cbn [disconnect connected sock]. rewrite closeSock_opened by done. intros [= <- <- <-].
      exists (kernel w1). split; [done|]. left. split; [done|]. split; [by eexists|]. rewrite closesocket_law, Hh, E.
      destruct (not_opened_peer _ _ Hk1 Hf) as [Ep Eo]. apply kernel_eq; cbn; rewrite ?delete_insert_eq, ?delete_id by done; try done; set_solver.
Qed.

(** A client that connects once leaves nothing open: whatever host, port and answers,
    after [connect] and the destructor the handles of the process, their peers and ports
    and the address lists are those from before. *)
Theorem client_leaves_nothing_open host port (w : W) ok impl w' :
  kernel_wf (kernel w) -> clientConnect recvHello host port None w = (ok, impl, w') ->
  same_handles (kernel w) (kernel (clientDestroy impl w')).
Proof using LW recvHello_law.
  intros Hk Hc. destruct (clientConnect_keeps _ _ _ _ _ _ _ Hk Hc) as (k & Hs & [(_ & (s & ->) & E)|(_ & s & a & -> & Hne & Hf & E)]).
  - unfold clientDestroy. cbn [disconnect connected snd]. by rewrite E.
  - unfold clientDestroy. cbn [disconnect connected sock]. rewrite closeSock_opened by done. cbn [snd]. rewrite closesocket_law, E.
    assert (Hwf : kernel_wf k) by (destruct Hs as (E1 & E2 & E3 & _); unfold kernel_wf; by rewrite E1, E2, E3).
    destruct (not_opened_peer _ _ Hwf Hf) as [Ep Eo]. destruct Hs as (E1 & E2 & E3 & E4).
    split_and!; cbn; rewrite ?delete_insert_eq, ?delete_id by done; try done; set_solver.
Qed.

(** Waiting for the coordinator holds one connection if it succeeds and nothing otherwise,
    however often it had to try. *)
Theorem waitConnect_keeps tries port impl (w : W) ok impl' w' :
  (forall c, impl = Some c -> c.(connected) = false) -> kernel_wf (kernel w) -> waitConnect recvHello tries port impl w = (ok, impl', w') ->
  exists k, same_handles (kernel w) k /\
    ((ok = false /\ kernel w' = k /\ forall c, impl' = Some c -> c.(connected) = false) \/
     (ok = true /\ exists s a, impl' = Some {| sock := s; connected := true |} /\ s <> INVALID_SOCKET /\
        s ∉ k.(Kernel.opened) /\ kernel w' = add_peer s a (add_handle s k))).
Proof using LW recvHello_law.
  revert impl w; induction tries as [|tries IH]; intros impl w Hc Hk; cbn [waitConnect].
  { intros [= <- <- <-]. exists (kernel w). split; [done|]. by left. }
  destruct (clientConnect recvHello "127.0.0.1" port impl w) as [[ok1 impl1] w1] eqn:E.
  destruct (clientConnect_keeps _ _ _ _ _ _ _ Hk E) as (k & Hs & [(-> & (s & ->) & Ek)|(-> & s & a & -> & Hne & Hf & Ek)]).
  - cbn [disconnect connected]. intros Hw. assert (Hk1 : kernel_wf (kernel w1)).
    { rewrite Ek. destruct Hs as (E1 & E2 & E3 & _). unfold kernel_wf. by rewrite E1, E2, E3. }
    destruct (IH (Some {| sock := s; connected := false |}) w1) as (k' & Hs' & Hr); [by intros c [= <-]|done|done|]. exists k'.
    split; [|done]. rewrite Ek in Hs'. destruct Hs as (? & ? & ? & ?), Hs' as (? & ? & ? & ?). split_and!; congruence.
  - intros [= <- <- <-]. exists k. split; [done|]. right. split; [done|]. by exists s, a.
Qed.

(** [freePort] leaves no handle; on success the port was bound to its own handle only. *)
Theorem freePort_keeps (w : W) p w' :
  kernel_wf (kernel w) -> freePort w = (p, w') -> same_handles (kernel w) (kernel w').
Proof using LW.
  intros Hk. unfold freePort. pose proof (WSAStartup_law w) as Hs. destruct (WSAStartup w) as [b w1]. cbn [fst snd] in Hs.
  assert (H1 : same_handles (kernel w) (kernel w1)) by (rewrite Hs; by destruct b).
  assert (Hk1 : kernel_wf (kernel w1)) by (destruct H1 as (E1 & E2 & E3 & _); unfold kernel_wf; by rewrite E1, E2, E3).
  pose proof (socket_law w1) as Hsock. destruct (socket w1) as [s w2]. cbn [fst snd] in Hsock.
  destruct Hsock as [[-> E]|(Hne & Hf & E)]; [intros [= <- <-]; by rewrite E|]. rewrite (proj2 (Z.eqb_neq _ _) Hne).
  pose proof (bind_law s (swap16 0) w2) as Hb. destruct (bind _ _ _) as [[] w3]; cbn [fst snd negb] in *; intros [= <- <-].
  - destruct Hb as (q & _ & Eb). rewrite WSACleanup_law, closesocket_law, Eb, E.
    rewrite (remove_fresh (kernel w1) s) by (try done; right; by exists q). exact H1.
  - rewrite closesocket_law, Hb, E. rewrite (remove_fresh (kernel w1) s) by (try done; by left). exact H1.
Qed.
End client.

(** ** The server *)

Inductive SocketEvent :=
  | Accepted
  | Ended (s : Z).

Section server.
Context {W : Type} {HW : Winsock W} {LW : WinsockLaws HW}.
Implicit Types (sv : ServerSockets) (w : W).

(** The accept loop and the connection threads at work; a connection ends once. *)
Fixpoint serve (evs : list SocketEvent) (sv : ServerSockets) (w : W) : option (ServerSockets * W) :=
  match evs with
  | [] => Some (sv, w)
  | Accepted :: evs' => let '(sv, w) := acceptRound sv w in serve evs' sv w
  | Ended s :: evs' => if bool_decide (s ∈ sv.(threads)) then let '(sv, w) := endConnection s sv w in serve evs' sv w else None
  end.

Notation opened w := (kernel w).(Kernel.opened).

(** The server holds its listener and one handle for each thread; what it closes at the
    end contains them and nothing of the rest of the process. *)
Record owns (rest : gset Z) sv w : Prop := {
  ow_opened : opened w = rest ∪ {[sv.(listener)]} ∪ sv.(threads);
  ow_threads : sv.(threads) ⊆ sv.(active);
  ow_fresh : sv.(active) ## rest;
  ow_listener : sv.(listener) ∉ rest /\ sv.(listener) ∉ sv.(active);
  ow_valid : INVALID_SOCKET ∉ {[sv.(listener)]} ∪ sv.(active);
}.

Lemma acceptRound_owns rest sv w : owns rest sv w -> owns rest (acceptRound sv w).1 (acceptRound sv w).2.
Proof using LW.
  intros [Ho Ht Hf [Hl Hla] Hv]. unfold acceptRound. pose proof (accept_law sv.(listener) w) as Ha.
  destruct (accept (listener sv) w) as [s w1]. cbn [fst snd] in Ha.
  destruct Ha as [[-> E]|(Hs & Hn & E)]; [cbn [fst snd Z.eqb]; rewrite Z.eqb_refl; split; cbn [fst snd]; rewrite ?E; done|]. rewrite (proj2 (Z.eqb_neq _ _) Hs).
  split; cbn [fst snd listener active threads]; rewrite ?E; cbn [add_handle Kernel.opened]; set_solver.
Qed.

Lemma endConnection_owns rest sv w s : s ∈ sv.(threads) -> owns rest sv w -> owns rest (endConnection s sv w).1 (endConnection s sv w).2.
Proof using LW.
  intros Hs [Ho Ht Hf [Hl Hla] Hv]. unfold endConnection. rewrite closeSock_opened by set_solver.
  split; cbn [fst snd listener active threads]; rewrite ?closesocket_law; cbn [remove_handle Kernel.opened]; set_solver.
Qed.

Lemma serve_owns rest evs sv w sv' w' : serve evs sv w = Some (sv', w') -> owns rest sv w -> owns rest sv' w'.
Proof using LW.
  revert sv w; induction evs as [|[|s] evs IH]; intros sv w H Ho; cbn [serve] in H; [by injection H as <- <-| |].
  - pose proof (acceptRound_owns rest sv w Ho) as Ho'. destruct (acceptRound sv w) as [sv1 w1]. by eapply IH.
  - case_bool_decide as Hs; [|done]. pose proof (endConnection_owns rest sv w s Hs Ho) as Ho'.
    destruct (endConnection s sv w) as [sv1 w1]. by eapply IH.
Qed.

Lemma closeAll_opened l w : INVALID_SOCKET ∉ l -> opened (closeAll l w) = opened w ∖ list_to_set l.
Proof using LW.
  revert w; induction l as [|s l IH]; intros w Hl; cbn [closeAll foldl list_to_set]; [set_solver|].
  rewrite not_elem_of_cons in Hl. destruct Hl as [Hs Hl]. fold (closeAll l (closeSock s w).2). rewrite IH by done.
  rewrite closeSock_opened by done. cbn [snd]. rewrite closesocket_law. cbn [remove_handle Kernel.opened]. set_solver.
Qed.

Lemma joinThreads_opened l sv w : INVALID_SOCKET ∉ l -> opened (joinThreads l sv w).2 = opened w ∖ list_to_set l.
Proof using LW.
  revert sv w; induction l as [|s l IH]; intros sv w Hl; cbn [joinThreads list_to_set snd]; [set_solver|].
  rewrite not_elem_of_cons in Hl. destruct Hl as [Hs Hl]. unfold endConnection. rewrite closeSock_opened by done.
  rewrite IH by done. rewrite closesocket_law. cbn [remove_handle Kernel.opened]. set_solver.
Qed.

(** [stop] closes the listener and whatever was ever active, and nothing else. *)
Lemma stopSockets_opened sv w :
  INVALID_SOCKET ∉ {[sv.(listener)]} ∪ sv.(active) -> sv.(threads) ⊆ sv.(active) ->
  opened (stopSockets sv w).2 = opened w ∖ ({[sv.(listener)]} ∪ sv.(active)).
Proof using LW.
  intros Hv Ht. unfold stopSockets, closeSockets. rewrite closeSock_opened by set_solver. cbn [threads].
  pose proof (joinThreads_opened (elements (threads sv)) {| listener := INVALID_SOCKET; active := active sv; threads := threads sv; stopped := true |}
    (closeAll (elements (active sv)) (closesocket (listener sv) w))) as Hj.
  destruct (joinThreads _ _ _) as [sv1 w1]. cbn [snd] in *. unfold libraryCleanup. rewrite WSACleanup_law. cbn [set_startups Kernel.opened].
  rewrite Hj by set_solver. rewrite closeAll_opened by set_solver. rewrite closesocket_law. cbn [remove_handle Kernel.opened].
  rewrite !list_to_set_elements_L. set_solver.
Qed.

(** A server alone closes what it opened: after [start], any sequence of accepted and
    ended connections and [stop], the open handles of the process are those from before. *)
Theorem server_closes_its_sockets port evs w w1 sv1 sv2 w2 :
  kernel_wf (kernel w) -> INVALID_SOCKET ∉ opened w -> startSockets port serverSockets w = (true, sv1, w1) ->
  serve evs sv1 w1 = Some (sv2, w2) -> opened (stopSockets sv2 w2).2 = opened w.
Proof using LW.
  intros Hk Hi Hs Hr. unfold startSockets in Hs. pose proof (startup_keeps w) as (Eo & Ep & Er & _).
  destruct (libraryInit w) as [b w0]. cbn [snd] in *.
  destruct (listenOn port w0) as [[[ok err] l] w3] eqn:El. injection Hs as -> <- <-.
  apply listenOn_keeps in El; [|unfold kernel_wf; by rewrite Eo, Ep, Er].
  destruct El as [[? _]|(_ & Hl & Hf & q & _ & E)]; [done|]. rewrite Eo in Hf.
  assert (Hown : owns (opened w) {| listener := l; active := ∅; threads := ∅; stopped := false |} w3).
  { split; cbn [listener active threads]; rewrite ?E; cbn [add_port add_handle Kernel.opened]; rewrite ?Eo; set_solver. }
  apply (serve_owns _ _ _ _ _ _ Hr) in Hown as [Ho Ht Hd [Hl' Hla] Hv]. rewrite stopSockets_opened, Ho by done. set_solver.
Qed.
End server.

(** ** A small Winsock

    Handles are the least that are free; a host has an address that refuses and one that
    accepts; connections arrive whenever the server waits for one. *)

Definition demoKernel : Kernel Z := {|
  Kernel.opened := ∅; Kernel.peers := ∅; Kernel.ports := ∅; Kernel.lists := 0; Kernel.startups := 0 |}.

Definition lowest (k : Kernel Z) : Z := default INVALID_SOCKET (head (filter (fun s => s ∉ k.(Kernel.opened)) (seqZ 1 64))).

Definition open_lowest (k : Kernel Z) : Z * Kernel Z :=
  let s := lowest k in (s, if s =? INVALID_SOCKET then k else add_handle s k).

#[export] Instance demoWinsock : Winsock (Kernel Z) := {|
  Address := Z;
  WSAStartup k := (true, set_startups (k.(Kernel.startups) + 1) k);
  WSACleanup k := set_startups (Z.max 0 (k.(Kernel.startups) - 1)) k;
  getaddrinfo host _ k := if bool_decide (host = "nowhere") then (None, k) else (Some [-1; 7], add_lists 1 k);
  freeaddrinfo k := add_lists (-1) k;
  socket := open_lowest;
  connect s a k := if 0 <? a then (true, add_peer s a k) else (false, k);
  setsockopt _ k := k;
  bind s p k := (true, add_port s (if p =? 0 then 12345 else p) k);
  listen _ _ k := (true, k);
  accept _ := open_lowest;
  getsockname s k := k.(Kernel.ports) !! s;
  closesocket := remove_handle;
  FormatMessage _ := "error";
  kernel k := k |}.

Lemma open_lowest_new k : new_handle k (open_lowest k).2 (open_lowest k).1.
Proof.
  unfold open_lowest. cbn [fst snd]. destruct (Z.eqb_spec (lowest k) INVALID_SOCKET) as [E|E]; [by left|right].
  split; [done|]. split; [|done]. unfold lowest in *. destruct (filter _ _) as [|s l] eqn:Ef; [done|]. cbn [head default] in *.
  assert (Hin : s ∈ filter (fun s => s ∉ k.(Kernel.opened)) (seqZ 1 64)) by (rewrite Ef; left).
  by apply list_elem_of_filter in Hin as [? _].
Qed.

#[export] Instance demoWinsock_laws : WinsockLaws demoWinsock.
Proof.
  split; cbn; try done.
  - intros h p k. by case_bool_decide.
  - apply open_lowest_new.
  - intros s a k. by destruct (0 <? a).
  - intros s p k. exists (if p =? 0 then 12345 else p). split; [|done]. intros Hp. by rewrite (proj2 (Z.eqb_neq _ _) Hp).
  - intros _. apply open_lowest_new.
Qed.

Definition demoHello (_ : Z) (k : Kernel Z) : bool * Kernel Z := (true, k).

Lemma client_leaves_nothing_open_witness :
  exists impl k, clientConnect demoHello "127.0.0.1" 4000 None demoKernel = (true, impl, k) /\ k.(Kernel.opened) = {[1]} /\
    same_handles demoKernel (clientDestroy impl k).
Proof.
  eexists _, _. split; [vm_compute; reflexivity|]. split; [vm_compute; reflexivity|].
  apply (client_leaves_nothing_open (HW := demoWinsock) demoHello (fun _ _ => eq_refl) "127.0.0.1" 4000 demoKernel true); [|vm_compute; reflexivity].
  split; intros x Hx; exfalso; revert Hx; apply not_elem_of_empty.
Defined.

Lemma server_closes_its_sockets_witness :
  exists sv1 w1 sv2 w2, startSockets 4000 serverSockets demoKernel = (true, sv1, w1) /\
    serve [Accepted; Accepted; Ended 2; Accepted] sv1 w1 = Some (sv2, w2) /\
    w2.(Kernel.opened) = {[1; 2; 3]} /\ (stopSockets (HW := demoWinsock) sv2 w2).2.(Kernel.opened) = ∅.
Proof.
  eexists _, _, _, _. split; [vm_compute; reflexivity|]. split; [vm_compute; reflexivity|]. split; [vm_compute; reflexivity|].
  eapply (server_closes_its_sockets (HW := demoWinsock) 4000 [Accepted; Accepted; Ended 2; Accepted] demoKernel).
  - split; intros x Hx; exfalso; revert Hx; apply not_elem_of_empty.
  - apply not_elem_of_empty.
  - vm_compute; reflexivity.
  - vm_compute; reflexivity.
Defined.

(** ** What goes wrong *)

(** A client that connects again while it is connected leaves its first socket open for
    good: [connect] deletes the old [Impl] without closing its socket. *)
Theorem reconnect_leaks_socket :
  exists impl1 impl2 k1 k2, clientConnect demoHello "127.0.0.1" 4000 None demoKernel = (true, impl1, k1) /\
    clientConnect demoHello "127.0.0.1" 4000 impl1 k1 = (true, impl2, k2) /\ (clientDestroy impl2 k2).(Kernel.opened) = {[1]}.
Proof.
  eexists _, _, _, _. split; [vm_compute; reflexivity|]. split; [vm_compute; reflexivity|]. vm_compute. reflexivity.
Qed.

(** The end of a connection does not take its socket out of the active ones.  If another
    part of the process, a client for one, then gets the same handle, [stop] closes it. *)
Theorem stop_closes_foreign_socket :
  exists sv1 k1 sv2 k2 impl k3, startSockets 4000 serverSockets demoKernel = (true, sv1, k1) /\
    serve [Accepted; Ended 2] sv1 k1 = Some (sv2, k2) /\ sv2.(active) = {[2]} /\ sv2.(threads) = ∅ /\
    clientConnect demoHello "127.0.0.1" 4000 None k2 = (true, Some impl, k3) /\ impl.(connected) = true /\
    impl.(sock) ∈ k3.(Kernel.opened) /\ impl.(sock) ∉ (stopSockets (HW := demoWinsock) sv2 k3).2.(Kernel.opened).
Proof.
  eexists _, _, _, _, _, _. split; [vm_compute; reflexivity|]. split; [vm_compute; reflexivity|].
  split; [vm_compute; reflexivity|]. split; [vm_compute; reflexivity|]. split; [vm_compute; reflexivity|].
  split; [reflexivity|]. split; apply (bool_decide_unpack _); vm_compute; exact I.
Qed.

(** [start] initialises Winsock once; [stop] and the destructor, which calls [stop] again,
    undo it twice: an initialisation of another part of the process is gone. *)
Theorem stop_undoes_startup_twice :
  exists sv1 k1 sv2 k2, startSockets 4000 serverSockets (WSAStartup demoKernel).2 = (true, sv1, k1) /\
    stopSockets (HW := demoWinsock) sv1 k1 = (sv2, k2) /\
    (stopSockets (HW := demoWinsock) sv2 k2).2.(Kernel.startups) < (WSAStartup (Winsock := demoWinsock) demoKernel).2.(Kernel.startups).
Proof.
  eexists _, _, _, _. split; [vm_compute; reflexivity|]. split; [vm_compute; reflexivity|]. vm_compute. reflexivity.
Qed.
