(* ===== verification/Clients.v ===== *)
(** * Concurrent clients

    Threads of a test program that talk to one server, as tests/test_concurrency.cpp does:
    every thread has a connection of its own and makes calls of [CoordinatorClient] on it,
    and the threads and the server's handlers interleave in any way.  A call is a message
    and its answer; between them the handler may be inside a commit. *)

From S2P Require Import Prelude Core Enums Double Model Scenario Feasibility Ranking Cost Enumerate Assembly.
From S2P Require Import PointToPoint Multicast Collective Planner Revalidation Broker Message Client Codec Store Persistence Coordinator Machine.
From S2P Require Import Authority.

(** The atomic counters of the program. *)
Inductive Counter :=
  | okCount
  | cancelTerminal.

(** What a thread does: a call, whose answer it may look at, an increment, or its end. *)
Inductive Client :=
  | Return
  | Call (m : Message) (k : option Message -> Client)
  | FetchAdd (c : Counter) (p : Client).

Inductive Thread :=
  | Starting (p : Client)
  | Running (p : Client)
  | Waiting (k : option Message -> Client)
  | Ended.

(** What the caller on socket [s] receives: the last message sent to it. *)
Definition answer (s : Z) (out : list (Z * Message)) : option Message := snd <$> last (filter (fun o => o.1 = s) out).

(** The socket of thread [i]; socket 1 is the publisher's. *)
Definition threadSocket (i : nat) : Z := Z.of_nat i + 2.

Module System.
Record System {B : Type} := {
  world : World B;
  threads : list Thread;
  oks : nat;
  cancels : nat;
}.
Arguments System : clear implicits.
End System.
Abbreviation System := System.System.

Section system.
Context {B : Type} `{HB : ResourceBroker B}.
Context (weights : gmap CostFactor double) (bounds : Bounds).

Definition set_thread (i : nat) (t : Thread) (w : World B) (y : System B) : System B := {|
  System.world := w; System.threads := <[i := t]> y.(System.threads); System.oks := y.(System.oks); System.cancels := y.(System.cancels) |}.

Definition count (c : Counter) (y : System B) : System B := {|
  System.world := y.(System.world); System.threads := y.(System.threads);
  System.oks := match c with okCount => S y.(System.oks) | _ => y.(System.oks) end;
  System.cancels := match c with cancelTerminal => S y.(System.cancels) | _ => y.(System.cancels) end |}.

(** One step of one thread, or of the handler that serves it. *)
Inductive system_step (y : System B) : System B -> Prop :=
  | thread_connects i p out w :
      y.(System.threads) !! i = Some (Starting p) ->
      step weights bounds (Accept (threadSocket i)) y.(System.world) = Some (out, w) ->
      system_step y (set_thread i (Running p) w y)
  | thread_calls i m k out w :
      y.(System.threads) !! i = Some (Running (Call m k)) ->
      step weights bounds (Receive (threadSocket i) m) y.(System.world) = Some (out, w) ->
      system_step y (set_thread i (match w.(World.commits) !! threadSocket i with
                                   | Some _ => Waiting k
                                   | None => Running (k (answer (threadSocket i) out)) end) w y)
  | thread_acquires i k out w :
      y.(System.threads) !! i = Some (Waiting k) ->
      step weights bounds (Acquire (threadSocket i)) y.(System.world) = Some (out, w) ->
      system_step y (set_thread i (Waiting k) w y)
  | thread_finishes i k out w :
      y.(System.threads) !! i = Some (Waiting k) ->
      step weights bounds (Finish (threadSocket i)) y.(System.world) = Some (out, w) ->
      system_step y (set_thread i (Running (k (answer (threadSocket i) out))) w y)
  | thread_counts i c p :
      y.(System.threads) !! i = Some (Running (FetchAdd c p)) ->
      system_step y (count c (set_thread i (Running p) y.(System.world) y))
  | thread_leaves i out w :
      y.(System.threads) !! i = Some (Running Return) ->
      step weights bounds (Disconnect (threadSocket i)) y.(System.world) = Some (out, w) ->
      system_step y (set_thread i Ended w y).

(** ** What one thread changes of the server *)

(** The step of the connection [s] leaves the evidence and the other connections alone. *)
Record local_step (s : Z) (w w' : World B) : Prop := {
  ls_snap : w'.(World.coord).(Coord.snap) = w.(World.coord).(Coord.snap);
  ls_sockets : w'.(World.coord).(Coord.socketToWorker) = w.(World.coord).(Coord.socketToWorker);
  ls_connections : forall x, x <> s -> x ∈ w'.(World.connections) <-> x ∈ w.(World.connections);
  ls_commits : forall x, x <> s -> w'.(World.commits) !! x = w.(World.commits) !! x;
  ls_counters : counters_wf w.(World.coord).(Coord.counters) -> counters_wf w'.(World.coord).(Coord.counters);
  ls_plans : w.(World.coord).(Coord.plans) <> ∅ -> w'.(World.coord).(Coord.plans) <> ∅;
}.

(** No step takes a plan away. *)
Lemma step_keeps_plans ev (w w' : World B) out :
  step weights bounds ev w = Some (out, w') -> w.(World.coord).(Coord.plans) <> ∅ -> w'.(World.coord).(Coord.plans) <> ∅.
Proof.
  intros H Hne. apply map_choose in Hne as (id & r & Hr). intros E.
  pose proof (step_moves_plans _ _ _ _ _ _ id H) as Hm. rewrite Hr, E, lookup_empty in Hm. inversion Hm.
Qed.

Definition pending_wf (s : Z) (p : Pending.PendingCommit) : Prop :=
  p.(Pending.sock) = s /\ length p.(Pending.resources) = length p.(Pending.sizes).

Definition same_cancelled (w w' : World B) : Prop := w'.(World.coord).(Coord.cancelled) = w.(World.coord).(Coord.cancelled).

(** A message that a handler answers without changing evidence, connections or commits. *)
Lemma handled_local s m out st' (w : World B) :
  idle s w = true -> m.(Message.type) <> MessageType.COMMIT_REQUEST -> plan_message m.(Message.type) = true ->
  handleMessage weights bounds s m w.(World.coord) = (Ok out, st') -> st'.(Coord.socketToWorker) = w.(World.coord).(Coord.socketToWorker) ->
  step weights bounds (Receive s m) w = Some (out, with_coord st' w) /\ local_step s w (with_coord st' w).
Proof.
  intros Hi Ht Hp H Hsock.
  assert (E : step weights bounds (Receive s m) w = Some (out, with_coord st' w)).
  { simpl. rewrite Hi. cbn [negb]. rewrite H. by destruct (Message.type m). }
  split; [exact E|]. destruct (plan_messages_same_evidence _ _ _ _ _ _ _ Hp H) as [(Es & _ & _) Hc].
  split; cbn [with_coord World.coord World.connections World.commits]; try done. by apply (step_keeps_plans _ _ _ _ E).
Qed.

(** *** The steps a thread takes *)

Context {HL : ResourceBrokerLaws B}.
Implicit Types w : World B.

Lemma accept_step s w :
  s ∉ w.(World.connections) ->
  exists out w', step weights bounds (Accept s) w = Some (out, w') /\ local_step s w w' /\ same_cancelled w w' /\
    s ∈ w'.(World.connections) /\ w'.(World.commits) !! s = w.(World.commits) !! s.
Proof.
  intros Hs. eexists _, _. split; [simpl; rewrite bool_decide_eq_false_2 by done; reflexivity|].
  split; [|split; [done|split; [set_solver|done]]]. split; cbn; try done. set_solver.
Qed.

Lemma disconnect_step s w :
  idle s w = true -> w.(World.coord).(Coord.socketToWorker) !! s = None ->
  exists out w', step weights bounds (Disconnect s) w = Some (out, w') /\ local_step s w w' /\ same_cancelled w w' /\
    s ∉ w'.(World.connections) /\ w'.(World.commits) !! s = w.(World.commits) !! s.
Proof.
  intros Hi Hs. eexists _, _. split; [simpl; rewrite Hi; reflexivity|]. unfold disconnectSocket. rewrite Hs.
  split; [|split; [done|split; [set_solver|done]]]. split; cbn; try done. set_solver.
Qed.

(** A submission that the planner serves is answered with its plan, which is stored. *)
Lemma submit_step s req w po cs :
  idle s w = true -> req.(Request.id) <> 0 -> req.(Request.id) ∉ w.(World.coord).(Coord.cancelled) ->
  planCommunication req w.(World.coord).(Coord.snap) weights bounds w.(World.coord).(Coord.counters) = (Ok po, cs) ->
  po.(PlanOutcome.success) = true -> is_Some po.(PlanOutcome.plan) ->
  exists x w', step weights bounds (Receive s (submitRequest req)) w = Some ([(s, x)], w') /\ local_step s w w' /\ same_cancelled w w' /\
    w'.(World.connections) = w.(World.connections) /\ w'.(World.commits) = w.(World.commits) /\
    x.(Message.type) = MessageType.PLAN_RESULT /\ x.(Message.ok) = true /\ w'.(World.coord).(Coord.plans) <> ∅.
Proof.
  intros Hi Hn Hc Hp Hs [plan Hplan].
  assert (E : exists x st', handleMessage weights bounds s (submitRequest req) w.(World.coord) = (Ok [(s, x)], st') /\
    st'.(Coord.socketToWorker) = w.(World.coord).(Coord.socketToWorker) /\ st'.(Coord.cancelled) = w.(World.coord).(Coord.cancelled) /\
    x.(Message.type) = MessageType.PLAN_RESULT /\ x.(Message.ok) = true /\ st'.(Coord.plans) <> ∅).
  { unfold handleMessage. cbn [submitRequest clientMessage Message.type]. unfold handleSubmit. cbn [submitRequest clientMessage Message.request].
    unfold isNull. rewrite (proj2 (Z.eqb_neq _ _) Hn), bool_decide_eq_false_2 by done. cbn [Coord.snap Coord.counters set_requests].
    rewrite Hp, Hs, Hplan. destruct (executorOf plan _) as [wk bt]. eexists _, _. split; [reflexivity|].
    split; [done|]. split; [done|]. split; [done|]. split; [done|]. cbn. apply insert_non_empty. }
  destruct E as (x & st' & E & Es & Ec & Ex & Eo & Epl).
  destruct (handled_local s (submitRequest req) [(s, x)] st' w Hi) as [Est Hl]; [discriminate|done|done|done|]. by exists x, (with_coord st' w).
Qed.

(** Calls about a stored plan. *)
Definition plan_call (m : Message) : Prop :=
  m.(Message.type) = MessageType.REVALIDATE \/ m.(Message.type) = MessageType.EXECUTION_HANDOFF \/
  m.(Message.type) = MessageType.EXECUTION_RESULT.

Lemma plan_call_step s m w :
  idle s w = true -> plan_call m ->
  exists out w', step weights bounds (Receive s m) w = Some (out, w') /\ local_step s w w' /\ same_cancelled w w' /\
    w'.(World.connections) = w.(World.connections) /\ w'.(World.commits) = w.(World.commits).
Proof.
  intros Hi Hm.
  assert (E : exists out st', handleMessage weights bounds s m w.(World.coord) = (Ok out, st') /\
    st'.(Coord.socketToWorker) = w.(World.coord).(Coord.socketToWorker) /\ st'.(Coord.cancelled) = w.(World.coord).(Coord.cancelled)).
  { unfold handleMessage. destruct Hm as [->|[->| ->]]; unfold handleRevalidate, handleHandoff, handleResult, sendError, reply, update_state;
      repeat case_match; eexists _, _; (split; [reflexivity|done]). }
  destruct E as (out & st' & E & Es & Ec).
  destruct (handled_local s m out st' w Hi) as [Est Hl]; [by destruct Hm as [->|[->| ->]]|by destruct Hm as [->|[->| ->]]|done|done|].
  by exists out, (with_coord st' w).
Qed.

Lemma cancel_step s reqId planId w :
  idle s w = true ->
  exists out w', step weights bounds (Receive s (cancel reqId planId)) w = Some (out, w') /\ local_step s w w' /\
    w'.(World.coord).(Coord.cancelled) = {[reqId]} ∪ w.(World.coord).(Coord.cancelled) /\
    w'.(World.connections) = w.(World.connections) /\ w'.(World.commits) = w.(World.commits).
Proof.
  intros Hi.
  assert (E : exists out st', handleMessage weights bounds s (cancel reqId planId) w.(World.coord) = (Ok out, st') /\
    st'.(Coord.socketToWorker) = w.(World.coord).(Coord.socketToWorker) /\
    st'.(Coord.cancelled) = {[reqId]} ∪ w.(World.coord).(Coord.cancelled)).
  { unfold handleMessage. cbn [cancel plainMessage clientMessage Message.type]. unfold handleCancel, reply, releaseClaims, update_state.
    cbn [cancel plainMessage clientMessage Message.requestId Message.planId].
    eexists _, _. split; [reflexivity|]. repeat case_match; done. }
  destruct E as (out & st' & E & Es & Ec).
  destruct (handled_local s (cancel reqId planId) out st' w Hi) as [Est Hl]; [discriminate|done|done|done|]. by exists out, (with_coord st' w).
Qed.

Lemma commit_step s m w :
  idle s w = true -> m.(Message.type) = MessageType.COMMIT_REQUEST ->
  exists out w', step weights bounds (Receive s m) w = Some (out, w') /\ local_step s w w' /\ same_cancelled w w' /\
    w'.(World.connections) = w.(World.connections) /\
    (w'.(World.commits) !! s = None \/ exists p, w'.(World.commits) !! s = Some (p, None) /\ pending_wf s p).
Proof.
  intros Hi Ht. assert (Hn : w.(World.commits) !! s = None) by (unfold idle in Hi; apply andb_true_iff in Hi as [_ Hi]; by apply bool_decide_eq_true in Hi).
  destruct (commitBegin s m (World.coord w)) as [[out|p] st'] eqn:E.
  - assert (Est : step weights bounds (Receive s m) w = Some (out, with_coord st' w)) by (simpl; rewrite Hi, Ht, E; reflexivity).
    eexists _, _. split; [exact Est|]. unfold commitBegin, update_state in E.
    split; [split|split; [|split; [done|by left]]]; try done; try (repeat case_match; simplify_eq; done).
  - assert (Est : step weights bounds (Receive s m) w = Some ([], {| World.coord := st'; World.connections := w.(World.connections);
      World.commits := <[s := (p, None)]> w.(World.commits) |})) by (simpl; rewrite Hi, Ht, E; reflexivity).
    eexists _, _. split; [exact Est|]. pose proof (step_keeps_plans _ _ _ _ Est) as Hpl. unfold commitBegin, update_state in E.
    assert (Hk : st'.(Coord.snap) = w.(World.coord).(Coord.snap) /\ st'.(Coord.socketToWorker) = w.(World.coord).(Coord.socketToWorker) /\
      st'.(Coord.counters) = w.(World.coord).(Coord.counters) /\ st'.(Coord.cancelled) = w.(World.coord).(Coord.cancelled) /\ pending_wf s p)
      by (repeat case_match; simplify_eq; (split_and!; [done..|split; cbn; [done|by rewrite length_replicate]])).
    destruct Hk as (E1 & E2 & E3 & E4 & Hpw).
    split; [|split; [exact E4|split; [done|right; exists p; split; [apply lookup_insert_eq|exact Hpw]]]].
    split; cbn; try done; [|by rewrite E3]. intros x Hx. by rewrite lookup_insert_ne.
Qed.

Lemma acquire_step s p w :
  w.(World.commits) !! s = Some (p, None) -> pending_wf s p ->
  exists out w' a, step weights bounds (Acquire s) w = Some (out, w') /\ local_step s w w' /\ same_cancelled w w' /\
    w'.(World.connections) = w.(World.connections) /\ w'.(World.commits) !! s = Some (p, Some a).
Proof using HL.
  intros Hp [_ Hl]. destruct (acquire_defined w.(World.coord).(Coord.broker) _ _ Hl) as (a & b & E).
  eexists _, _, a. split; [simpl; rewrite Hp; unfold commitAcquire; rewrite E; reflexivity|].
  split; [|split; [done|split; [done|apply lookup_insert_eq]]]. split; cbn; try done. intros x Hx. by rewrite lookup_insert_ne.
Qed.

Lemma finish_step s p a w :
  w.(World.commits) !! s = Some (p, Some a) ->
  exists out w', step weights bounds (Finish s) w = Some (out, w') /\ local_step s w w' /\ same_cancelled w w' /\
    w'.(World.connections) = w.(World.connections) /\ w'.(World.commits) !! s = None.
Proof.
  intros Hp. destruct (commitFinish p a (World.coord w)) as [out st'] eqn:E.
  assert (Est : step weights bounds (Finish s) w = Some (out, {| World.coord := st'; World.connections := w.(World.connections);
    World.commits := delete s w.(World.commits) |})) by (simpl; rewrite Hp, E; reflexivity).
  eexists _, _. split; [exact Est|]. pose proof (step_keeps_plans _ _ _ _ Est) as Hpl. unfold commitFinish, update_state in E.
  assert (Hk : st'.(Coord.snap) = w.(World.coord).(Coord.snap) /\ st'.(Coord.socketToWorker) = w.(World.coord).(Coord.socketToWorker) /\
    st'.(Coord.counters) = w.(World.coord).(Coord.counters) /\ st'.(Coord.cancelled) = w.(World.coord).(Coord.cancelled))
    by (repeat case_match; simplify_eq; done).
  destruct Hk as (E1 & E2 & E3 & E4).
  split; [|split; [exact E4|split; [done|apply lookup_delete_eq]]].
  split; cbn; try done; [|by rewrite E3]. intros x Hx. by rewrite lookup_delete_ne.
Qed.
End system.

(** ** A pool of threads over evidence that nobody changes *)

Section pool.
Context {B : Type} `{HB : ResourceBroker B} {HL : ResourceBrokerLaws B}.
Context (weights : gmap CostFactor double) (bounds : Bounds).
Context (evidence : EvidenceSnapshot) (req : Z -> CommunicationRequest) (base stride : Z).

(** The requests are planned on this evidence, whatever was planned before. *)
Record plannable : Prop := {
  pl_id : forall id, (req id).(Request.id) = id;
  pl_plan : forall id cs, id <> 0 -> counters_wf cs -> exists po cs',
    planCommunication (req id) evidence weights bounds cs = (Ok po, cs') /\ po.(PlanOutcome.success) = true /\ is_Some po.(PlanOutcome.plan);
  pl_base : 0 <= base;
  pl_stride : 0 < stride;
}.

(** Thread [i] submits requests of its own range, in order. *)
Definition first_id (i : nat) : Z := base + Z.of_nat i * stride + 1.
Definition last_id (i : nat) : Z := base + (Z.of_nat i + 1) * stride.

(** [yields i next p n c]: the program [p] of thread [i], which has submitted its requests
    below [next], increments [okCount] [n] times and [cancelTerminal] [c] times if its
    submissions succeed, whatever its other calls answer. *)
Inductive yields (i : nat) : Z -> Client -> nat -> nat -> Prop :=
  | yields_return next : yields i next Return 0 0
  | yields_ok next p n c : next <> first_id i -> yields i next p n c -> yields i next (FetchAdd okCount p) (S n) c
  | yields_cancel next p n c : next <> first_id i -> yields i next p n c -> yields i next (FetchAdd cancelTerminal p) n (S c)
  | yields_submit next id k n c : next <= id <= last_id i ->
      (forall x, x.(Message.type) = MessageType.PLAN_RESULT -> x.(Message.ok) = true -> yields i (id + 1) (k (Some x)) n c) ->
      yields i next (Call (submitRequest (req id)) k) n c
  | yields_cancelling next id planId k n c : first_id i <= id < next ->
      (forall r, yields i next (k r) n c) -> yields i next (Call (cancel id planId) k) n c
  | yields_commit next planId k n c : (forall r, yields i next (k r) n c) -> yields i next (Call (commitPlan planId) k) n c
  | yields_call next m k n c : plan_call m -> (forall r, yields i next (k r) n c) -> yields i next (Call m k) n c.

(** A thread between its steps, and its connection at the server. *)
Definition thread_ok (w : World B) (i : nat) (t : Thread) (sp : Z * nat * nat) : Prop :=
  let s := threadSocket i in
  let '(next, n, c) := sp in
  first_id i <= next <= last_id i + 1 /\ (next <> first_id i -> w.(World.coord).(Coord.plans) <> ∅) /\
  match t with
  | Starting p => s ∉ w.(World.connections) /\ w.(World.commits) !! s = None /\ yields i next p n c
  | Running p => s ∈ w.(World.connections) /\ w.(World.commits) !! s = None /\ yields i next p n c
  | Waiting k => s ∈ w.(World.connections) /\ (exists p a, w.(World.commits) !! s = Some (p, a) /\ pending_wf s p) /\
      forall r, yields i next (k r) n c
  | Ended => s ∉ w.(World.connections) /\ w.(World.commits) !! s = None /\ n = 0%nat /\ c = 0%nat
  end.

Definition expected_oks (specs : list (Z * nat * nat)) : nat := sum_list_with (fun sp => sp.1.2) specs.
Definition expected_cancels (specs : list (Z * nat * nat)) : nat := sum_list_with snd specs.

(** The pool: every thread is as its specification says, the evidence is unchanged, only
    requests that were submitted are cancelled, and the counters lack what is to come. *)
Record pool_inv (oks cancels : nat) (specs : list (Z * nat * nat)) (y : System B) : Prop := {
  pi_length : length specs = length y.(System.threads);
  pi_threads : forall i t sp, y.(System.threads) !! i = Some t -> specs !! i = Some sp -> thread_ok y.(System.world) i t sp;
  pi_evidence : y.(System.world).(World.coord).(Coord.snap) = evidence;
  pi_counters : counters_wf y.(System.world).(World.coord).(Coord.counters);
  pi_workers : forall i, y.(System.world).(World.coord).(Coord.socketToWorker) !! threadSocket i = None;
  pi_cancelled : forall id, id ∈ y.(System.world).(World.coord).(Coord.cancelled) ->
    exists i next n c, specs !! i = Some (next, n, c) /\ first_id i <= id < next;
  pi_oks : (y.(System.oks) + expected_oks specs)%nat = oks;
  pi_cancels : (y.(System.cancels) + expected_cancels specs)%nat = cancels;
  pi_plans : (0 < y.(System.oks))%nat -> y.(System.world).(World.coord).(Coord.plans) <> ∅;
}.

Lemma sum_list_with_insert {A} (f : A -> nat) l i x x' :
  l !! i = Some x -> (sum_list_with f (<[i := x']> l) + f x = sum_list_with f l + f x')%nat.
Proof. revert i; induction l as [|y l IH]; intros [|i] H; simplify_eq/=; [lia|]. specialize (IH _ H). lia. Qed.

Lemma threadSocket_inj i j : threadSocket i = threadSocket j -> i = j.
Proof. unfold threadSocket. lia. Qed.

(** A step of thread [i] that keeps its account keeps the pool. *)
Lemma pool_step oks cancels specs y i t next n c w t' next' n' c' (d e : nat) y' :
  pool_inv oks cancels specs y -> y.(System.threads) !! i = Some t -> specs !! i = Some (next, n, c) ->
  local_step (threadSocket i) y.(System.world) w -> next <= next' ->
  (forall id, id ∈ w.(World.coord).(Coord.cancelled) -> id ∈ y.(System.world).(World.coord).(Coord.cancelled) \/ first_id i <= id < next') ->
  thread_ok w i t' (next', n', c') -> n = (d + n')%nat -> c = (e + c')%nat ->
  y' = {| System.world := w; System.threads := <[i := t']> y.(System.threads); System.oks := d + y.(System.oks);
          System.cancels := e + y.(System.cancels) |} ->
  ((0 < d)%nat -> w.(World.coord).(Coord.plans) <> ∅) ->
  pool_inv oks cancels (<[i := (next', n', c')]> specs) y'.
Proof.
  intros Hi Ht Hsp [Ls Lk Lc Lm Lw Lp] Hnext Hcan Hok -> -> -> Hd. split; cbn [System.world System.threads System.oks System.cancels].
  - rewrite !length_insert. apply (pi_length _ _ _ _ Hi).
  - intros j tj spj Htj Hspj. destruct (decide (j = i)) as [->|Hne].
    + rewrite list_lookup_insert_eq in Htj by (by eapply lookup_lt_Some). rewrite list_lookup_insert_eq in Hspj by (by eapply lookup_lt_Some).
      by simplify_eq.
    + rewrite list_lookup_insert_ne in Htj by done. rewrite list_lookup_insert_ne in Hspj by done. pose proof (pi_threads _ _ _ _ Hi j tj spj Htj Hspj) as Hj.
      assert (Hs : threadSocket j <> threadSocket i) by (by intros E%threadSocket_inj).
      destruct spj as [[nx nn] cc]. unfold thread_ok in *. destruct Hj as (Hr & Hp & Hj). split; [done|]. split; [auto|].
      destruct tj; rewrite Lc, Lm by done; done.
  - rewrite Ls. apply (pi_evidence _ _ _ _ Hi).
  - apply Lw, (pi_counters _ _ _ _ Hi).
  - intros j. rewrite Lk. apply (pi_workers _ _ _ _ Hi).
  - intros id Hid. destruct (Hcan id Hid) as [Hold|Hnew].
    + destruct (pi_cancelled _ _ _ _ Hi id Hold) as (j & nx & nn & cc & Hj & Hr). destruct (decide (j = i)) as [->|Hne].
      * exists i, next', n', c'. rewrite list_lookup_insert_eq by (by eapply lookup_lt_Some). simplify_eq. split; [done|lia].
      * exists j, nx, nn, cc. by rewrite list_lookup_insert_ne.
    + exists i, next', n', c'. rewrite list_lookup_insert_eq by (by eapply lookup_lt_Some). done.
  - pose proof (sum_list_with_insert (fun sp : Z * nat * nat => sp.1.2) specs i _ (next', n', c') Hsp) as Hsum.
    pose proof (pi_oks _ _ _ _ Hi) as Ho. unfold expected_oks in *. cbn in Hsum. lia.
  - pose proof (sum_list_with_insert (snd : Z * nat * nat -> nat) specs i _ (next', n', c') Hsp) as Hsum.
    pose proof (pi_cancels _ _ _ _ Hi) as Ho. unfold expected_cancels in *. cbn in Hsum. lia.
  - intros Hpos. destruct d as [|d]; [|apply Hd; lia]. apply Lp, (pi_plans _ _ _ _ Hi), Hpos.
Qed.

Hypothesis Hplan : plannable.

(** A step [ev] that is possible and leaves thread [i] as [next_thread] says keeps the pool. *)
Definition moves oks cancels (y : System B) (i : nat) (ev : event) (next_thread : World B -> list (Z * Message) -> Thread) : Prop :=
  exists out w, step weights bounds ev y.(System.world) = Some (out, w) /\
    exists specs, pool_inv oks cancels specs (set_thread i (next_thread w out) w y).

Definition after_call (i : nat) (k : option Message -> Client) (w : World B) (out : list (Z * Message)) : Thread :=
  match w.(World.commits) !! threadSocket i with Some _ => Waiting k | None => Running (k (answer (threadSocket i) out)) end.

Lemma running_idle (w : World B) i : threadSocket i ∈ w.(World.connections) -> w.(World.commits) !! threadSocket i = None -> idle (threadSocket i) w = true.
Proof. intros H1 H2. unfold idle. by rewrite !bool_decide_eq_true_2. Qed.

Lemma answer_single s x : answer s [(s, x)] = Some x.
Proof. unfold answer. by rewrite filter_cons_True. Qed.

(** The steps that keep the account of their thread. *)
Lemma plain_move oks cancels specs y i t next n c ev out w t' :
  pool_inv oks cancels specs y -> y.(System.threads) !! i = Some t -> specs !! i = Some (next, n, c) ->
  step weights bounds ev y.(System.world) = Some (out, w) -> local_step (threadSocket i) y.(System.world) w ->
  (forall id, id ∈ w.(World.coord).(Coord.cancelled) -> id ∈ y.(System.world).(World.coord).(Coord.cancelled) \/ first_id i <= id < next) ->
  (next <> first_id i -> w.(World.coord).(Coord.plans) <> ∅) ->
  match t' with
  | Starting p => threadSocket i ∉ w.(World.connections) /\ w.(World.commits) !! threadSocket i = None /\ yields i next p n c
  | Running p => threadSocket i ∈ w.(World.connections) /\ w.(World.commits) !! threadSocket i = None /\ yields i next p n c
  | Waiting k => threadSocket i ∈ w.(World.connections) /\ (exists p a, w.(World.commits) !! threadSocket i = Some (p, a) /\ pending_wf (threadSocket i) p) /\
      forall r, yields i next (k r) n c
  | Ended => threadSocket i ∉ w.(World.connections) /\ w.(World.commits) !! threadSocket i = None /\ n = 0%nat /\ c = 0%nat
  end ->
  exists specs', pool_inv oks cancels specs' (set_thread i t' w y).
Proof.
  intros Hi Ht Hsp Hs Hl Hcan Hpl Ht'. eexists.
  pose proof (pi_threads _ _ _ _ Hi i t _ Ht Hsp) as (Hr & _ & _).
  eapply (pool_step _ _ _ _ _ _ _ _ _ w t' next n c 0 0); try done; intros; lia.
Qed.

Lemma call_move oks cancels specs y i m k next n c :
  pool_inv oks cancels specs y -> y.(System.threads) !! i = Some (Running (Call m k)) -> specs !! i = Some (next, n, c) ->
  moves oks cancels y i (Receive (threadSocket i) m) (after_call i k).
Proof using HL Hplan.
  intros Hi Ht Hsp. pose proof (pi_threads _ _ _ _ Hi i _ _ Ht Hsp) as (Hr & Hpl & Hcon & Hcom & Hy). pose proof (running_idle _ _ Hcon Hcom) as Hidle.
  inversion Hy as [| | |next' id k' n' c' Hid Hk|next' id pid k' n' c' Hid Hk|next' pid k' n' c' Hk|next' m' k' n' c' Hm Hk]; subst.
  - destruct (pl_plan Hplan id y.(System.world).(World.coord).(Coord.counters)) as (po & cs & Hp & Hs & Hpo);
      [pose proof (pl_base Hplan); pose proof (pl_stride Hplan); unfold first_id in *; nia|apply (pi_counters _ _ _ _ Hi)|].
    rewrite <- (pi_evidence _ _ _ _ Hi) in Hp.
    destruct (submit_step weights bounds (threadSocket i) (req id) y.(System.world) po cs Hidle) as (x & w & Hst & Hl & Hc & Ecn & Ecm & Ext & Exo & Epl);
      [rewrite (pl_id Hplan)|rewrite (pl_id Hplan)|done..|].
    { pose proof (pl_base Hplan); pose proof (pl_stride Hplan); unfold first_id in *; nia. }
    { intros Hin. destruct (pi_cancelled _ _ _ _ Hi id Hin) as (j & nx & nn & cc & Hj & Hrange). destruct (decide (j = i)) as [->|Hne]; [simplify_eq; lia|].
      assert (Hjt : is_Some (System.threads y !! j)) by (apply lookup_lt_is_Some; rewrite <- (pi_length _ _ _ _ Hi); by eapply lookup_lt_Some).
      destruct Hjt as [tj Hjt]. destruct (pi_threads _ _ _ _ Hi j tj _ Hjt Hj) as (Hrj & _ & _).
      pose proof (pl_stride Hplan). unfold first_id, last_id in *. nia. }
    exists [(threadSocket i, x)], w. split; [exact Hst|]. unfold after_call. rewrite Ecm, Hcom, answer_single. eexists.
    eapply (pool_step _ _ _ _ _ _ _ _ _ w _ (id + 1) n c 0 0); try done; [lia|intros id'; rewrite Hc; by left|].
    split; [lia|]. split; [done|]. rewrite Ecn, Ecm. split; [done|]. split; [done|]. by apply Hk.
  - destruct (cancel_step weights bounds (threadSocket i) id pid y.(System.world) Hidle) as (out & w & Hst & Hl & Hc & Ecn & Ecm).
    exists out, w. split; [exact Hst|]. unfold after_call. rewrite Ecm, Hcom.
    eapply plain_move; try done; [rewrite Hc; set_solver|intros Hn; by apply (ls_plans _ _ _ Hl), Hpl|]. rewrite Ecn, Ecm. auto.
  - destruct (commit_step weights bounds (threadSocket i) (commitPlan pid) y.(System.world) Hidle eq_refl) as (out & w & Hst & Hl & Hc & Ecn & Hcm).
    exists out, w. split; [exact Hst|]. unfold after_call.
    destruct Hcm as [E|(p & E & Hpw)]; rewrite E; (eapply plain_move; try done;
      [rewrite Hc; by left|intros Hn; by apply (ls_plans _ _ _ Hl), Hpl|]); rewrite Ecn; [by auto|]. split; [done|]. split; [by eauto|done].
  - destruct (plan_call_step weights bounds (threadSocket i) m y.(System.world) Hidle Hm) as (out & w & Hst & Hl & Hc & Ecn & Ecm).
    exists out, w. split; [exact Hst|]. unfold after_call. rewrite Ecm, Hcom.
    eapply plain_move; try done; [rewrite Hc; by left|intros Hn; by apply (ls_plans _ _ _ Hl), Hpl|]. rewrite Ecn, Ecm. auto.
Qed.

Lemma connect_move oks cancels specs y i p next n c :
  pool_inv oks cancels specs y -> y.(System.threads) !! i = Some (Starting p) -> specs !! i = Some (next, n, c) ->
  moves oks cancels y i (Accept (threadSocket i)) (fun _ _ => Running p).
Proof.
  intros Hi Ht Hsp. destruct (pi_threads _ _ _ _ Hi i _ _ Ht Hsp) as (_ & Hpl & Hcon & Hcom & Hy).
  destruct (accept_step weights bounds (threadSocket i) y.(System.world) Hcon) as (out & w & Hst & Hl & Hc & Hcn & Ecm).
  exists out, w. split; [exact Hst|].
  eapply plain_move; try done; [rewrite Hc; by left|intros Hn; by apply (ls_plans _ _ _ Hl), Hpl|]. by rewrite Ecm.
Qed.

Lemma leave_move oks cancels specs y i next n c :
  pool_inv oks cancels specs y -> y.(System.threads) !! i = Some (Running Return) -> specs !! i = Some (next, n, c) ->
  moves oks cancels y i (Disconnect (threadSocket i)) (fun _ _ => Ended).
Proof.
  intros Hi Ht Hsp. destruct (pi_threads _ _ _ _ Hi i _ _ Ht Hsp) as (_ & Hpl & Hcon & Hcom & Hy).
  destruct (disconnect_step weights bounds (threadSocket i) y.(System.world) (running_idle _ _ Hcon Hcom) (pi_workers _ _ _ _ Hi i))
    as (out & w & Hst & Hl & Hc & Hcn & Ecm).
  exists out, w. split; [exact Hst|].
  eapply plain_move; try done; [rewrite Hc; by left|intros Hn; by apply (ls_plans _ _ _ Hl), Hpl|]. rewrite Ecm.
  split; [done|]. split; [done|]. by inversion Hy.
Qed.

(** The handler of a waiting thread first acquires, then finishes. *)
Lemma wait_move oks cancels specs y i k next n c :
  pool_inv oks cancels specs y -> y.(System.threads) !! i = Some (Waiting k) -> specs !! i = Some (next, n, c) ->
  (moves oks cancels y i (Acquire (threadSocket i)) (fun _ _ => Waiting k) /\
   step weights bounds (Finish (threadSocket i)) y.(System.world) = None) \/
  (moves oks cancels y i (Finish (threadSocket i)) (fun _ out => Running (k (answer (threadSocket i) out))) /\
   step weights bounds (Acquire (threadSocket i)) y.(System.world) = None).
Proof using HL.
  intros Hi Ht Hsp. destruct (pi_threads _ _ _ _ Hi i _ _ Ht Hsp) as (_ & Hpl & Hcon & (p & a & Hcom & Hpw) & Hy). destruct a as [a|].
  - right. destruct (finish_step weights bounds (threadSocket i) p a y.(System.world) Hcom) as (out & w & Hst & Hl & Hc & Ecn & Ecm).
    split; [|simpl; by rewrite Hcom]. exists out, w. split; [exact Hst|].
    eapply plain_move; try done; [rewrite Hc; by left|intros Hn; by apply (ls_plans _ _ _ Hl), Hpl|]. rewrite Ecn, Ecm. auto.
  - left. destruct (acquire_step weights bounds (threadSocket i) p y.(System.world) Hcom Hpw) as (out & w & a & Hst & Hl & Hc & Ecn & Ecm).
    split; [|simpl; by rewrite Hcom]. exists out, w. split; [exact Hst|].
    eapply plain_move; try done; [rewrite Hc; by left|intros Hn; by apply (ls_plans _ _ _ Hl), Hpl|]. rewrite Ecn, Ecm. split; [done|]. split; [by eauto|done].
Qed.

Lemma count_move oks cancels specs y i counter p next n c :
  pool_inv oks cancels specs y -> y.(System.threads) !! i = Some (Running (FetchAdd counter p)) -> specs !! i = Some (next, n, c) ->
  exists specs', pool_inv oks cancels specs' (count counter (set_thread i (Running p) y.(System.world) y)).
Proof.
  intros Hi Ht Hsp. destruct (pi_threads _ _ _ _ Hi i _ _ Ht Hsp) as (Hr & Hpl & Hcon & Hcom & Hy).
  assert (Hrefl : local_step (threadSocket i) y.(System.world) y.(System.world)) by by split.
  inversion Hy as [|next' p' n' c' Hn Hp|next' p' n' c' Hn Hp| | | |]; subst; eexists.
  - eapply (pool_step _ _ _ _ _ _ _ _ _ y.(System.world) (Running p) next n' c 1 0); try done; [intros; by left|auto].
  - eapply (pool_step _ _ _ _ _ _ _ _ _ y.(System.world) (Running p) next n c' 0 1); try done; [intros; by left|intros; lia].
Qed.

Lemma pool_thread_spec oks cancels specs y i t :
  pool_inv oks cancels specs y -> y.(System.threads) !! i = Some t -> exists next n c, specs !! i = Some (next, n, c).
Proof.
  intros Hi Ht. assert (Hs : is_Some (specs !! i)) by (apply lookup_lt_is_Some; rewrite (pi_length _ _ _ _ Hi); by eapply lookup_lt_Some).
  destruct Hs as [[[next n] c] Hs]. eauto.
Qed.

(** Every step of the system keeps the pool. *)
Lemma system_step_inv oks cancels specs y y' :
  pool_inv oks cancels specs y -> system_step weights bounds y y' -> exists specs', pool_inv oks cancels specs' y'.
Proof using HL Hplan.
  intros Hi Hs.
  assert (Hdet : forall i ev f out w, moves oks cancels y i ev f -> step weights bounds ev y.(System.world) = Some (out, w) ->
    exists specs', pool_inv oks cancels specs' (set_thread i (f w out) w y)).
  { intros i ev f out w (out' & w' & E & specs' & H) E'. rewrite E in E'. injection E' as <- <-. by exists specs'. }
  destruct Hs as [i p out w Ht E|i m k out w Ht E|i k out w Ht E|i k out w Ht E|i counter p Ht|i out w Ht E];
    destruct (pool_thread_spec _ _ _ _ _ _ Hi Ht) as (next & n & c & Hsp).
  - exact (Hdet _ _ _ _ _ (connect_move _ _ _ _ _ _ _ _ _ Hi Ht Hsp) E).
  - exact (Hdet _ _ _ _ _ (call_move _ _ _ _ _ _ _ _ _ _ Hi Ht Hsp) E).
  - destruct (wait_move _ _ _ _ _ _ _ _ _ Hi Ht Hsp) as [[Hm _]|[_ Hn]]; [exact (Hdet _ _ _ _ _ Hm E)|congruence].
  - destruct (wait_move _ _ _ _ _ _ _ _ _ Hi Ht Hsp) as [[_ Hn]|[Hm _]]; [congruence|exact (Hdet _ _ _ _ _ Hm E)].
  - by eapply count_move.
  - exact (Hdet _ _ _ _ _ (leave_move _ _ _ _ _ _ _ _ Hi Ht Hsp) E).
Qed.

(** As long as a thread has not ended it can go on. *)
Lemma system_progress oks cancels specs y i t :
  pool_inv oks cancels specs y -> y.(System.threads) !! i = Some t -> t <> Ended -> exists y', system_step weights bounds y y'.
Proof using HL Hplan.
  intros Hi Ht Hne. destruct (pool_thread_spec _ _ _ _ _ _ Hi Ht) as (next & n & c & Hsp). destruct t as [p|[|m k|counter p]|k|]; [..|done].
  - destruct (connect_move _ _ _ _ _ _ _ _ _ Hi Ht Hsp) as (out & w & E & _). eexists. by eapply thread_connects.
  - destruct (leave_move _ _ _ _ _ _ _ _ Hi Ht Hsp) as (out & w & E & _). eexists. by eapply thread_leaves.
  - destruct (call_move _ _ _ _ _ _ _ _ _ _ Hi Ht Hsp) as (out & w & E & _). eexists. by eapply thread_calls.
  - eexists. by eapply thread_counts.
  - destruct (wait_move _ _ _ _ _ _ _ _ _ Hi Ht Hsp) as [[(out & w & E & _) _]|[(out & w & E & _) _]]; eexists;
      [by eapply thread_acquires|by eapply thread_finishes].
Qed.
End pool.

(** ** The threads come to their ends *)

Section cost.
Context {B : Type} `{HB : ResourceBroker B}.
Context (weights : gmap CostFactor double) (bounds : Bounds).

(** A program of at most [n] calls and increments, whatever the answers. *)
Inductive within : nat -> Client -> Prop :=
  | within_return n : within n Return
  | within_call n m k : (forall r, within n (k r)) -> within (S n) (Call m k)
  | within_add n c p : within n p -> within (S n) (FetchAdd c p).

(** At most [m] steps are left of a thread: a call takes three at most. *)
Definition cost_ok (w : World B) (i : nat) (t : Thread) (m : nat) : Prop :=
  match t with
  | Starting p => exists n, within n p /\ (3 * n + 2 <= m)%nat
  | Running p => exists n, within n p /\ (3 * n + 1 <= m)%nat
  | Waiting k => exists n, (forall r, within n (k r)) /\
      (3 * n + 1 + match w.(World.commits) !! threadSocket i with Some (_, None) => 2 | _ => 1 end <= m)%nat
  | Ended => True
  end.

(** The socket whose handler takes a step. *)
Definition event_socket (ev : event) : option Z :=
  match ev with
  | Accept s | Receive s _ | Acquire s | Finish s | Disconnect s | Close s | Undecodable s _ => Some s
  | Stop => None
  end.

Lemma step_commits ev s (w w' : World B) out x :
  event_socket ev = Some s -> step weights bounds ev w = Some (out, w') -> x <> s -> w'.(World.commits) !! x = w.(World.commits) !! x.
Proof.
  intros He H Hx. destruct ev as [s'|s' m|s'|s'|s'|s'|s' d|]; simplify_eq/=.
  - by case_bool_decide; simplify_eq/=.
  - destruct (idle s w); [|done]. cbn [negb] in H. destruct (Message.type m); try (destruct (handleMessage _ _ _ _ _) as [[o|e] st']; simplify_eq/=; done).
    destruct (commitBegin s m (World.coord w)) as [[o|p] st']; simplify_eq/=; [done|]. by rewrite lookup_insert_ne.
  - destruct (World.commits w !! s) as [[p [a|]]|]; [done| |done]. destruct (commitAcquire _ _) as [[a|e] st']; simplify_eq/=. by rewrite lookup_insert_ne.
  - destruct (World.commits w !! s) as [[p [a|]]|]; [|done..]. destruct (commitFinish _ _ _) as [o st']; simplify_eq/=. by rewrite lookup_delete_ne.
  - by destruct (idle s w); simplify_eq/=.
  - by destruct (idle s w && _); simplify_eq/=.
  - by destruct (idle s w); simplify_eq/=.
Qed.

Definition costs_ok (ms : list nat) (y : System B) : Prop :=
  length ms = length y.(System.threads) /\
  forall i t m, y.(System.threads) !! i = Some t -> ms !! i = Some m -> cost_ok y.(System.world) i t m.

Lemma costs_step ms y i t m ev out w t' m' y' :
  costs_ok ms y -> y.(System.threads) !! i = Some t -> ms !! i = Some m -> (m' < m)%nat ->
  step weights bounds ev y.(System.world) = Some (out, w) -> event_socket ev = Some (threadSocket i) -> cost_ok w i t' m' ->
  y'.(System.world) = w -> y'.(System.threads) = <[i := t']> y.(System.threads) ->
  exists ms', costs_ok ms' y' /\ (sum_list ms' < sum_list ms)%nat.
Proof.
  intros [Hl Hc] Ht Hm Hlt Hs He Hok <- Et. exists (<[i := m']> ms). split; [split|].
  - by rewrite Et, !length_insert.
  - rewrite Et. intros j tj mj Htj Hmj. destruct (decide (j = i)) as [->|Hne].
    + rewrite list_lookup_insert_eq in Htj by (by eapply lookup_lt_Some). rewrite list_lookup_insert_eq in Hmj by (by eapply lookup_lt_Some).
      by simplify_eq.
    + rewrite list_lookup_insert_ne in Htj by done. rewrite list_lookup_insert_ne in Hmj by done.
      pose proof (Hc j tj mj Htj Hmj) as Hj. destruct tj; try done. cbn [cost_ok] in *.
      rewrite (step_commits ev (threadSocket i) _ _ _ _ He Hs) by (by intros E%threadSocket_inj). done.
  - pose proof (sum_list_with_insert id ms i m m' Hm) as Hsum. unfold id in *. lia.
Qed.

Lemma system_step_cost ms y y' : costs_ok ms y -> system_step weights bounds y y' -> exists ms', costs_ok ms' y' /\ (sum_list ms' < sum_list ms)%nat.
Proof.
  intros Hms Hs.
  assert (Hm : forall i t, System.threads y !! i = Some t -> exists m, ms !! i = Some m /\ cost_ok y.(System.world) i t m).
  { intros i t Ht. destruct Hms as [Hl Hc]. assert (Hx : is_Some (ms !! i)) by (apply lookup_lt_is_Some; rewrite Hl; by eapply lookup_lt_Some).
    destruct Hx as [m Hx]. eauto. }
  destruct Hs as [i p out w Ht E|i m k out w Ht E|i k out w Ht E|i k out w Ht E|i counter p Ht|i out w Ht E];
    destruct (Hm i _ Ht) as (mi & Hmi & Hc); cbn [cost_ok] in Hc.
  - destruct Hc as (n & Hn & Hle). eapply (costs_step _ _ _ _ _ _ _ _ _ (3 * n + 1)%nat _ Hms Ht Hmi); [lia|exact E|reflexivity| |done|done]. cbn. eauto.
  - destruct Hc as (n & Hn & Hle). inversion Hn as [|n' m' k' Hk|]; subst.
    destruct (World.commits w !! threadSocket i) as [[p a]|] eqn:Ecom.
    + eapply (costs_step _ _ _ _ _ _ _ _ _ (3 * n' + 3)%nat _ Hms Ht Hmi); [lia|exact E|reflexivity| |done|done].
      cbn. exists n'. split; [done|]. rewrite Ecom. destruct a; lia.
    + eapply (costs_step _ _ _ _ _ _ _ _ _ (3 * n' + 1)%nat _ Hms Ht Hmi); [lia|exact E|reflexivity| |done|done]. cbn. eauto.
  - destruct Hc as (n & Hn & Hle). cbn in E. destruct (World.commits (System.world y) !! threadSocket i) as [[p [a|]]|] eqn:Ecom; [done| |done].
    assert (Est : step weights bounds (Acquire (threadSocket i)) (System.world y) = Some (out, w)) by (simpl; by rewrite Ecom).
    destruct (commitAcquire _ _) as [[a|e] st']; [|done]. injection E as <- <-.
    eapply (costs_step _ _ _ _ _ _ _ _ _ (3 * n + 2)%nat _ Hms Ht Hmi); [lia|exact Est|reflexivity| |done|done].
    cbn. exists n. split; [done|]. rewrite lookup_insert_eq. lia.
  - destruct Hc as (n & Hn & Hle).
    eapply (costs_step _ _ _ _ _ _ _ _ _ (3 * n + 1)%nat _ Hms Ht Hmi); [|exact E|reflexivity| |done|done].
    + by destruct (World.commits _ !! _) as [[? [?|]]|]; lia.
    + cbn. exists n. split; [apply Hn|lia].
  - destruct Hc as (n & Hn & Hle). inversion Hn as [| |n' c' p' Hp]; subst. destruct Hms as [Hl Hc']. exists (<[i := (3 * n' + 1)%nat]> ms). split; [split|].
    + cbn. by rewrite !length_insert.
    + cbn. intros j tj mj Htj Hmj. destruct (decide (j = i)) as [->|Hne].
      * rewrite list_lookup_insert_eq in Htj by (by eapply lookup_lt_Some). rewrite list_lookup_insert_eq in Hmj by (by eapply lookup_lt_Some).
        simplify_eq. cbn. eauto.
      * rewrite list_lookup_insert_ne in Htj by done. rewrite list_lookup_insert_ne in Hmj by done. by apply Hc'.
    + pose proof (sum_list_with_insert id ms i mi (3 * n' + 1)%nat Hmi) as Hsum. unfold id in *. lia.
  - destruct Hc as (n & Hn & Hle). eapply (costs_step _ _ _ _ _ _ _ _ _ 0%nat _ Hms Ht Hmi); [lia|exact E|reflexivity| |reflexivity|reflexivity]. exact I.
Qed.

(** No execution is longer than its costs. *)
Lemma system_steps_cost ms y k y' : costs_ok ms y -> nsteps (system_step weights bounds) k y y' -> (k <= sum_list ms)%nat.
Proof.
  intros Hms Hs. revert ms Hms. induction Hs as [y|k y y1 y' H1 Hs IH]; intros ms Hms; [lia|].
  destruct (system_step_cost _ _ _ Hms H1) as (ms1 & Hms1 & Hlt). specialize (IH _ Hms1). lia.
Qed.
End cost.

(** ** Programs of threads that come to their ends *)

Section completion.
Context {B : Type} `{HB : ResourceBroker B} {HL : ResourceBrokerLaws B}.
Context (weights : gmap CostFactor double) (bounds : Bounds).

Definition all_ended (y : System B) : Prop := Forall (fun t => t = Ended) y.(System.threads).

(** However the threads interleave, after at most [n] steps every thread has ended, none
    is stuck before, and then [Final] holds. *)
Definition completes (n : nat) (Final : System B -> Prop) (y0 : System B) : Prop :=
  (forall k y, nsteps (system_step weights bounds) k y0 y -> (k <= n)%nat) /\
  (forall y, rtc (system_step weights bounds) y0 y ->
    (all_ended y /\ Final y) \/ (~ all_ended y /\ exists y', system_step weights bounds y y')).

Lemma all_ended_dec (y : System B) : all_ended y \/ exists i t, y.(System.threads) !! i = Some t /\ t <> Ended.
Proof.
  unfold all_ended. induction (System.threads y) as [|t l IH]; [by left|].
  destruct t as [p|p|k|]; [right; eexists 0%nat, _; done..|].
  destruct IH as [H|(i & t & Hi & Ht)]; [left; by constructor|right; by exists (S i), t].
Qed.

Lemma pool_ended evidence req base stride oks cancels specs (y : System B) :
  pool_inv evidence req base stride oks cancels specs y -> all_ended y -> y.(System.oks) = oks /\ y.(System.cancels) = cancels.
Proof.
  intros Hi He. assert (Hz : forall sp, sp ∈ specs -> sp.1.2 = 0%nat /\ sp.2 = 0%nat).
  { intros sp Hsp. apply list_elem_of_lookup in Hsp as [i Hsp].
    assert (Ht : is_Some (System.threads y !! i)) by (apply lookup_lt_is_Some; rewrite <- (pi_length _ _ _ _ _ _ _ _ Hi); by eapply lookup_lt_Some).
    destruct Ht as [t Ht]. pose proof (pi_threads _ _ _ _ _ _ _ _ Hi i t sp Ht Hsp) as Hok. unfold all_ended in He. rewrite Forall_lookup in He.
    rewrite (He i t Ht) in Hok. destruct sp as [[nx n] c]. by destruct Hok as (_ & _ & _ & _ & -> & ->). }
  assert (Hs : expected_oks specs = 0%nat /\ expected_cancels specs = 0%nat).
  { unfold expected_oks, expected_cancels. clear Hi He. induction specs as [|sp l IH]; [done|].
    destruct (Hz sp) as [E1 E2]; [left|]. destruct IH as [I1 I2]; [intros; apply Hz; by right|]. cbn. lia. }
  pose proof (pi_oks _ _ _ _ _ _ _ _ Hi). pose proof (pi_cancels _ _ _ _ _ _ _ _ Hi). lia.
Qed.

Lemma pool_completes evidence req base stride oks cancels specs ms (y0 : System B) :
  plannable weights bounds evidence req base stride -> pool_inv evidence req base stride oks cancels specs y0 -> costs_ok ms y0 ->
  completes (sum_list ms) (fun y => y.(System.oks) = oks /\ y.(System.cancels) = cancels /\
    ((0 < oks)%nat -> y.(System.world).(World.coord).(Coord.plans) <> ∅)) y0.
Proof using HL.
  intros Hp Hi Hc. split; [intros k y; by eapply system_steps_cost|]. intros y Hs.
  assert (Hy : exists specs', pool_inv evidence req base stride oks cancels specs' y).
  { revert specs Hi. clear Hc. induction Hs as [y|y y1 y' H1 _ IH]; intros specs Hi; [eauto|]. destruct (system_step_inv _ _ _ _ _ _ Hp _ _ _ _ _ Hi H1) as [specs1 Hi1]. eauto. }
  destruct Hy as [specs' Hy]. destruct (all_ended_dec y) as [He|(i & t & Ht & Hne)].
  - left. split; [done|]. destruct (pool_ended _ _ _ _ _ _ _ _ Hy He) as [Eo Ec]. split_and!; [done..|].
    rewrite <- Eo. apply (pi_plans _ _ _ _ _ _ _ _ Hy).
  - right. split; [intros He; unfold all_ended in He; rewrite Forall_lookup in He; by apply Hne, (He i)|].
    by eapply (system_progress _ _ _ _ _ _ Hp).
Qed.
End completion.
