(* ===== verification/Archive.v ===== *)
(** * What the server saves, it can read

    Proves of src/coordinator.cpp and src/persistence.cpp together: for every history of
    a server, which of the checks of [validateStore] its saved store can fail.  The plans
    come from the planner or from a store that was accepted, so their paths, identities
    and selections always pass; what is left is stated exactly. *)

From S2P Require Import Prelude Core Enums Double Rounding Model Scenario Cost Totals Assembly Planner PlanTotals Message Client.
From S2P Require Import Codec Transport Protocol Store Persistence Integrity Broker Coordinator Machine Authority Service Connection.

Section archive.
Context {B : Type} `{HB : ResourceBroker B}.
Context (weights : gmap CostFactor double) (bounds : Bounds).
Implicit Types (st : CoordState B) (w : World B).

Definition storable_plans (plans : gmap Z PlanRecord) : Prop :=
  map_Forall (fun _ r => storable r.(PlanRecord.plan) /\ totalValid r.(PlanRecord.plan).(Plan.cost) = true) plans.

(** A store that is read passed the validation. *)
Lemma parseStore_consistent data s : parseStore data = inr s -> consistent_store s.
Proof.
  unfold parseStore. intros H. destruct (parseHeader data) as [|[[sum len] rest]]; [done|].
  destruct (_ <? _); [done|]. destruct (negb _); [done|]. destruct (parseBody _) as [|[st rem]]; [done|].
  destruct (negb _); [done|]. destruct (negb _); [done|]. case_bool_decide as Hv; [|done]. injection H as <-.
  by apply validateStore_consistent.
Qed.

Lemma parsedFile_consistent file s : parsedFile file = Some s -> consistent_store s.
Proof.
  unfold parsedFile. destruct file as [[|x data]|]; [done| |done].
  destruct (parseStore (x :: data)) eqn:E; [done|]. intros [= <-]. by eapply parseStore_consistent.
Qed.

Lemma start_storable file (b : B) : storable_plans (start file b).(World.coord).(Coord.plans).
Proof.
  cbn [start World.coord]. unfold loadStoreIfAny. destruct (parsedFile file) as [stored|] eqn:E; [|done].
  apply parsedFile_consistent, co_records in E. destruct (loadStore_fields stored (initialCoordinator b)) as [-> _].
  cbn [Coord.plans initialCoordinator conservativeRecovery StoreState.plans].
  assert (H : forall m, storable_plans m -> storable_plans
    (foldl (fun m rec => <[rec.(StoreRecord.plan).(Plan.id) := loadedRecord rec]> m) m
      ((fun rec => {| StoreRecord.plan := rec.(StoreRecord.plan); StoreRecord.state := recoveredState rec.(StoreRecord.state) |})
        <$> stored.(StoreState.plans)))).
  { induction E as [|rec recs Hrec _ IH]; intros m Hm; [done|]. csimpl. apply IH, map_Forall_insert_2; [|done].
    split; [exact (consistent_storable rec Hrec)|exact (cr_total rec Hrec)]. }
  by apply H.
Qed.

Lemma typed_penalties snap : typed_evidence snap -> penalties_wf snap.
Proof. intros [_ Hl]. eapply Forall_impl; [exact Hl|]. intros l Hs. by destruct Hs as (_ & (_ & _ & ?) & _). Qed.

Lemma wire_reachable_reachable w0 w : wire_reachable weights bounds w0 w -> reachable weights bounds w0 w.
Proof. induction 1 as [|w ev out w' _ IH _ Hs]; [constructor|by eapply reachable_step]. Qed.

Context (Hweights : moderate weights).

Lemma step_storable ev w out w' :
  coord_inv w.(World.coord) -> typed_evidence w.(World.coord).(Coord.snap) -> step weights bounds ev w = Some (out, w') ->
  storable_plans w.(World.coord).(Coord.plans) -> storable_plans w'.(World.coord).(Coord.plans).
Proof.
  intros (_ & _ & Hwf) Hty%typed_penalties H Hk id r Hr. pose proof (step_moves_plans _ _ _ _ _ _ id H) as Hm. rewrite Hr in Hm.
  inversion Hm; subst; simpl; try (by eapply Hk).
  match goal with Hp : returns _ _ _ _ |- _ =>
    pose proof (planned_total_valid _ _ _ _ _ _ _ _ Hty Hweights Hwf Hp ltac:(done) ltac:(done));
    eapply planned_is_assembled in Hp as [? ?]; [|done..] end.
  split; [by eapply assembled_storable|done].
Qed.

Lemma wire_storable file (b : B) w :
  wire_reachable weights bounds (start file b) w -> storable_plans w.(World.coord).(Coord.plans).
Proof.
  induction 1 as [|w ev out w' Hw IH _ Hs]; [apply start_storable|].
  eapply step_storable; [|by eapply wire_typed|exact Hs|exact IH]. by eapply reachable_inv, wire_reachable_reachable.
Qed.

(** The plans of a coordinator as its store lists them. *)
Lemma storeOf_ids st : keyed st.(Coord.plans) ->
  NoDup ((fun rec => rec.(StoreRecord.plan).(Plan.id)) <$> (storeOf st).(StoreState.plans)).
Proof.
  intros Hk. unfold storeOf. cbn [StoreState.plans]. rewrite <- list_fmap_compose, plansInOrder_perm, <- list_fmap_compose.
  assert (E : ((fun rec => rec.(StoreRecord.plan).(Plan.id)) ∘ (fun r => {| StoreRecord.plan := r.(PlanRecord.plan);
    StoreRecord.state := r.(PlanRecord.state) |}) ∘ snd) <$> map_to_list st.(Coord.plans) = fst <$> map_to_list st.(Coord.plans)).
  { apply list_fmap_ext. intros i [k r] Hkr%list_elem_of_lookup_2%elem_of_map_to_list. exact (Hk k r Hkr). }
  rewrite E. apply NoDup_fst_map_to_list.
Qed.

Lemma storeOf_records st (P : StoreRecord -> Prop) :
  Forall P (storeOf st).(StoreState.plans) <->
  map_Forall (fun _ r => P {| StoreRecord.plan := r.(PlanRecord.plan); StoreRecord.state := r.(PlanRecord.state) |}) st.(Coord.plans).
Proof.
  unfold storeOf. cbn [StoreState.plans]. rewrite Forall_fmap, plansInOrder_perm, Forall_fmap, map_Forall_to_list.
  apply Forall_iff. by intros [].
Qed.

End archive.

(** A staged plan is committed; and a request is submitted a second time. *)
Definition committedCalls : list (Z * Message) :=
  [(1, registerWorker 10 7 "w"); (1, publishEndpointCall 10 7 gpuA); (1, publishEndpointCall 10 7 gpuB); (1, publishEndpointCall 10 7 hostMem);
   (1, publishLinkCall 10 7 upLink); (1, publishLinkCall 10 7 downLink); (2, submitRequest basicRequest); (2, commitPlan 1)].
Definition committedEvents : list event := [Accept 1; Accept 2] ++ overWire committedCalls ++ [Acquire 2; Finish 2].
Definition resubmittedEvents : list event := committedEvents ++ overWire [(2, submitRequest basicRequest)].

Lemma resubmitted_from_bytes : Forall from_bytes committedEvents /\ Forall from_bytes resubmittedEvents.
Proof.
  assert (Hc : Forall from_bytes committedEvents).
  { apply Forall_app_2; [by repeat constructor|]. apply Forall_app_2; [|by repeat constructor].
    apply overWire_from_bytes. apply (bool_decide_unpack _). vm_compute. exact I. }
  split; [exact Hc|]. apply Forall_app_2; [exact Hc|]. apply overWire_from_bytes. apply (bool_decide_unpack _). vm_compute. exact I.
Qed.

