(* ===== verification/Cuda.v ===== *)
(** * The CUDA worker

    Models cuda/cuda_worker_main.cu: the kernel, what the worker does with the device for
    an order it receives, and its loop over the frames of the coordinator.  The CUDA
    runtime is a parameter, a class [CudaRuntime] whose laws say what its documentation
    promises: a copy that succeeds copies, and a launch that succeeds runs every thread of
    the grid once, in an order that is not known.  Undefined behaviour of C++ (an access
    out of range, a signed overflow) is a result of its own. *)

From S2P Require Import Prelude Core Enums Double Model Message Client Codec Framing Protocol.

(** ** Definitions *)

(** A grid of [g] blocks of [b] threads: the pairs of [blockIdx.x] and [threadIdx.x]. *)
Definition grid (g b : Z) : list (Z * Z) := block ← seqZ 0 g; pair block <$> seqZ 0 b.

(** One thread of [cuda_add_one_kernel(out, in, n)] in blocks of 256; [None] is undefined
    behaviour. *)
Definition cuda_add_one_kernel (n : Z) (inp out : list Z) (t : Z * Z) : option (list Z) :=
  let i := to_int (wrap32 (t.1 * 256 + t.2)) in
  if i <? n then
    if i <? 0 then None
    else
      match inp !! Z.to_nat i, out !! Z.to_nat i with
      | Some v, Some _ => if v =? 2 ^ 31 - 1 then None else Some (<[Z.to_nat i := v + 1]> out)
      | _, _ => None
      end
  else Some out.

(** The threads of a launch, in the order in which they run. *)
Fixpoint runKernel (n : Z) (inp : list Z) (order : list (Z * Z)) (out : list Z) : option (list Z) :=
  match order with
  | [] => Some out
  | t :: order' =>
      match cuda_add_one_kernel n inp out t with Some out' => runKernel n inp order' out' | None => None end
  end.

(** What the CUDA runtime does during one order: the calls of the worker, in its order. *)
Class CudaRuntime := {
  cudaMalloc : Z -> bool;                        (* the allocations of that many bytes each succeed *)
  cudaMemory : Z -> list Z;                      (* what a new buffer of that many ints holds *)
  copyToDevice : list Z -> option (list Z);      (* cudaMemcpyHostToDevice; None is an error *)
  launch : Z -> Z -> option (list (Z * Z));      (* the order of the threads of a grid; None is an error *)
  copyToHost : list Z -> option (list Z);        (* cudaMemcpyDeviceToHost *)
  cudaFree : bool;                               (* the buffers are freed without an error *)
  cudaMemFree : Z;                               (* the free memory afterwards *)
}.

Class CudaLaws (R : CudaRuntime) := {
  cudaMemory_length n : length (cudaMemory n) = Z.to_nat n;
  copyToDevice_copies l l' : copyToDevice l = Some l' -> l' = l;
  copyToHost_copies l l' : copyToHost l = Some l' -> l' = l;
  launch_runs_grid g b order : launch g b = Some order -> order ≡ₚ grid g b;
}.

(** The outcome of an order: nothing reported, or [okc], [cleanOk] and [baselineOk]. *)
Inductive Execution :=
  | UndefinedBehaviour
  | NotReported
  | Executed (okc cleanOk baselineOk : bool).

Definition hostInput (n : Z) : list Z := (fun i => Z.land i 127) <$> seqZ 0 n.

Section worker.
Context {R : CudaRuntime}.

(** The copies and the kernel: the pinned buffer if every call succeeds. *)
Definition moveData (n : Z) : option (option (list Z)) :=
  match copyToDevice (hostInput n) with
  | None => Some None
  | Some dIn =>
      match launch ((n + 255) / 256) 256 with
      | None => Some None
      | Some order =>
          match runKernel n dIn order (cudaMemory n) with
          | None => None
          | Some dOut => Some (copyToHost dOut)
          end
      end
  end.

(** The body of the loop for an order of [bytes] bytes. *)
Definition execute (freeBefore bytes : Z) : Execution :=
  let n := to_int (bytes / 4) in
  if n <=? 0 then NotReported
  else if negb (cudaMalloc (4 * n)) then NotReported
  else
    match moveData n with
    | None => UndefinedBehaviour
    | Some pinned =>
        let parity := match pinned with
                      | None => false
                      | Some l => bool_decide (l = (fun v => v + 1) <$> hostInput n)
                      end in
        let baselineOk := freeBefore <=? cudaMemFree in
        Executed (parity && cudaFree && baselineOk) cudaFree baselineOk
    end.

(** What the worker does with what [recvFrame] gave it. *)
Inductive WorkerAction :=
  | Leave
  | Ignore
  | Crash
  | Report (res : Message) (cleanOk baselineOk : bool).

Definition executionReport (boot : Z) (m : Message) (okc : bool) : Message :=
  makeMessage MessageType.EXECUTION_RESULT 0 1 boot Plan_default m.(Message.planId) okc m.(Message.bytes) "".

Definition workerAction (boot freeBefore : Z) (received : string + Frame) : WorkerAction :=
  match received with
  | inl _ => Leave
  | inr f =>
      match decodeMessage f.(Frame.type) f.(Frame.payload) with
      | inl _ => Ignore
      | inr m =>
          if bool_decide (f.(Frame.type) = MessageType.SHUTDOWN) then Leave
          else if bool_decide (f.(Frame.type) = MessageType.EXECUTE) then
            if negb (m.(Message.boot) =? boot) then Ignore
            else match execute freeBefore m.(Message.bytes) with
                 | UndefinedBehaviour => Crash
                 | NotReported => Ignore
                 | Executed okc cleanOk baselineOk => Report (executionReport boot m okc) cleanOk baselineOk
                 end
          else Ignore
      end
  end.
End worker.

(** ** The kernel *)

(** The index a thread works on. *)
Definition threadIndex (t : Z * Z) : Z := t.1 * 256 + t.2.

Definition kernel_limit : Z := 2 ^ 31 - 256.

Lemma elem_of_grid g b t : t ∈ grid g b <-> 0 <= t.1 < g /\ 0 <= t.2 < b.
Proof.
  destruct t as [x y]. unfold grid. rewrite list_elem_of_bind. split.
  - intros (x' & H1 & H2). apply list_elem_of_fmap in H1 as (y' & [= -> ->] & H1). rewrite !elem_of_seqZ in *. simpl. lia.
  - intros [H1 H2]. simpl in *. exists x. split; [|rewrite elem_of_seqZ; lia]. apply list_elem_of_fmap. exists y.
    split; [done|]. rewrite elem_of_seqZ. lia.
Qed.

Lemma threadIndex_int t : 0 <= threadIndex t < 2 ^ 31 -> to_int (wrap32 (threadIndex t)) = threadIndex t.
Proof. intros H. unfold wrap32. rewrite Z.mod_small by lia. by apply to_int_small. Qed.

Lemma thread_writes n inp out t :
  0 <= threadIndex t < 2 ^ 31 -> length inp = Z.to_nat n -> length out = Z.to_nat n -> Forall (fun v => v < 2 ^ 31 - 1) inp ->
  exists out', cuda_add_one_kernel n inp out t = Some out' /\ length out' = length out /\
    forall i, out' !! i = if bool_decide (Z.of_nat i = threadIndex t) && bool_decide (Z.of_nat i < n) then Z.succ <$> (inp !! i) else out !! i.
Proof.
  intros Ht Hin Hout Hv. unfold cuda_add_one_kernel. fold (threadIndex t). rewrite threadIndex_int by done.
  destruct (Z.ltb_spec (threadIndex t) n) as [Hlt|Hge].
  - destruct (Z.ltb_spec (threadIndex t) 0); [lia|].
    destruct (lookup_lt_is_Some_2 inp (Z.to_nat (threadIndex t))) as [v Hiv]; [lia|].
    destruct (lookup_lt_is_Some_2 out (Z.to_nat (threadIndex t))) as [o Hio]; [lia|]. rewrite Hiv, Hio.
    rewrite Forall_lookup in Hv. pose proof (Hv _ _ Hiv). destruct (Z.eqb_spec v (2 ^ 31 - 1)); [lia|].
    eexists. split; [done|]. split; [apply length_insert|]. intros i. case_bool_decide as Hi.
    + replace (Z.to_nat (threadIndex t)) with i in * by lia. rewrite bool_decide_eq_true_2 by lia. cbn [andb].
      rewrite list_lookup_insert by lia. rewrite decide_True by (split; [done|lia]). by rewrite Hiv.
    + cbn [andb]. apply list_lookup_insert_ne. lia.
  - eexists. split; [done|]. split; [done|]. intros i. case_bool_decide as Hi; [|done]. by rewrite bool_decide_eq_false_2 by lia.
Qed.

Lemma kernel_writes n inp order out :
  Forall (fun t => 0 <= threadIndex t < 2 ^ 31) order -> length inp = Z.to_nat n -> length out = Z.to_nat n ->
  Forall (fun v => v < 2 ^ 31 - 1) inp ->
  exists out', runKernel n inp order out = Some out' /\ length out' = length out /\
    forall i, out' !! i = if bool_decide (Z.of_nat i ∈ threadIndex <$> order) && bool_decide (Z.of_nat i < n)
                          then Z.succ <$> (inp !! i) else out !! i.
Proof.
  intros Ho Hin Hout Hv. revert out Hout. induction Ho as [|t order Ht Ho IH]; intros out Hout; [by eexists|].
  cbn [runKernel]. destruct (thread_writes n inp out t) as (out1 & -> & Hl & H1); [done..|].
  destruct (IH out1) as (out2 & -> & Hl2 & H2); [lia|]. eexists. split; [done|]. split; [lia|]. intros i. rewrite H2, H1.
  rewrite fmap_cons. destruct (bool_decide (Z.of_nat i < n)); [|by rewrite !andb_false_r]. rewrite !andb_true_r.
  case_bool_decide as Ha; [by rewrite bool_decide_eq_true_2 by (by right)|].
  case_bool_decide as Hb; [by rewrite Hb, bool_decide_eq_true_2 by (by left)|].
  rewrite bool_decide_eq_false_2; [done|]. intros [?|?]%elem_of_cons; done.
Qed.

(** A whole grid, in any order, adds one to every element and touches nothing else. *)
Lemma kernel_adds_one n inp order out :
  0 < n <= kernel_limit -> order ≡ₚ grid ((n + 255) / 256) 256 -> length inp = Z.to_nat n -> length out = Z.to_nat n ->
  Forall (fun v => v < 2 ^ 31 - 1) inp -> runKernel n inp order out = Some (Z.succ <$> inp).
Proof.
  unfold kernel_limit. intros Hn Ho Hin Hout Hv.
  assert (Hg : forall t, t ∈ order <-> 0 <= t.1 < (n + 255) / 256 /\ 0 <= t.2 < 256) by (intros t; rewrite Ho; apply elem_of_grid).
  destruct (kernel_writes n inp order out) as (out' & -> & Hl & Hi); [|done..|].
  { apply Forall_forall. intros t [? ?]%Hg. unfold threadIndex. pose proof (Z.mul_div_le (n + 255) 256 ltac:(lia)). lia. }
  f_equal. apply list_eq. intros i. rewrite Hi, list_lookup_fmap.
  destruct (decide (Z.of_nat i < n)) as [Hlt|Hge].
  - rewrite bool_decide_eq_true_2, bool_decide_eq_true_2; [done|done|]. apply list_elem_of_fmap.
    exists (Z.of_nat i / 256, Z.of_nat i mod 256). split; [unfold threadIndex; cbn [fst snd]; pose proof (Z.div_mod (Z.of_nat i) 256); lia|]. apply Hg. cbn [fst snd].
    split; [split; [apply Z.div_pos; lia|]|apply Z.mod_pos_bound; lia]. apply Z.div_lt_upper_bound; [lia|].
    pose proof (Z.div_mod (n + 255) 256). pose proof (Z.mod_pos_bound (n + 255) 256). lia.
  - rewrite (bool_decide_eq_false_2 (Z.of_nat i < n)), andb_false_r by done.
    rewrite (proj2 (lookup_ge_None out i)), (proj2 (lookup_ge_None inp i)) by lia. done.
Qed.

Lemma hostInput_fits n : length (hostInput n) = Z.to_nat n /\ Forall (fun v => v < 2 ^ 31 - 1) (hostInput n).
Proof.
  unfold hostInput. rewrite length_fmap, length_seqZ. split; [done|]. apply Forall_fmap, Forall_forall. intros i _. cbn.
  change 127 with (Z.ones 7). rewrite Z.land_ones by lia. pose proof (Z.mod_pos_bound i (2 ^ 7)). lia.
Qed.

Section execution.
Context {R : CudaRuntime} {L : CudaLaws R}.

(** The device calls of an order of [n] ints all succeed. *)
Definition deviceWorks (n : Z) : bool :=
  match copyToDevice (hostInput n), launch ((n + 255) / 256) 256, copyToHost (Z.succ <$> hostInput n) with
  | Some _, Some _, Some _ => true
  | _, _, _ => false
  end.

Lemma moveData_result n :
  0 < n <= kernel_limit ->
  moveData n = Some (if deviceWorks n then Some (Z.succ <$> hostInput n) else None).
Proof.
  intros Hn. unfold moveData, deviceWorks. destruct (hostInput_fits n) as [Hl Hv].
  destruct (copyToDevice (hostInput n)) as [dIn|] eqn:Hin; [|done]. apply copyToDevice_copies in Hin as ->.
  destruct (launch _ _) as [order|] eqn:Ho; [|done]. apply launch_runs_grid in Ho.
  rewrite kernel_adds_one by (done || apply cudaMemory_length).
  destruct (copyToHost _) as [l|] eqn:Hc; [|done]. by apply copyToHost_copies in Hc as ->.
Qed.

Lemma execute_result freeBefore bytes :
  4 <= bytes < 4 * (kernel_limit + 1) ->
  execute freeBefore bytes =
    if cudaMalloc (4 * (bytes / 4)) then
      Executed (deviceWorks (bytes / 4) && cudaFree && (freeBefore <=? cudaMemFree)) cudaFree (freeBefore <=? cudaMemFree)
    else NotReported.
Proof.
  intros Hb. assert (Hn : 0 < bytes / 4 <= kernel_limit).
  { split; [apply Z.div_str_pos; lia|]. apply Z.lt_succ_r, Z.div_lt_upper_bound; lia. }
  unfold execute. rewrite to_int_small by (unfold kernel_limit in Hn; lia). destruct (Z.leb_spec (bytes / 4) 0); [lia|].
  destruct (cudaMalloc _); [|done]. cbn [negb]. rewrite moveData_result by done. f_equal.
  destruct (deviceWorks _); [|done]. by rewrite bool_decide_eq_true_2.
Qed.

End execution.

(** A device on which everything succeeds, and that runs its threads backwards. *)
Definition reliableDevice : CudaRuntime := {|
  cudaMalloc _ := true; cudaMemory n := replicate (Z.to_nat n) 0; copyToDevice := Some; launch g b := Some (reverse (grid g b));
  copyToHost := Some; cudaFree := true; cudaMemFree := 2 ^ 34 |}.

#[export] Instance reliableDevice_laws : CudaLaws reliableDevice.
Proof.
  split.
  - intros n. apply length_replicate.
  - by intros l l' [= ->].
  - by intros l l' [= ->].
  - intros g b order [= <-]. apply reverse_Permutation.
Qed.

Definition sampleOrder : Message := executeOf 1 4096 1 1000.

