(* ===== verification/CudaMemory.v ===== *)
(** * The CUDA worker's memory

    Models what the orders of cuda/cuda_worker_main.cu do to the memory of the device and
    to the error state of the CUDA runtime, from one order to the next: which calls are
    made depends on the results of those before, an order that is given up keeps what it
    had allocated, and an error that nobody asked for meets the next order.  Nothing else
    uses the device, so its free memory is back at the baseline exactly when the worker
    holds no more than it did then.  [execute] of Cuda.v is the same order on a device with
    nothing to remember. *)

From S2P Require Import Prelude Core Enums Double Model Message Client Codec Framing Protocol Cuda.

(** ** Definitions *)

(** The result of each call of an order, should the call be made; [Copied] is that the
    data came back as it should. *)
Module Results.
Record Results := {
  mallocIn : bool; mallocOut : bool; mallocHost : bool;
  copyIn : bool; launched : bool; ran : bool; copyOut : bool; copied : bool;
  freeIn : bool; freeOut : bool; freeHost : bool;
}.
End Results.
Abbreviation Results := Results.Results.

(** The bytes of device memory the worker holds, and the error that [cudaGetLastError]
    would answer. *)
Module DeviceState.
Record DeviceState := { held : Z; lastError : bool }.
End DeviceState.
Abbreviation DeviceState := DeviceState.DeviceState.

(** A call that answers [ok], taking [bytes] if it does. *)
Definition called (ok : bool) (bytes : Z) (st : DeviceState) : DeviceState := {|
  DeviceState.held := if ok then st.(DeviceState.held) + bytes else st.(DeviceState.held);
  DeviceState.lastError := st.(DeviceState.lastError) || negb ok |}.

(** [chk]: the error, which is forgotten. *)
Definition chk (st : DeviceState) : bool * DeviceState :=
  (negb st.(DeviceState.lastError), {| DeviceState.held := st.(DeviceState.held); DeviceState.lastError := false |}).

(** A call under [okc = okc && (call == cudaSuccess)]. *)
Definition and_called (okc ok : bool) (bytes : Z) (st : DeviceState) : bool * DeviceState :=
  if okc then (ok, called ok bytes st) else (false, st).

(** The body of the loop for an order of [n] ints, on a device where [held0] was held when
    the worker measured its baseline. *)
Definition order (held0 n : Z) (r : Results) (st : DeviceState) : Execution * DeviceState :=
  let size := 4 * n in
  let st := called r.(Results.mallocIn) size st in
  let st := called r.(Results.mallocOut) size st in
  let st := called r.(Results.mallocHost) 0 st in
  let '(allocated, st) := chk st in
  if negb allocated then (NotReported, st)
  else
    let '(okc, st) := and_called true r.(Results.copyIn) 0 st in
    let st := called r.(Results.launched) 0 st in
    let '(okc, st) := if okc then chk st else (false, st) in
    let st := called r.(Results.ran) 0 st in
    let '(okc, st) := and_called okc r.(Results.copyOut) 0 st in
    let okc := okc && r.(Results.copied) in
    let '(cleanOk, st) := and_called true r.(Results.freeIn) (- size) st in
    let '(cleanOk, st) := and_called cleanOk r.(Results.freeOut) (- size) st in
    let '(cleanOk, st) := and_called cleanOk r.(Results.freeHost) 0 st in
    let baselineOk := st.(DeviceState.held) <=? held0 in
    (Executed (okc && cleanOk && baselineOk) cleanOk baselineOk, st).

(** The orders of a worker's life: sizes and results. *)
Fixpoint orders (held0 : Z) (rs : list (Z * Results)) (st : DeviceState) : list Execution * DeviceState :=
  match rs with
  | [] => ([], st)
  | (n, r) :: rs' =>
      let '(e, st) := order held0 n r st in
      let '(es, st) := orders held0 rs' st in
      (e :: es, st)
  end.

(** The worker starts with nothing held and no error. *)
Definition fresh : DeviceState := {| DeviceState.held := 0; DeviceState.lastError := false |}.

(** ** What an order leaves *)

Definition all_allocated (r : Results) : bool := r.(Results.mallocIn) && r.(Results.mallocOut) && r.(Results.mallocHost).
Definition none_allocated (r : Results) : bool := negb r.(Results.mallocIn) && negb r.(Results.mallocOut).
Definition all_freed (r : Results) : bool := r.(Results.freeIn) && r.(Results.freeOut) && r.(Results.freeHost).
Definition moved (r : Results) : bool := r.(Results.copyIn) && r.(Results.launched) && r.(Results.copyOut) && r.(Results.copied).

(** What an allocated order keeps of its two device buffers. *)
Definition kept (n : Z) (r : Results) : Z :=
  if r.(Results.freeIn) then if r.(Results.freeOut) then 0 else 4 * n else 8 * n.

(** An error that is left behind: by the kernel's execution, by the copy back, by freeing,
    or by a launch that nobody asked about because the copy before it had failed. *)
Definition leaves_error (r : Results) : bool :=
  negb r.(Results.copyIn) || negb r.(Results.ran) ||
  (r.(Results.copyIn) && r.(Results.launched) && negb r.(Results.copyOut)) || negb (all_freed r).

Lemma order_result held0 n r st :
  order held0 n r st =
    if all_allocated r && negb st.(DeviceState.lastError) then
      let held := st.(DeviceState.held) + kept n r in
      (Executed (moved r && all_freed r && (held <=? held0)) (all_freed r) (held <=? held0),
       {| DeviceState.held := held; DeviceState.lastError := leaves_error r |})
    else
      (NotReported,
       {| DeviceState.held := st.(DeviceState.held) + (if r.(Results.mallocIn) then 4 * n else 0) + (if r.(Results.mallocOut) then 4 * n else 0);
          DeviceState.lastError := false |}).
Proof.
  destruct st as [h e], r as [mi mo mh ci la ra co cp fi fo fh].
  unfold order, and_called, called, chk, kept, moved, all_freed, all_allocated, leaves_error.
  cbn [Results.mallocIn Results.mallocOut Results.mallocHost Results.copyIn Results.launched Results.ran Results.copyOut Results.copied
    Results.freeIn Results.freeOut Results.freeHost DeviceState.held DeviceState.lastError].
  destruct mi, mo, mh, e; cbn -[Z.mul Z.add Z.leb]; try (f_equal; f_equal; lia); clear -h.
  destruct ci, la, ra, co, cp, fi, fo, fh; cbn -[Z.mul Z.add Z.leb]; repeat first [reflexivity | lia | progress f_equal].
Qed.

Lemma kept_bounds n r : 0 <= n -> 0 <= kept n r /\ (all_freed r = true -> kept n r = 0).
Proof. intros Hn. unfold kept, all_freed. destruct (Results.freeIn r), (Results.freeOut r); cbn; split; done || lia. Qed.

(** No order gives back more than it took. *)
Lemma order_held held0 n r st : 0 <= n -> st.(DeviceState.held) <= (order held0 n r st).2.(DeviceState.held).
Proof.
  intros Hn. rewrite order_result. destruct (kept_bounds n r Hn) as [Hk _].
  destruct (all_allocated r && _); cbn; [lia|]. destruct (Results.mallocIn r), (Results.mallocOut r); lia.
Qed.

(** An order that is not reported to have reached its baseline. *)
Definition below_baseline (e : Execution) : Prop := match e with Executed okc _ baselineOk => okc = false /\ baselineOk = false | _ => True end.

Lemma leaking_orders held0 rs st :
  Forall (fun nr => 0 <= nr.1) rs -> held0 < st.(DeviceState.held) -> Forall below_baseline (orders held0 rs st).1.
Proof.
  intros Hrs. revert st. induction Hrs as [|[n r] rs Hn _ IH]; intros st Hh; [constructor|]. cbn [orders fst] in *.
  pose proof (order_held held0 n r st Hn) as Hle. destruct (order held0 n r st) as [e st1] eqn:E. cbn [snd] in Hle.
  specialize (IH st1 ltac:(lia)). destruct (orders held0 rs st1) as [es st2]. cbn [fst] in *. constructor; [|done].
  rewrite order_result in E. destruct (all_allocated r && _); [|by injection E as <- _].
  destruct (kept_bounds n r Hn) as [Hk _]. injection E as <- _. unfold below_baseline.
  destruct (Z.leb_spec (DeviceState.held st + kept n r) held0); [lia|]. by rewrite andb_false_r.
Qed.

(** What an order leaves behind, if an error of the order before it is pending or not. *)
Definition leaks (pending : bool) (r : Results) : bool :=
  if all_allocated r && negb pending then negb (r.(Results.freeIn) && r.(Results.freeOut))
  else negb (none_allocated r).

Lemma leaks_held held0 n r st :
  0 < n -> leaks st.(DeviceState.lastError) r = true -> st.(DeviceState.held) < (order held0 n r st).2.(DeviceState.held).
Proof.
  intros Hn. unfold leaks. rewrite order_result. destruct (all_allocated r && _); cbn [snd DeviceState.held].
  - unfold kept. destruct (Results.freeIn r), (Results.freeOut r); cbn; intros; done || lia.
  - unfold none_allocated. destruct (Results.mallocIn r), (Results.mallocOut r); cbn; intros; done || lia.
Qed.

Lemma no_leak_held held0 n r st :
  leaks st.(DeviceState.lastError) r = false -> (order held0 n r st).2.(DeviceState.held) = st.(DeviceState.held).
Proof.
  unfold leaks. rewrite order_result. destruct (all_allocated r && _); cbn [snd DeviceState.held].
  - unfold kept. destruct (Results.freeIn r), (Results.freeOut r); cbn; intros; done || lia.
  - unfold none_allocated. destruct (Results.mallocIn r), (Results.mallocOut r); cbn; intros; done || lia.
Qed.

(** The error that an order leaves pending, and the runs without a leak. *)
Definition pending_after (pending : bool) (r : Results) : bool := all_allocated r && negb pending && leaves_error r.

Fixpoint leak_free (pending : bool) (rs : list (Z * Results)) : bool :=
  match rs with
  | [] => true
  | (_, r) :: rs' => negb (leaks pending r) && leak_free (pending_after pending r) rs'
  end.

Lemma order_error held0 n r st : (order held0 n r st).2.(DeviceState.lastError) = pending_after st.(DeviceState.lastError) r.
Proof. rewrite order_result. unfold pending_after. by destruct (all_allocated r && _). Qed.

Lemma orders_held held0 rs st :
  Forall (fun nr => 0 < nr.1) rs ->
  st.(DeviceState.held) <= (orders held0 rs st).2.(DeviceState.held) /\
  ((orders held0 rs st).2.(DeviceState.held) = st.(DeviceState.held) <-> leak_free st.(DeviceState.lastError) rs = true).
Proof.
  intros Hrs. revert st. induction Hrs as [|[n r] rs Hn _ IH]; intros st; [done|]. cbn [orders leak_free fst] in *.
  pose proof (order_held held0 n r st ltac:(lia)) as Hle. pose proof (order_error held0 n r st) as He.
  pose proof (leaks_held held0 n r st Hn) as Hl. pose proof (no_leak_held held0 n r st) as Hnl.
  destruct (order held0 n r st) as [e st1]. cbn [snd] in *. specialize (IH st1). rewrite He in IH.
  destruct (orders held0 rs st1) as [es st2]. cbn [snd] in *. destruct IH as [IH1 IH2]. split; [lia|].
  destruct (leaks _ r); cbn [negb andb]; [specialize (Hl eq_refl); split; [lia|done]|]. specialize (Hnl eq_refl). rewrite <- IH2. lia.
Qed.


(** Every call succeeds. *)
Definition good : Results := {|
  Results.mallocIn := true; Results.mallocOut := true; Results.mallocHost := true; Results.copyIn := true; Results.launched := true;
  Results.ran := true; Results.copyOut := true; Results.copied := true; Results.freeIn := true; Results.freeOut := true;
  Results.freeHost := true |}.

Definition set_mallocOut (v : bool) (r : Results) : Results := {|
  Results.mallocIn := r.(Results.mallocIn); Results.mallocOut := v; Results.mallocHost := r.(Results.mallocHost);
  Results.copyIn := r.(Results.copyIn); Results.launched := r.(Results.launched); Results.ran := r.(Results.ran);
  Results.copyOut := r.(Results.copyOut); Results.copied := r.(Results.copied); Results.freeIn := r.(Results.freeIn);
  Results.freeOut := r.(Results.freeOut); Results.freeHost := r.(Results.freeHost) |}.
Definition set_copyOut (v : bool) (r : Results) : Results := {|
  Results.mallocIn := r.(Results.mallocIn); Results.mallocOut := r.(Results.mallocOut); Results.mallocHost := r.(Results.mallocHost);
  Results.copyIn := r.(Results.copyIn); Results.launched := r.(Results.launched); Results.ran := r.(Results.ran);
  Results.copyOut := v; Results.copied := r.(Results.copied); Results.freeIn := r.(Results.freeIn);
  Results.freeOut := r.(Results.freeOut); Results.freeHost := r.(Results.freeHost) |}.


(** One allocation that fails after another succeeded: every later order, however well it
    goes, is reported as failed. *)
Theorem failed_allocation_is_final n r rs :
  0 < n -> r.(Results.mallocIn) = true -> r.(Results.mallocOut) = false -> Forall (fun nr => 0 <= nr.1) rs ->
  (order 0 n r fresh).1 = NotReported /\ Forall below_baseline (orders 0 rs (order 0 n r fresh).2).1.
Proof.
  intros Hn Hi Ho Hrs. assert (Hl : leaks false r = true) by (unfold leaks, all_allocated, none_allocated; by rewrite Hi, Ho).
  split; [rewrite order_result; unfold all_allocated; by rewrite Hi, Ho|].
  apply leaking_orders; [done|]. apply (leaks_held 0 n r fresh Hn Hl).
Qed.

(** A copy back that fails is noticed by its own order, and again by the next one, which
    is dropped with its buffers though all its allocations succeeded; after that nothing
    succeeds. *)
Theorem failed_copy_drops_next_order n :
  0 < n -> (orders 0 [(n, set_copyOut false good); (n, good); (n, good)] fresh).1 =
    [Executed false true true; NotReported; Executed false true false].
Proof.
  intros Hn. cbn -[Z.mul Z.add Z.leb Z.opp].
  repeat match goal with |- context [?a <=? 0] => destruct (Z.leb_spec a 0); try lia end. reflexivity.
Qed.

(** ** The order of Cuda.v *)

(** On a device that remembers nothing an order has the outcome of [execute], if the calls
    have the results of that runtime. *)
Theorem order_refines_execute {R : CudaRuntime} {L : CudaLaws R} freeBefore bytes r :
  4 <= bytes < 4 * (kernel_limit + 1) ->
  all_allocated r = cudaMalloc (4 * (bytes / 4)) -> moved r = deviceWorks (bytes / 4) -> all_freed r = cudaFree ->
  (kept (bytes / 4) r <=? 0) = (freeBefore <=? cudaMemFree) ->
  (order 0 (bytes / 4) r fresh).1 = execute freeBefore bytes.
Proof.
  intros Hb Ha Hm Hf Hk. rewrite order_result, execute_result by done. cbn [fresh DeviceState.lastError DeviceState.held negb].
  rewrite andb_true_r, Ha, Hm, Hf, Z.add_0_l, Hk. by destruct (cudaMalloc _).
Qed.
