(* ===== verification/CudaPlan.v ===== *)
(** * The plan-gated CUDA proof

    Models cuda/cuda_plan_gated_proof.cu: a transfer from host memory to a GPU is planned,
    the planned movement is carried out on the device of [Cuda], the plan is refused once
    the evidence it was made from has moved on, and a reservation on the direct link forces
    a route through pinned memory. *)

From S2P Require Import Prelude Core Enums Double Model Feasibility Ranking Cost Enumerate Assembly.
From S2P Require Import PointToPoint Multicast Collective Planner Revalidation Message Client Codec.
From S2P Require Import Framing Protocol Cuda.

(** ** The evidence *)

Definition planEp (id : EndpointId) (kind : EndpointKind) (node : NodeId) (arch : list Z) : Endpoint := {|
  Endpoint.id := id; Endpoint.generation := 1; Endpoint.kind := kind; Endpoint.node := node;
  Endpoint.device := Endpoint_default.(Endpoint.device); Endpoint.location := Endpoint_default.(Endpoint.location);
  Endpoint.address := ""; Endpoint.protocol := ""; Endpoint.version := ""; Endpoint.name := "";
  Endpoint.capability := {| Capability.generation := 1; Capability.transports := {[Transport.CUDA; Transport.HOST_MEMORY]};
    Capability.features := ∅; Capability.provenance := Provenance.MEASURED; Capability.computeArch := arch |};
  Endpoint.health := {| Health.generation := 1; Health.healthy := true; Health.message := "" |};
  Endpoint.reachable := true; Endpoint.ready := true; Endpoint.worker := 0; Endpoint.workerBoot := 0; Endpoint.source := 0;
  Endpoint.sourceBoot := 0; Endpoint.failureDomain := ""; Endpoint.provenance := Endpoint_default.(Endpoint.provenance) |}.

Definition planHostEp : Endpoint := planEp 1 EndpointKind.CPU_MEMORY 1 (replicate 8 0).
Definition planGpuEp : Endpoint := planEp 2 EndpointKind.GPU_DEVICE 2 (setArch (string_bytes "sm_120") (replicate 8 0)).
Definition planPinnedEp : Endpoint := planEp 3 EndpointKind.PINNED_HOST_MEMORY 1 (replicate 8 0).

Definition planBandwidth : Z := 30 * 2 ^ 30.

Definition planLink (id : LinkId) (generation : LinkGeneration) (src dst : EndpointId) (t : Transport) : Link := {|
  Link.id := id; Link.generation := generation; Link.source := src; Link.destination := dst; Link.kind := LinkKind.GPU_HOST_PATH;
  Link.transport := t; Link.directed := true; Link.capacity := planBandwidth; Link.effectiveBandwidth := planBandwidth;
  Link.latency := 5000;
  Link.health := {| Health.generation := Health_default.(Health.generation); Health.healthy := true; Health.message := "" |};
  Link.congestion := {| Congestion.generation := 1; Congestion.load := Congestion_default.(Congestion.load);
    Congestion.penalty := Congestion_default.(Congestion.penalty);
    Congestion.hardLimitExceeded := Congestion_default.(Congestion.hardLimitExceeded);
    Congestion.provenance := Provenance.REPORTED |};
  Link.capacityEvidence := {| Capacity.generation := 1; Capacity.usable := planBandwidth; Capacity.headroom := planBandwidth;
    Capacity.provenance := Provenance.MEASURED |};
  Link.topologyGeneration := 1; Link.capabilityGeneration := 1; Link.failureDomain := ""; Link.workerBoot := 0;
  Link.provenance := Provenance.MEASURED |}.

Definition planSnapshot (es : list Endpoint) (ls : list Link) (rs : list Reservation) : EvidenceSnapshot := {|
  Snapshot.topologyGeneration := 1; Snapshot.capacityGeneration := 1; Snapshot.reservationGeneration := 1;
  Snapshot.congestionGeneration := 1; Snapshot.capabilityGeneration := 1; Snapshot.healthGeneration := 1;
  Snapshot.placementGeneration := 1; Snapshot.policyGeneration := 1; Snapshot.endpoints := es; Snapshot.links := ls;
  Snapshot.reservations := rs; Snapshot.resourceCapacities := []; Snapshot.workerBoots := ∅; Snapshot.sourceBoots := ∅;
  Snapshot.epoch := 0; Snapshot.authorityGeneration := currentAuthority |}.

Definition cudaDirect : Link := planLink 1 1 1 2 Transport.CUDA.
Definition snap : EvidenceSnapshot := planSnapshot [planHostEp; planGpuEp] [cudaDirect] [].

(** The GPU and the link under their next generations. *)
Definition snapAdvanced : EvidenceSnapshot :=
  planSnapshot [planHostEp; {|
    Endpoint.id := 2; Endpoint.generation := 2; Endpoint.kind := planGpuEp.(Endpoint.kind); Endpoint.node := planGpuEp.(Endpoint.node);
    Endpoint.device := planGpuEp.(Endpoint.device); Endpoint.location := planGpuEp.(Endpoint.location); Endpoint.address := "";
    Endpoint.protocol := ""; Endpoint.version := ""; Endpoint.name := ""; Endpoint.capability := planGpuEp.(Endpoint.capability);
    Endpoint.health := planGpuEp.(Endpoint.health); Endpoint.reachable := true; Endpoint.ready := true; Endpoint.worker := 0;
    Endpoint.workerBoot := 0; Endpoint.source := 0; Endpoint.sourceBoot := 0; Endpoint.failureDomain := "";
    Endpoint.provenance := planGpuEp.(Endpoint.provenance) |}] [planLink 1 2 1 2 Transport.CUDA] [].

(** The route through pinned memory, and a reservation of more than the direct link. *)
Definition snap2 : EvidenceSnapshot :=
  planSnapshot [planHostEp; planGpuEp; planPinnedEp]
    [cudaDirect; planLink 2 1 1 3 Transport.HOST_MEMORY; planLink 3 1 3 2 Transport.CUDA]
    [{| Reservation.resource := 1; Reservation.reserved := 40 * 2 ^ 30;
        Reservation.provenance := Provenance.REPORTED |}].

Definition planInts : Z := 2 ^ 20.

Definition planReq (id : Z) : CommunicationRequest := {|
  Request.id := id; Request.generation := 1; Request.shape := RequestShape.POINT_TO_POINT; Request.source := 1;
  Request.destinations := [2]; Request.payloadSize := planInts * 4; Request.direction := Request_default.(Request.direction);
  Request.latencySensitive := Request_default.(Request.latencySensitive);
  Request.throughputTarget := Request_default.(Request.throughputTarget);
  Request.requireOrdering := Request_default.(Request.requireOrdering);
  Request.requireReliability := Request_default.(Request.requireReliability);
  Request.allowRetry := Request_default.(Request.allowRetry); Request.allowStaging := true; Request.allowHostStaging := true;
  Request.allowStorageStaging := Request_default.(Request.allowStorageStaging);
  Request.allowRelay := Request_default.(Request.allowRelay);
  Request.allowMulticast := Request_default.(Request.allowMulticast); Request.allowed := Request_default.(Request.allowed);
  Request.forbidden := Request_default.(Request.forbidden);
  Request.requiredFailureDomain := Request_default.(Request.requiredFailureDomain);
  Request.preferredLocality := Request_default.(Request.preferredLocality); Request.maxHops := Request_default.(Request.maxHops);
  Request.maxStages := Request_default.(Request.maxStages); Request.maxMovementCost := Request_default.(Request.maxMovementCost);
  Request.reservationBinding := Request_default.(Request.reservationBinding);
  Request.externalPriority := Request_default.(Request.externalPriority);
  Request.policyGeneration := Request_default.(Request.policyGeneration);
  Request.collectiveShape := Request_default.(Request.collectiveShape); Request.participants := Request_default.(Request.participants);
  Request.collectiveCount := Request_default.(Request.collectiveCount); Request.provenance := Request_default.(Request.provenance) |}.

Definition planBounds : Bounds := {|
  Bounds.maxEndpoints := defaultBounds.(Bounds.maxEndpoints); Bounds.maxLinks := defaultBounds.(Bounds.maxLinks);
  Bounds.maxCandidates := 32; Bounds.maxPathDepth := 4; Bounds.maxRelayCount := defaultBounds.(Bounds.maxRelayCount);
  Bounds.maxMulticastFanout := defaultBounds.(Bounds.maxMulticastFanout);
  Bounds.maxCollectiveParticipants := defaultBounds.(Bounds.maxCollectiveParticipants); Bounds.maxFallbacks := 2;
  Bounds.maxHistory := defaultBounds.(Bounds.maxHistory); Bounds.maxStagingPerPlan := defaultBounds.(Bounds.maxStagingPerPlan);
  Bounds.maxExplanationSize := defaultBounds.(Bounds.maxExplanationSize);
  Bounds.maxPayloadBytes := defaultBounds.(Bounds.maxPayloadBytes) |}.

(** ** main *)


(** The first plan and its assertions, [po.plan] being dereferenced. *)
Definition directPart : option (CommunicationPlan * Counters) * list (string * bool) :=
  match requireValid (planReq 1), planCommunication (planReq 1) snap ∅ planBounds initialCounters with
  | Ok _, (Ok po, cs) =>
      match po.(PlanOutcome.plan) with
      | Some plan =>
          (Some (plan, cs), [
            ("host<->GPU plan feasible", po.(PlanOutcome.success));
            ("direct host->GPU path selected (1 stage)", bool_decide (length plan.(Plan.orderedStages) = 1%nat));
            ("plan uses CUDA transport",
              match Path.stages <$> head plan.(Plan.candidatePaths) with
              | Some (st :: _) => bool_decide (st.(Stage.transport) = Transport.CUDA)
              | _ => false
              end)])
      | None => (None, [])
      end
  | _, _ => (None, [])
  end.

(** The second part: the stale plan, and the staged one. *)
Definition stagedPart (plan : CommunicationPlan) (cs : Counters) : option (list (string * bool)) :=
  match planCommunication (planReq 2) snap2 ∅ planBounds cs with
  | (Ok po, _) =>
      match po.(PlanOutcome.plan) with
      | Some plan2 => Some [
          ("stale generation invalidates CUDA plan before allocation", negb (revalidatePlan plan snapAdvanced).(RevalidationResult.ok));
          ("staged plan feasible when direct CUDA forbidden", po.(PlanOutcome.success));
          ("hard constraint forces staged host path (2 stages)", bool_decide (length plan2.(Plan.orderedStages) = 2%nat))]
      | None => None
      end
  | (Throw _, _) => None
  end.

Section device.
Context {R : CudaRuntime}.

(** The movement: [inl] is the end of the program with the given assertions, after which
    it returns 1. *)
Definition devicePart (freeBefore : Z) : option (list (string * bool) + list (string * bool)) :=
  if negb (cudaMalloc (4 * planInts)) then Some (inl [])
  else
    let h2d := copyToDevice (hostInput planInts) in
    let log := [("H2D cudaMemcpy succeeded (plan-gated)", bool_decide (is_Some h2d))] in
    match launch ((planInts + 255) / 256) 256 with
    | None => Some (inl log)
    | Some order =>
        match runKernel planInts (default (cudaMemory planInts) h2d) order (cudaMemory planInts) with
        | None => None
        | Some dOut =>
            let d2h := copyToHost dOut in
            let pinned := default (hostInput planInts) d2h in
            let log := log ++ [
              ("D2H cudaMemcpy succeeded", bool_decide (is_Some d2h));
              ("CPU parity check passed (kernel result correct)", bool_decide (pinned = (fun v => v + 1) <$> hostInput planInts))] in
            if negb cudaFree then Some (inl log)
            else Some (inr (log ++ [("device memory returned to baseline after cleanup", freeBefore <=? cudaMemFree)]))
        end
    end.

Definition gatedProof (deviceCount major freeBefore : Z) : option (Z * list (string * bool)) :=
  let log := [("CUDA device present (RTX 5090)", 1 <=? deviceCount); ("compute capability sm_120 (RTX 5090)", major =? 12)] in
  match directPart with
  | (None, _) => None
  | (Some (plan, cs), log1) =>
      match devicePart freeBefore with
      | None => None
      | Some (inl log2) => Some (1, log ++ log1 ++ log2)
      | Some (inr log2) =>
          match stagedPart plan cs with
          | None => None
          | Some log3 =>
              let all := log ++ log1 ++ log2 ++ log3 in Some (if forallb snd all then 0 else 1, all)
          end
      end
  end.
End device.

(** ** The proof passes *)

Definition planningLog : list (string * bool) := (fun msg => (msg, true)) <$> [
  "host<->GPU plan feasible"; "direct host->GPU path selected (1 stage)"; "plan uses CUDA transport"].
Definition movementLog : list (string * bool) := (fun msg => (msg, true)) <$> [
  "H2D cudaMemcpy succeeded (plan-gated)"; "D2H cudaMemcpy succeeded"; "CPU parity check passed (kernel result correct)";
  "device memory returned to baseline after cleanup"].
Definition stagedLog : list (string * bool) := (fun msg => (msg, true)) <$> [
  "stale generation invalidates CUDA plan before allocation"; "staged plan feasible when direct CUDA forbidden";
  "hard constraint forces staged host path (2 stages)"].

Lemma directPart_passes :
  exists plan cs, directPart = (Some (plan, cs), planningLog) /\ stagedPart plan cs = Some stagedLog.
Proof.
  destruct directPart as [[[plan cs]|] log] eqn:E; [|vm_compute in E; discriminate E].
  exists plan, cs. vm_compute in E. injection E as <- <- <-. split; [|vm_compute]; reflexivity.
Qed.

Lemma succ_plus_one (l : list Z) : Z.succ <$> l = (fun v => v + 1) <$> l.
Proof. reflexivity. Qed.

Lemma devicePart_passes (R : CudaRuntime) {L : CudaLaws R} freeBefore :
  cudaMalloc (4 * planInts) = true -> deviceWorks planInts = true -> cudaFree = true -> freeBefore <= cudaMemFree ->
  devicePart freeBefore = Some (inr movementLog).
Proof.
  intros Hm Hw Hf Hb. unfold devicePart, deviceWorks in *. rewrite Hm. cbn [negb].
  destruct (hostInput_fits planInts) as [Hl Hv].
  destruct (copyToDevice (hostInput planInts)) as [dIn|] eqn:Hin; [|discriminate Hw]. apply copyToDevice_copies in Hin as ->.
  destruct (launch _ _) as [order|] eqn:Ho; [|discriminate Hw]. apply launch_runs_grid in Ho. cbn [default from_option id].
  rewrite kernel_adds_one; [|split; vm_compute; [reflexivity|discriminate]|exact Ho|exact Hl|apply cudaMemory_length|exact Hv].
  destruct (copyToHost _) as [l|] eqn:Hc; [|discriminate Hw]. apply copyToHost_copies in Hc as ->. rewrite Hf. cbn [negb default from_option id].
  apply Z.leb_le in Hb.
  rewrite Hb, (bool_decide_eq_true_2 _ (succ_plus_one (hostInput planInts))), !bool_decide_eq_true_2 by (eexists; reflexivity).
  reflexivity.
Qed.

(** The plan-gated proof passes on a working sm_120 device: the direct path over the
    CUDA link is planned, the movement it gates arrives and adds one to every element,
    whatever the order of the kernel's threads, the plan is refused once the GPU and the
    link have new generations, a reservation of the direct link forces the two stages
    through pinned memory, and the program returns 0. *)
Theorem plan_gated_proof_passes (R : CudaRuntime) {L : CudaLaws R} deviceCount freeBefore :
  1 <= deviceCount -> cudaMalloc (4 * planInts) = true -> deviceWorks planInts = true -> cudaFree = true ->
  freeBefore <= cudaMemFree ->
  exists log, gatedProof deviceCount 12 freeBefore = Some (0, log) /\ length log = 12%nat /\ Forall (fun a => a.2 = true) log.
Proof.
  intros Hc Hm Hw Hf Hb. unfold gatedProof. destruct directPart_passes as (plan & cs & -> & ->).
  rewrite devicePart_passes by done. apply Z.leb_le in Hc. rewrite Hc. eexists. split; [reflexivity|].
  split; [reflexivity|]. repeat constructor.
Qed.

Lemma plan_gated_proof_passes_witness :
  exists log, gatedProof (R := reliableDevice) 1 12 (2 ^ 33) = Some (0, log) /\ length log = 12%nat.
Proof.
  destruct (plan_gated_proof_passes reliableDevice 1 (2 ^ 33)) as (log & H & Hl & _);
    [discriminate|reflexivity|reflexivity|reflexivity|vm_compute; discriminate|].
  exists log. split; [exact H|exact Hl].
Defined.
