(* ===== verification/Decidable.v ===== *)
(** * Decidable equality of the data the server keeps

    Instances of [EqDecision] for every record and enumeration of the server's state, with
    which its final states are compared by computation. *)

From Stdlib Require Import SpecFloat.
From S2P Require Import Prelude Core Enums Double Model Feasibility Cost Assembly.
From S2P Require Import Broker Message Store Coordinator Machine.

#[export] Instance double_eq_dec : EqDecision spec_float. Proof. solve_decision. Defined.
#[export] Instance Capability_eq_dec : EqDecision Capability.Capability. Proof. solve_decision. Defined.
#[export] Instance Health_eq_dec : EqDecision Health.Health. Proof. solve_decision. Defined.
#[export] Instance Capacity_eq_dec : EqDecision Capacity.Capacity. Proof. solve_decision. Defined.
#[export] Instance Congestion_eq_dec : EqDecision Congestion.Congestion. Proof. solve_decision. Defined.
#[export] Instance Reservation_eq_dec : EqDecision Reservation.Reservation. Proof. solve_decision. Defined.
#[export] Instance TopologyLocation_eq_dec : EqDecision TopologyLocation.TopologyLocation. Proof. solve_decision. Defined.
#[export] Instance Endpoint_eq_dec : EqDecision Endpoint.Endpoint. Proof. solve_decision. Defined.
#[export] Instance Link_eq_dec : EqDecision Link.Link. Proof. solve_decision. Defined.
#[export] Instance CommunicationRequest_eq_dec : EqDecision CommunicationRequest. Proof. solve_decision. Defined.
#[export] Instance CostComponent_eq_dec : EqDecision CostComponent.CostComponent. Proof. solve_decision. Defined.
#[export] Instance CostSummary_eq_dec : EqDecision CostSummary.CostSummary. Proof. solve_decision. Defined.
#[export] Instance Stage_eq_dec : EqDecision Stage.Stage. Proof. solve_decision. Defined.
#[export] Instance Path_eq_dec : EqDecision Path.Path. Proof. solve_decision. Defined.
#[export] Instance CommunicationPlan_eq_dec : EqDecision CommunicationPlan. Proof. solve_decision. Defined.
#[export] Instance EvidenceSnapshot_eq_dec : EqDecision EvidenceSnapshot. Proof. solve_decision. Defined.
#[export] Instance WorkerInfo_eq_dec : EqDecision WorkerInfo.WorkerInfo. Proof. solve_decision. Defined.
#[export] Instance PlanRecord_eq_dec : EqDecision PlanRecord.PlanRecord. Proof. solve_decision. Defined.
#[export] Instance SupersessionRecord_eq_dec : EqDecision SupersessionRecord.SupersessionRecord. Proof. solve_decision. Defined.
#[export] Instance Counters_eq_dec : EqDecision Counters.Counters. Proof. solve_decision. Defined.
#[export] Instance Acquired_eq_dec : EqDecision Acquired. Proof. solve_decision. Defined.
#[export] Instance MemoryResourceBroker_eq_dec : EqDecision MemoryResourceBroker. Proof. solve_decision. Defined.
#[export] Instance PendingCommit_eq_dec : EqDecision Pending.PendingCommit. Proof. solve_decision. Defined.
#[export] Instance CoordState_eq_dec {B} `{EqDecision B} : EqDecision (CoordState B). Proof. solve_decision. Defined.
#[export] Instance World_eq_dec {B} `{EqDecision B} : EqDecision (World B). Proof. solve_decision. Defined.
