(* ===== verification/Applications.v ===== *)
(** * The multi-process demonstration

    Models the programs of apps/: the bounds of coordinator_main.cpp, the two roles of
    worker_main.cpp as the messages they send, and the session of proof_main.cpp with the
    conditions it asserts.  Processes and waiting are not modelled (their command lines are
    those of WorkerLog.v, the chosen port and the retried connection those of Sockets.v): a
    worker is its connection, killing it ends the connection, and the workers started together may send
    their messages in any interleaving.  Every message travels as the bytes of its frame. *)

From S2P Require Import Prelude Core Enums Double Model Scenario Feasibility Ranking Cost Enumerate Assembly.
From S2P Require Import PointToPoint Multicast Collective Planner Revalidation Broker Message Client Codec.
From S2P Require Import Framing Transport Protocol Store Persistence Coordinator Machine Connection Decidable.

(** ** coordinator_main.cpp *)

Definition coordinatorBounds : Bounds := {|
  Bounds.maxEndpoints := defaultBounds.(Bounds.maxEndpoints); Bounds.maxLinks := defaultBounds.(Bounds.maxLinks);
  Bounds.maxCandidates := 512; Bounds.maxPathDepth := 8; Bounds.maxRelayCount := defaultBounds.(Bounds.maxRelayCount);
  Bounds.maxMulticastFanout := defaultBounds.(Bounds.maxMulticastFanout);
  Bounds.maxCollectiveParticipants := defaultBounds.(Bounds.maxCollectiveParticipants); Bounds.maxFallbacks := 8;
  Bounds.maxHistory := defaultBounds.(Bounds.maxHistory); Bounds.maxStagingPerPlan := defaultBounds.(Bounds.maxStagingPerPlan);
  Bounds.maxExplanationSize := defaultBounds.(Bounds.maxExplanationSize);
  Bounds.maxPayloadBytes := defaultBounds.(Bounds.maxPayloadBytes) |}.

(** The default weights are all 1: the empty map. *)
Definition coordinatorWeights : gmap CostFactor double := ∅.

(** ** worker_main.cpp *)

Definition mkEp (id : EndpointId) (kind : EndpointKind) (node : NodeId) (caps : list Transport) (worker boot : Z) : Endpoint := {|
  Endpoint.id := id; Endpoint.generation := 1; Endpoint.kind := kind; Endpoint.node := node; Endpoint.device := 0;
  Endpoint.location := TopologyLocation_default; Endpoint.address := ""; Endpoint.protocol := ""; Endpoint.version := "";
  Endpoint.name := "";
  Endpoint.capability := {| Capability.generation := 1; Capability.transports := list_to_set caps; Capability.features := ∅;
    Capability.provenance := Provenance.MEASURED; Capability.computeArch := replicate 8 0 |};
  Endpoint.health := {| Health.generation := 1; Health.healthy := true; Health.message := "" |};
  Endpoint.reachable := true; Endpoint.ready := true; Endpoint.worker := worker; Endpoint.workerBoot := boot;
  Endpoint.source := 0; Endpoint.sourceBoot := 0; Endpoint.failureDomain := ""; Endpoint.provenance := Provenance.MEASURED |}.

Definition mkLk (id : LinkId) (src dst : EndpointId) (t : Transport) (cap boot : Z) : Link := {|
  Link.id := id; Link.generation := 1; Link.source := src; Link.destination := dst; Link.kind := LinkKind.COMPOSITE;
  Link.transport := t; Link.directed := true; Link.capacity := cap; Link.effectiveBandwidth := cap; Link.latency := 1000;
  Link.health := {| Health.generation := 1; Health.healthy := true; Health.message := "" |};
  Link.congestion := {| Congestion.generation := 1; Congestion.load := dzero; Congestion.penalty := dzero;
    Congestion.hardLimitExceeded := false; Congestion.provenance := Provenance.REPORTED |};
  Link.capacityEvidence := {| Capacity.generation := 1; Capacity.usable := cap; Capacity.headroom := cap;
    Capacity.provenance := Provenance.REPORTED |};
  Link.topologyGeneration := 1; Link.capabilityGeneration := 1; Link.failureDomain := ""; Link.workerBoot := boot;
  Link.provenance := Provenance.MEASURED |}.

Definition gpuCaps : list Transport := [Transport.CUDA; Transport.HOST_MEMORY; Transport.PCIE].

(** What [cp_worker port role boot] sends. *)
Definition workerA (boot : Z) : list Message := [
  registerWorker 1 boot "A"; publishEndpointCall 1 boot (mkEp 100 EndpointKind.GPU_DEVICE 1 gpuCaps 1 boot);
  publishLinkCall 1 boot (mkLk 10 100 200 Transport.HOST_MEMORY 3000000 boot)].

Definition workerB (boot : Z) : list Message := [
  registerWorker 2 boot "B"; publishEndpointCall 2 boot (mkEp 200 EndpointKind.GPU_DEVICE 2 gpuCaps 2 boot);
  publishEndpointCall 2 boot (mkEp 300 EndpointKind.PINNED_HOST_MEMORY 1 [Transport.HOST_MEMORY; Transport.PCIE] 2 boot);
  publishLinkCall 2 boot (mkLk 11 100 300 Transport.PCIE 2000000 boot);
  publishLinkCall 2 boot (mkLk 12 300 200 Transport.PCIE 2000000 boot)].

(** The server's event when the frame of [m] arrives over socket [s]. *)
Definition arrival (s : Z) (m : Message) : event := connectionEvent s (recvFrame (arriving m)).1.

(** A worker's part of the server's run: its connection and its messages, as they arrive. *)
Definition workerEvents (s : Z) (ms : list Message) : list event := Accept s :: (arrival s <$> ms).

(** ** proof_main.cpp *)

Definition mkReq (id src dst payload : Z) : CommunicationRequest := {|
  Request.id := id; Request.generation := 1; Request.shape := RequestShape.POINT_TO_POINT; Request.source := src;
  Request.destinations := [dst]; Request.payloadSize := payload; Request.direction := Request_default.(Request.direction);
  Request.latencySensitive := Request_default.(Request.latencySensitive);
  Request.throughputTarget := Request_default.(Request.throughputTarget);
  Request.requireOrdering := Request_default.(Request.requireOrdering);
  Request.requireReliability := Request_default.(Request.requireReliability);
  Request.allowRetry := Request_default.(Request.allowRetry); Request.allowStaging := true; Request.allowHostStaging := true;
  Request.allowStorageStaging := true; Request.allowRelay := true;
  Request.allowMulticast := Request_default.(Request.allowMulticast); Request.allowed := Request_default.(Request.allowed);
  Request.forbidden := Request_default.(Request.forbidden);
  Request.requiredFailureDomain := Request_default.(Request.requiredFailureDomain);
  Request.preferredLocality := Request_default.(Request.preferredLocality); Request.maxHops := Request_default.(Request.maxHops);
  Request.maxStages := Request_default.(Request.maxStages); Request.maxMovementCost := Request_default.(Request.maxMovementCost);
  Request.reservationBinding := Request_default.(Request.reservationBinding);
  Request.externalPriority := Request_default.(Request.externalPriority);
  Request.policyGeneration := Request_default.(Request.policyGeneration);
  Request.collectiveShape := Request_default.(Request.collectiveShape); Request.participants := Request_default.(Request.participants);
  Request.collectiveCount := Request_default.(Request.collectiveCount); Request.provenance := Request_default.(Request.provenance) |}.

Definition Coordinator := World MemoryResourceBroker.

(** [cp_coordinator port store]: the process, from the store file it finds. *)
Definition coordinatorProcess (file : option (list Z)) : Coordinator := start file (MemoryResourceBroker_init (2 ^ 30)).

Definition coordinatorRun (evs : list event) (w : Coordinator) : option Coordinator := run coordinatorWeights coordinatorBounds evs w.

(** The controller: the server it talks to and what it asserted so far. *)
Definition C (A : Type) : Type := Coordinator * list (string * bool) -> option (A * (Coordinator * list (string * bool))).

Definition ret {A} (a : A) : C A := fun st => Some (a, st).
Definition bind {A B} (m : C A) (f : A -> C B) : C B := fun st =>
  match m st with Some (a, st') => f a st' | None => None end.

Declare Scope session_scope.
Notation "'do' x <- m ; k" := (bind m (fun x => k)) (at level 100, x pattern, m at level 99, k at level 200) : session_scope.
Notation "m ;; k" := (bind m (fun _ => k)) (at level 100, k at level 200, right associativity) : session_scope.
Open Scope session_scope.

(** [ASSERT(cond, msg)]. *)
Definition ASSERT (cond : bool) (msg : string) : C () := fun '(w, log) => Some ((), (w, log ++ [(msg, cond)])).

(** Events of other processes. *)
Definition happens (evs : list event) : C () := fun '(w, log) =>
  match coordinatorRun evs w with Some w' => Some ((), (w', log)) | None => None end.

(** What the caller on socket [s] receives. *)
Definition replyTo (s : Z) (out : list (Z * Message)) : option Message :=
  match snd <$> last (filter (fun o => o.1 = s) out) with Some m => (receiveReply (arriving m)).1 | None => None end.

(** One step of the server, and what it sends. *)
Definition stepC (ev : event) : C (list (Z * Message)) := fun '(w, log) =>
  match step coordinatorWeights coordinatorBounds ev w with Some (out, w') => Some (out, (w', log)) | None => None end.

Definition committing (s : Z) : C bool := fun '(w, log) => Some (bool_decide (is_Some (w.(World.commits) !! s)), (w, log)).

(** The server's whole treatment of a message of socket [s]: a commit is carried through. *)
Definition exchange (s : Z) (m : Message) : C (list (Z * Message)) :=
  do out <- stepC (arrival s m);
  do pending <- committing s;
  if pending then stepC (Acquire s);; do out' <- stepC (Finish s); ret (out ++ out') else ret out.

(** A call over socket [s]. *)
Definition call (s : Z) (m : Message) : C (option Message) := do out <- exchange s m; ret (replyTo s out).

(** [killChild(coord)] and a new coordinator on the same store. *)
Definition restartCoordinator : C () := fun '(w, log) => Some ((), (coordinatorProcess w.(World.coord).(Coord.store), log)).

Definition proofCongestion : Congestion := {|
  Congestion.generation := 5; Congestion.load := dlit 99 100; Congestion.penalty := dofZ (10 ^ 12);
  Congestion.hardLimitExceeded := false; Congestion.provenance := Provenance.REPORTED |}.

(** [ctrl.submitRequest(req, plan, feas, e)]: [feas] and [plan]. *)
Definition submitCall (s : Z) (id : Z) : C (bool * CommunicationPlan) :=
  do r <- call s (submitRequest (mkReq id 100 200 4096));
  let '(_, feas, plan) := submitReply r false Plan_default in ret (feas, plan).

Definition revalidateCall (s : Z) (id : CommunicationPlanId) : C bool :=
  do r <- call s (revalidate id); ret (storesOk r true).2.

(** The first controller, over socket 3; worker A is on socket 1, and on socket 4 when it
    comes back. *)
Definition firstController (startup : list event) : C () :=
  happens (Accept 3 :: startup);;
  do (feas, plan1) <- submitCall 3 1;
  ASSERT feas "initial direct plan feasible";;
  (if feas then ASSERT (bool_decide (length plan1.(Plan.orderedStages) = 1%nat)) "direct path selected (1 stage)" else ret ());;
  call 3 save;;
  call 3 (publishCongestion 10 proofCongestion);;
  (if feas then do fresh <- revalidateCall 3 plan1.(Plan.id);
                    ASSERT (negb fresh) "congestion advances generation -> revalidation required" else ret ());;
  do (feas2, plan2) <- submitCall 3 2;
  ASSERT feas2 "post-congestion re-plan feasible";;
  (if feas2 then ASSERT (bool_decide (length plan2.(Plan.orderedStages) = 2%nat)) "staged path selected after congestion" else ret ());;
  happens [Disconnect 1];;
  (if feas2 then do fresh3 <- revalidateCall 3 plan2.(Plan.id);
                     ASSERT (negb fresh3) "worker death fences evidence -> revalidation required" else ret ());;
  do (feas3, _) <- submitCall 3 3;
  ASSERT (negb feas3) "no feasible path after worker A death";;
  happens (workerEvents 4 (workerA 3000));;
  do (feas4, _) <- submitCall 3 4;
  ASSERT feas4 "fresh plan after worker A restart and republish";;
  call 3 save;;
  happens [Disconnect 3].

Definition secondController : C () :=
  happens [Accept 5];;
  do r <- call 5 (queryPlanState 1);
  let '(qok, state) := queryReply r (-1) in
  ASSERT qok "recovered plan query works";;
  ASSERT (qok && (state =? PlanState_u8 PlanState.REVALIDATION_REQUIRED)) "recovered executable plan is REVALIDATION_REQUIRED";;
  do (feasR, _) <- submitCall 5 99;
  ASSERT (negb feasR) "recovered coordinator cannot plan without fresh dynamic evidence";;
  call 5 shutdown;;
  ret ().

(** [main], with the order in which the messages of the first two workers arrive. *)
Definition proofMain (startup : list event) : option (list (string * bool)) :=
  match (firstController startup;; restartCoordinator;; secondController) (coordinatorProcess None, []) with
  | Some (_, (_, log)) => Some log
  | None => None
  end.

(** Every worker call of the run succeeds, so that no worker gives up. *)
Fixpoint workersReady (evs : list event) (w : Coordinator) : bool :=
  match evs with
  | [] => true
  | ev :: evs' =>
      match step coordinatorWeights coordinatorBounds ev w with
      | Some (out, w') =>
          (match ev with Receive s _ => returnsOk (replyTo s out) | _ => true end) &&
          workersReady evs' w'
      | None => false
      end
  end.

(** [l] interleaves [l1] and [l2]. *)
Inductive interleaving {A} : list A -> list A -> list A -> Prop :=
  | interleaving_nil : interleaving [] [] []
  | interleaving_left x l1 l2 l : interleaving l1 l2 l -> interleaving (x :: l1) l2 (x :: l)
  | interleaving_right x l1 l2 l : interleaving l1 l2 l -> interleaving l1 (x :: l2) (x :: l).

(** All of them. *)
Fixpoint interleavings {A} (l1 : list A) : list A -> list (list A) :=
  match l1 with
  | [] => fun l2 => [l2]
  | x :: l1' =>
      fix go (l2 : list A) : list (list A) :=
        match l2 with
        | [] => [l1]
        | y :: l2' => ((cons x) <$> interleavings l1' l2) ++ ((cons y) <$> go l2')
        end
  end.

Lemma interleaving_nil_l {A} (l2 l : list A) : interleaving [] l2 l -> l = l2.
Proof. revert l; induction l2 as [|y l2 IH]; intros l H; inversion H; subst; [done|]. f_equal. by apply IH. Qed.

Lemma interleaving_nil_r {A} (l1 l : list A) : interleaving l1 [] l -> l = l1.
Proof. revert l; induction l1 as [|x l1 IH]; intros l H; inversion H; subst; [done|]. f_equal. by apply IH. Qed.

Lemma interleavings_complete {A} (l1 l2 l : list A) : interleaving l1 l2 l -> l ∈ interleavings l1 l2.
Proof.
  induction 1 as [|x l1 l2 l H IH|y l1 l2 l H IH]; [set_solver| |].
  - destruct l2 as [|y l2]; [apply interleaving_nil_r in H as ->; set_solver|].
    apply elem_of_app. left. apply list_elem_of_fmap. eauto.
  - destruct l1 as [|x l1]; [apply interleaving_nil_l in H as ->; set_solver|].
    apply elem_of_app. right. apply list_elem_of_fmap. eauto.
Qed.

(** *** The session from the world the workers leave *)

Definition startupRun (startup : list event) : option Coordinator := coordinatorRun (Accept 3 :: startup) (coordinatorProcess None).

Definition startups : list (list event) := interleavings (workerEvents 1 (workerA 1000)) (workerEvents 2 (workerB 2000)).

(** The order in which endpoints and links are published is all that the startup decides. *)
Definition published (w : Coordinator) : list Z * list Z :=
  (Endpoint.id <$> w.(World.coord).(Coord.snap).(Snapshot.endpoints), Link.id <$> w.(World.coord).(Coord.snap).(Snapshot.links)).
Definition startupKey (startup : list event) : list Z * list Z :=
  match startupRun startup with Some w => published w | None => ([], []) end.

(** Positions in [startups] of one startup for each order, with the order. *)
Definition representatives : list ((list Z * list Z) * nat) := Eval vm_compute in
  (fun key => (key, default O (fst <$> list_find (fun startup => startupKey startup = key) startups))) <$>
  remove_dups (startupKey <$> startups).

(** [r] stands for [startup]: both leave the same world. *)
Definition represents (startup : list event) (r : (list Z * list Z) * nat) : bool :=
  bool_decide (r.1 = startupKey startup) && bool_decide (startupRun startup = startupRun (nth r.2 startups [])).

(** A property checked by evaluation on every startup. *)
Lemma on_startups (f : list event -> bool) : forallb f startups = true -> Forall (fun startup => f startup = true) startups.
Proof. intros H. rewrite forallb_forall in H. apply Forall_forall. intros startup Hs. by apply H, list_elem_of_In. Qed.

Lemma startups_represented : Forall (fun startup => existsb (represents startup) representatives = true) startups.
Proof. apply (on_startups (fun startup => existsb (represents startup) representatives)). vm_compute. reflexivity. Qed.

Lemma startups_ready : Forall (fun startup => workersReady (Accept 3 :: startup) (coordinatorProcess None) = true) startups.
Proof. apply (on_startups (fun startup => workersReady (Accept 3 :: startup) (coordinatorProcess None))). vm_compute. reflexivity. Qed.

(** What the session prints, all of it "PROOF OK". *)
Definition proofLog : list (string * bool) := (fun msg => (msg, true)) <$> [
  "initial direct plan feasible"; "direct path selected (1 stage)"; "congestion advances generation -> revalidation required";
  "post-congestion re-plan feasible"; "staged path selected after congestion";
  "worker death fences evidence -> revalidation required"; "no feasible path after worker A death";
  "fresh plan after worker A restart and republish"; "recovered plan query works";
  "recovered executable plan is REVALIDATION_REQUIRED";
  "recovered coordinator cannot plan without fresh dynamic evidence"].

Lemma proofMain_startup startup startup' : startupRun startup = startupRun startup' -> proofMain startup = proofMain startup'.
Proof. unfold startupRun. intros H. unfold proofMain, firstController, bind, happens. by rewrite H. Qed.

Lemma representatives_pass : Forall (fun r => bool_decide (proofMain (nth r.2 startups []) = Some proofLog) = true) representatives.
Proof. repeat (constructor; [vm_cast_no_check (@eq_refl _ true)|]). constructor. Qed.

Lemma startup_passes startup : startup ∈ startups -> proofMain startup = Some proofLog.
Proof.
  intros Hs. pose proof (proj1 (Forall_forall _ _) startups_represented startup Hs) as Hr.
  apply existsb_exists in Hr as (r & Hin & Heq). apply andb_true_iff in Heq as [_ Heq]. apply bool_decide_eq_true in Heq.
  rewrite (proofMain_startup _ _ Heq). apply list_elem_of_In in Hin.
  pose proof (proj1 (Forall_forall _ _) representatives_pass r Hin) as Hp. by apply bool_decide_eq_true in Hp.
Qed.

(** C6: The session of proof_main.cpp passes, whatever the order in which the messages of
    its two workers reach the coordinator: every call of the workers succeeds, so both stay
    connected, and each of the eleven conditions the program asserts holds - the direct path
    first, the staged path once the direct link is congested, no path after worker A dies, a
    fresh plan when it comes back, and after the coordinator is killed and started on its
    store the recovered plan requires revalidation and nothing is planned without new
    evidence. *)
Theorem multiprocess_proof_passes startup :
  interleaving (workerEvents 1 (workerA 1000)) (workerEvents 2 (workerB 2000)) startup ->
  workersReady (Accept 3 :: startup) (coordinatorProcess None) = true /\ proofMain startup = Some proofLog.
Proof.
  intros Hs. apply interleavings_complete in Hs. split; [|by apply startup_passes].
  exact (proj1 (Forall_forall _ _) startups_ready startup Hs).
Qed.

Lemma interleaving_app {A} (l1 l2 : list A) : interleaving l1 l2 (l1 ++ l2).
Proof. induction l1 as [|x l1 IH]; [|by constructor]. induction l2; by constructor. Qed.

Lemma multiprocess_proof_passes_witness :
  proofMain (workerEvents 1 (workerA 1000) ++ workerEvents 2 (workerB 2000)) = Some proofLog.
Proof. apply (multiprocess_proof_passes (workerEvents 1 (workerA 1000) ++ workerEvents 2 (workerB 2000))), interleaving_app. Defined.
