(* ===== verification/CudaSession.v ===== *)
(** * The CUDA worker's session

    Models apps/cuda_worker_death_proof.cpp: a controller that plans, commits, revalidates
    and hands over a transfer to the worker of cuda/cuda_worker_main.cu, kills the worker,
    replays its authority, and repeats the transfer with its reincarnation.  What the
    controller polls for is given by a schedule: the events of the worker's connection
    that precede each of its attempts.  Process identities are not modelled. *)

From S2P Require Import Prelude Core Enums Double Model Scenario Feasibility Ranking Cost Enumerate Assembly.
From S2P Require Import PointToPoint Multicast Collective Planner Revalidation Broker Message Client Codec.
From S2P Require Import Framing Transport Protocol Store Persistence Coordinator Machine Connection Cuda Decidable Applications.

(** ** cuda_worker_main.cu: what the worker publishes *)

Definition cudaEp (id : EndpointId) (kind : EndpointKind) (node : NodeId) (arch : list Z) (boot : Z) : Endpoint := {|
  Endpoint.id := id; Endpoint.generation := 1; Endpoint.kind := kind; Endpoint.node := node; Endpoint.device := 0;
  Endpoint.location := TopologyLocation_default; Endpoint.address := ""; Endpoint.protocol := ""; Endpoint.version := "";
  Endpoint.name := "";
  Endpoint.capability := {| Capability.generation := 1; Capability.transports := {[Transport.CUDA; Transport.HOST_MEMORY]};
    Capability.features := ∅; Capability.provenance := Provenance.MEASURED; Capability.computeArch := arch |};
  Endpoint.health := {| Health.generation := 1; Health.healthy := true; Health.message := "" |};
  Endpoint.reachable := true; Endpoint.ready := true; Endpoint.worker := 1; Endpoint.workerBoot := boot;
  Endpoint.source := 0; Endpoint.sourceBoot := 0; Endpoint.failureDomain := ""; Endpoint.provenance := Provenance.MEASURED |}.

Definition hostEp (boot : Z) : Endpoint := cudaEp 1 EndpointKind.CPU_MEMORY 1 (replicate 8 0) boot.
Definition gpuEp (boot : Z) : Endpoint :=
  cudaEp 2 EndpointKind.GPU_DEVICE 2 (setArch (string_bytes "sm_120") (replicate 8 0)) boot.

Definition cudaBandwidth : Z := 30 * 2 ^ 30.

Definition cudaCapacity : Capacity := {|
  Capacity.generation := 1; Capacity.usable := cudaBandwidth; Capacity.headroom := cudaBandwidth;
  Capacity.provenance := Provenance.REPORTED |}.
Definition cudaCongestion : Congestion := {|
  Congestion.generation := 1; Congestion.load := dzero; Congestion.penalty := dzero; Congestion.hardLimitExceeded := false;
  Congestion.provenance := Provenance.REPORTED |}.

Definition cudaLink (boot : Z) : Link := {|
  Link.id := 1; Link.generation := 1; Link.source := 1; Link.destination := 2; Link.kind := LinkKind.GPU_HOST_PATH;
  Link.transport := Transport.CUDA; Link.directed := true; Link.capacity := cudaBandwidth;
  Link.effectiveBandwidth := cudaBandwidth; Link.latency := 5000;
  Link.health := {| Health.generation := 1; Health.healthy := true; Health.message := "" |};
  Link.congestion := cudaCongestion; Link.capacityEvidence := cudaCapacity; Link.topologyGeneration := 1;
  Link.capabilityGeneration := 1; Link.failureDomain := ""; Link.workerBoot := boot; Link.provenance := Provenance.MEASURED |}.

(** Its messages until it waits for orders.  The last two also set [worker] and [boot],
    which their encoding leaves out. *)
Definition cudaPublications (boot : Z) : list Message := [
  registerWorker 1 boot "A"; publishEndpointCall 1 boot (hostEp boot); publishEndpointCall 1 boot (gpuEp boot);
  publishLinkCall 1 boot (cudaLink boot); publishCapacity 1 cudaCapacity; publishCongestion 1 cudaCongestion].

Definition cudaEvents (s boot : Z) : list event := workerEvents s (cudaPublications boot).

(** ** The worker's turn *)

(** What the worker on socket [s] does with a frame, as [workerAction] does on its device. *)
Definition Device : Type := string + Frame -> WorkerAction.

(** The worker on socket [s] takes the frames that were sent to it and reports; the result
    is the evidence it logs.  It ignores what the coordinator answers. *)
Fixpoint workerTurn (device : Device) (s : Z) (sent : list (Z * Message)) : C (option (bool * bool)) :=
  match sent with
  | [] => ret None
  | (s', m) :: sent' =>
      if s' =? s then
        match device (recvFrame (arriving m)).1 with
        | Report res cleanOk baselineOk => exchange s res;; workerTurn device s sent';; ret (Some (cleanOk, baselineOk))
        | _ => workerTurn device s sent'
        end
      else workerTurn device s sent'
  end.

(** ** The controller *)

Definition deathReq (id payload : Z) : CommunicationRequest := {|
  Request.id := id; Request.generation := 1; Request.shape := RequestShape.POINT_TO_POINT; Request.source := 1;
  Request.destinations := [2]; Request.payloadSize := payload; Request.direction := Request_default.(Request.direction);
  Request.latencySensitive := Request_default.(Request.latencySensitive);
  Request.throughputTarget := Request_default.(Request.throughputTarget);
  Request.requireOrdering := Request_default.(Request.requireOrdering);
  Request.requireReliability := Request_default.(Request.requireReliability);
  Request.allowRetry := Request_default.(Request.allowRetry); Request.allowStaging := true; Request.allowHostStaging := true;
  Request.allowStorageStaging := Request_default.(Request.allowStorageStaging);
  Request.allowRelay := Request_default.(Request.allowRelay);
  Request.allowMulticast := Request_default.(Request.allowMulticast); Request.allowed := Request_default.(Request.allowed);
  Request.forbidden := Request_default.(Request.forbidden);
  Request.requiredFailureDomain := Request_default.(Request.requiredFailureDomain);
  Request.preferredLocality := Request_default.(Request.preferredLocality); Request.maxHops := Request_default.(Request.maxHops);
  Request.maxStages := Request_default.(Request.maxStages); Request.maxMovementCost := Request_default.(Request.maxMovementCost);
  Request.reservationBinding := Request_default.(Request.reservationBinding);
  Request.externalPriority := Request_default.(Request.externalPriority);
  Request.policyGeneration := Request_default.(Request.policyGeneration);
  Request.collectiveShape := Request_default.(Request.collectiveShape); Request.participants := Request_default.(Request.participants);
  Request.collectiveCount := Request_default.(Request.collectiveCount); Request.provenance := Request_default.(Request.provenance) |}.

Definition payload : Z := 4 * 2 ^ 20.

(** [submitUntilFeasible]: an attempt after each part of the schedule. *)
Fixpoint submitUntilFeasible (s id : Z) (feasible : bool) (out : CommunicationPlan) (schedule : list (list event)) :
    C (bool * CommunicationPlan) :=
  match schedule with
  | [] => ret (feasible, out)
  | evs :: schedule' =>
      happens evs;;
      do r <- call s (submitRequest (deathReq id payload));
      let '(sent, feasible, out) := submitReply r feasible out in
      if sent && feasible then ret (feasible, out) else submitUntilFeasible s id feasible out schedule'
  end.

(** A call with one out parameter. *)
Definition okCall (s : Z) (m : Message) (ok : bool) : C bool := do r <- call s m; ret (storesOk r ok).2.

(** The handover, after which the worker takes its turn. *)
Definition handoffCall (device : Device) (worker s : Z) (id : CommunicationPlanId) (ok : bool) : C (bool * option (bool * bool)) :=
  do out <- exchange s (executionHandoff id);
  do log <- workerTurn device worker out;
  ret ((storesOk (replyTo s out) ok).2, log).

Definition stateCall (s : Z) (id : CommunicationPlanId) (state : Z) : C Z := do r <- call s (queryPlanState id); ret (queryReply r state).2.

(** What [workerLogOk] of WorkerLog.v reads of that evidence; no log of an earlier run is
    there. *)
Definition evidenceOk (log : option (bool * bool)) : bool :=
  match log with Some (cleanOk, baselineOk) => cleanOk && baselineOk | None => false end.

Definition COMPLETED_ : Z := PlanState_u8 PlanState.COMPLETED.

(** Scenario 1, up to the death of the worker; [late] happens once the plan is there. *)
Definition firstTransfer (device : Device) (schedule : list (list event)) (late : list event) : C (bool * CommunicationPlan) :=
  do (feasOld, planOld) <- submitUntilFeasible 3 1 false Plan_default schedule;
  happens late;;
  ASSERT feasOld "plan involving Worker A live CUDA endpoint is feasible";;
  (if feasOld then
     ASSERT (bool_decide (length planOld.(Plan.orderedStages) = 1%nat)) "direct host<->GPU path selected (1 stage)";;
     do commitOk <- okCall 3 (commitPlan planOld.(Plan.id)) false;
     ASSERT commitOk "resource/staging commit succeeds";;
     do fresh <- okCall 3 (revalidate planOld.(Plan.id)) false;
     ASSERT fresh "revalidation fresh before handoff";;
     do (handoffOk, log) <- handoffCall device 1 3 planOld.(Plan.id) false;
     ASSERT handoffOk "execution handoff authorized to Worker A";;
     ASSERT (evidenceOk log) "Worker A recorded device-memory baseline + clean cleanup evidence";;
     do st <- stateCall 3 planOld.(Plan.id) (-1);
     ASSERT (st =? COMPLETED_) "Worker A executed real CUDA movement and reported success"
   else ret ());;
  ret (feasOld, planOld).

(** The end of a client's connection. *)
Definition disconnects (s : Z) : C () := happens [Disconnect s].

Definition ghostEp : Endpoint := {|
  Endpoint.id := 1; Endpoint.generation := 1; Endpoint.kind := EndpointKind.GPU_DEVICE; Endpoint.node := 1; Endpoint.device := 0;
  Endpoint.location := TopologyLocation_default; Endpoint.address := ""; Endpoint.protocol := ""; Endpoint.version := "";
  Endpoint.name := "";
  Endpoint.capability := {| Capability.generation := 0; Capability.transports := {[Transport.CUDA]}; Capability.features := ∅;
    Capability.provenance := Capability_default.(Capability.provenance); Capability.computeArch := replicate 8 0 |};
  Endpoint.health := {| Health.generation := 0; Health.healthy := true; Health.message := "" |};
  Endpoint.reachable := true; Endpoint.ready := true; Endpoint.worker := 0; Endpoint.workerBoot := 0; Endpoint.source := 0;
  Endpoint.sourceBoot := 0; Endpoint.failureDomain := ""; Endpoint.provenance := Provenance.UNKNOWN |}.

Definition ghostLink : Link := {|
  Link.id := 1; Link.generation := 1; Link.source := 1; Link.destination := 2; Link.kind := Link_default.(Link.kind);
  Link.transport := Transport.CUDA; Link.directed := true; Link.capacity := 1;
  Link.effectiveBandwidth := Link_default.(Link.effectiveBandwidth); Link.latency := Link_default.(Link.latency);
  Link.health := {| Health.generation := 0; Health.healthy := true; Health.message := "" |};
  Link.congestion := Congestion_default; Link.capacityEvidence := Capacity_default; Link.topologyGeneration := 0;
  Link.capabilityGeneration := 0; Link.failureDomain := ""; Link.workerBoot := 0; Link.provenance := Link_default.(Link.provenance) |}.

(** Scenario 2: the worker dies and its authority is replayed. *)
Definition workerDeath (planOld : CommunicationPlan) : C () :=
  disconnects 1;;
  do freshAfterDeath <- okCall 3 (revalidate planOld.(Plan.id)) true;
  ASSERT (negb freshAfterDeath) "old plan REVALIDATION_REQUIRED after Worker A death";;
  do handoffAfterDeath <- okCall 3 (executionHandoff planOld.(Plan.id)) true;
  ASSERT (negb handoffAfterDeath) "old plan execution handoff rejected after Worker A death";;
  happens [Accept 5];;
  do regOld <- call 5 (registerWorker 1 1000 "oldA");
  ASSERT (negb (returnsOk regOld)) "old WorkerBootId REGISTER rejected (fenced)";;
  do pubOld <- call 5 (publishEndpointCall 1 1000 ghostEp);
  ASSERT (negb (returnsOk pubOld)) "stale endpoint publication rejected";;
  do pubLink <- call 5 (publishLinkCall 1 1000 ghostLink);
  ASSERT (negb (returnsOk pubLink)) "stale link publication rejected";;
  call 5 (executionResult planOld.(Plan.id) true);;
  do st <- stateCall 3 planOld.(Plan.id) (-1);
  ASSERT (negb (st =? COMPLETED_)) "stale result does not complete the old plan";;
  disconnects 5.

(** Scenario 3: the worker comes back with a fresh boot, on socket 6. *)
Definition secondTransfer (device : Device) (schedule : list (list event)) (planOld : CommunicationPlan) : C () :=
  do (feasNew, planNew) <- submitUntilFeasible 3 2 false Plan_default schedule;
  ASSERT feasNew "fresh plan after Worker A' republish is feasible";;
  (if feasNew then
     ASSERT (planOld.(Plan.generation) <? planNew.(Plan.generation)) "fresh CommunicationPlanGeneration advances";;
     do commitOk <- okCall 3 (commitPlan planNew.(Plan.id)) false;
     ASSERT commitOk "fresh resource/staging commit succeeds";;
     do fresh <- okCall 3 (revalidate planNew.(Plan.id)) false;
     ASSERT fresh "fresh revalidation uses new generations";;
     do (hok, log) <- handoffCall device 6 3 planNew.(Plan.id) false;
     ASSERT hok "fresh execution handoff reaches Worker A'";;
     ASSERT (evidenceOk log) "Worker A' recorded fresh device-memory baseline + clean cleanup evidence";;
     do st <- stateCall 3 planNew.(Plan.id) (-1);
     ASSERT (st =? COMPLETED_) "Worker A' executed real CUDA movement"
   else ret ());;
  happens [Accept 7];;
  do regOld <- call 7 (registerWorker 1 1000 "oldA");
  ASSERT (negb (returnsOk regOld)) "old WorkerBootId remains fenced after A' reincarnation".

(** [main], with the devices of the two incarnations. *)
Definition deathProof (deviceA deviceA' : Device) (schedule schedule' : list (list event)) (late : list event) :
    option (list (string * bool)) :=
  match (happens [Accept 3];;
         do (_, planOld) <- firstTransfer deviceA schedule late;
         workerDeath planOld;;
         secondTransfer deviceA' schedule' planOld) (coordinatorProcess None, []) with
  | Some (_, (_, log)) => Some log
  | None => None
  end.

(** ** Devices that behave alike *)

Lemma session_bind_ext {A B} (m m' : C A) (k k' : A -> C B) st :
  (forall st, m st = m' st) -> (forall a st, k a st = k' a st) -> bind m k st = bind m' k' st.
Proof. intros Hm Hk. unfold bind. rewrite Hm. destruct (m' st) as [[a st']|]; [apply Hk|done]. Qed.

Section alike.
Context (d d' : Device) (Hd : forall received, d received = d' received).

Lemma workerTurn_ext s sent st : workerTurn d s sent st = workerTurn d' s sent st.
Proof.
  revert st. induction sent as [|[s' m] sent IH]; intros st; [done|]. cbn [workerTurn]. destruct (s' =? s); [|done].
  rewrite Hd. destruct (d' _); try done. apply session_bind_ext; [done|]. intros _ st'. by apply session_bind_ext.
Qed.

Lemma handoffCall_ext worker s id ok st : handoffCall d worker s id ok st = handoffCall d' worker s id ok st.
Proof. apply session_bind_ext; [done|]. intros out st'. apply session_bind_ext; [apply workerTurn_ext|done]. Qed.

Lemma firstTransfer_ext schedule late st : firstTransfer d schedule late st = firstTransfer d' schedule late st.
Proof.
  unfold firstTransfer. repeat first [reflexivity | apply handoffCall_ext | apply session_bind_ext; [intros ?|intros ? ?] | case_match].
Qed.

Lemma secondTransfer_ext schedule plan st : secondTransfer d schedule plan st = secondTransfer d' schedule plan st.
Proof.
  unfold secondTransfer. repeat first [reflexivity | apply handoffCall_ext | apply session_bind_ext; [intros ?|intros ? ?] | case_match].
Qed.
End alike.

Lemma deathProof_ext (d1 d1' d2 d2' : Device) schedule schedule' late :
  (forall r, d1 r = d1' r) -> (forall r, d2 r = d2' r) ->
  deathProof d1 d2 schedule schedule' late = deathProof d1' d2' schedule schedule' late.
Proof.
  intros H1 H2. unfold deathProof.
  assert (Hc : forall st, (happens [Accept 3];; do (_, planOld) <- firstTransfer d1 schedule late; workerDeath planOld;;
    secondTransfer d2 schedule' planOld) st = (happens [Accept 3];; do (_, planOld) <- firstTransfer d1' schedule late; workerDeath planOld;;
    secondTransfer d2' schedule' planOld) st); [|by rewrite Hc].
  intros st. apply session_bind_ext; [done|]. intros _ st1. apply session_bind_ext; [by apply firstTransfer_ext|]. intros [_ planOld] st2.
  apply session_bind_ext; [done|]. intros _ st3. by apply secondTransfer_ext.
Qed.

(** A device on which every call for an order of [payload] bytes succeeds. *)
Definition works (R : CudaRuntime) (freeBefore : Z) : Prop :=
  cudaMalloc payload = true /\ deviceWorks (payload / 4) = true /\ cudaFree = true /\ freeBefore <= cudaMemFree.

(** The same worker with the outcome of such an order known. *)
Definition obedient (R : CudaRuntime) (boot freeBefore : Z) : Device := fun received =>
  match received with
  | inl _ => workerAction boot freeBefore received
  | inr f =>
      match decodeMessage f.(Frame.type) f.(Frame.payload) with
      | inl _ => workerAction boot freeBefore received
      | inr m =>
          if bool_decide (f.(Frame.type) = MessageType.EXECUTE) && (m.(Message.boot) =? boot) && (m.(Message.bytes) =? payload)
          then Report (executionReport boot m true) true true
          else workerAction boot freeBefore received
      end
  end.

Lemma working_device_obeys (R : CudaRuntime) {L : CudaLaws R} boot freeBefore received :
  works R freeBefore -> workerAction boot freeBefore received = obedient R boot freeBefore received.
Proof.
  intros (Hm & Hw & Hf & Hb). unfold obedient. destruct received as [e|f]; [done|].
  destruct (decodeMessage _ _) as [e|m] eqn:Hd; [done|].
  destruct (bool_decide _ && _ && _) eqn:Hc; [|done]. rewrite !andb_true_iff, bool_decide_eq_true, !Z.eqb_eq in Hc.
  destruct Hc as [[Ht Hboot] Hbytes]. unfold workerAction. rewrite Hd, Ht, Hboot, Hbytes, Z.eqb_refl.
  rewrite bool_decide_eq_false_2, bool_decide_eq_true_2 by done. cbn [negb].
  rewrite execute_result by (vm_compute; split; [discriminate|reflexivity]).
  change (4 * (payload / 4)) with payload. apply Z.leb_le in Hb. by rewrite Hm, Hw, Hf, Hb.
Qed.

(** ** The session *)

(** The schedule in which the controller attempts its request before those events of
    [evs] that [before] marks, and once after all of them. *)
Fixpoint attempts (before : list bool) (chunk evs : list event) : list (list event) :=
  match before, evs with
  | b :: before', ev :: evs' => if b then chunk :: attempts before' [ev] evs' else attempts before' (chunk ++ [ev]) evs'
  | _, _ => [chunk ++ evs]
  end.

Definition polled (before : list bool) (s boot : Z) : list (list event) :=
  attempts before [Accept s] (arrival s <$> cudaPublications boot).

Definition deathLog : list (string * bool) := (fun msg => (msg, true)) <$> [
  "plan involving Worker A live CUDA endpoint is feasible"; "direct host<->GPU path selected (1 stage)";
  "resource/staging commit succeeds"; "revalidation fresh before handoff"; "execution handoff authorized to Worker A";
  "Worker A recorded device-memory baseline + clean cleanup evidence";
  "Worker A executed real CUDA movement and reported success"; "old plan REVALIDATION_REQUIRED after Worker A death";
  "old plan execution handoff rejected after Worker A death"; "old WorkerBootId REGISTER rejected (fenced)";
  "stale endpoint publication rejected"; "stale link publication rejected"; "stale result does not complete the old plan";
  "fresh plan after Worker A' republish is feasible"; "fresh CommunicationPlanGeneration advances";
  "fresh resource/staging commit succeeds"; "fresh revalidation uses new generations";
  "fresh execution handoff reaches Worker A'"; "Worker A' recorded fresh device-memory baseline + clean cleanup evidence";
  "Worker A' executed real CUDA movement"; "old WorkerBootId remains fenced after A' reincarnation"].

Fixpoint patterns (n : nat) : list (list bool) :=
  match n with O => [[]] | S n' => (cons true <$> patterns n') ++ (cons false <$> patterns n') end.

Lemma patterns_complete n before : length before = n -> before ∈ patterns n.
Proof.
  revert n. induction before as [|b before IH]; intros n <-; [by left|]. cbn [patterns length]. apply elem_of_app.
  destruct b; [left|right]; apply list_elem_of_fmap; eauto.
Qed.

Section obedient.
Context (R R' : CudaRuntime) (freeBefore freeBefore' : Z).

Lemma obedient_sessions :
  forallb (fun before => bool_decide (deathProof (obedient R 1000 freeBefore) (obedient R' 3000 freeBefore')
    (polled before 1 1000) (polled before 6 3000) [] = Some deathLog)) (patterns 4) = true.
Proof. vm_cast_no_check (@eq_refl _ true). Qed.

Lemma obedient_session before :
  length before = 4%nat ->
  deathProof (obedient R 1000 freeBefore) (obedient R' 3000 freeBefore') (polled before 1 1000) (polled before 6 3000) [] = Some deathLog.
Proof.
  intros Hb. apply patterns_complete, list_elem_of_In in Hb. pose proof obedient_sessions as H. rewrite forallb_forall in H.
  exact (bool_decide_eq_true_1 _ (H before Hb)).
Qed.
End obedient.


Lemma reliableDevice_works : works reliableDevice (2 ^ 33).
Proof. split; [reflexivity|]. split; [reflexivity|]. split; [reflexivity|]. vm_compute. discriminate. Qed.


(** An attempt that succeeds between the worker's link and its capacity gives a plan that
    the worker's own next message makes stale: the session fails. *)
Theorem early_plan_stale (R R' : CudaRuntime) {L : CudaLaws R} {L' : CudaLaws R'} freeBefore freeBefore' :
  works R freeBefore -> works R' freeBefore' ->
  exists log,
    deathProof (workerAction (R := R) 1000 freeBefore) (workerAction (R := R') 3000 freeBefore')
      [take 5 (cudaEvents 1 1000)] [cudaEvents 6 3000] (drop 5 (cudaEvents 1 1000)) = Some log /\
    ("revalidation fresh before handoff", false) ∈ log.
Proof.
  intros Hw Hw'.
  rewrite (deathProof_ext _ (obedient R 1000 freeBefore) _ (obedient R' 3000 freeBefore')) by (intros received; by apply working_device_obeys).
  eexists. split; [vm_compute; reflexivity|]. do 3 right. left.
Qed.
