(* ===== verification/CudaWorker.v ===== *)
(** * The CUDA worker's process

    Composes cuda/cuda_worker_main.cu from its parts: [main] over the bytes of its
    connection, from the HELLO it waits for to the end of its loop, with the reports it
    sends and the evidence log it leaves.  What the device does with an order is a step
    [run] on a state of the device, of which [memoryDevice] (CudaMemory.v) and
    [runtimeDevice] (Cuda.v) are instances.  Frames that arrive later than they are
    asked for are waited for: what a connection delivers is what it will ever deliver. *)

From S2P Require Import Prelude Core Enums Double Model Scenario Message Client Codec Framing Transport Protocol Connection.
From S2P Require Import Sockets WorkerLog Cuda CudaMemory CudaSession.

(** What else a connected socket does not do: receiving takes nothing from what was sent,
    and sending nothing from what is to be received. *)
Class Duplex (Sock : Type) `{HS : Socket Sock} := {
  recv_keeps n (s : Sock) r s' : recv n s = (r, s') -> outgoing s' = outgoing s;
  send_keeps bs (s : Sock) r s' : send bs s = (r, s') -> incoming s' = incoming s;
}.

(** A connection on which nothing fails to be sent. *)
Class OpenToSend (Sock : Type) `{HS : Socket Sock} := {
  send_open bs (s : Sock) : exists r s', send bs s = (Some r, s');
}.

(** ** Definitions *)

Inductive Ending := Exited (code : Z) | Crashed.

Section worker.
Context {Sock : Type} `{HS : Socket Sock}.

(** [run n d]: what an order of [n] ints does on the device [d], and the free memory that
    is measured afterwards. *)
Context {D : Type} (run : Z -> D -> Execution * Z * D).
Context (boot freeBefore : Z).

(** The size in ints of an order that the worker executes. *)
Definition orderSize (m : Message) : option Z :=
  if bool_decide (m.(Message.type) = MessageType.EXECUTE) && (m.(Message.boot) =? boot) then
    let n := to_int (m.(Message.bytes) / 4) in
    if n <=? 0 then None else Some n
  else None.

(** The body of the loop, after [recvFrame] gave it [received]: the action, and the free
    memory that was measured last. *)
Definition workerStep (received : string + Frame) (d : D) : WorkerAction * Z * D :=
  match received with
  | inl _ => (Leave, 0, d)
  | inr f =>
      match decodeMessage f.(Frame.type) f.(Frame.payload) with
      | inl _ => (Ignore, 0, d)
      | inr m =>
          if bool_decide (f.(Frame.type) = MessageType.SHUTDOWN) then (Leave, 0, d)
          else if bool_decide (f.(Frame.type) = MessageType.EXECUTE) then
            if negb (m.(Message.boot) =? boot) then (Ignore, 0, d)
            else
              let n := to_int (m.(Message.bytes) / 4) in
              if n <=? 0 then (Ignore, 0, d)
              else
                let '(e, freeAfter, d') := run n d in
                (match e with
                 | UndefinedBehaviour => Crash
                 | NotReported => Ignore
                 | Executed okc cleanOk baselineOk => Report (executionReport boot m okc) cleanOk baselineOk
                 end, freeAfter, d')
          else (Ignore, 0, d)
      end
  end.

(** The loop: how it ends, the device, the log files and the connection; [None] is running
    out of fuel. *)
Fixpoint workerLoop (fuel : nat) (d : D) (files : gmap string string) (s : Sock) : option (Ending * D * gmap string string * Sock) :=
  match fuel with
  | O => None
  | S fuel' =>
      let '(received, s1) := recvFrame s in
      let '(action, freeAfter, d1) := workerStep received d in
      match action with
      | Leave => Some (Exited 0, d1, files, s1)
      | Crash => Some (Crashed, d1, files, s1)
      | Ignore => workerLoop fuel' d1 files s1
      | Report res cleanOk baselineOk =>
          workerLoop fuel' d1 (writeLog boot freeBefore freeAfter res.(Message.ok) cleanOk baselineOk files)
            (sendFrame (frameOf res) s1).2
      end
  end.

(** [pub]: neither the sending nor the acknowledgement is looked at. *)
Definition pub (s : Sock) (m : Message) : Sock := (recvFrame (sendFrame (frameOf m) s).2).2.

(** [main] up to its loop, on a connection: the exit code, if it ends there. *)
Definition startup (role : string) (devCount major : Z) (s : Sock) : option Z * Sock :=
  match recvFrame s with
  | (inl _, s) => (Some 1, s)
  | (inr _, s) =>
      if devCount <? 1 then (Some 1, s)
      else if negb (major =? 12) then (Some 1, s)
      else
        match sendFrame (frameOf (registerWorker 1 boot role)) s with
        | (inl _, s) => (Some 1, s)
        | (inr _, s) =>
            match recvFrame s with
            | (inl _, s) => (Some 1, s)
            | (inr _, s) => (None, foldl pub s (tail (cudaPublications boot)))
            end
        end
  end.

(** [main] once it is connected, with fuel for all that the connection delivers. *)
Definition workerMain (role : string) (devCount major : Z) (d : D) (files : gmap string string) (s : Sock) :
    option (Ending * D * gmap string string * Sock) :=
  match startup role devCount major s with
  | (Some code, s) => Some (Exited code, d, files, s)
  | (None, s) => workerLoop (S (length (incoming s))) d files s
  end.

(** ** What the worker promises

    The orders of a list of messages, as they are served: each with its outcome and the
    free memory after it, how the list ends, and the device. *)

Fixpoint served (ms : list Message) (d : D) : list (Message * Z * bool * bool) * Ending * D :=
  match ms with
  | [] => ([], Exited 0, d)
  | m :: ms' =>
      if bool_decide (m.(Message.type) = MessageType.SHUTDOWN) then ([], Exited 0, d)
      else
        match orderSize m with
        | None => served ms' d
        | Some n =>
            match run n d with
            | (UndefinedBehaviour, _, d') => ([], Crashed, d')
            | (NotReported, _, d') => served ms' d'
            | (Executed okc cleanOk baselineOk, freeAfter, d') =>
                let '(rs, e, d'') := served ms' d' in
                ((executionReport boot m okc, freeAfter, cleanOk, baselineOk) :: rs, e, d'')
            end
        end
  end.

(** The reports on the connection, and the logs in the file system. *)
Definition reportBytes (rs : list (Message * Z * bool * bool)) : list Z := concat ((fun r => wireFrame (frameOf r.1.1.1)) <$> rs).

Definition logged (rs : list (Message * Z * bool * bool)) (files : gmap string string) : gmap string string :=
  foldl (fun files '(res, freeAfter, cleanOk, baselineOk) =>
    writeLog boot freeBefore freeAfter res.(Message.ok) cleanOk baselineOk files) files rs.
End worker.

(** ** Frames on such a connection *)

Section duplex.
Context {Sock : Type} `{HS : Socket Sock} `{HD : !Duplex Sock}.
Implicit Types s : Sock.

Lemma readExact_loop_keeps fuel n s r s' : readExact_loop fuel n s = Some (r, s') -> outgoing s' = outgoing s.
Proof.
  revert n s r; induction fuel as [|fuel IH]; intros [|n] s r H; cbn [readExact_loop] in H; simplify_eq; [done..|].
  destruct (recv (S n) s) as [[[|b bs]|] s1] eqn:E; apply recv_keeps in E; simplify_eq; [done| |done].
  destruct (readExact_loop fuel _ s1) as [[[rest|] s2]|] eqn:E2; simplify_eq; apply IH in E2; congruence.
Qed.

Lemma readExact_keeps n s : outgoing (readExact n s).2 = outgoing s.
Proof.
  unfold readExact. destruct (readExact_loop n n s) as [[r s']|] eqn:E; [|done]. by eapply readExact_loop_keeps.
Qed.

Lemma recvFrame_keeps s : outgoing (recvFrame s).2 = outgoing s.
Proof.
  unfold recvFrame. pose proof (readExact_keeps 4 s) as H1. destruct (readExact 4 s) as [[hdr|] s1]; [|done]. cbn [snd] in H1.
  cbv zeta. destruct (_ || _); [done|]. pose proof (readExact_keeps (Z.to_nat (le_value hdr)) s1) as H2.
  destruct (readExact _ s1) as [[buf|] s2]; cbn [snd] in *; congruence.
Qed.

Lemma writeAll_loop_keeps fuel bs s r s' : writeAll_loop fuel bs s = Some (r, s') -> incoming s' = incoming s.
Proof.
  revert bs s r; induction fuel as [|fuel IH]; intros [|b bs] s r H; cbn [writeAll_loop] in H; simplify_eq; [done..|].
  destruct (send (b :: bs) s) as [[n|] s1] eqn:E; apply send_keeps in E; simplify_eq; [|done]. apply IH in H. congruence.
Qed.

Lemma writeAll_keeps bs s : incoming (writeAll bs s).2 = incoming s.
Proof.
  unfold writeAll. destruct (writeAll_loop _ _ s) as [[r s']|] eqn:E; [|done]. by eapply writeAll_loop_keeps.
Qed.

Lemma sendFrame_keeps f s : incoming (sendFrame f s).2 = incoming s.
Proof.
  unfold sendFrame. destruct (encodeFrame f) as [|bytes]; [done|].
  pose proof (writeAll_keeps (u32 (wrap32 (Z.of_nat (length bytes)))) s) as H1. destruct (writeAll (u32 _) s) as [[] s1]; [|done].
  cbn [snd] in H1. pose proof (writeAll_keeps bytes s1) as H2. destruct (writeAll bytes s1) as [[] s2]; cbn [snd] in *; congruence.
Qed.

Lemma readExact_length n s bs s' : readExact n s = (Some bs, s') -> length bs = n.
Proof. unfold readExact. destruct (readExact_loop n n s) as [r|] eqn:E; [|done]. intros ->. by eapply readExact_loop_length. Qed.

(** A frame that was received has taken at least its length. *)
Lemma recvFrame_shorter s f s' : recvFrame s = (inr f, s') -> (length (incoming s') < length (incoming s))%nat.
Proof.
  unfold recvFrame. destruct (readExact 4 s) as [[hdr|] s1] eqn:E1; [|done].
  pose proof (readExact_length _ _ _ _ E1) as Hl. apply readExact_order in E1. rewrite E1, length_app.
  cbv zeta. destruct (_ || _); [done|]. destruct (readExact _ s1) as [[buf|] s2] eqn:E2; [|done]. apply readExact_order in E2.
  intros [= _ <-]. rewrite E2, length_app. lia.
Qed.
End duplex.

Section open.
Context {Sock : Type} `{HS : Socket Sock} `{HO : !OpenToSend Sock}.
Implicit Types s : Sock.

Lemma writeAll_open bs s : (writeAll bs s).1 = true.
Proof.
  unfold writeAll. destruct (writeAll_loop_enough (length bs) bs s) as [_ [[r s'] E]]; [done|]. rewrite E. cbn [fst].
  revert bs s E. assert (H : forall fuel bs s r s', writeAll_loop fuel bs s = Some (r, s') -> r = true); [|intros; by eapply H].
  clear r s'. intros fuel. induction fuel as [|fuel IH]; intros [|b bs] s r s' H; cbn [writeAll_loop] in H; simplify_eq; [done..|].
  destruct (send_open (b :: bs) s) as (n & s1 & E). rewrite E in H. by eapply IH.
Qed.

Lemma sendFrame_open f s : small_frame f -> exists s', sendFrame f s = (inr (), s').
Proof.
  intros Hf. unfold sendFrame. rewrite encodeFrame_bytes by done.
  match goal with |- context [writeAll ?b s] => pose proof (writeAll_open b s) as H1; destruct (writeAll b s) as [b1 s1] end. cbn [fst] in H1. subst b1.
  pose proof (writeAll_open (frameBytes f) s1) as H2. destruct (writeAll (frameBytes f) s1) as [b2 s2]. cbn [fst] in H2. subst b2. by exists s2.
Qed.
End open.

(** ** The loop *)

Section loop.
Context {Sock : Type} `{HS : Socket Sock} `{HD : !Duplex Sock}.
Context {D : Type} (run : Z -> D -> Execution * Z * D) (boot freeBefore : Z).
Implicit Types s : Sock.

Lemma workerStep_leaves e d : workerStep run boot (inl e) d = (Leave, 0, d).
Proof. done. Qed.

(** Fuel for more frames than the bytes on the way can hold changes nothing. *)
Lemma workerLoop_enough fuel d files s :
  (length (incoming s) < fuel)%nat ->
  workerLoop run boot freeBefore fuel d files s = workerLoop run boot freeBefore (S (length (incoming s))) d files s /\
  is_Some (workerLoop run boot freeBefore (S (length (incoming s))) d files s).
Proof.
  revert d files s; induction fuel as [fuel IH] using lt_wf_ind; intros d files s Hf. destruct fuel as [|fuel]; [lia|].
  cbn [workerLoop]. destruct (recvFrame s) as [[e|f] s1] eqn:Er; [cbn; eauto|]. apply recvFrame_shorter in Er.
  assert (IH' : forall d files s', incoming s' = incoming s1 ->
    workerLoop run boot freeBefore fuel d files s' = workerLoop run boot freeBefore (length (incoming s)) d files s' /\
    is_Some (workerLoop run boot freeBefore (length (incoming s)) d files s')).
  { intros d' files' s' Hi. destruct (IH fuel ltac:(lia) d' files' s') as [-> Hs]; [rewrite Hi; lia|].
    destruct (IH (length (incoming s)) ltac:(lia) d' files' s') as [-> _]; [rewrite Hi; lia|]. done. }
  destruct (workerStep run boot (inr f) d) as [[[]  fa] d1]; [eauto|by apply IH'|eauto|].
  apply IH'. by rewrite sendFrame_keeps.
Qed.
End loop.

(** ** Orders in, reports out *)

Lemma carriedMessage_type m : (carriedMessage m).(Message.type) = m.(Message.type).
Proof. unfold carriedMessage. by destruct (Message.type m) eqn:E. Qed.

(** The bytes of messages sent one after the other. *)
Definition wireMessages (ms : list Message) : list Z := concat ((fun m => wireFrame (frameOf m)) <$> ms).

Lemma wireFrame_nonempty f : (0 < length (wireFrame f))%nat.
Proof. unfold wireFrame. rewrite length_app, length_u32. lia. Qed.

Lemma wireMessages_length ms : (length ms <= length (wireMessages ms))%nat.
Proof.
  induction ms as [|m ms IH]; [done|]. unfold wireMessages in *. cbn [fmap list_fmap concat length]. rewrite length_app.
  pose proof (wireFrame_nonempty (frameOf m)). lia.
Qed.

(** A report fits both limits. *)
Lemma report_deliverable boot m ok :
  is_u64 boot -> is_u64 m.(Message.planId) -> deliverable (executionReport boot m ok).
Proof.
  intros Hb Hm. split; [split_and!; [done|split; vm_compute; discriminate|done]|].
  unfold receivable. cbn [frameOf Frame.payload]. unfold encodeMessage, executionReport, makeMessage.
  cbn [Message.type Message.ok Message.planId Message.worker Message.boot concat]. unfold u64, boo.
  rewrite !length_app, !length_le_bytes. destruct ok; vm_compute; discriminate.
Qed.

Lemma receivable_small f : receivable f -> small_frame f.
Proof. unfold receivable, small_frame. lia. Qed.

Section serving.
Context {Sock : Type} `{HS : Socket Sock} `{HD : !Duplex Sock} `{HO : !OpenToSend Sock}.
Context {D : Type} (run : Z -> D -> Execution * Z * D) (boot freeBefore : Z).
Implicit Types s : Sock.

(** What the step does with the frame of a message. *)
Lemma workerStep_frame m d :
  sendable m ->
  workerStep run boot (inr (frameOf m)) d =
    if bool_decide (m.(Message.type) = MessageType.SHUTDOWN) then (Leave, 0, d)
    else
      match orderSize boot (carriedMessage m) with
      | None => (Ignore, 0, d)
      | Some n =>
          let '(e, freeAfter, d') := run n d in
          (match e with
           | UndefinedBehaviour => Crash
           | NotReported => Ignore
           | Executed okc cleanOk baselineOk => Report (executionReport boot (carriedMessage m) okc) cleanOk baselineOk
           end, freeAfter, d')
      end.
Proof.
  intros Hm. unfold workerStep, orderSize. rewrite frame_decodes by done. rewrite carriedMessage_type. cbn [frameOf Frame.type].
  case_bool_decide; [done|]. case_bool_decide; [|done]. destruct (_ =? boot); [|done]. cbn [negb andb]. by destruct (_ <=? 0).
Qed.

Lemma order_plan m n : sendable m -> orderSize boot (carriedMessage m) = Some n -> is_u64 (carriedMessage m).(Message.planId).
Proof.
  unfold orderSize. rewrite carriedMessage_type. case_bool_decide as Ht; [|done]. unfold sendable, carriedMessage. rewrite Ht. tauto.
Qed.

Lemma workerLoop_serves fuel ms d files s :
  (length ms < fuel)%nat -> is_u64 boot -> Forall deliverable ms -> incoming s = wireMessages ms ->
  let '(rs, e, d') := served run boot (carriedMessage <$> ms) d in
  exists s', workerLoop run boot freeBefore fuel d files s = Some (e, d', logged boot freeBefore rs files, s') /\
    outgoing s' = outgoing s ++ reportBytes rs.
Proof.
  intros Hf Hb Hms. revert fuel d files s Hf. induction Hms as [|m ms [Hm Hr] Hms IH]; intros [|fuel] d files s Hf Hi; cbn [length] in Hf; try lia.
  - cbn [workerLoop]. pose proof (recvFrame_keeps s) as Hk. destruct (recvFrame s) as [[e|f] s1] eqn:E; cbn [snd] in Hk.
    + exists s1. split; [done|]. by rewrite Hk, app_nil_r.
    + apply recvFrame_shorter in E. rewrite Hi in E. cbn in E. lia.
  - cbn [workerLoop fmap list_fmap served].
    destruct (recvFrame_incoming (frameOf m) (wireMessages ms) s Hr Hi) as (s1 & Er & Hi1).
    pose proof (recvFrame_keeps s) as Hk. rewrite Er in *. cbn [snd] in Hk. rewrite workerStep_frame by done. rewrite carriedMessage_type.
    case_bool_decide as Hs; [exists s1; by rewrite Hk, app_nil_r|].
    destruct (orderSize boot (carriedMessage m)) as [n|] eqn:Ho.
    2:{ specialize (IH fuel d files s1 ltac:(lia) Hi1). by rewrite Hk in IH. }
    destruct (run n d) as [[[| |okc c b] fa] d1].
    + exists s1. by rewrite Hk, app_nil_r.
    + specialize (IH fuel d1 files s1 ltac:(lia) Hi1). by rewrite Hk in IH.
    + set (res := executionReport boot (carriedMessage m) okc).
      destruct (report_deliverable boot (carriedMessage m) okc Hb (order_plan m n Hm Ho)) as [_ Hd]. fold res in Hd.
      destruct (sendFrame_open (frameOf res) s1 (receivable_small _ Hd)) as [s2 Es].
      pose proof (sendFrame_keeps (frameOf res) s1) as Hk2. apply sendFrame_outgoing in Es as Hout. rewrite Es in *. cbn [snd] in *.
      destruct Hout as [_ Hout].
      specialize (IH fuel d1 (writeLog boot freeBefore fa res.(Message.ok) c b files) s2 ltac:(lia) ltac:(by rewrite Hk2)).
      destruct (served run boot (carriedMessage <$> ms) d1) as [[rs e] d']. destruct IH as (s' & -> & Ho').
      exists s'. split; [done|]. unfold reportBytes. cbn [fmap list_fmap concat fst]. by rewrite Ho', Hout, Hk, app_assoc.
Qed.

(** ** Startup *)

Lemma pub_frame f m rest s :
  small_frame (frameOf m) -> receivable f -> incoming s = wireFrame f ++ rest ->
  incoming (pub s m) = rest /\ outgoing (pub s m) = outgoing s ++ wireFrame (frameOf m).
Proof.
  intros Hm Hf Hi. unfold pub. destruct (sendFrame_open (frameOf m) s Hm) as [s1 Es].
  pose proof (sendFrame_keeps (frameOf m) s) as Hk. apply sendFrame_outgoing in Es as Hout. rewrite Es in *. cbn [snd] in *.
  rewrite Hi in Hk. destruct (recvFrame_incoming f rest s1 Hf Hk) as (s2 & Er & Hi2). pose proof (recvFrame_keeps s1) as Hk2.
  rewrite Er in *. cbn [snd] in *. split; [done|]. rewrite Hk2. apply Hout.
Qed.

Lemma pubs_frames fs ms rest s :
  length fs = length ms -> Forall (fun m => small_frame (frameOf m)) ms -> Forall receivable fs ->
  incoming s = concat (wireFrame <$> fs) ++ rest ->
  incoming (foldl pub s ms) = rest /\ outgoing (foldl pub s ms) = outgoing s ++ wireMessages ms.
Proof.
  revert ms s. induction fs as [|f fs IH]; intros [|m ms] s Hl Hms Hfs Hi; try done; cbn [foldl].
  { split; [done|]. by rewrite app_nil_r. }
  apply Forall_cons in Hms as [Hm Hms]. apply Forall_cons in Hfs as [Hf Hfs]. cbn [fmap list_fmap concat] in Hi. rewrite <- app_assoc in Hi.
  destruct (pub_frame f m _ s Hm Hf Hi) as [Hi1 Ho1]. destruct (IH ms (pub s m)) as [Hi2 Ho2]; [by injection Hl|done..|].
  split; [done|]. unfold wireMessages in *. cbn [fmap list_fmap concat]. by rewrite Ho2, Ho1, app_assoc.
Qed.
End serving.

(** The publications fit the limit, whatever the boot. *)
Lemma publications_small boot : Forall (fun m => small_frame (frameOf m)) (tail (cudaPublications boot)).
Proof.
  cbn [tail cudaPublications]. repeat constructor; unfold small_frame; vm_compute; discriminate.
Qed.

Section process.
Context {Sock : Type} `{HS : Socket Sock} `{HD : !Duplex Sock} `{HO : !OpenToSend Sock}.
Context {D : Type} (run : Z -> D -> Execution * Z * D) (boot freeBefore : Z).
Implicit Types s : Sock.

Lemma startup_serves role devCount major hello ack acks rest s :
  Forall receivable (hello :: ack :: acks) -> length acks = 5%nat -> 1 <= devCount -> major = 12 ->
  deliverable (registerWorker 1 boot role) -> incoming s = concat (wireFrame <$> hello :: ack :: acks) ++ rest ->
  exists s', startup boot role devCount major s = (None, s') /\ incoming s' = rest /\
    outgoing s' = outgoing s ++ wireMessages (registerWorker 1 boot role :: tail (cudaPublications boot)).
Proof.
  intros Hfs Hl Hc Hm [_ Hreg] Hi. apply Forall_cons in Hfs as [Hh Hfs]. apply Forall_cons in Hfs as [Ha Hfs].
  cbn [fmap list_fmap concat] in Hi. rewrite <- !app_assoc in Hi. unfold startup.
  destruct (recvFrame_incoming hello _ s Hh Hi) as (s1 & E1 & Hi1). pose proof (recvFrame_keeps s) as Ho1. rewrite E1 in *. cbn [snd] in Ho1.
  destruct (Z.ltb_spec devCount 1); [lia|]. rewrite (proj2 (Z.eqb_eq _ _) Hm). cbn [negb].
  destruct (sendFrame_open (frameOf (registerWorker 1 boot role)) s1 (receivable_small _ Hreg)) as [s2 E2].
  pose proof (sendFrame_keeps (frameOf (registerWorker 1 boot role)) s1) as Hi2. apply sendFrame_outgoing in E2 as Hout.
  rewrite E2 in *. cbn [snd] in Hi2. rewrite Hi1 in Hi2.
  destruct (recvFrame_incoming ack _ s2 Ha Hi2) as (s3 & E3 & Hi3). pose proof (recvFrame_keeps s2) as Ho3. rewrite E3 in *. cbn [snd] in Ho3.
  destruct (pubs_frames acks (tail (cudaPublications boot)) rest s3) as [Hi4 Ho4]; [done|apply publications_small|done|done|].
  eexists. split; [done|]. split; [done|]. rewrite Ho4, Ho3, (proj2 Hout), Ho1. unfold wireMessages. cbn [fmap list_fmap concat].
  by rewrite !app_assoc.
Qed.

(** C30: the worker process serves its orders: on a connection that delivers a greeting, an
    acknowledgement for each of its six first messages, whatever these say, and then the
    coordinator's messages, in whatever pieces, the process ends, having sent its
    registration and publications and then exactly the reports of the orders it executed,
    in their order, each with the outcome its device gave it, and having logged the last of
    them; messages that are no order for its boot leave no trace, and a SHUTDOWN or the end
    of the connection ends it with exit code 0. *)
Theorem cuda_worker_process role devCount major hello ack acks ms d files s :
  Forall receivable (hello :: ack :: acks) -> length acks = 5%nat -> 1 <= devCount -> major = 12 ->
  deliverable (registerWorker 1 boot role) -> Forall deliverable ms ->
  incoming s = concat (wireFrame <$> hello :: ack :: acks) ++ wireMessages ms ->
  let '(rs, e, d') := served run boot (carriedMessage <$> ms) d in
  exists s', workerMain run boot freeBefore role devCount major d files s = Some (e, d', logged boot freeBefore rs files, s') /\
    outgoing s' = outgoing s ++ wireMessages (registerWorker 1 boot role :: tail (cudaPublications boot)) ++ reportBytes rs.
Proof.
  intros Hfs Hl Hc Hm Hreg Hms Hi. unfold workerMain.
  destruct (startup_serves role devCount major hello ack acks _ s Hfs Hl Hc Hm Hreg Hi) as (s1 & -> & Hi1 & Ho1).
  assert (Hb : is_u64 boot) by (destruct Hreg as [(_ & Hb & _) _]; exact Hb).
  pose proof (workerLoop_serves run boot freeBefore (S (length (incoming s1))) ms d files s1
    ltac:(rewrite Hi1; pose proof (wireMessages_length ms); lia) Hb Hms Hi1) as H.
  destruct (served run boot (carriedMessage <$> ms) d) as [[rs e] d']. destruct H as (s' & -> & Ho'). exists s'.
  split; [done|]. by rewrite Ho', Ho1, app_assoc.
Qed.

(** Without a device of compute capability 12 the process ends with exit code 1 before it
    has sent anything, and so it does if it is not greeted. *)
Theorem worker_without_device role devCount major d files s :
  devCount < 1 \/ major <> 12 \/ (exists e, (recvFrame s).1 = inl e) ->
  exists s', workerMain run boot freeBefore role devCount major d files s = Some (Exited 1, d, files, s') /\ outgoing s' = outgoing s.
Proof.
  intros H. unfold workerMain, startup. pose proof (recvFrame_keeps s) as Hk. destruct (recvFrame s) as [[e|f] s1]; cbn [fst snd] in *; [eauto|].
  destruct (Z.ltb_spec devCount 1); [eauto|]. destruct (Z.eqb_spec major 12); [|eauto]. destruct H as [H|[H|[? H]]]; [lia|done|done].
Qed.

(** Whatever bytes the connection delivers, the process ends: fuel for them is enough, and
    more changes nothing. *)
Theorem worker_process_ends role devCount major d files s :
  is_Some (workerMain run boot freeBefore role devCount major d files s) /\
  forall fuel s', (length (incoming s') < fuel)%nat ->
    workerLoop run boot freeBefore fuel d files s' = workerLoop run boot freeBefore (S (length (incoming s'))) d files s'.
Proof.
  split.
  - unfold workerMain. destruct (startup boot role devCount major s) as [[code|] s1]; [eauto|].
    apply (workerLoop_enough run boot freeBefore (S (length (incoming s1)))). lia.
  - intros fuel s' Hf. by apply workerLoop_enough.
Qed.
End process.

(** ** What the controller finds in the log *)

Lemma logged_last boot freeBefore rs res freeAfter cleanOk baselineOk files fa p :
  is_u64 boot -> is_u64 freeBefore -> is_u64 freeAfter ->
  workerLogOk boot fa p (logged boot freeBefore (rs ++ [(res, freeAfter, cleanOk, baselineOk)]) files) =
    Some (cleanOk && baselineOk, freeAfter, Z.b2z res.(Message.ok)).
Proof.
  intros Hb Hf Ha. unfold logged. rewrite foldl_app. cbn [foldl]. unfold workerLogOk, writeLog.
  rewrite lookup_insert_eq, scan_logLine by done. by destruct cleanOk, baselineOk.
Qed.

(** ** Devices *)

(** The runtime of Cuda.v, which answers every order alike. *)
Definition runtimeDevice (R : CudaRuntime) (freeBefore n : Z) (d : ()) : Execution * Z * () := (execute freeBefore (4 * n), cudaMemFree, d).

(** The memory of CudaMemory.v, with the results of the orders to come; those after them
    are good. *)
Definition memoryDevice (freeBefore n : Z) (d : DeviceState * list Results) : Execution * Z * (DeviceState * list Results) :=
  let '(e, st) := order 0 n (default good (head d.2)) d.1 in (e, freeBefore - st.(DeviceState.held), (st, tail d.2)).

Lemma orderSize_bounds boot m n : orderSize boot m = Some n -> 0 < n < 2 ^ 31 /\ n = to_int (m.(Message.bytes) / 4).
Proof.
  unfold orderSize. destruct (_ && _); [|done]. destruct (Z.leb_spec (to_int (Message.bytes m / 4)) 0); [done|]. intros [= <-].
  split; [|done]. split; [done|]. unfold to_int in *. pose proof (Z.mod_pos_bound (Message.bytes m / 4 + 2 ^ 31) (2 ^ 32)). lia.
Qed.

(** For orders below the range of [int] the step is that of [workerAction]. *)
Lemma workerStep_runtime (R : CudaRuntime) boot freeBefore received :
  (forall f m, received = inr f -> decodeMessage f.(Frame.type) f.(Frame.payload) = inr m -> 0 <= m.(Message.bytes) < 2 ^ 33) ->
  (workerStep (runtimeDevice R freeBefore) boot received ()).1.1 = workerAction boot freeBefore received.
Proof.
  intros Hr. destruct received as [e|f]; [done|]. unfold workerStep, workerAction. specialize (Hr f). destruct (decodeMessage _ _) as [e|m]; [done|].
  specialize (Hr m eq_refl eq_refl). case_bool_decide; [done|]. case_bool_decide; [|done]. destruct (_ =? boot); [|done]. cbn [negb].
  assert (Hq : 0 <= m.(Message.bytes) / 4 < 2 ^ 31).
  { split; [apply Z.div_pos; lia|]. apply Z.div_lt_upper_bound; lia. }
  set (q := m.(Message.bytes) / 4) in *. assert (Hx : 4 * q / 4 = q) by (rewrite Z.mul_comm, Z.div_mul; lia).
  assert (E : execute freeBefore (4 * to_int q) = execute freeBefore m.(Message.bytes))
    by (unfold execute; fold q; rewrite !(to_int_small q) by done; by rewrite Hx, (to_int_small q)).
  unfold runtimeDevice. rewrite E. destruct (_ <=? 0) eqn:En; [unfold execute; fold q; by rewrite En|]. by destruct (execute freeBefore _).
Qed.

(** ** Memory that was kept ends the worker's success *)

Lemma memoryDevice_held freeBefore n d :
  0 < n -> d.1.(DeviceState.held) <= (memoryDevice freeBefore n d).2.1.(DeviceState.held).
Proof.
  intros Hn. unfold memoryDevice. pose proof (order_held 0 n (default good (head d.2)) d.1 ltac:(lia)) as H.
  by destruct (order _ _ _ _).
Qed.

Lemma memoryDevice_below freeBefore n d :
  0 < n -> 0 < d.1.(DeviceState.held) -> below_baseline (memoryDevice freeBefore n d).1.1.
Proof.
  intros Hn Hd. pose proof (leaking_orders 0 [(n, default good (head d.2))] d.1 ltac:(repeat constructor; cbn; lia) Hd) as H.
  unfold memoryDevice. cbn [orders] in H. destruct (order _ _ _ _) as [e st]. cbn [fst] in *. by inversion H.
Qed.

(** While device memory is kept from an order that was given up, every report that
    reaches the coordinator says failure, whatever it orders and however well the device
    works. *)
Theorem leaking_worker_reports_failure boot freeBefore ms d :
  0 < d.1.(DeviceState.held) ->
  Forall (fun r => r.1.1.1.(Message.ok) = false) (served (memoryDevice freeBefore) boot ms d).1.1.
Proof.
  revert d. induction ms as [|m ms IH]; intros d Hd; [constructor|]. cbn [served].
  case_bool_decide; [constructor|]. destruct (orderSize boot m) as [n|] eqn:Ho; [|by apply IH].
  apply orderSize_bounds in Ho as [Hn _]. pose proof (memoryDevice_held freeBefore n d ltac:(lia)) as Hh.
  pose proof (memoryDevice_below freeBefore n d ltac:(lia) Hd) as Hb. destruct (memoryDevice freeBefore n d) as [[e fa] d1]. cbn [fst snd] in *.
  specialize (IH d1 ltac:(lia)). destruct e as [| |okc c b]; [constructor|done|]. destruct (served _ boot ms d1) as [[rs e] d'].
  constructor; [|done]. by destruct Hb as [-> _].
Qed.

(** ** Orders beyond the range of [int]

    The count of ints is truncated: an order of 16 GiB more is executed and reported like
    the order without them, and its report is the same on the wire. *)
Theorem huge_order_truncated {D : Type} (run : Z -> D -> Execution * Z * D) boot planId bytes worker d :
  let out b := served run boot [executeOf planId b worker boot] d in
  (out (bytes + 2 ^ 34)).1.2 = (out bytes).1.2 /\ (out (bytes + 2 ^ 34)).2 = (out bytes).2 /\
  reportBytes (out (bytes + 2 ^ 34)).1.1 = reportBytes (out bytes).1.1.
Proof.
  intros out. assert (Hn : orderSize boot (executeOf planId (bytes + 2 ^ 34) worker boot) = orderSize boot (executeOf planId bytes worker boot)).
  { unfold orderSize, executeOf, makeMessage. cbn [Message.type Message.boot Message.bytes]. rewrite Z.eqb_refl.
    replace ((bytes + 2 ^ 34) / 4) with (bytes / 4 + 2 ^ 32) by (replace (bytes + 2 ^ 34) with (bytes + 2 ^ 32 * 4) by lia; by rewrite Z.div_add by lia).
    unfold to_int. replace (bytes / 4 + 2 ^ 32 + 2 ^ 31) with (bytes / 4 + 2 ^ 31 + 1 * 2 ^ 32) by lia. by rewrite Z.mod_add by lia. }
  unfold out. cbn [served]. rewrite Hn. cbn [Message.type executeOf makeMessage].
  rewrite !(bool_decide_eq_false_2 (MessageType.EXECUTE = MessageType.SHUTDOWN)) by done.
  destruct (orderSize boot (executeOf planId bytes worker boot)) as [n|]; [destruct (run n d) as [[[| |okc c b] fa] d1]|]; done.
Qed.

(** ** A connection of segments *)

#[export] Instance Pipe_duplex : Duplex Pipe.
Proof.
  split.
  - intros n s r s'. cbn. unfold pipe_recv. by destruct (next_segment _) as [[seg segs]|]; intros [= <- <-].
  - by intros bs s r s' [= <- <-].
Qed.

#[export] Instance Pipe_open : OpenToSend Pipe.
Proof. split. intros bs s. eexists _, _. reflexivity. Qed.

(** A worker that is greeted, acknowledged and given four orders: one under another boot,
    one that fails between its allocations, and two that go well, but too late. *)
Definition sampleFrames : list Frame := frameOf (helloOf 1) :: replicate 6 (frameOf (okMessage 0)).
Definition sampleOrders : list Message :=
  [executeOf 1 4096 1 1000; executeOf 2 4096 1 999; executeOf 3 4096 1 1000; executeOf 4 8192 1 1000; plainMessage MessageType.SHUTDOWN 0 0 false].
Definition sampleResults : DeviceState * list Results := (fresh, [good; set_mallocOut false good]).
Definition sampleConnection : Pipe := {|
  Pipe.segments := segmented 40 7 (concat (wireFrame <$> sampleFrames) ++ wireMessages sampleOrders); Pipe.taken := [] |}.

Lemma cuda_worker_process_witness :
  exists d' s', workerMain (memoryDevice (2 ^ 33)) 1000 (2 ^ 33) "A" 1 12 sampleResults ∅ sampleConnection =
      Some (Exited 0, d', writeLog 1000 (2 ^ 33) (2 ^ 33 - 4096) false true false (writeLog 1000 (2 ^ 33) (2 ^ 33) true true true ∅), s') /\
    drop (length (wireMessages (cudaPublications 1000))) (outgoing s') =
      wireMessages [executionReport 1000 (executeOf 1 4096 1 1000) true; executionReport 1000 (executeOf 4 8192 1 1000) false].
Proof.
  assert (Hd : forall m, bool_decide (sendable m) = true -> Z.of_nat (length (frameOf m).(Frame.payload)) + 25 <=? kMaxFramePayload = true -> deliverable m).
  { intros m H1 H2. split; [by apply bool_decide_eq_true in H1|by apply Z.leb_le]. }
  destruct (cuda_worker_process (memoryDevice (2 ^ 33)) 1000 (2 ^ 33) "A" 1 12 (frameOf (helloOf 1)) (frameOf (okMessage 0))
    (replicate 5 (frameOf (okMessage 0))) sampleOrders sampleResults ∅ sampleConnection) as (s' & E & Ho).
  - repeat constructor; vm_compute; discriminate.
  - reflexivity.
  - lia.
  - reflexivity.
  - apply Hd; vm_compute; reflexivity.
  - unfold sampleOrders. repeat first [apply List.Forall_nil | apply Forall_cons_2]; apply Hd; vm_compute; reflexivity.
  - vm_compute. reflexivity.
  - eexists _, s'. rewrite E, Ho. split; [vm_compute; reflexivity|vm_compute; reflexivity].
Defined.
